(* ===== verification/_CoqProject ===== *)
-Q . S2P
Prelude.v
Config.v
Machine.v
Serial.v
PmpHw.v
Linker.v
Pmp.v
PmpAccess.v
PmpApi.v
Sync.v
Timer.v
Allocator.v
Registers.v
Policy.v
Task.v
Kernel.v
Scheduler.v
SchedulerProps.v
TaskSpec.v
Trap.v
Asm.v
Boot.v
System.v
Progress.v
Secrecy.v
Isolation.v
Preemption.v
UserTask.v
Scenario.v
Loops.v
Echo.v
Harness.v
HostTests.v
Widths.v
Placement.v
TrapPath.v
Resident.v
Guarded.v
Escalation.v
TrapStores.v
Integrity.v
