(* ===== verification/Prelude.v ===== *)
(** * CyptOS: a verification of the RISC-V microkernel

    CyptOS is a single-hart RV64 microkernel for the QEMU [virt] machine.  The
    kernel runs in machine mode; it protects itself and its tasks with the PMP,
    preempts the tasks on a timer tick and serves system calls.  This library
    is a shallow embedding of all of its Rust code and of its assembly, with the
    theorems that make it correct.  [src/...] paths below are relative to
    [src/crates/kernel/src] unless another crate is named.

    ** The parts and how they interact

    [_start] (boot assembly) clears [.bss] and enters [kmain], which initialises
    the console, the heap, the trap vector, the PMP and the timer, spawns three
    tasks ([TaskSpec::spawn]: stack from the heap, regions from a builder, slot in
    the table) and enables interrupts.  From then on everything happens in traps:
    [trap_vector] saves the registers in a frame, [trap_handler] dispatches on
    [mcause], the timer interrupt and a killed task go to the scheduler, which
    saves the interrupted context, asks the policy for the next task, loads the
    task's PMP regions and puts its context into the frame, and [trap_vector]
    returns into it.  The scheduler's table is only touched inside [IrqCell]
    critical sections.

    ** Files

    - [Prelude]: tactics, the rewriting base for bit operations, machine widths.
    - [Config]: [config.rs].
    - [Machine]: the monad [M S A] of stateful code that returns, panics or spins
      ([Res]), its weakest precondition [wp], arithmetic of both build profiles
      ([debug_build]: overflow panics or wraps), CSRs ([arch/csr.rs]), volatile
      accesses.  A device is an oracle [mmio_in] from the number of the read and
      the address to the value read; the accesses made are a [trace].
    - [Serial]: [serial.rs], [serial/uart16550.rs], [serial/usart_stm32.rs],
      [print.rs].  [Class SerialBackend] is the interface the kernel calls,
      [Class SerialLaws] its contract, discharged by the UART driver.
    - [PmpHw]: the PMP of the privileged architecture: locked registers, TOR and
      NAPOT matching, the access check.  [Pmp]: the driver [pmp.rs].  [PmpAccess]:
      what the driver's settings permit and refuse.  [PmpApi]: the driver's other
      public operations, on every branch.  [Integrity]: memory under the PMP, with
      stores of any code.  [Isolation]: what the PMP lets through in the states
      the running system reaches.
    - [Linker]: the symbols of [board/qemu-virt/linker.ld]; the section sizes are
      parameters ([Class Image]), constrained only by what the linker checks
      ([Class ImageOk]).
    - [Sync]: [sync/irq_cell.rs], [sync/atomic_counter.rs].  [Timer]: [timer.rs].
      [Allocator]: [allocator.rs], sequential and as interleaved steps.
    - [Registers]: [TrapFrame], [TaskContext], [arch/register.rs].  [Policy]:
      [sched/policy.rs].  [Task]: [sched/task.rs].  [Kernel]: the whole kernel
      state (hardware, allocator, task table, tick counter).  [Scheduler] and
      [SchedulerProps]: [sched/scheduler.rs].  [TaskSpec]: [sched/task/spec.rs].
    - [Trap]: the Rust part of [trap.rs].  [Asm]: [trap_vector] and
      [context_switch] as instruction lists over registers and byte memory.
    - [Boot]: [main.rs]; the last message is printed with interrupts enabled, so
      [kmain_saying] is [kmain] up to any part of it.  [System]: the kernel with
      the processor and its tasks, as a step relation: tasks change their own
      registers arbitrarily and trap, the trap runs [trap_handler].  [Progress]:
      which task is served when, along runs of it.  [Secrecy]: what the handler
      does with the registers of a task that is suspended.  [Preemption]: the
      timer kept alive, and runs of the system in clock time.  [UserTask]:
      [user_task.rs] as runs of it.  [Scenario]: the run from boot to the kill,
      over an abstract scheduler.  [Loops]: the programs that never return (idle,
      parked harts, the end of [kmain] and of the panic handler, the two user
      tasks) as interaction trees, run on the system.  [Echo]: the code of the
      echo task, with its state in the registers, sharing the system with the
      other tasks; the compiled instructions are a parameter ([Class EchoCode],
      [Class EchoCodeOk]).
    - [TrapPath]: the machine with memory, in which a trap goes through the
      assembly of [Asm]; it refines [System].  [Placement]: the kernel's statics
      in memory, as an interface ([Class Placement], [Class PlacementOk]) to what
      the compiler chooses, with an instance that uses a doubleword per field.
      [Resident]: the machine that has its kernel there; it refines [System] as
      long as tasks do not store on the statics.  [Guarded]: privilege, timer and
      response time of that machine, under two explicit conditions on the tasks.
      [Escalation]: what happens when
      they do, which the PMP permits.  [TrapStores]: the stores of the entry code
      against the PMP and on the statics.
    - [Widths]: the Rust types of all integers, as a class [Typed] of states and a
      calculus of the computations that keep them.
    - [Harness]: the runner of [crates/cyptos-test/src/lib.rs], over [Class
      Target] with the bare-metal target and the host as
      instances.  [HostTests]: the host unit tests, the copies of kernel code
      they test, and the attribute macro of [crates/cyptos-test-macros].

    A definition has the name of the code it translates; a [&mut T] argument is
    an argument and a result, a loop over a range is [for_each], a [while] loop a
    [Fixpoint].

    ** What is proved

    - The machine: boot it and let tasks store in ordinary memory beside the
      kernel's statics ([quiet]) and keep room for a trap frame there ([room]).
      Then in every state reached user tasks run in user mode and only idle in
      machine mode, the memory holds a well-formed kernel, interrupts are carried
      out, the timer stays armed and enabled and handlers are not re-entered, and
      a ready task is served within a bound in clock ticks ([Guarded]).
    - The system model behind it: a preempted task is resumed with the registers
      it had ([System]); a ready task is served within three timer interrupts
      ([Progress]); the handler passes the registers of a suspended task on to
      nobody ([Secrecy]).  The machine with assembly, memory and the kernel's
      data in that memory refines the model ([TrapPath], [Resident]), so what is
      proved of the model holds of the machine while tasks leave the statics
      alone.
    - Types: every integer stays within the type the sources give it, through
      boot and all traps ([Widths]).
    - The scheduler: [schedule] refines the policy's relational specification
      and keeps every task's logical context; its invariant holds over all
      sequences of operations, dead tasks stay dead ([Policy], [SchedulerProps]).
    - Traps: each cause has a defined outcome; system calls, ticks and access
      faults do what they should and nothing else ([Trap], [UserTask]); the
      assembly around the handler is exact ([Asm]), and the whole path from the
      interrupted instruction to the resumed one is the handler and changes no
      memory above the frame but the statics; which PMP settings let it through
      is exact too ([TrapPath]).
    - User tasks: the echo task echoes its input for ever, exactly and under any
      preemption ([Echo]), the violation task is
      killed and never runs again ([UserTask], [Loops]), in the order the boot
      sequence fixes ([Scenario]); which loop each hart waits in, that it stays
      there, and that hart 0 never comes back to the bootstrap code ([Loops]).
    - Protection: the NAPOT encoder is exact, also its copy in the host tests;
      after loading a task each access is decided as by a list of address zones;
      what is refused to user mode, what is kept for machine mode, and that
      kernel data is open to user mode; the locked entries survive
      ([PmpAccess]); no store changes the text ([Integrity]); in every reachable
      state the accesses of both modes are exactly determined ([Isolation]); two
      consequences of the settings and of the trap frame on the user's stack: a
      user task can forge the context of another one in memory and have any code
      run in machine mode ([Escalation]), and it can have its registers stored
      where it may not store, and over those of another task ([TrapStores]); which requests [configure_region] takes, and when it
      reports success without effect ([PmpApi]).
    - Memory: allocation is correct on every branch, blocks are disjoint, also
      when contexts interleave inside [alloc] ([Allocator]); spawning gives each task
      a fresh stack and valid regions ([TaskSpec]); boot from reset succeeds for
      every linkable image ([Boot]).
    - Output: numerals read back as the number printed, bytes are sent only to an
      empty transmit register, the harness reports the right verdict, the host
      tests pass and speak of the kernel ([Serial], [Harness], [HostTests]).

    ** Bounds and fuel

    Integers are [Z] with their width written out where an operation can leave
    it.  [spin_fuel] bounds polling loops; a loop that exceeds it is [Spin], and
    [UartLive] says the transmitter empties within it, so theorems of success are
    not vacuous.  Digit loops have one unit of fuel more than their buffer has
    bytes and are proved to end before.  The allocator's retry loop needs one
    round when nothing interferes (the atomic steps are the ones interleaved in
    the concurrent model).  [clear_bss] has as much fuel as there are bytes to
    clear.  [ClockOk] says that [mtime] stays an interval below its end.

    ** What is not modelled

    - Timing other than the time steps take ([Preemption]), caches, the float
      state and the instructions of user tasks other than the two embedded
      tasks: in [System] and [TrapPath] a task is an arbitrary change of its
      registers, in [TrapPath] also of memory where the PMP permits, and an
      arbitrary sequence of traps.
    - In [System], accesses of tasks to memory and devices.  A step of a task
      there neither loads nor stores kernel data or the UART, although the PMP
      settings let it ([Isolation]), and the stores of the trap frame are dropped.
      The theorems stated for [System] are about tasks that leave these alone;
      [Resident] and [Guarded] say under which conditions they hold of the machine
      with memory, [Escalation] and [TrapStores] what happens without them, and
      [text_integrity] does not depend on them.  That a task may load the saved
      registers of another one is not excluded by anything here.
    - Kernel data that is no value of its type.  In [Resident] a trap needs
      statics that can be read ([read_statics]); after stores that leave, say, an
      invalid discriminant the behaviour is undefined and has no step, and so has
      a trap whose frame overlaps the statics (what its entry code leaves there is
      in [TrapStores]).
    - A trap frame that the PMP refuses.  [exec1] runs the assembly without the
      PMP and [exec_checked] with it; [trap_path] uses the former, so the frame is
      assumed to lie in memory that machine mode may access, which
      [trap_path_exact] and [privilege_preserved] relate to the PMP settings.  The
      nested fault of a frame on the locked text is not followed.
    - WARL behaviour of the CSRs: the low bits of [mepc] and the reserved values of
      MPP are kept as written, and an MPP of 1 or 2 counts as user mode; the
      kernel writes neither.
    - In the part of [kmain] that runs with interrupts enabled, the polls of the
      transmitter for a byte that is not yet sent.
    - The compiled code of the Rust functions: addresses and sizes of the image
      and the layout of the statics are parameters, and the handler is assumed to
      keep the registers its calling convention says it keeps and to store, above
      its frame, only on the statics ([handler_call]).  The code of the echo task
      is assumed to keep its state in registers ([EchoCodeOk]).
    - The unused macro [write_pmpaddr!] and build files. *)

From Stdlib Require Export ZArith Lia Bool.
From stdpp Require Export prelude strings.

Local Open Scope Z_scope.

(** ** Tactics *)

(** Split the conjunctions of the goal and close what is immediate. *)
Ltac split_all := repeat match goal with |- _ ∧ _ => split end; try done.

(** Case analysis on the boolean comparisons of the goal. *)
Ltac case_bool :=
  match goal with
  | |- context [?a =? ?b] => destruct (Z.eqb_spec a b)
  | |- context [?a <? ?b] => destruct (Z.ltb_spec a b)
  | |- context [?a <=? ?b] => destruct (Z.leb_spec a b)
  end.

(** Decide a closed proposition by running its decision procedure. *)
Ltac by_evaluation := apply (bool_decide_unpack _); vm_compute; exact I.

(** Bitwise extensionality: two integers are equal when their bits are. *)
Ltac bits i Hi := apply Z.bits_inj'; intros i Hi.

(** Rewriting of [Z.testbit] through the bit operations the sources use. *)
Create HintDb zbits.
#[export] Hint Rewrite Z.land_spec Z.lor_spec Z.lxor_spec Z.testbit_0_l : zbits.
#[export] Hint Rewrite Z.shiftr_spec Z.shiftl_spec Z.lnot_spec
  Z.testbit_ones_nonneg using lia : zbits.

(** ** Machine words *)

Definition u64_max : Z := 2 ^ 64 - 1.

(** [v] is representable in [w] bits, unsigned. *)
Definition in_width (w v : Z) : Prop := 0 ≤ v < 2 ^ w.

Abbreviation u64 := (in_width 64).
Abbreviation u8 := (in_width 8).

(** Rust's [u64::is_power_of_two]: exactly one bit is set. *)
Definition is_power_of_two (n : Z) : bool := (0 <? n) && (2 ^ Z.log2 n =? n).

Lemma is_power_of_two_spec n :
  is_power_of_two n = true ↔ ∃ k, 0 ≤ k ∧ n = 2 ^ k.
Proof.
  unfold is_power_of_two. rewrite andb_true_iff, Z.ltb_lt, Z.eqb_eq. split.
  - intros [Hn Hp]. exists (Z.log2 n). split; [apply Z.log2_nonneg | done].
  - intros (k & Hk & ->). rewrite Z.log2_pow2 by done.
    split; [apply Z.pow_pos_nonneg; lia | done].
Qed.

(** Widths are closed under the bit operations of the sources. *)
Section widths.
Context (w : Z) (Hw : 0 ≤ w).

Lemma in_width_bits v : in_width w v ↔ 0 ≤ v ∧ ∀ i, w ≤ i → Z.testbit v i = false.
Proof.
  unfold in_width. split; intros [H0 H]; (split; [done|]);
    [by apply Z.bounded_iff_bits_nonneg|by apply Z.bounded_iff_bits_nonneg].
Qed.

Lemma in_width_lor a b : in_width w a → in_width w b → in_width w (Z.lor a b).
Proof.
  rewrite !in_width_bits. intros [? Ha] [? Hb]. split; [by apply Z.lor_nonneg|].
  intros i Hi. by rewrite Z.lor_spec, Ha, Hb.
Qed.

Lemma in_width_land a b : in_width w a → 0 ≤ b → in_width w (Z.land a b).
Proof.
  rewrite !in_width_bits. intros [? Ha] ?. split; [apply Z.land_nonneg; by left|].
  intros i Hi. by rewrite Z.land_spec, Ha.
Qed.

Lemma in_width_ldiff a b : in_width w a → in_width w (Z.ldiff a b).
Proof.
  rewrite !in_width_bits. intros [? Ha]. split; [apply Z.ldiff_nonneg; by left|].
  intros i Hi. by rewrite Z.ldiff_spec, Ha.
Qed.

Lemma in_width_shiftr a n : 0 ≤ n → in_width w a → in_width w (Z.shiftr a n).
Proof.
  rewrite !in_width_bits. intros ? [? Ha]. split; [by apply Z.shiftr_nonneg|].
  intros i Hi. rewrite Z.shiftr_spec by lia. apply Ha. lia.
Qed.

Lemma in_width_mod v : in_width w (v mod 2 ^ w).
Proof. apply Z.mod_pos_bound. by apply Z.pow_pos_nonneg. Qed.
End widths.

Lemma in_width_shiftl w v n : 0 ≤ w → 0 ≤ n → in_width w v → in_width (w + n) (Z.shiftl v n).
Proof.
  intros Hw Hn [H0 H]. rewrite Z.shiftl_mul_pow2 by done. split; [lia|].
  rewrite Z.pow_add_r by done. nia.
Qed.

Lemma in_width_mono w w' v : 0 ≤ w ≤ w' → in_width w v → in_width w' v.
Proof. intros Hw [H0 H]. split; [done|]. pose proof (Z.pow_le_mono_r 2 w w'). lia. Qed.

Lemma in_width_land_r w a b : 0 ≤ w → 0 ≤ a → in_width w b → in_width w (Z.land a b).
Proof. intros. rewrite Z.land_comm. by apply in_width_land. Qed.
