(* ===== verification/Config.v ===== *)
(** Kernel and board constants.

    The constants of [crates/kernel/src/config.rs], at their source names.  The
    two [const _: () = assert!(...)] items of the file are compile-time checks:
    they are the boolean definitions [assert_stack_size] and
    [assert_stack_align], and they evaluate to [true]. *)

From S2P Require Import Prelude.

Local Open Scope Z_scope.

(** ** MMIO bases and CLINT offsets *)

Definition UART_BASE : Z := 0x10000000.
Definition CLINT_BASE : Z := 0x02000000.
Definition MTIME_OFFSET : Z := 0xBFF8.
Definition MTIMECMP_OFFSET : Z := 0x4000.

(** ** Timer *)

Definition TIMER_FREQ_HZ : Z := 10000000.
Definition TICK_INTERVAL_US : Z := 10000.

(** ** Scheduler and task stacks *)

Definition MAX_TASKS : nat := 4.
Definition TASK_STACK_SIZE : Z := 8192.
Definition TASK_STACK_ALIGN : Z := 8192.

Definition assert_stack_size : bool :=
  (8 <=? TASK_STACK_SIZE) && is_power_of_two TASK_STACK_SIZE.

Definition assert_stack_align : bool :=
  is_power_of_two TASK_STACK_ALIGN && (TASK_STACK_SIZE <=? TASK_STACK_ALIGN).

(** ** PMP and system calls *)

Definition PMP_COUNT : nat := 16.

Definition SYS_GETC : Z := 0.
Definition SYS_PUTC : Z := 1.
Definition SYS_LEGACY_POC : Z := 42.

(** Both compile-time assertions of the file hold. *)
Lemma config_asserts_hold : assert_stack_size = true ∧ assert_stack_align = true.
Proof. split; reflexivity. Qed.
