(* ===== verification/Machine.v ===== *)
(** The machine under the kernel: outcomes, the kernel monad, CSRs and MMIO.

    Rust code of the kernel is translated into the monad [M S], a state monad
    over a state [S] whose computations end in one of three ways ([Res]): a
    value, a Rust panic, or a busy-wait loop that did not end within the polling
    budget.  The hardware the code talks to through [asm!] and
    [read_volatile]/[write_volatile] is the record [Hw]: the control and status
    registers of [arch/csr.rs], the PMP registers of [pmp.rs], and the sequence
    of MMIO accesses performed so far.

    What lies outside the program is the class [Env]: the value that the n-th
    volatile read returns, the polling budget, and whether the build checks
    arithmetic overflow ([cargo build], profile dev) or wraps
    ([cargo build --release]). *)

From S2P Require Import Prelude Config.

Local Open Scope Z_scope.

(** ** The environment of a run *)

Class Env := {
  (** value on the bus for the n-th volatile read, at the address read *)
  mmio_in : nat → Z → Z;
  (** polls a busy-wait loop may make before the run is given up *)
  spin_fuel : nat;
  (** dev profile: overflow checks and [debug_assert!] are on *)
  debug_build : bool;
}.

(** ** Outcomes and the kernel monad *)

Inductive Res (S A : Type) : Type :=
| Ok (a : A) (s : S)
| Panic (msg : string) (s : S)
| Spin (s : S).
Arguments Ok {S A} a s.
Arguments Panic {S A} msg s.
Arguments Spin {S A} s.

Definition M (S A : Type) : Type := S → Res S A.

#[export] Instance M_ret S : MRet (M S) := λ A a s, Ok a s.

#[export] Instance M_bind S : MBind (M S) := λ A B k m s,
  match m s with
  | Ok a s' => k a s'
  | Panic e s' => Panic e s'
  | Spin s' => Spin s'
  end.

Definition panic {S A} (msg : string) : M S A := λ s, Panic msg s.
Definition spin {S A} : M S A := λ s, Spin s.
Definition get {S} : M S S := λ s, Ok s s.
Definition put {S} (s' : S) : M S unit := λ _, Ok tt s'.
Definition gets {S A} (f : S → A) : M S A := λ s, Ok (f s) s.
Definition modify {S} (f : S → S) : M S unit := λ s, Ok tt (f s).

(** Rust's [assert!]. *)
Definition rassert {S} (b : bool) (msg : string) : M S unit :=
  if b then mret tt else panic msg.

(** A [for] loop over the indices [l], threading the loop variables [acc]. *)
Fixpoint for_each {S A B} (l : list B) (acc : A) (body : A → B → M S A) : M S A :=
  match l with
  | [] => mret acc
  | x :: l' => acc' ← body acc x; for_each l' acc' body
  end.

(** ** Total-correctness weakest preconditions *)

(** [wp m Q s]: started in [s], [m] returns, and its value and final state are
    in [Q].  A panic or an exhausted busy-wait does not satisfy it. *)
Definition wp {S A} (m : M S A) (Q : A → S → Prop) (s : S) : Prop :=
  match m s with Ok a s' => Q a s' | _ => False end.

Section wp.
Context {S : Type}.

Lemma wp_elim {A} (m : M S A) Q s :
  wp m Q s → ∃ a s', m s = Ok a s' ∧ Q a s'.
Proof. unfold wp. destruct (m s); naive_solver. Qed.

Lemma wp_intro {A} (m : M S A) (Q : A → S → Prop) s a s' :
  m s = Ok a s' → Q a s' → wp m Q s.
Proof. unfold wp. by intros ->. Qed.

Lemma wp_mret {A} (a : A) (Q : A → S → Prop) s : Q a s → wp (mret a) Q s.
Proof. done. Qed.

Lemma wp_bind {A B} (m : M S A) (k : A → M S B) Q s :
  wp m (λ a s', wp (k a) Q s') s → wp (m ≫= k) Q s.
Proof. unfold wp, mbind, M_bind. by destruct (m s). Qed.

Lemma wp_mono {A} (m : M S A) (P Q : A → S → Prop) s :
  wp m P s → (∀ a s', P a s' → Q a s') → wp m Q s.
Proof. unfold wp. destruct (m s); naive_solver. Qed.

Lemma wp_gets {A} (f : S → A) (Q : A → S → Prop) s :
  Q (f s) s → wp (gets f) Q s.
Proof. done. Qed.

Lemma wp_modify (f : S → S) (Q : unit → S → Prop) s :
  Q tt (f s) → wp (modify f) Q s.
Proof. done. Qed.

Lemma wp_rassert b msg (Q : unit → S → Prop) s :
  b = true → Q tt s → wp (rassert b msg) Q s.
Proof. by intros ->. Qed.

(** The loop rule: an invariant over the indices already visited. *)
Lemma wp_for_each {A B} (body : A → B → M S A) (I : list B → A → S → Prop) l acc s Q :
  I [] acc s →
  (∀ done x rest acc s, l = done ++ x :: rest → I done acc s →
     wp (body acc x) (I (done ++ [x])) s) →
  (∀ acc s, I l acc s → Q acc s) →
  wp (for_each l acc body) Q s.
Proof.
  intros H0 Hstep HQ.
  cut (∀ rest dn acc s, l = dn ++ rest → I dn acc s → wp (for_each rest acc body) Q s).
  { intros H. by apply (H l []). }
  induction rest as [|x rest IH]; intros dn acc' s' Hl HI; simpl.
  - apply wp_mret, HQ. by rewrite Hl, app_nil_r.
  - apply wp_bind. eapply wp_mono; [by eapply Hstep|].
    intros acc'' s'' HI'. apply (IH (dn ++ [x])); [|done].
    by rewrite <- app_assoc.
Qed.

Lemma mret_bind {A B} (a : A) (k : A → M S B) : mret a ≫= k = k a.
Proof. done. Qed.

Lemma bind_Ok {A B} (m : M S A) (k : A → M S B) s a s' :
  m s = Ok a s' → (m ≫= k) s = k a s'.
Proof. unfold mbind, M_bind. by intros ->. Qed.

Lemma bind_Panic {A B} (m : M S A) (k : A → M S B) s e s' :
  m s = Panic e s' → (m ≫= k) s = Panic e s'.
Proof. unfold mbind, M_bind. by intros ->. Qed.
End wp.

(** One symbolic step of a computation under [wp]. *)
Ltac wp_step :=
  lazymatch goal with
  | |- wp (mbind _ _) _ _ => apply wp_bind
  | |- wp (mret _) _ _ => apply wp_mret
  | |- wp (gets _) _ _ => apply wp_gets
  | |- wp (modify _) _ _ => apply wp_modify
  | |- wp (rassert _ _) _ _ => apply wp_rassert
  end.

(** ** Rust arithmetic on [w]-bit unsigned integers *)

Section arith.
Context `{E : Env} {S : Type}.

(** Result [v] of an operation on [w]-bit operands: itself when it fits;
    otherwise a panic with overflow checks and the wrapped value without. *)
Definition checked (w : Z) (op : string) (v : Z) : M S Z :=
  if (0 <=? v) && (v <? 2 ^ w) then mret v
  else if debug_build then panic ("attempt to " +:+ op +:+ " with overflow")
  else mret (v mod 2 ^ w).

Definition add_u64 (a b : Z) : M S Z := checked 64 "add" (a + b).
Definition sub_u64 (a b : Z) : M S Z := checked 64 "subtract" (a - b).
Definition mul_u64 (a b : Z) : M S Z := checked 64 "multiply" (a * b).

Definition debug_assert (b : bool) (msg : string) : M S unit :=
  if debug_build then rassert b msg else mret tt.

Lemma checked_ok w op v : in_width w v → checked w op v = (mret v : M S Z).
Proof.
  intros [Hlo Hhi]. unfold checked.
  rewrite (proj2 (Z.leb_le _ _) Hlo), (proj2 (Z.ltb_lt _ _) Hhi). done.
Qed.

Lemma debug_assert_ok b msg : b = true → debug_assert b msg = (mret tt : M S unit).
Proof. intros ->. unfold debug_assert, rassert. by destruct debug_build. Qed.
End arith.

(** ** Control and status registers (arch/csr.rs) *)

Inductive csr := Mstatus | Mie | Mepc | Mcause | Mtval | Mtvec | Mscratch.

#[export] Instance csr_eq_dec : EqDecision csr.
Proof. solve_decision. Defined.

Record CsrFile := mkCsrFile {
  r_mstatus : Z; r_mie : Z; r_mepc : Z; r_mcause : Z;
  r_mtval : Z; r_mtvec : Z; r_mscratch : Z;
}.

Definition csr_get (c : csr) (f : CsrFile) : Z :=
  match c with
  | Mstatus => r_mstatus f | Mie => r_mie f | Mepc => r_mepc f
  | Mcause => r_mcause f | Mtval => r_mtval f | Mtvec => r_mtvec f
  | Mscratch => r_mscratch f
  end.

Definition csr_put (c : csr) (v : Z) (f : CsrFile) : CsrFile :=
  let 'mkCsrFile a b c' d e g h := f in
  match c with
  | Mstatus => mkCsrFile v b c' d e g h
  | Mie => mkCsrFile a v c' d e g h
  | Mepc => mkCsrFile a b v d e g h
  | Mcause => mkCsrFile a b c' v e g h
  | Mtval => mkCsrFile a b c' d v g h
  | Mtvec => mkCsrFile a b c' d e v h
  | Mscratch => mkCsrFile a b c' d e g v
  end.

Lemma csr_get_put_eq c v f : csr_get c (csr_put c v f) = v.
Proof. by destruct c, f. Qed.

Lemma csr_get_put_ne c c' v f : c ≠ c' → csr_get c (csr_put c' v f) = csr_get c f.
Proof. by destruct c, c', f. Qed.

Lemma csr_put_put c v v' f : csr_put c v (csr_put c v' f) = csr_put c v f.
Proof. by destruct c, f. Qed.

Lemma csr_put_get c f : csr_put c (csr_get c f) f = f.
Proof. by destruct c, f. Qed.

Lemma csr_file_ext f g : (∀ c, csr_get c f = csr_get c g) → f = g.
Proof.
  intros H. destruct f, g.
  generalize (H Mstatus) (H Mie) (H Mepc) (H Mcause) (H Mtval) (H Mtvec) (H Mscratch).
  simpl. by intros -> -> -> -> -> -> ->.
Qed.

(** ** PMP registers *)

(** The sixteen configuration bytes and the sixteen address registers. *)
Record PmpRegs := mkPmpRegs { pmpcfg : list Z; pmpaddr : list Z }.

(** ** MMIO accesses *)

(** Volatile accesses with their width, address and value. *)
Inductive mmio_event :=
| Rd8 (addr v : Z) | Wr8 (addr v : Z) | Wr32 (addr v : Z) | Rd64 (addr v : Z) | Wr64 (addr v : Z).

(** ** The hardware state *)

Record Hw := mkHw {
  csrs : CsrFile;
  pmp : PmpRegs;
  (** volatile reads made so far: the index of the next input *)
  nreads : nat;
  (** accesses made so far, most recent first *)
  trace : list mmio_event;
}.

Definition hw_set_csrs (f : CsrFile) (h : Hw) : Hw := mkHw f (pmp h) (nreads h) (trace h).
Definition hw_set_pmp (p : PmpRegs) (h : Hw) : Hw := mkHw (csrs h) p (nreads h) (trace h).

(** Kernel states that contain the hardware: what [asm!] may touch. *)
Class HasHw (S : Type) := {
  hw_of : S → Hw;
  hw_upd : Hw → S → S;
  hw_of_upd : ∀ h s, hw_of (hw_upd h s) = h;
  hw_upd_of : ∀ s, hw_upd (hw_of s) s = s;
  hw_upd_upd : ∀ h h' s, hw_upd h (hw_upd h' s) = hw_upd h s;
}.

#[export] Instance Hw_HasHw : HasHw Hw := {
  hw_of := λ h, h; hw_upd := λ h _, h;
  hw_of_upd := λ _ _, eq_refl; hw_upd_of := λ _, eq_refl;
  hw_upd_upd := λ _ _ _, eq_refl;
}.

(** Run a hardware computation inside a larger kernel state. *)
Definition lift `{HasHw W} {A} (m : M Hw A) : M W A := λ s,
  match m (hw_of s) with
  | Ok a h => Ok a (hw_upd h s)
  | Panic e h => Panic e (hw_upd h s)
  | Spin h => Spin (hw_upd h s)
  end.

Lemma wp_lift `{HasHw W} {A} (m : M Hw A) (Q : A → W → Prop) s :
  wp m (λ a h, Q a (hw_upd h s)) (hw_of s) → wp (lift m) Q s.
Proof. unfold wp, lift. by destruct (m (hw_of s)). Qed.

(** The four CSR macros of [arch/csr.rs]. *)
Definition csr_read (c : csr) : M Hw Z := gets (λ h, csr_get c (csrs h)).

Definition csr_write (c : csr) (v : Z) : M Hw unit :=
  modify (λ h, hw_set_csrs (csr_put c v (csrs h)) h).

Definition csr_set_bits (c : csr) (bits : Z) : M Hw unit :=
  modify (λ h, hw_set_csrs (csr_put c (Z.lor (csr_get c (csrs h)) bits) (csrs h)) h).

Definition csr_clear_bits (c : csr) (bits : Z) : M Hw unit :=
  modify (λ h, hw_set_csrs (csr_put c (Z.ldiff (csr_get c (csrs h)) bits) (csrs h)) h).

(** The typed wrappers of [arch/csr.rs], one module per register. *)
Module mstatus.
Definition MIE : Z := Z.shiftl 1 3.
Definition read : M Hw Z := csr_read Mstatus.
Definition write (v : Z) : M Hw unit := csr_write Mstatus v.
Definition set_bits (bits : Z) : M Hw unit := csr_set_bits Mstatus bits.
Definition clear_bits (bits : Z) : M Hw unit := csr_clear_bits Mstatus bits.
Definition read_mpp : M Hw Z := v ← read; mret (Z.land (Z.shiftr v 11) 3).
End mstatus.

Module mcause.
Definition read : M Hw Z := csr_read Mcause.
End mcause.

Module mepc.
Definition read : M Hw Z := csr_read Mepc.
Definition write (v : Z) : M Hw unit := csr_write Mepc v.
End mepc.

Module mtval.
Definition read : M Hw Z := csr_read Mtval.
End mtval.

Module mtvec.
Definition write (v : Z) : M Hw unit := csr_write Mtvec v.
End mtvec.

Module mie.
Definition MTIE : Z := Z.shiftl 1 7.
Definition enable_timer : M Hw unit := csr_set_bits Mie MTIE.
Definition disable_timer : M Hw unit := csr_clear_bits Mie MTIE.
End mie.

(** ** Volatile accesses *)

Section mmio.
Context `{E : Env}.

Definition mmio_read (w : Z) (ev : Z → mmio_event) (addr : Z) : M Hw Z := λ h,
  let v := mmio_in (nreads h) addr mod 2 ^ w in
  Ok v (mkHw (csrs h) (pmp h) (S (nreads h)) (ev v :: trace h)).

Definition mmio_write (ev : mmio_event) : M Hw unit :=
  modify (λ h, mkHw (csrs h) (pmp h) (nreads h) (ev :: trace h)).

Definition read_volatile_u8 (addr : Z) : M Hw Z := mmio_read 8 (Rd8 addr) addr.
Definition read_volatile_u64 (addr : Z) : M Hw Z := mmio_read 64 (Rd64 addr) addr.
Definition write_volatile_u8 (addr v : Z) : M Hw unit := mmio_write (Wr8 addr v).
Definition write_volatile_u32 (addr v : Z) : M Hw unit := mmio_write (Wr32 addr v).
Definition write_volatile_u64 (addr v : Z) : M Hw unit := mmio_write (Wr64 addr v).
End mmio.
