(* ===== verification/Serial.v ===== *)
(** The serial console: [serial.rs], [serial/uart16550.rs],
    [serial/usart_stm32.rs] and [print.rs].

    [Module uart16550] translates the NS16550A driver, [Module usart_stm32] the
    unimplemented STM32 backend, and [Class SerialBackend] is the interface the
    rest of the kernel uses ([crate::serial::...] with the backend chosen by a
    Cargo feature).  [Class SerialLaws] states what a backend promises: each
    output function returns, adds exactly its bytes to the console and touches
    nothing else of the machine.  The UART driver satisfies it
    ([uart16550_laws]) on a device whose transmitter drains ([UartLive]). *)

From S2P Require Import Prelude Config Machine.

Local Open Scope Z_scope.

(** ** Strings and formatting *)

Definition bytes_of_string (s : string) : list Z :=
  (λ a, Z.of_N (Ascii.N_of_ascii a)) <$> String.list_ascii_of_string s.

Definition nl : string := String (Ascii.ascii_of_nat 10) "".

(** Digits of [n] in base [b], least significant first. *)
Fixpoint digits_rev (b : Z) (fuel : nat) (n : Z) : list Z :=
  match fuel with
  | O => []
  | S f => if n <=? 0 then [] else n mod b :: digits_rev b f (n / b)
  end.

Definition hex_char (d : Z) : Z := if d <? 10 then 48 + d else 97 + d - 10.

(** [core::fmt]: [{}] of an unsigned integer, and the digits of [{:#x}]. *)
Definition dec_bytes (n : Z) : list Z :=
  if n =? 0 then [48] else (λ d, 48 + d) <$> rev (digits_rev 10 20 n).

Definition hex_bytes (n : Z) : list Z :=
  if n =? 0 then [48] else hex_char <$> rev (digits_rev 16 16 n).

(** The pieces of a [format_args!]: literal text, [{}] of an integer or a
    string, and [{:#x}] of an integer. *)
Inductive fmt_piece :=
| Lit (s : string) | Dec (n : Z) | Hex (n : Z).

Definition render (p : fmt_piece) : list Z :=
  match p with
  | Lit s => bytes_of_string s
  | Dec n => dec_bytes n
  | Hex n => bytes_of_string "0x" ++ hex_bytes n
  end.

Definition render_all (ps : list fmt_piece) : list Z := mjoin (render <$> ps).

(** What [puts] sends for a string: every [\n] becomes [\r\n]. *)
Definition crlf (l : list Z) : list Z :=
  mjoin ((λ c, if c =? 10 then [13; 10] else [c]) <$> l).

(** ** What the console observes on the bus *)

Definition ev_addr (e : mmio_event) : Z :=
  match e with Rd8 a _ | Wr8 a _ | Wr32 a _ | Rd64 a _ | Wr64 a _ => a end.

(** The UART occupies eight byte registers. *)
Definition is_uart (e : mmio_event) : bool :=
  (UART_BASE <=? ev_addr e) && (ev_addr e <? UART_BASE + 8).

(** The accesses to other devices. *)
Definition off_uart (t : list mmio_event) : list mmio_event :=
  filter (λ e, is_uart e = false) t.

(** The accesses to the UART. *)
Definition on_uart (t : list mmio_event) : list mmio_event :=
  filter (λ e, is_uart e = true) t.

(** ** The NS16550A driver *)

Module uart16550.

Definition THR : Z := 0x00.
Definition RBR : Z := 0x00.
Definition IER : Z := 0x01.
Definition FCR : Z := 0x02.
Definition LCR : Z := 0x03.
Definition LSR : Z := 0x05.
Definition LSR_TX_EMPTY : Z := Z.shiftl 1 5.
Definition LSR_RX_READY : Z := Z.shiftl 1 0.
Definition LCR_8BIT : Z := 3.
Definition LCR_DLAB : Z := Z.shiftl 1 7.

Section driver.
Context `{E : Env}.

Definition init : M Hw unit :=
  write_volatile_u8 (UART_BASE + IER) 0x00;;
  write_volatile_u8 (UART_BASE + LCR) LCR_DLAB;;
  write_volatile_u8 (UART_BASE + 0) 0x01;;
  write_volatile_u8 (UART_BASE + 1) 0x00;;
  write_volatile_u8 (UART_BASE + LCR) LCR_8BIT;;
  write_volatile_u8 (UART_BASE + FCR) 0x07.

(** [while (read_volatile(base.add(LSR)) & mask) == 0 {}]. *)
Fixpoint wait_lsr (fuel : nat) (mask : Z) : M Hw unit :=
  match fuel with
  | O => spin
  | S f =>
    v ← read_volatile_u8 (UART_BASE + LSR);
    if Z.land v mask =? 0 then wait_lsr f mask else mret tt
  end.

Definition putc (c : Z) : M Hw unit :=
  wait_lsr spin_fuel LSR_TX_EMPTY;;
  write_volatile_u8 (UART_BASE + THR) c.

Fixpoint puts (s : list Z) : M Hw unit :=
  match s with
  | [] => mret tt
  | c :: s' => (if c =? 10 then putc 13 else mret tt);; putc c;; puts s'
  end.

(** [while n > 0 { buf[idx] = digit(n); n = next(n); idx += 1 }], the store
    bounds-checked against the length of [buf].  The bound on [idx] is reached
    before the iteration count is. *)
Fixpoint fill {St} (fuel : nat) (digit next : Z → Z) (n : Z) (buf : list Z)
    (idx : nat) : M St (list Z * nat) :=
  match fuel with
  | O => spin
  | S f =>
    if 0 <? n then
      if (idx <? length buf)%nat then
        fill f digit next (next n) (<[idx := digit n]> buf) (S idx)
      else panic "index out of bounds"
    else mret (buf, idx)
  end.

(** [while idx > 0 { idx -= 1; putc(buf[idx]) }]. *)
Fixpoint drain (buf : list Z) (idx : nat) : M Hw unit :=
  match idx with
  | O => mret tt
  | S i =>
    match buf !! i with
    | Some c => putc c;; drain buf i
    | None => panic "index out of bounds"
    end
  end.

Definition put_dec (n : Z) : M Hw unit :=
  if n =? 0 then putc 48 else
  '(buf, idx) ← fill 21 (λ n, 48 + n mod 10) (λ n, n / 10) n (replicate 20 0) 0;
  drain buf idx.

Definition put_hex (n : Z) : M Hw unit :=
  puts (bytes_of_string "0x");;
  if n =? 0 then putc 48 else
  '(buf, idx) ← fill 17 (λ n, hex_char (Z.land n 0xF)) (λ n, Z.shiftr n 4) n (replicate 16 0) 0;
  drain buf idx.

Definition getc : M Hw Z :=
  wait_lsr spin_fuel LSR_RX_READY;;
  read_volatile_u8 (UART_BASE + RBR).

Definition try_getc : M Hw (option Z) :=
  v ← read_volatile_u8 (UART_BASE + LSR);
  if Z.land v LSR_RX_READY =? 0 then mret None
  else c ← read_volatile_u8 (UART_BASE + RBR); mret (Some c).
End driver.

(** The byte the receiver offers at [h]: the status register reads as ready, and
    the data register is read next. *)
Definition rx `{E : Env} (h : Hw) : option Z :=
  if Z.land (mmio_in (nreads h) (UART_BASE + LSR) mod 2 ^ 8) LSR_RX_READY =? 0 then None
  else Some (mmio_in (S (nreads h)) (UART_BASE + RBR) mod 2 ^ 8).

(** The divisor-latch bit after the accesses [t] (most recent first). *)
Fixpoint dlab (t : list mmio_event) : bool :=
  match t with
  | [] => false
  | Wr8 a v :: t' => if a =? UART_BASE + LCR then Z.testbit v 7 else dlab t'
  | _ :: t' => dlab t'
  end.

(** The bytes transmitted: writes to THR made while DLAB is clear. *)
Fixpoint tx (t : list mmio_event) : list Z :=
  match t with
  | [] => []
  | Wr8 a v :: t' =>
    if (a =? UART_BASE + THR) && negb (dlab t') then tx t' ++ [v] else tx t'
  | _ :: t' => tx t'
  end.

End uart16550.

(** ** The STM32 backend: every operation is [unimplemented!] *)

Module usart_stm32.
Definition unimplemented {A} : M Hw A :=
  panic "not implemented: USART backend not implemented yet".
Definition init : M Hw unit := unimplemented.
Definition putc (c : Z) : M Hw unit := unimplemented.
Definition puts (s : list Z) : M Hw unit := unimplemented.
Definition put_dec (n : Z) : M Hw unit := unimplemented.
Definition put_hex (n : Z) : M Hw unit := unimplemented.
Definition getc : M Hw Z := unimplemented.
End usart_stm32.

(** ** The interface of the active backend (serial.rs) *)

Class SerialBackend := {
  s_init : M Hw unit;
  s_putc : Z → M Hw unit;
  s_puts : list Z → M Hw unit;
  s_put_dec : Z → M Hw unit;
  s_put_hex : Z → M Hw unit;
  s_getc : M Hw Z;
  s_try_getc : M Hw (option Z);
  (** observation: the driver is initialised, the bytes sent so far, and the byte
      the receiver offers *)
  s_ready : Hw → Prop;
  s_out : Hw → list Z;
  s_rx : Hw → option Z;
}.

#[export] Instance uart16550_backend `{E : Env} : SerialBackend := {
  s_init := uart16550.init; s_putc := uart16550.putc; s_puts := uart16550.puts;
  s_put_dec := uart16550.put_dec; s_put_hex := uart16550.put_hex;
  s_getc := uart16550.getc; s_try_getc := uart16550.try_getc;
  s_ready := λ h, uart16550.dlab (trace h) = false;
  s_out := λ h, uart16550.tx (trace h);
  s_rx := uart16550.rx;
}.

Section serial.
Context `{E : Env} `{B : SerialBackend}.

(** [impl fmt::Write for SerialWriter]: [true] is [Ok(())]. *)
Definition write_str (s : list Z) : M Hw bool := s_puts s;; mret true.

(** [fmt::write]: the pieces in order, stopping at the first error. *)
Fixpoint fmt_write (ps : list fmt_piece) : M Hw bool :=
  match ps with
  | [] => mret true
  | p :: ps' => ok ← write_str (render p); if (ok : bool) then fmt_write ps' else mret false
  end.

Definition write_fmt (ps : list fmt_piece) : M Hw unit :=
  ok ← fmt_write ps;
  if (ok : bool) then mret tt
  else panic "internal error: entered unreachable code: serial writer cannot fail".

(** [print!] and [println!]. *)
Definition print (ps : list fmt_piece) : M Hw unit := write_fmt ps.
Definition println (ps : list fmt_piece) : M Hw unit := print (ps ++ [Lit nl]).

(** [h'] is [h] after the console sent [out]: nothing else has changed. *)
Record prints (out : list Z) (h h' : Hw) : Prop := {
  prints_csrs : csrs h' = csrs h;
  prints_pmp : pmp h' = pmp h;
  prints_bus : off_uart (trace h') = off_uart (trace h);
  prints_ready : s_ready h';
  prints_out : s_out h' = s_out h ++ out;
}.
End serial.

(** Nothing changed but the console: printing is an instance. *)
Record undisturbed (h h' : Hw) : Prop := {
  un_csrs : csrs h' = csrs h;
  un_pmp : pmp h' = pmp h;
  un_bus : off_uart (trace h') = off_uart (trace h);
}.

Lemma prints_undisturbed `{B : SerialBackend} out h h' : prints out h h' → undisturbed h h'.
Proof. by intros []. Qed.

(** What a backend promises to the kernel. *)
Class SerialLaws (B : SerialBackend) : Prop := {
  init_law : ∀ h, wp s_init (λ _, prints [] h) h;
  putc_law : ∀ c h, s_ready h → wp (s_putc c) (λ _, prints [c] h) h;
  puts_law : ∀ s h, s_ready h → wp (s_puts s) (λ _, prints (crlf s) h) h;
  put_dec_law : ∀ n h, u64 n → s_ready h → wp (s_put_dec n) (λ _, prints (dec_bytes n) h) h;
  put_hex_law : ∀ n h, u64 n → s_ready h →
    wp (s_put_hex n) (λ _, prints (bytes_of_string "0x" ++ hex_bytes n) h) h;
  try_getc_law : ∀ h, s_ready h →
    wp s_try_getc (λ r h', prints [] h h' ∧ r = s_rx h ∧ ∀ c, r = Some c → u8 c) h;
  (** the console depends on the accesses to it only *)
  ready_frame : ∀ h h', on_uart (trace h') = on_uart (trace h) → s_ready h → s_ready h';
  out_frame : ∀ h h', on_uart (trace h') = on_uart (trace h) → s_out h' = s_out h;
  rx_frame : ∀ h h', nreads h' = nreads h → s_rx h' = s_rx h;
}.

(** ** Lemmas on the interface *)

Section laws.
Context `{B : SerialBackend}.

Lemma prints_refl h : s_ready h → prints [] h h.
Proof. constructor; [done..|by rewrite app_nil_r]. Qed.

Lemma prints_trans o1 o2 h1 h2 h3 :
  prints o1 h1 h2 → prints o2 h2 h3 → prints (o1 ++ o2) h1 h3.
Proof.
  intros [? ? ? ? Ho] [? ? ? ? Ho']. constructor; try congruence.
  by rewrite Ho', Ho, app_assoc.
Qed.

Context `{L : !SerialLaws B}.

(** Sequencing of console output: the rule the kernel's proofs use. *)
Lemma wp_prints_seq (m : M Hw unit) (k : M Hw unit) o1 o2 h :
  wp m (λ _, prints o1 h) h →
  (∀ h', s_ready h' → wp k (λ _, prints o2 h') h') →
  wp (m;; k) (λ _, prints (o1 ++ o2) h) h.
Proof.
  intros Hm Hk. apply wp_bind. eapply wp_mono; [done|]. intros [] h' Hp.
  eapply wp_mono; [apply Hk, Hp|]. intros [] h'' Hp'. by eapply prints_trans.
Qed.

Lemma fmt_write_prints ps h :
  s_ready h → wp (fmt_write ps) (λ ok h', ok = true ∧ prints (crlf (render_all ps)) h h') h.
Proof.
  revert h. induction ps as [|p ps IH]; intros h Hr; simpl.
  - by split; [|apply prints_refl].
  - apply wp_bind. unfold write_str. apply wp_bind.
    eapply wp_mono; [by apply puts_law|]. intros [] h' Hp. apply wp_mret.
    eapply wp_mono; [apply IH, Hp|]. intros ok h'' [-> Hp']. split; [done|].
    unfold render_all, crlf. simpl. rewrite fmap_app, join_app.
    by eapply prints_trans.
Qed.

(** [println!] sends its rendered arguments and a line end, with every line
    feed preceded by a carriage return, and never reaches the
    [unreachable!] of [write_fmt]. *)
Lemma println_prints ps h :
  s_ready h → wp (println ps) (λ _, prints (crlf (render_all ps ++ [10])) h) h.
Proof.
  intros Hr. unfold println, print, write_fmt. apply wp_bind.
  eapply wp_mono; [by apply fmt_write_prints|]. intros ok h' [-> Hp].
  apply wp_mret. revert Hp. unfold render_all. by rewrite fmap_app, join_app.
Qed.
End laws.

(** ** The UART driver keeps the promise *)

(** The transmitter drains: whatever the number of reads made so far, LSR
    reports an empty transmit buffer within [spin_fuel] polls. *)
Class UartLive `{E : Env} : Prop :=
  uart_live : ∀ n, ∃ j, (j < spin_fuel)%nat ∧
    Z.land (mmio_in (n + j) (UART_BASE + uart16550.LSR) mod 2 ^ 8) uart16550.LSR_TX_EMPTY ≠ 0.

Module uart16550_proofs.
Import uart16550.

(** [h'] is [h] after polling LSR until [mask] was set. *)
Definition polled (mask : Z) (h h' : Hw) : Prop :=
  ∃ vs v, csrs h' = csrs h ∧ pmp h' = pmp h ∧ Z.land v mask ≠ 0 ∧
    trace h' = Rd8 (UART_BASE + LSR) v :: (Rd8 (UART_BASE + LSR) <$> vs) ++ trace h.

Section observers.
Lemma rev_fmap {A B} (f : A → B) l : f <$> rev l = rev (f <$> l).
Proof. apply map_rev. Qed.

Lemma tx_reads a vs t : tx ((Rd8 a <$> vs) ++ t) = tx t.
Proof. by induction vs. Qed.

Lemma dlab_reads a vs t : dlab ((Rd8 a <$> vs) ++ t) = dlab t.
Proof. by induction vs. Qed.

(** Accesses to other devices do not affect the UART. *)
Lemma dlab_on_uart t : dlab (on_uart t) = dlab t.
Proof.
  induction t as [|e t IH]; [done|]. unfold on_uart. rewrite filter_cons.
  change (filter _ t) with (on_uart t). case_decide as Hd; [by destruct e; simpl; rewrite IH|].
  rewrite IH. destruct e as [a v|a v|a v|a v|a v]; simpl; try done.
  destruct (Z.eqb_spec a (UART_BASE + LCR)) as [->|]; [by destruct Hd|done].
Qed.

Lemma tx_on_uart t : tx (on_uart t) = tx t.
Proof.
  induction t as [|e t IH]; [done|]. unfold on_uart. rewrite filter_cons.
  change (filter _ t) with (on_uart t).
  case_decide as Hd; [by destruct e; simpl; rewrite ?dlab_on_uart, IH|].
  rewrite IH. destruct e as [a v|a v|a v|a v|a v]; simpl; try done.
  destruct (Z.eqb_spec a (UART_BASE + THR)) as [->|]; [by destruct Hd|done].
Qed.

Lemma off_uart_app t1 t2 : off_uart (t1 ++ t2) = off_uart t1 ++ off_uart t2.
Proof. apply filter_app. Qed.

Lemma off_uart_reads vs : off_uart (Rd8 (UART_BASE + LSR) <$> vs) = [].
Proof. by induction vs. Qed.
End observers.

Section driver_proofs.
Context `{E : Env}.

Lemma wait_lsr_polled mask fuel h :
  (∃ j, (j < fuel)%nat ∧
     Z.land (mmio_in (nreads h + j) (UART_BASE + LSR) mod 2 ^ 8) mask ≠ 0) →
  wp (wait_lsr fuel mask) (λ _, polled mask h) h.
Proof.
  revert h. induction fuel as [|f IH]; intros h (j & Hj & Hset); [lia|].
  cbn [wait_lsr]. apply wp_bind. eapply wp_intro; [done|].
  set (v := mmio_in (nreads h) (UART_BASE + LSR) mod 2 ^ 8).
  set (h1 := mkHw (csrs h) (pmp h) (S (nreads h)) (Rd8 (UART_BASE + LSR) v :: trace h)).
  destruct (Z.eqb_spec (Z.land v mask) 0) as [Hz|Hnz].
  - destruct j as [|j]; [by rewrite Nat.add_0_r in Hset|].
    eapply wp_mono.
    + apply (IH h1). exists j. split; [lia|]. by simpl; rewrite <- plus_n_Sm in Hset.
    + intros [] h2 (vs & w & ? & ? & ? & Ht). exists (vs ++ [v]), w.
      split_all. rewrite Ht, fmap_app, <- app_assoc. done.
  - apply wp_mret. by exists [], v.
Qed.

(** A byte is written to THR only right after a poll that found the
    transmit buffer empty. *)
Lemma putc_trace c h :
  (∃ j, (j < spin_fuel)%nat ∧
     Z.land (mmio_in (nreads h + j) (UART_BASE + LSR) mod 2 ^ 8) LSR_TX_EMPTY ≠ 0) →
  wp (putc c) (λ _ h', ∃ h1, polled LSR_TX_EMPTY h h1 ∧
    csrs h' = csrs h ∧ pmp h' = pmp h ∧ trace h' = Wr8 (UART_BASE + THR) c :: trace h1) h.
Proof.
  intros Hlive. unfold putc. apply wp_bind.
  eapply wp_mono; [by apply wait_lsr_polled|].
  intros [] h1 Hp. apply wp_modify. exists h1. split; [done|].
  destruct Hp as (vs & v & ? & ? & ? & ?). by split_all.
Qed.

Context `{L : !UartLive}.

Lemma putc_prints c h :
  s_ready h → wp (putc c) (λ _, prints [c] h) h.
Proof.
  intros Hr. eapply wp_mono; [apply putc_trace, uart_live|].
  intros [] h' (h1 & (vs & v & ? & ? & ? & Ht1) & ? & ? & Ht). simpl in Hr.
  assert (Hd : dlab (trace h1) = false) by (rewrite Ht1; simpl; by rewrite dlab_reads).
  constructor; try congruence; simpl.
  - rewrite Ht, Ht1. change (Wr8 ?a ?x :: Rd8 ?b ?y :: ?l) with ([Wr8 a x; Rd8 b y] ++ l).
    by rewrite !off_uart_app, off_uart_reads.
  - by rewrite Ht.
  - rewrite Ht. simpl. rewrite Hd, Ht1. simpl. by rewrite tx_reads.
Qed.

Lemma puts_prints s h : s_ready h → wp (puts s) (λ _, prints (crlf s) h) h.
Proof.
  revert h. induction s as [|c s IH]; intros h Hr; [by apply wp_mret, prints_refl|].
  cbn [puts]. unfold crlf. simpl. change (mjoin _) with (crlf s).
  destruct (Z.eqb_spec c 10) as [->|].
  - change ([13; 10] ++ crlf s) with ([13] ++ [10] ++ crlf s).
    apply wp_prints_seq; [by apply putc_prints|]. intros h1 Hr1.
    apply wp_prints_seq; [by apply putc_prints|]. auto.
  - change ([c] ++ crlf s) with ([] ++ [c] ++ crlf s).
    apply wp_prints_seq; [by apply wp_mret, prints_refl|]. intros h1 Hr1.
    apply wp_prints_seq; [by apply putc_prints|]. auto.
Qed.

(** The digit loop stores the digits of [n] from index [idx] on, when the
    buffer has room for them. *)
Lemma fill_spec {St} fuel digit next conv b n buf idx (h : St) :
  1 < b → (∀ m, 0 < m → digit m = conv (m mod b) ∧ next m = m / b) →
  0 ≤ n < b ^ Z.of_nat fuel →
  (idx + fuel = length buf)%nat →
  let ds := conv <$> digits_rev b fuel n in
  wp (fill (S fuel) digit next n buf idx) (λ r h', h' = h ∧
    r.2 = (idx + length ds)%nat ∧ take r.2 r.1 = take idx buf ++ ds) h.
Proof.
  intros Hb Hdig. revert n buf idx.
  induction fuel as [|f IH]; intros n buf idx Hn Hlen ds; subst ds.
  - assert (n = 0) as -> by (simpl in Hn; lia). cbn.
    split_all; try lia. by rewrite ?Nat.add_0_r, ?app_nil_r.
  - cbn [fill digits_rev].
    destruct (Z.ltb_spec 0 n) as [Hpos|Hneg].
    + rewrite (proj2 (Z.leb_gt _ _)) by lia.
      rewrite (proj2 (Nat.ltb_lt _ _)) by lia.
      destruct (Hdig n Hpos) as [-> ->].
      eapply wp_mono.
      * apply IH; [|rewrite length_insert; lia].
        rewrite Nat2Z.inj_succ, Z.pow_succ_r in Hn by lia.
        split; [by apply Z.div_pos; lia|apply Z.div_lt_upper_bound; lia].
      * intros [buf' i'] h' (-> & Hi & Ht). csimpl in *. split_all; try lia.
        rewrite Ht. rewrite (take_S_r _ _ (conv (n mod b))).
        -- rewrite take_insert_ge by lia. by rewrite <- app_assoc.
        -- apply list_lookup_insert_eq. lia.
    + rewrite (proj2 (Z.leb_le _ _)) by lia. cbn.
      split_all; try lia. by rewrite ?Nat.add_0_r, ?app_nil_r.
Qed.

Lemma drain_prints buf idx h :
  (idx ≤ length buf)%nat → s_ready h →
  wp (drain buf idx) (λ _, prints (rev (take idx buf)) h) h.
Proof.
  revert h. induction idx as [|i IH]; intros h Hi Hr; [by apply wp_mret, prints_refl|].
  cbn [drain]. destruct (lookup_lt_is_Some_2 buf i) as [c Hc]; [lia|]. rewrite Hc.
  rewrite (take_S_r _ _ _ Hc), rev_app_distr. simpl.
  change (c :: ?l) with ([c] ++ l).
  apply wp_prints_seq; [by apply putc_prints|]. intros. apply IH; [lia|done].
Qed.

(** Fill then drain: the digits of [n], most significant first. *)
Lemma fill_drain_prints fuel digit next conv b n h :
  1 < b → (∀ m, 0 < m → digit m = conv (m mod b) ∧ next m = m / b) →
  0 ≤ n < b ^ Z.of_nat fuel → s_ready h →
  wp ('(buf, idx) ← fill (S fuel) digit next n (replicate fuel 0) 0; drain buf idx)
    (λ _, prints (conv <$> rev (digits_rev b fuel n)) h) h.
Proof.
  intros Hb Hdig Hn Hr. apply wp_bind.
  eapply wp_mono; [by eapply fill_spec; [..|rewrite length_replicate]|].
  intros [buf idx] h' (-> & Hi & Ht). csimpl in *.
  rewrite rev_fmap, <- Ht. apply drain_prints; [|done].
  apply (f_equal length) in Ht. rewrite length_take, Hi, length_fmap in *. lia.
Qed.

Lemma put_dec_prints n h :
  u64 n → s_ready h → wp (put_dec n) (λ _, prints (dec_bytes n) h) h.
Proof.
  intros [Hn0 Hn] Hr. unfold put_dec, dec_bytes. destruct (n =? 0); [by apply putc_prints|].
  apply fill_drain_prints; [done|done| |done].
  change (10 ^ Z.of_nat 20) with 100000000000000000000. lia.
Qed.

Lemma put_hex_prints n h :
  u64 n → s_ready h →
  wp (put_hex n) (λ _, prints (bytes_of_string "0x" ++ hex_bytes n) h) h.
Proof.
  intros [Hn0 Hn] Hr. unfold put_hex, hex_bytes.
  apply wp_prints_seq; [by apply (puts_prints (bytes_of_string "0x"))|]. intros h1 Hr1.
  destruct (n =? 0); [by apply putc_prints|].
  apply fill_drain_prints; [done| |done|done].
  intros m _. split; [|by rewrite Z.shiftr_div_pow2].
  by change 15 with (Z.ones 4); rewrite Z.land_ones.
Qed.

(** The non-blocking read: one poll of LSR, and RBR is read only when that
    poll reported a byte. *)
Lemma try_getc_spec h :
  let v := mmio_in (nreads h) (UART_BASE + LSR) mod 2 ^ 8 in
  let c := mmio_in (S (nreads h)) (UART_BASE + RBR) mod 2 ^ 8 in
  try_getc h =
    if Z.land v LSR_RX_READY =? 0
    then Ok None (mkHw (csrs h) (pmp h) (S (nreads h)) (Rd8 (UART_BASE + LSR) v :: trace h))
    else Ok (Some c) (mkHw (csrs h) (pmp h) (S (S (nreads h)))
                      (Rd8 (UART_BASE + RBR) c :: Rd8 (UART_BASE + LSR) v :: trace h)).
Proof.
  intros v c. unfold try_getc. erewrite bind_Ok by reflexivity. fold v.
  by destruct (Z.land v LSR_RX_READY =? 0).
Qed.

Lemma try_getc_prints h :
  s_ready h → wp try_getc (λ r h', prints [] h h' ∧ r = rx h ∧ ∀ c, r = Some c → u8 c) h.
Proof.
  intros Hr. unfold wp, rx. rewrite try_getc_spec. simpl in Hr. case_bool.
  - split; [|done]. constructor; [done|done|done|done|by rewrite app_nil_r].
  - split; [constructor; [done|done|done|done|by rewrite app_nil_r]|]. split; [done|].
    intros c [= <-]. apply Z.mod_pos_bound. lia.
Qed.

(** With a transmitter that never empties, [putc] polls for ever and sends
    nothing: no byte is written without a successful poll. *)
Lemma wait_lsr_spins mask fuel h :
  (∀ n, Z.land (mmio_in n (UART_BASE + LSR) mod 2 ^ 8) mask = 0) →
  ∃ h', wait_lsr fuel mask h = Spin h' ∧ tx (trace h') = tx (trace h).
Proof.
  intros Hbusy. revert h. induction fuel as [|f IH]; intros h; [by exists h|].
  cbn [wait_lsr]. erewrite bind_Ok by reflexivity. rewrite Hbusy. simpl.
  destruct (IH (mkHw (csrs h) (pmp h) (S (nreads h))
    (Rd8 (UART_BASE + LSR) (mmio_in (nreads h) (UART_BASE + LSR) mod 2 ^ 8) :: trace h)))
    as (h' & -> & Ht). by exists h'.
Qed.
End driver_proofs.
End uart16550_proofs.

(** The UART driver discharges the interface of the kernel's console. *)
#[export] Instance uart16550_laws `{E : Env} `{L : !UartLive} : SerialLaws uart16550_backend.
Proof.
  constructor.
  - intros h. eapply wp_intro; [reflexivity|]. constructor; try done. by rewrite app_nil_r.
  - apply uart16550_proofs.putc_prints.
  - apply uart16550_proofs.puts_prints.
  - apply uart16550_proofs.put_dec_prints.
  - apply uart16550_proofs.put_hex_prints.
  - apply uart16550_proofs.try_getc_prints.
  - simpl. intros h h' Ht. rewrite <- (uart16550_proofs.dlab_on_uart (trace h')), Ht.
    by rewrite uart16550_proofs.dlab_on_uart.
  - simpl. intros h h' Ht. rewrite <- (uart16550_proofs.tx_on_uart (trace h')), Ht.
    by rewrite uart16550_proofs.tx_on_uart.
  - intros h h' Hn. simpl. unfold uart16550.rx. by rewrite Hn.
Qed.

(** A board whose transmitter is always empty and that receives nothing. *)
Definition quiet_board (dbg : bool) : Env :=
  {| mmio_in := λ _ a, if a =? UART_BASE + uart16550.LSR then 0x60 else 0;
     spin_fuel := 1; debug_build := dbg |}.

#[export] Instance quiet_board_live dbg : UartLive (E := quiet_board dbg).
Proof. intros n. exists 0%nat. split; [simpl; lia|done]. Qed.

(** Reset state: all registers zero, no access made. *)
Definition hw_reset : Hw :=
  mkHw (mkCsrFile 0 0 0 0 0 0 0) (mkPmpRegs (replicate 16 0) (replicate 16 0)) 0 [].

(** ** Decimal and hexadecimal output read back *)

(** The value of a digit string, most significant digit first. *)
Definition value (b : Z) (l : list Z) : Z := fold_left (λ a d, a * b + d) l 0.

Definition parse_dec (l : list Z) : option Z :=
  if forallb (λ c, (48 <=? c) && (c <=? 57)) l then Some (value 10 ((λ c, c - 48) <$> l))
  else None.

Definition hex_val (c : Z) : Z := if c <=? 57 then c - 48 else c - 87.

Definition parse_hex (l : list Z) : option Z :=
  if forallb (λ c, ((48 <=? c) && (c <=? 57)) || ((97 <=? c) && (c <=? 102))) l
  then Some (value 16 (hex_val <$> l)) else None.

Lemma value_app b l d : value b (l ++ [d]) = value b l * b + d.
Proof. unfold value. by rewrite fold_left_app. Qed.

Section digits.
Context (b : Z) (Hb : 1 < b).

Lemma digits_rev_value fuel n :
  0 ≤ n < b ^ Z.of_nat fuel → value b (rev (digits_rev b fuel n)) = n.
Proof.
  revert n. induction fuel as [|f IH]; intros n Hn; [simpl in *; unfold value; simpl; lia|].
  cbn [digits_rev]. case_bool; [unfold value; simpl; lia|].
  cbn [rev]. rewrite value_app, IH; [pose proof (Z.div_mod n b); lia|].
  rewrite Nat2Z.inj_succ, Z.pow_succ_r in Hn by lia.
  split; [apply Z.div_pos; lia|apply Z.div_lt_upper_bound; lia].
Qed.

Lemma digits_rev_range fuel n : Forall (λ d, 0 ≤ d < b) (digits_rev b fuel n).
Proof.
  revert n. induction fuel as [|f IH]; intros n; cbn [digits_rev]; [done|].
  case_bool; [done|]. constructor; [apply Z.mod_pos_bound; lia|apply IH].
Qed.

Lemma digits_rev_length fuel n : (length (digits_rev b fuel n) ≤ fuel)%nat.
Proof.
  revert n. induction fuel as [|f IH]; intros n; cbn [digits_rev]; [done|].
  case_bool; simpl; [lia|]. specialize (IH (n / b)). lia.
Qed.

(** The most significant digit is not zero. *)
Lemma digits_rev_last fuel n :
  0 < n < b ^ Z.of_nat fuel → ∃ d, head (rev (digits_rev b fuel n)) = Some d ∧ 0 < d.
Proof.
  revert n. induction fuel as [|f IH]; intros n Hn; [simpl in *; lia|].
  cbn [digits_rev]. rewrite (proj2 (Z.leb_gt _ _)) by lia. cbn [rev].
  rewrite Nat2Z.inj_succ, Z.pow_succ_r in Hn by lia.
  destruct (Z_lt_le_dec 0 (n / b)) as [Hq|Hq].
  - destruct (IH (n / b)) as (d & Hd & ?); [split; [done|apply Z.div_lt_upper_bound; lia]|].
    exists d. by destruct (rev (digits_rev b f (n / b))).
  - assert (n / b = 0) as Hz by (pose proof (Z.div_pos n b); lia). rewrite Hz.
    exists (n mod b). pose proof (Z.div_mod n b).
    destruct f; simpl; (split; [done|lia]).
Qed.
End digits.

Lemma fmap_id_on {A B} (f : A → B) (g : B → A) (P : A → Prop) l :
  Forall P l → (∀ x, P x → g (f x) = x) → g <$> (f <$> l) = l.
Proof. intros Hl Hgf. induction Hl; csimpl; [done|]. rewrite Hgf by done. by f_equal. Qed.

Lemma forallb_fmap_on {A B} (f : A → B) (t : B → bool) (P : A → Prop) l :
  Forall P l → (∀ x, P x → t (f x) = true) → forallb t (f <$> l) = true.
Proof. intros Hl Ht. induction Hl; csimpl; [done|]. by rewrite Ht. Qed.

Lemma parse_dec_bytes n : u64 n → parse_dec (dec_bytes n) = Some n.
Proof.
  intros [H0 Hn]. unfold parse_dec, dec_bytes. destruct (Z.eqb_spec n 0) as [->|]; [done|].
  pose proof (Forall_rev (digits_rev_range 10 ltac:(lia) 20 n)) as Hr.
  rewrite (forallb_fmap_on _ _ _ _ Hr) by (intros; cbn beta in *; lia).
  rewrite (fmap_id_on _ _ _ _ Hr) by (intros; cbn beta in *; lia).
  rewrite digits_rev_value; [done|lia|]. change (10 ^ Z.of_nat 20) with 100000000000000000000. lia.
Qed.

Lemma parse_hex_bytes n : u64 n → parse_hex (hex_bytes n) = Some n.
Proof.
  intros [H0 Hn]. unfold parse_hex, hex_bytes. destruct (Z.eqb_spec n 0) as [->|]; [done|].
  pose proof (Forall_rev (digits_rev_range 16 ltac:(lia) 16 n)) as Hr.
  rewrite (forallb_fmap_on _ _ _ _ Hr) by (intros; unfold hex_char; cbn beta in *; case_bool; lia).
  rewrite (fmap_id_on _ _ _ _ Hr)
    by (intros; unfold hex_char, hex_val; cbn beta in *; repeat case_bool; lia).
  rewrite digits_rev_value; [done|lia|done].
Qed.

Lemma dec_bytes_canonical n :
  u64 n → (length (dec_bytes n) ≤ 20)%nat ∧ (head (dec_bytes n) = Some 48 → n = 0).
Proof.
  intros [H0 Hn]. unfold dec_bytes. destruct (Z.eqb_spec n 0) as [->|]; [by split; simpl; [lia|]|].
  split; [rewrite length_fmap, length_rev; apply digits_rev_length; lia|].
  destruct (digits_rev_last 10 ltac:(lia) 20 n) as (d & Hd & Hd0).
  { change (10 ^ Z.of_nat 20) with 100000000000000000000. lia. }
  destruct (rev (digits_rev 10 20 n)) as [|d' l]; [done|].
  simpl in *. injection Hd as ->. intros [= ?]. lia.
Qed.

(** ** Properties of the console *)

(** C40: [put_dec] returns for every [u64], and what it sends is the canonical
    decimal numeral of its argument: parsing it gives the argument back, it has
    at most 20 digits (so the 20-byte buffer is never overrun), it has no
    leading zero, and no register of the machine changes. *)
Theorem put_dec_roundtrip `{E : Env} `{L : !UartLive} n h :
  u64 n → s_ready h →
  ∃ h' out, uart16550.put_dec n h = Ok tt h' ∧ s_out h' = s_out h ++ out ∧
    parse_dec out = Some n ∧ (length out ≤ 20)%nat ∧ (head out = Some 48 → n = 0) ∧
    csrs h' = csrs h ∧ pmp h' = pmp h.
Proof.
  intros Hn Hr. destruct (wp_elim _ _ _ (put_dec_law n h Hn Hr)) as ([] & h' & Hrun & [? ? ? ? Ho]).
  destruct (dec_bytes_canonical n Hn).
  exists h', (dec_bytes n). split_all. by apply parse_dec_bytes.
Qed.

Lemma put_dec_roundtrip_witness :
  ∃ h' out, uart16550.put_dec (E := quiet_board true) 18446744073709551615 hw_reset = Ok tt h' ∧
    s_out (SerialBackend := uart16550_backend (E := quiet_board true)) h' =
    s_out (SerialBackend := uart16550_backend (E := quiet_board true)) hw_reset ++ out ∧
    parse_dec out = Some 18446744073709551615 ∧ (length out ≤ 20)%nat ∧
    (head out = Some 48 → 18446744073709551615 = 0) ∧
    csrs h' = csrs hw_reset ∧ pmp h' = pmp hw_reset.
Proof.
  apply (put_dec_roundtrip (E := quiet_board true) 18446744073709551615 hw_reset);
    [split; vm_compute; congruence|reflexivity].
Defined.

(** [put_hex] returns for every [u64] and sends [0x] followed by a
    hexadecimal numeral that reads back as its argument; the 16-byte buffer is
    never overrun. *)
Lemma put_hex_roundtrip `{E : Env} `{L : !UartLive} n h :
  u64 n → s_ready h →
  ∃ h' out, uart16550.put_hex n h = Ok tt h' ∧
    s_out h' = s_out h ++ bytes_of_string "0x" ++ out ∧
    parse_hex out = Some n ∧ csrs h' = csrs h ∧ pmp h' = pmp h.
Proof.
  intros Hn Hr. destruct (wp_elim _ _ _ (put_hex_law n h Hn Hr)) as ([] & h' & Hrun & [? ? ? ? Ho]).
  exists h', (hex_bytes n). split_all. by apply parse_hex_bytes.
Qed.

(** Initialising the UART leaves the divisor latch closed, so that the data
    register is the transmit register again, and the two divisor bytes written
    through that register are not transmitted; the last value of the line
    control register is 8N1, and no other device or register is touched. *)
Lemma uart_init_ready `{E : Env} h :
  ∃ h', uart16550.init h = Ok tt h' ∧ s_ready h' ∧ s_out h' = s_out h ∧
    csrs h' = csrs h ∧ pmp h' = pmp h ∧ off_uart (trace h') = off_uart (trace h) ∧
    ∃ t, trace h' = Wr8 (UART_BASE + uart16550.FCR) 7
                    :: Wr8 (UART_BASE + uart16550.LCR) uart16550.LCR_8BIT :: t.
Proof. eexists. split; [reflexivity|]. split_all. by eexists. Qed.

(** A byte is handed to the transmit register only right after a status
    read that reported the transmit buffer empty, for every behaviour of the
    device that lets [putc] return. *)
Lemma putc_paced `{E : Env} c h h' :
  uart16550.putc c h = Ok tt h' →
  ∃ v t, trace h' = Wr8 (UART_BASE + uart16550.THR) c
                    :: Rd8 (UART_BASE + uart16550.LSR) v :: t ∧
    Z.land v uart16550.LSR_TX_EMPTY ≠ 0 ∧ uart16550.tx t = uart16550.tx (trace h).
Proof.
  unfold uart16550.putc. generalize spin_fuel as fuel. intros fuel. revert h.
  induction fuel as [|f IH]; intros h; [done|].
  cbn [uart16550.wait_lsr]. unfold mbind at 1, M_bind at 1. unfold mbind at 1, M_bind at 1.
  cbn [read_volatile_u8 mmio_read].
  set (v := mmio_in (nreads h) (UART_BASE + uart16550.LSR) mod 2 ^ 8).
  destruct (Z.eqb_spec (Z.land v uart16550.LSR_TX_EMPTY) 0) as [|Hnz].
  - intros Hrun. destruct (IH _ Hrun) as (w & t & ? & ? & ?). by exists w, t.
  - intros [= <-]. by exists v, (trace h).
Qed.

