(* ===== verification/PmpHw.v ===== *)
(** The RISC-V physical memory protection unit.

    The meaning of the PMP registers that [pmp.rs] programs, from the RISC-V
    Privileged Specification v1.12, section 3.7 (the document the source cites):
    [csrw] to a configuration or address register honours the lock bits, and
    [pmp_check] decides an access by the lowest-numbered entry that overlaps it.
    The sixteen entries of the machine are a [PmpRegs]. *)

From S2P Require Import Prelude Config Machine.

Local Open Scope Z_scope.

(** ** Bytes of a configuration register *)

Definition byte_of (v : Z) (i : nat) : Z := Z.land (Z.shiftr v (8 * Z.of_nat i)) 0xFF.

(** Little-endian packing, the value [csrr] returns. *)
Fixpoint pack (l : list Z) : Z :=
  match l with [] => 0 | b :: l' => Z.lor b (Z.shiftl (pack l') 8) end.

Definition cfg_at (p : PmpRegs) (i : nat) : Z := default 0 (pmpcfg p !! i).
Definition addr_at (p : PmpRegs) (i : nat) : Z := default 0 (pmpaddr p !! i).

Definition cfg_locked (b : Z) : bool := Z.testbit b 7.
Definition cfg_mode (b : Z) : Z := Z.land (Z.shiftr b 3) 3.

(** ** Register writes *)

(** [csrw pmpcfg0] ([first = 0]) and [csrw pmpcfg2] ([first = 8]): eight entries,
    the locked ones keep their byte. *)
Definition pmpcfg_csrw (first : nat) (v : Z) (p : PmpRegs) : PmpRegs :=
  mkPmpRegs
    (imap (λ i b, if (first <=? i)%nat && (i <? first + 8)%nat && negb (cfg_locked b)
                  then byte_of v (i - first) else b) (pmpcfg p))
    (pmpaddr p).

(** [pmpaddr i] is not writable when entry [i] is locked, or when entry [i+1]
    is a locked top-of-range entry, whose lower bound it is. *)
Definition addr_locked (p : PmpRegs) (i : nat) : bool :=
  cfg_locked (cfg_at p i)
  || (cfg_locked (cfg_at p (S i)) && (cfg_mode (cfg_at p (S i)) =? 1)).

(** On RV64 an address register holds bits 55:2 of an address. *)
Definition pmpaddr_csrw (i : nat) (v : Z) (p : PmpRegs) : PmpRegs :=
  if addr_locked p i then p
  else mkPmpRegs (pmpcfg p) (<[i := Z.land v (Z.ones 54)]> (pmpaddr p)).

(** ** Access checks *)

Inductive priv := UMode | MMode.
Inductive access := AccR | AccW | AccX.

#[export] Instance priv_eq_dec : EqDecision priv.
Proof. solve_decision. Defined.

(** The bytes [lo, hi) an entry matches. *)
Definition napot_range (a : Z) : Z * Z :=
  let a' := Z.lor (Z.shiftl a 2) 3 in
  (Z.land a' (a' + 1), Z.lor a' (a' + 1) + 1).

Definition entry_range (p : PmpRegs) (i : nat) : option (Z * Z) :=
  let a := addr_at p i in
  let prev := match i with O => 0 | S j => addr_at p j end in
  match cfg_mode (cfg_at p i) with
  | 1 => Some (Z.shiftl prev 2, Z.shiftl a 2)
  | 2 => Some (Z.shiftl a 2, Z.shiftl a 2 + 4)
  | 3 => Some (napot_range a)
  | _ => None
  end.

Definition perm_bit (acc : access) : Z := match acc with AccR => 0 | AccW => 1 | AccX => 2 end.

(** An unlocked entry does not constrain machine mode. *)
Definition permitted (b : Z) (m : priv) (acc : access) : bool :=
  match m with
  | MMode => negb (cfg_locked b) || Z.testbit b (perm_bit acc)
  | UMode => Z.testbit b (perm_bit acc)
  end.

Definition misses (lo hi addr len : Z) : bool :=
  (hi <=? lo) || (addr + len <=? lo) || (hi <=? addr).

(** The entries [es], in priority order, decide an access of [len] bytes at
    [addr]; an access that no entry overlaps is for machine mode only. *)
Fixpoint pmp_scan (p : PmpRegs) (es : list nat) (m : priv) (acc : access) (addr len : Z) : bool :=
  match es with
  | [] => match m with MMode => true | UMode => false end
  | i :: es' =>
    match entry_range p i with
    | None => pmp_scan p es' m acc addr len
    | Some (lo, hi) =>
      if misses lo hi addr len then pmp_scan p es' m acc addr len
      else (lo <=? addr) && (addr + len <=? hi) && permitted (cfg_at p i) m acc
    end
  end.

Definition pmp_check (p : PmpRegs) : priv → access → Z → Z → bool :=
  pmp_scan p (seq 0 PMP_COUNT).

(** ** Lemmas on bytes *)

Lemma byte_of_testbit v i n :
  0 ≤ n → Z.testbit (byte_of v i) n = Z.testbit v (n + 8 * Z.of_nat i) && (n <? 8).
Proof.
  intros Hn. unfold byte_of. rewrite Z.land_spec, Z.shiftr_spec by done.
  f_equal. change 255 with (Z.ones 8). rewrite Z.testbit_ones_nonneg by lia. done.
Qed.

Lemma byte_of_range v i : u8 (byte_of v i).
Proof. unfold byte_of. change 255 with (Z.ones 8). rewrite Z.land_ones by lia. apply Z.mod_pos_bound. lia. Qed.

Lemma testbit_u8_high b n : u8 b → 8 ≤ n → Z.testbit b n = false.
Proof.
  intros [H0 Hb] Hn. destruct (Z.eq_dec b 0) as [->|]; [apply Z.testbit_0_l|].
  apply Z.bits_above_log2; [done|]. apply Z.log2_lt_pow2; [lia|].
  eapply Z.lt_le_trans; [exact Hb|]. apply Z.pow_le_mono_r; lia.
Qed.

Lemma byte_of_lor a b i : byte_of (Z.lor a b) i = Z.lor (byte_of a i) (byte_of b i).
Proof. unfold byte_of. by rewrite Z.shiftr_lor, Z.land_lor_distr_l. Qed.

Lemma byte_of_land a b i : byte_of (Z.land a b) i = Z.land (byte_of a i) (byte_of b i).
Proof.
  bits n Hn. rewrite Z.land_spec, !byte_of_testbit, Z.land_spec by done.
  by destruct (Z.testbit a _), (Z.testbit b _), (n <? 8).
Qed.

Lemma byte_of_0 i : byte_of 0 i = 0.
Proof. unfold byte_of. by rewrite Z.shiftr_0_l. Qed.

(** A byte shifted to position [j] is that byte at [j] and zero elsewhere. *)
Lemma byte_of_shiftl b i j :
  u8 b → byte_of (Z.shiftl b (8 * Z.of_nat j)) i = if decide (i = j) then b else 0.
Proof.
  intros Hb. bits n Hn. rewrite byte_of_testbit, Z.shiftl_spec by lia.
  destruct (decide (i = j)) as [->|Hne].
  - replace (n + 8 * Z.of_nat j - 8 * Z.of_nat j) with n by lia.
    destruct (Z.ltb_spec n 8); [by rewrite andb_true_r|].
    by rewrite andb_false_r, testbit_u8_high by done.
  - rewrite Z.testbit_0_l. destruct (Z.ltb_spec n 8); [|by rewrite andb_false_r].
    rewrite andb_true_r.
    destruct (Nat.lt_ge_cases i j).
    + apply Z.testbit_neg_r. lia.
    + apply testbit_u8_high; [done|lia].
Qed.

Lemma byte_of_pack l i : Forall u8 l → byte_of (pack l) i = default 0 (l !! i).
Proof.
  intros Hl. revert i. induction Hl as [|b l Hb Hl IH]; intros i; simpl.
  - by rewrite byte_of_0.
  - rewrite byte_of_lor. change 8 with (8 * Z.of_nat 1) at 1.
    destruct i as [|i]; simpl.
    + bits n Hn. rewrite Z.lor_spec, !byte_of_testbit by done.
      replace (n + 8 * Z.of_nat 0) with n by lia. rewrite Z.shiftl_spec by lia.
      destruct (Z.ltb_spec n 8).
      * rewrite (Z.testbit_neg_r _ (n - _)) by lia. by rewrite !andb_true_r, orb_false_r.
      * by rewrite !andb_false_r, testbit_u8_high by done.
    + rewrite <- IH. bits n Hn. rewrite Z.lor_spec, !byte_of_testbit, Z.shiftl_spec by lia.
      destruct (Z.ltb_spec n 8); [|by rewrite !andb_false_r].
      rewrite !andb_true_r, (testbit_u8_high b) by (done || lia). simpl.
      f_equal. lia.
Qed.

Lemma pack_width l : Forall u8 l → in_width (8 * Z.of_nat (length l)) (pack l).
Proof.
  induction 1 as [|b l Hb Hl IH]; cbn [pack length]; [split; simpl; lia|].
  rewrite Nat2Z.inj_succ. replace (8 * Z.succ (Z.of_nat (length l))) with (8 * Z.of_nat (length l) + 8) by lia.
  apply in_width_lor; [lia| |apply in_width_shiftl; [lia|lia|done]].
  eapply in_width_mono; [|done]. lia.
Qed.

(** ** Lemmas on register writes *)

Record pmp_wf (p : PmpRegs) : Prop := {
  wf_cfg : length (pmpcfg p) = PMP_COUNT;
  wf_addr : length (pmpaddr p) = PMP_COUNT;
  wf_bytes : Forall u8 (pmpcfg p);
}.

Lemma cfg_at_u8 p i : pmp_wf p → u8 (cfg_at p i).
Proof.
  intros [_ _ Hb]. unfold cfg_at. destruct (pmpcfg p !! i) eqn:Hi; simpl; [|done].
  by eapply Forall_lookup_1.
Qed.

Lemma cfg_at_csrw first v p i :
  pmp_wf p → (i < PMP_COUNT)%nat →
  cfg_at (pmpcfg_csrw first v p) i =
    if (first <=? i)%nat && (i <? first + 8)%nat && negb (cfg_locked (cfg_at p i))
    then byte_of v (i - first) else cfg_at p i.
Proof.
  intros Hwf Hi. unfold cfg_at, pmpcfg_csrw. simpl.
  rewrite list_lookup_imap. destruct (lookup_lt_is_Some_2 (pmpcfg p) i) as [b ->]; [|done].
  by rewrite (wf_cfg p Hwf).
Qed.

Lemma pmpcfg_csrw_wf first v p : pmp_wf p → pmp_wf (pmpcfg_csrw first v p).
Proof.
  intros Hwf. constructor; simpl; [by rewrite length_imap, (wf_cfg p Hwf)|apply Hwf|].
  apply Forall_lookup. intros i b. rewrite list_lookup_imap.
  destruct (pmpcfg p !! i) as [b'|] eqn:Hb; simpl; [|done]. intros [= <-].
  destruct (_ && _); [apply byte_of_range|]. by eapply Forall_lookup_1; [apply Hwf|].
Qed.

Lemma addr_at_cfg_csrw first v p i : addr_at (pmpcfg_csrw first v p) i = addr_at p i.
Proof. done. Qed.

Lemma cfg_at_addr_csrw j v p i : cfg_at (pmpaddr_csrw j v p) i = cfg_at p i.
Proof. unfold pmpaddr_csrw. by destruct (addr_locked p j). Qed.

Lemma pmpaddr_csrw_wf j v p : pmp_wf p → pmp_wf (pmpaddr_csrw j v p).
Proof.
  intros [Hc Ha Hb]. unfold pmpaddr_csrw. destruct (addr_locked p j); [done|].
  constructor; simpl; [done| |done]. by rewrite length_insert.
Qed.

Lemma addr_at_addr_csrw j v p i :
  pmp_wf p → (j < PMP_COUNT)%nat →
  addr_at (pmpaddr_csrw j v p) i =
    if decide (i = j ∧ addr_locked p j = false) then Z.land v (Z.ones 54) else addr_at p i.
Proof.
  intros Hwf Hj. unfold pmpaddr_csrw, addr_at. destruct (addr_locked p j) eqn:Hl; simpl.
  - rewrite decide_False by naive_solver. done.
  - destruct (decide (i = j)) as [->|Hne].
    + rewrite decide_True by done. rewrite list_lookup_insert_eq; [done|].
      by rewrite (wf_addr p Hwf).
    + rewrite decide_False by naive_solver. by rewrite list_lookup_insert_ne.
Qed.

(** ** NAPOT ranges *)

Lemma add_lor_shiftl c n r : 0 ≤ n → 0 ≤ r < 2 ^ n → c * 2 ^ n + r = Z.lor (Z.shiftl c n) r.
Proof.
  intros Hn Hr. rewrite <- Z.shiftl_mul_pow2 by done.
  assert (Z.land (Z.shiftl c n) r = 0) as Hland.
  { bits i Hi. rewrite Z.land_spec, Z.shiftl_spec, Z.testbit_0_l by done.
    destruct (Z.ltb_spec i n); [by rewrite Z.testbit_neg_r by lia|].
    rewrite <- (Z.mod_small r (2 ^ n)) by done.
    by rewrite Z.mod_pow2_bits_high, andb_false_r by lia. }
  rewrite Z.add_nocarry_lxor by done. by apply Z.lxor_lor.
Qed.

(** A run of [j] ones below a zero, and its successor. *)
Lemma ones_run c j :
  0 ≤ j →
  let x := c * 2 ^ (j + 1) + (2 ^ j - 1) in
  Z.land x (x + 1) = c * 2 ^ (j + 1) ∧ Z.lor x (x + 1) = c * 2 ^ (j + 1) + (2 ^ (j + 1) - 1).
Proof.
  intros Hj x. assert (0 < 2 ^ j) by (apply Z.pow_pos_nonneg; lia).
  assert (2 ^ (j + 1) = 2 * 2 ^ j) as Hp by (rewrite Z.pow_add_r by lia; lia).
  assert (x = Z.lor (Z.shiftl c (j + 1)) (Z.ones j)) as Hx.
  { rewrite Z.ones_equiv, <- add_lor_shiftl by lia. unfold x. lia. }
  assert (x + 1 = Z.lor (Z.shiftl c (j + 1)) (2 ^ j)) as Hx1.
  { rewrite <- add_lor_shiftl by lia. unfold x. lia. }
  assert (2 ^ (j + 1) - 1 = Z.ones (j + 1)) as Ho by (rewrite Z.ones_equiv; lia).
  rewrite Hx1, Hx, Ho, add_lor_shiftl by (rewrite <- ?Ho; lia).
  rewrite <- (Z.shiftl_mul_pow2 c) by lia.
  split; bits i Hi; rewrite ?Z.land_spec, ?Z.lor_spec, ?Z.testbit_ones_nonneg,
    ?Z.pow2_bits_eqb by lia; destruct (Z.testbit (Z.shiftl c (j + 1)) i); try done;
    destruct (Z.ltb_spec i j), (Z.eqb_spec j i), (Z.ltb_spec i (j + 1)); (done || lia).
Qed.

(** The encoding of a naturally aligned power-of-two region reads back as that
    region. *)
Lemma napot_range_encode base k :
  3 ≤ k → 0 ≤ base → base mod 2 ^ k = 0 → base + 2 ^ k ≤ 2 ^ 56 →
  napot_range (Z.land (Z.shiftr (base + (2 ^ k / 2 - 1)) 2) (Z.ones 54)) = (base, base + 2 ^ k).
Proof.
  intros Hk Hb Hal Htop. set (c := base / 2 ^ k).
  assert (0 < 2 ^ (k - 3)) by (apply Z.pow_pos_nonneg; lia).
  assert (2 ^ k = 8 * 2 ^ (k - 3)) as Hpk.
  { replace k with (3 + (k - 3)) at 1 by lia. rewrite Z.pow_add_r by lia. lia. }
  assert (2 ^ (k - 1) = 4 * 2 ^ (k - 3)) as Hpk1.
  { replace (k - 1) with (2 + (k - 3)) by lia. rewrite Z.pow_add_r by lia. lia. }
  assert (base = c * 2 ^ k) as Hbase.
  { unfold c. pose proof (Z.div_mod base (2 ^ k)). rewrite Z.mul_comm. lia. }
  assert (2 ^ k / 2 = 4 * 2 ^ (k - 3)) as ->.
  { rewrite Hpk. replace (8 * 2 ^ (k - 3)) with (4 * 2 ^ (k - 3) * 2) by lia. apply Z.div_mul. lia. }
  assert (Z.shiftr (base + (4 * 2 ^ (k - 3) - 1)) 2 = c * (2 * 2 ^ (k - 3)) + 2 ^ (k - 3) - 1) as Ha.
  { rewrite Z.shiftr_div_pow2 by lia. symmetry. apply (Z.div_unique _ _ _ 3); lia. }
  assert (0 ≤ c) by (apply Z.div_pos; lia).
  rewrite Ha, Z.land_ones, Z.mod_small by lia.
  unfold napot_range. rewrite <- add_lor_shiftl by lia.
  replace ((c * (2 * 2 ^ (k - 3)) + 2 ^ (k - 3) - 1) * 2 ^ 2 + 3)
    with (c * 2 ^ (k - 1 + 1) + (2 ^ (k - 1) - 1)) by (replace (k - 1 + 1) with k by lia; lia).
  destruct (ones_run c (k - 1)) as [-> ->]; [lia|].
  replace (k - 1 + 1) with k by lia. f_equal; lia.
Qed.
