(* ===== verification/Linker.v ===== *)
(** The memory layout of the kernel image: [board/qemu-virt/linker.ld].

    The symbols the Rust code takes the address of ([_stext], [_user_text_start],
    [_user_text_end], [_sbss], [_ebss], [_stack_top], [_sheap], [_eheap]) are
    computed by the linker script from the sizes of the compiled sections.  The
    sizes are the class [Image]; the location counter is followed statement by
    statement. *)

From S2P Require Import Prelude Config.

Local Open Scope Z_scope.

(** The compiled sections: their sizes in bytes, and the addresses of the code
    symbols the kernel takes, as offsets into [.text] and [.user_text]. *)
Class Image := {
  text_size : Z;
  user_text_size : Z;
  rodata_size : Z;
  data_size : Z;
  bss_size : Z;
  trap_vector_off : Z;
  idle_task_entry_off : Z;
  user_echo_task_off : Z;
  user_violation_task_off : Z;
}.

Definition ORIGIN_RAM : Z := 0x80000000.
Definition LENGTH_RAM : Z := 128 * 1024 * 1024.
Definition KERNEL_STACK_SIZE : Z := 64 * 1024.
Definition KERNEL_HEAP_SIZE : Z := 16 * 1024 * 1024.

(** [ALIGN(a)] of the location counter. *)
Definition align_up (x a : Z) : Z := (x + a - 1) / a * a.

Section layout.
Context `{I : Image}.

Definition _stext : Z := align_up ORIGIN_RAM 4096.
Definition _etext : Z := _stext + text_size.
Definition _user_text_start : Z := align_up _etext 4096.
Definition _user_text_end : Z := align_up (_user_text_start + user_text_size) 4096.
Definition _srodata : Z := align_up _user_text_end 4096.
Definition _erodata : Z := _srodata + rodata_size.
Definition _sdata : Z := align_up _erodata 4096.
Definition _edata : Z := _sdata + data_size.
Definition _sbss : Z := align_up _edata 4096.
Definition _ebss : Z := _sbss + bss_size.
Definition _sstack : Z := align_up _ebss 4096.
Definition _estack : Z := _sstack + KERNEL_STACK_SIZE.
Definition _sheap : Z := align_up _estack 4096.
Definition _eheap : Z := _sheap + KERNEL_HEAP_SIZE.
Definition _end : Z := align_up _eheap 4096.
Definition _stack_top : Z := _estack.

(** Code addresses. *)
Definition trap_vector_addr : Z := _stext + trap_vector_off.
Definition idle_task_entry_addr : Z := _stext + idle_task_entry_off.
Definition user_echo_task_addr : Z := _user_text_start + user_echo_task_off.
Definition user_violation_task_addr : Z := _user_text_start + user_violation_task_off.
End layout.

(** The image links: sections have a size, the code symbols lie in their
    section, and the region RAM (128 MB) does not overflow, which [ld] checks. *)
Class ImageOk `(I : Image) : Prop := {
  text_pos : 0 < text_size;
  user_text_pos : 0 < user_text_size;
  rodata_nonneg : 0 ≤ rodata_size;
  data_nonneg : 0 ≤ data_size;
  bss_nonneg : 0 ≤ bss_size;
  trap_vector_in : 0 ≤ trap_vector_off < text_size;
  idle_in : 0 ≤ idle_task_entry_off < text_size;
  echo_in : 0 ≤ user_echo_task_off < user_text_size;
  violation_in : 0 ≤ user_violation_task_off < user_text_size;
  fits_ram : _end ≤ ORIGIN_RAM + LENGTH_RAM;
}.

Lemma align_up_spec x a : 0 < a → x ≤ align_up x a < x + a ∧ align_up x a mod a = 0.
Proof.
  intros Ha. unfold align_up. pose proof (Z.div_mod (x + a - 1) a).
  pose proof (Z.mod_pos_bound (x + a - 1) a). split; [lia|apply Z.mod_mul; lia].
Qed.

(** The kernel text starts at the origin of RAM. *)
Lemma _stext_val : _stext = 0x80000000.
Proof. reflexivity. Qed.

(** Proofs follow the layout symbolically; only closed images are evaluated. *)
#[global] Opaque align_up.

(** A page-aligned bound above [x] leaves at least a page above a page-aligned
    bound that is strictly below it. *)
Lemma page_step a b : a mod 4096 = 0 → b mod 4096 = 0 → a < b → a + 4096 ≤ b.
Proof. intros. pose proof (Z.div_mod a 4096). pose proof (Z.div_mod b 4096). lia. Qed.

(** The statements of the script after [.user_text], for any sizes. *)
Lemma data_layout_aux ute ro da bs :
  0 ≤ ro → 0 ≤ da → 0 ≤ bs →
  let srodata := align_up ute 4096 in
  let sdata := align_up (srodata + ro) 4096 in
  let sbss := align_up (sdata + da) 4096 in
  let sstack := align_up (sbss + bs) 4096 in
  let sheap := align_up (sstack + KERNEL_STACK_SIZE) 4096 in
  let eheap := sheap + KERNEL_HEAP_SIZE in
  align_up eheap 4096 ≤ ORIGIN_RAM + LENGTH_RAM →
  ute ≤ sstack ∧ sstack + KERNEL_STACK_SIZE ≤ sheap ∧ eheap = sheap + KERNEL_HEAP_SIZE ∧
  eheap ≤ 0x88000000 ∧ sheap mod 4096 = 0 ∧ eheap mod 4096 = 0.
Proof.
  intros Hro Hda Hbs srodata sdata sbss sstack sheap eheap Hfit.
  destruct (align_up_spec ute 4096) as [H1 _]; [lia|].
  destruct (align_up_spec (srodata + ro) 4096) as [H2 _]; [lia|].
  destruct (align_up_spec (sdata + da) 4096) as [H3 _]; [lia|].
  destruct (align_up_spec (sbss + bs) 4096) as [H4 _]; [lia|].
  destruct (align_up_spec (sstack + KERNEL_STACK_SIZE) 4096) as [H5 Hm]; [lia|].
  destruct (align_up_spec eheap 4096) as [H6 _]; [lia|].
  fold srodata sdata sbss sstack sheap in H1, H2, H3, H4, H5, Hm.
  change (ORIGIN_RAM + LENGTH_RAM) with 0x88000000 in Hfit.
  assert (eheap mod 4096 = 0) as Hme.
  { unfold eheap. change KERNEL_HEAP_SIZE with (4096 * 4096). by rewrite Z_mod_plus_full. }
  assert (eheap = sheap + KERNEL_HEAP_SIZE) as He by exact eq_refl.
  clearbody srodata sdata sbss sstack sheap eheap.
  repeat split; try assumption; lia.
Qed.

Section layout_facts.
Context `{I : Image} `{IO : !ImageOk I}.

Lemma text_layout :
  _stext < _user_text_start ∧ _user_text_start + 4096 ≤ _user_text_end ∧
  _user_text_start mod 4096 = 0 ∧ _user_text_end mod 4096 = 0.
Proof.
  destruct (align_up_spec _etext 4096) as [H1 Hm1]; [lia|].
  destruct (align_up_spec (_user_text_start + user_text_size) 4096) as [H2 Hm2]; [lia|].
  pose proof text_pos. pose proof user_text_pos.
  split; [unfold _user_text_start, _etext in *; lia|].
  split; [|split; assumption]. apply page_step; [assumption..|]. unfold _user_text_end. lia.
Qed.

Lemma data_layout :
  _user_text_end ≤ _sstack ∧ _sstack + KERNEL_STACK_SIZE ≤ _sheap ∧
  _eheap = _sheap + KERNEL_HEAP_SIZE ∧ _eheap ≤ 0x88000000 ∧
  _sheap mod 4096 = 0 ∧ _eheap mod 4096 = 0.
Proof.
  exact (data_layout_aux _user_text_end rodata_size data_size bss_size
    rodata_nonneg data_nonneg bss_nonneg fits_ram).
Qed.

(** The entry points lie in RAM. *)
Lemma entries_range :
  0 ≤ idle_task_entry_addr < 2 ^ 64 - 4 ∧ 0 ≤ user_echo_task_addr < 2 ^ 64 - 4 ∧
  0 ≤ user_violation_task_addr < 2 ^ 64 - 4.
Proof.
  pose proof idle_in. pose proof echo_in. pose proof violation_in.
  pose proof data_layout as (D1 & D2 & D3 & D4 & _). unfold KERNEL_STACK_SIZE, KERNEL_HEAP_SIZE in *.
  destruct (align_up_spec _etext 4096) as [HA _]; [lia|].
  destruct (align_up_spec (_user_text_start + user_text_size) 4096) as [HB _]; [lia|].
  fold _user_text_start in HA. fold _user_text_end in HB.
  unfold _etext, idle_task_entry_addr, user_echo_task_addr, user_violation_task_addr in *.
  rewrite _stext_val in *. lia.
Qed.
End layout_facts.

(** A small concrete image. *)
Definition sample_image : Image := {|
  text_size := 0x4000; user_text_size := 0x100; rodata_size := 0x1000;
  data_size := 0x10; bss_size := 0x2000; trap_vector_off := 0x20;
  idle_task_entry_off := 0x400; user_echo_task_off := 0; user_violation_task_off := 0x40;
|}.

#[export] Instance sample_image_ok : ImageOk sample_image.
Proof. constructor; vm_compute; intuition congruence. Qed.
