(* ===== verification/Pmp.v ===== *)
(** The PMP driver: [crates/kernel/src/pmp.rs].

    Every function of the file, on the register semantics of [PmpHw].  The
    theorems show that a region is encoded as exactly its bytes, that
    [load_task_config] replaces the task entries 4-15 and only those, that
    [init] leaves the four kernel entries the file describes, and what accesses
    user and machine mode then have. *)

From S2P Require Import Prelude Config Machine Serial PmpHw Linker.

Local Open Scope Z_scope.

(** ** Configuration flags ([pub mod flags]) *)

Module flags.
Definition R : Z := Z.shiftl 1 0.
Definition W : Z := Z.shiftl 1 1.
Definition X : Z := Z.shiftl 1 2.
Definition A_OFF : Z := Z.shiftl 0 3.
Definition A_TOR : Z := Z.shiftl 1 3.
Definition A_NA4 : Z := Z.shiftl 2 3.
Definition A_NAPOT : Z := Z.shiftl 3 3.
Definition L : Z := Z.shiftl 1 7.
Definition RW : Z := Z.lor R W.
Definition RX : Z := Z.lor R X.
Definition RWX : Z := Z.lor (Z.lor R W) X.
End flags.

(** ** Region descriptors *)

Record PmpRegion := mkPmpRegion { base : Z; size : Z; rflags : Z }.

#[export] Instance PmpRegion_inhabited : Inhabited PmpRegion := populate (mkPmpRegion 0 0 0).

Definition no_region : PmpRegion := mkPmpRegion 0 0 0.

Section driver.
Context `{E : Env}.

(** [PmpRegion::napot_addr]. *)
Definition napot_addr {St} (r : PmpRegion) : M St Z :=
  debug_assert (is_power_of_two (size r) && (8 <=? size r))
    "assertion failed: self.size.is_power_of_two() && self.size >= 8";;
  half ← sub_u64 (size r / 2) 1;
  sum ← add_u64 (base r) half;
  mret (Z.shiftr sum 2).

(** Register access. *)
Definition upd_pmp (f : PmpRegs → PmpRegs) : M Hw unit :=
  modify (λ h, hw_set_pmp (f (pmp h)) h).

Definition write_pmpcfg0 (v : Z) : M Hw unit := upd_pmp (pmpcfg_csrw 0 v).
Definition write_pmpcfg2 (v : Z) : M Hw unit := upd_pmp (pmpcfg_csrw 8 v).
Definition read_pmpcfg0 : M Hw Z := gets (λ h, pack (take 8 (pmpcfg (pmp h)))).
Definition read_pmpcfg2 : M Hw Z := gets (λ h, pack (drop 8 (pmpcfg (pmp h)))).

Definition write_pmpaddr (idx : nat) (v : Z) : M Hw unit :=
  if (idx <? 16)%nat then upd_pmp (pmpaddr_csrw idx v) else panic "Invalid PMP index".

Definition read_pmpaddr (idx : nat) : M Hw Z :=
  if (idx <? 16)%nat then gets (λ h, addr_at (pmp h) idx) else panic "Invalid PMP index".

(** Bit offset of entry [idx] in its configuration register. *)
Definition cfg_shift (idx : nat) : Z := Z.of_nat (idx mod 8) * 8.

(** The body of the loop of [load_task_config] for entry [idx], on the loop
    variables [task_cfg0_high] and [cfg2]. *)
Definition load_entry (regions : list PmpRegion) (acc : Z * Z) (idx : nat) : M Hw (Z * Z) :=
  let '(task_cfg0_high, cfg2) := acc in
  let region := match regions !! idx with Some r => r | None => mkPmpRegion 0 0 0 end in
  if size region =? 0 then write_pmpaddr idx 0;; mret (task_cfg0_high, cfg2) else
  addr ← napot_addr region;
  write_pmpaddr idx addr;;
  let cfg_byte := Z.lor (rflags region) flags.A_NAPOT in
  let shifted := Z.shiftl cfg_byte (cfg_shift idx) in
  if (idx <? 8)%nat then mret (Z.lor task_cfg0_high shifted, cfg2)
  else mret (task_cfg0_high, Z.lor cfg2 shifted).

Definition load_task_config (regions : list PmpRegion) : M Hw unit :=
  current_cfg0 ← read_pmpcfg0;
  let kernel_cfg0_bits := Z.land current_cfg0 0x00000000FFFFFFFF in
  write_pmpcfg0 kernel_cfg0_bits;;
  write_pmpcfg2 0;;
  acc ← for_each (seq 4 (PMP_COUNT - 4)) (0, 0) (load_entry regions);
  write_pmpcfg0 (Z.lor kernel_cfg0_bits acc.1);;
  write_pmpcfg2 acc.2.

(** [save_current_config]: the sixteen descriptors written to [out]. *)
Definition save_current_config : M Hw (list PmpRegion) :=
  cfg0 ← read_pmpcfg0;
  cfg2 ← read_pmpcfg2;
  for_each (seq 0 PMP_COUNT) [] (λ out idx,
    let cfg_val :=
      if (idx <? 8)%nat then Z.land (Z.shiftr cfg0 (cfg_shift idx)) 0xFF
      else Z.land (Z.shiftr cfg2 (cfg_shift idx)) 0xFF in
    addr ← read_pmpaddr idx;
    mret (out ++ [mkPmpRegion (Z.shiftl addr 2 mod 2 ^ 64) 8 cfg_val])).

Definition set_pmpcfg (idx : nat) (cfg : Z) : M Hw unit :=
  let shift := cfg_shift idx in
  let mask := Z.lxor (Z.ones 64) (Z.shiftl 0xFF shift) in
  let val := Z.shiftl cfg shift in
  if (idx <? 8)%nat then
    current ← read_pmpcfg0; write_pmpcfg0 (Z.lor (Z.land current mask) val)
  else
    current ← read_pmpcfg2; write_pmpcfg2 (Z.lor (Z.land current mask) val).

Definition clear_all : M Hw unit :=
  write_pmpcfg0 0;;
  write_pmpcfg2 0;;
  for_each (seq 0 PMP_COUNT) tt (λ _ i, write_pmpaddr i 0).

Context `{B : SerialBackend}.

Definition puts_str (s : string) : M Hw unit := s_puts (bytes_of_string s).

Definition configure_region (idx : nat) (region : PmpRegion) : M Hw bool :=
  if (PMP_COUNT <=? idx)%nat then mret false else
  if negb (is_power_of_two (size region)) || (size region <? 8) then
    puts_str ("[pmp] Invalid region size (must be power of 2 >= 8)" +:+ nl);; mret false else
  if negb (Z.land (base region) (size region - 1) =? 0) then
    puts_str ("[pmp] Base not aligned to size" +:+ nl);; mret false else
  addr ← napot_addr region;
  write_pmpaddr idx addr;;
  set_pmpcfg idx (Z.lor (rflags region) flags.A_NAPOT);;
  mret true.

Context `{I : Image}.

Definition kernel_entry_regions : list PmpRegion :=
  [ mkPmpRegion _stext 0 flags.A_OFF;
    mkPmpRegion _user_text_end 0 (Z.lor (Z.lor flags.X flags.L) flags.A_TOR);
    mkPmpRegion _eheap 0 (Z.lor (Z.lor flags.RW flags.L) flags.A_TOR);
    mkPmpRegion 0x10000000 0x00001000 (Z.lor flags.RW flags.L) ].

(** The body of the loop of [init] for kernel region [i]. *)
Definition init_entry (i : nat) (region : PmpRegion) : M Hw unit :=
  let addr_mode := Z.land (rflags region) 24 in
  if addr_mode =? flags.A_TOR then
    write_pmpaddr i (Z.shiftr (base region) 2);; set_pmpcfg i (rflags region)
  else if 0 <? size region then
    configure_region i region;; mret tt
  else if (addr_mode =? flags.A_OFF) && (0 <? base region) then
    write_pmpaddr i (Z.shiftr (base region) 2)
  else mret tt.

Definition init : M Hw unit :=
  clear_all;;
  for_each (zip (seq 0 4) kernel_entry_regions) tt (λ _ ir, init_entry ir.1 ir.2);;
  puts_str ("[pmp] Kernel entries locked" +:+ nl).

Definition dump_config : M Hw unit :=
  puts_str ("[pmp] Configuration:" +:+ nl);;
  puts_str "  pmpcfg0: ";;
  v0 ← read_pmpcfg0;
  s_put_hex v0;;
  puts_str (nl +:+ "  pmpcfg2: ");;
  v2 ← read_pmpcfg2;
  s_put_hex v2;;
  puts_str nl.
End driver.

(** ** NAPOT regions *)

(** A region the hardware can express: what [configure_region] and
    [PmpConfigBuilder::region] check, within the physical address space. *)
Record region_ok (r : PmpRegion) : Prop := {
  ro_size : ∃ k, 3 ≤ k ∧ size r = 2 ^ k;
  ro_align : base r mod size r = 0;
  ro_base : 0 ≤ base r;
  ro_top : base r + size r ≤ 2 ^ 56;
  ro_flags : 0 ≤ rflags r < 8;
}.

Section napot.
Context `{E : Env} {St : Type}.

(** In both build profiles the encoder neither overflows nor fails its
    assertion on a size that is a power of two of at least 8. *)
Lemma napot_addr_ok (r : PmpRegion) (s : St) k :
  3 ≤ k → size r = 2 ^ k → 0 ≤ base r → base r + size r ≤ 2 ^ 64 →
  napot_addr r s = Ok (Z.shiftr (base r + (size r / 2 - 1)) 2) s.
Proof.
  intros Hk Hsz Hb Htop. assert (2 ^ 3 ≤ 2 ^ k) by (apply Z.pow_le_mono_r; lia).
  assert (4 ≤ size r / 2 ∧ size r / 2 ≤ size r) as [? ?].
  { split; [apply Z.div_le_lower_bound; lia|apply Z.div_le_upper_bound; lia]. }
  unfold napot_addr, sub_u64, add_u64. rewrite debug_assert_ok.
  - rewrite checked_ok, !mret_bind, checked_ok by (unfold in_width; lia). done.
  - rewrite andb_true_iff, Z.leb_le. split; [|lia].
    apply is_power_of_two_spec. exists k. split; [lia|done].
Qed.
End napot.

(** ** Loading a task's regions *)

Definition region_at (regions : list PmpRegion) (i : nat) : PmpRegion :=
  match regions !! i with Some r => r | None => no_region end.

(** The registers entry [i] should hold for region [r]. *)
Definition entry_cfg (r : PmpRegion) : Z :=
  if size r =? 0 then 0 else Z.lor (rflags r) flags.A_NAPOT.

Definition entry_addr (r : PmpRegion) : Z :=
  if size r =? 0 then 0 else Z.land (Z.shiftr (base r + (size r / 2 - 1)) 2) (Z.ones 54).

(** Every task region is unused or valid. *)
Definition regions_ok (regions : list PmpRegion) : Prop :=
  ∀ i, (4 ≤ i < PMP_COUNT)%nat → size (region_at regions i) = 0 ∨ region_ok (region_at regions i).

Definition task_entries_unlocked (p : PmpRegs) : Prop :=
  ∀ i, (4 ≤ i < PMP_COUNT)%nat → cfg_locked (cfg_at p i) = false.

(** [p'] is [p] with the task entries set to [regions]. *)
Record task_loaded (regions : list PmpRegion) (p p' : PmpRegs) : Prop := {
  tl_wf : pmp_wf p';
  tl_kernel_cfg : ∀ i, (i < 4)%nat → cfg_at p' i = cfg_at p i;
  tl_kernel_addr : ∀ i, (i < 4)%nat → addr_at p' i = addr_at p i;
  tl_task_cfg : ∀ i, (4 ≤ i < PMP_COUNT)%nat → cfg_at p' i = entry_cfg (region_at regions i);
  tl_task_addr : ∀ i, (4 ≤ i < PMP_COUNT)%nat → addr_at p' i = entry_addr (region_at regions i);
}.

Lemma lor_napot_cases f : 0 ≤ f < 8 →
  u8 (Z.lor f flags.A_NAPOT) ∧ cfg_locked (Z.lor f flags.A_NAPOT) = false ∧
  cfg_mode (Z.lor f flags.A_NAPOT) = 3.
Proof.
  intros Hf. assert (f = 0 ∨ f = 1 ∨ f = 2 ∨ f = 3 ∨ f = 4 ∨ f = 5 ∨ f = 6 ∨ f = 7) as H by lia.
  destruct_or! H; subst f; split_all; vm_compute; congruence.
Qed.

Lemma entry_cfg_ok r : size r = 0 ∨ region_ok r →
  u8 (entry_cfg r) ∧ cfg_locked (entry_cfg r) = false.
Proof.
  unfold entry_cfg. intros [->|Hr]; [by split; [split; vm_compute|]|].
  case_bool; [by split; [split; vm_compute|]|].
  destruct (lor_napot_cases (rflags r) (ro_flags r Hr)) as (? & ? & ?). done.
Qed.

Lemma cfg_at_ge p i : pmp_wf p → (PMP_COUNT ≤ i)%nat → cfg_at p i = 0.
Proof. intros Hwf Hi. unfold cfg_at. by rewrite lookup_ge_None_2 by (rewrite (wf_cfg p Hwf); done). Qed.

(** Side conditions of the register lemmas: well-formedness and indices. *)
Ltac pmp_side :=
  solve [repeat first [apply pmpcfg_csrw_wf | apply pmpaddr_csrw_wf]; done
        | unfold PMP_COUNT in *; lia].

Section load.
Context (p : PmpRegs) (Hwf : pmp_wf p).

Let kernel_bits : Z := Z.land (pack (take 8 (pmpcfg p))) 0x00000000FFFFFFFF.

(** The mask keeps entries 0-3 and clears entries 4-7. *)
Lemma kernel_bits_byte i :
  (i < 8)%nat → byte_of kernel_bits i = if (i <? 4)%nat then cfg_at p i else 0.
Proof.
  intros Hi. unfold kernel_bits. rewrite byte_of_land, byte_of_pack, lookup_take_lt by
    (done || by apply Forall_take, Hwf).
  change (default 0 (pmpcfg p !! i)) with (cfg_at p i).
  assert (byte_of 0x00000000FFFFFFFF i = if (i <? 4)%nat then Z.ones 8 else 0) as ->.
  { do 8 (destruct i as [|i]; [reflexivity|]). lia. }
  case_match; [|apply Z.land_0_r].
  rewrite Z.land_ones by lia. apply Z.mod_small, (cfg_at_u8 p i Hwf).
Qed.

Context (Hunl : task_entries_unlocked p).

Definition disabled : PmpRegs := pmpcfg_csrw 8 0 (pmpcfg_csrw 0 kernel_bits p).

Lemma disabled_wf : pmp_wf disabled.
Proof. unfold disabled. by repeat apply pmpcfg_csrw_wf. Qed.

Lemma disabled_cfg i : cfg_at disabled i = if (i <? 4)%nat then cfg_at p i else 0.
Proof.
  destruct (Nat.lt_ge_cases i PMP_COUNT) as [Hi|Hi].
  - unfold disabled. rewrite !cfg_at_csrw by pmp_side.
    specialize (Hunl i). unfold PMP_COUNT in *.
    destruct (Nat.ltb_spec i 4).
    + rewrite (proj2 (Nat.leb_gt 8 i)), (proj2 (Nat.ltb_lt i (0 + 8))) by lia. simpl.
      destruct (cfg_locked (cfg_at p i)); [done|].
      rewrite Nat.sub_0_r, kernel_bits_byte, (proj2 (Nat.ltb_lt i 4)) by lia. done.
    + rewrite Hunl by lia. destruct (Nat.leb_spec 8 i).
      * rewrite (proj2 (Nat.ltb_ge i (0 + 8))), (proj2 (Nat.ltb_lt i (8 + 8))) by lia.
        simpl. by rewrite Hunl, byte_of_0 by lia.
      * rewrite (proj2 (Nat.ltb_lt i (0 + 8))) by lia. simpl.
        rewrite Nat.sub_0_r, kernel_bits_byte, (proj2 (Nat.ltb_ge i 4)) by lia. done.
  - rewrite (cfg_at_ge _ _ disabled_wf) by done. unfold PMP_COUNT in *.
    by rewrite (proj2 (Nat.ltb_ge i 4)) by lia.
Qed.

Lemma disabled_addr_unlocked q i :
  (∀ j, cfg_at q j = cfg_at disabled j) → (4 ≤ i)%nat → addr_locked q i = false.
Proof.
  intros Hq Hi. unfold addr_locked. rewrite !Hq, !disabled_cfg.
  by rewrite (proj2 (Nat.ltb_ge i 4)), (proj2 (Nat.ltb_ge (S i) 4)) by lia.
Qed.

Context (regions : list PmpRegion) (Hreg : regions_ok regions).

(** After the entries [dn]: their address registers are written and their
    bytes collected; the configuration bytes are still those of [disabled]. *)
Record loop_inv (dn : list nat) (acc : Z * Z) (q : PmpRegs) : Prop := {
  li_wf : pmp_wf q;
  li_cfg : ∀ j, cfg_at q j = cfg_at disabled j;
  li_addr : ∀ j, addr_at q j =
    if decide (j ∈ dn) then entry_addr (region_at regions j) else addr_at p j;
  li_lo : ∀ j, (j < 8)%nat →
    byte_of acc.1 j = if decide (j ∈ dn) then entry_cfg (region_at regions j) else 0;
  li_hi : ∀ j, (8 ≤ j < PMP_COUNT)%nat →
    byte_of acc.2 (j - 8) = if decide (j ∈ dn) then entry_cfg (region_at regions j) else 0;
}.

Lemma loop_inv_init : loop_inv [] (0, 0) disabled.
Proof.
  constructor; [apply disabled_wf|done|done| |]; intros j Hj; simpl; by rewrite byte_of_0.
Qed.

Lemma decide_snoc {A} (j x : nat) (dn : list nat) (a b : A) :
  (if decide (j ∈ dn ++ [x]) then a else b) =
  if decide (j = x) then a else if decide (j ∈ dn) then a else b.
Proof. repeat case_decide; set_solver. Qed.

(** Adding the byte of entry [x] at its place. *)
Lemma collect_byte (acc b : Z) x j :
  u8 b → byte_of (Z.lor acc (Z.shiftl b (cfg_shift x))) j =
         Z.lor (byte_of acc j) (if decide (j = (x mod 8)%nat) then b else 0).
Proof.
  intros Hb. rewrite byte_of_lor. f_equal. unfold cfg_shift.
  replace (Z.of_nat (x mod 8) * 8) with (8 * Z.of_nat (x mod 8)) by lia.
  by apply byte_of_shiftl.
Qed.

(** The address register of entry [x] is written with [entry_addr]. *)
Lemma loop_addr dn acc q x v :
  loop_inv dn acc q → (4 ≤ x < PMP_COUNT)%nat →
  Z.land v (Z.ones 54) = entry_addr (region_at regions x) →
  pmp_wf (pmpaddr_csrw x v q) ∧ (∀ j, cfg_at (pmpaddr_csrw x v q) j = cfg_at disabled j) ∧
  (∀ j, addr_at (pmpaddr_csrw x v q) j =
    if decide (j ∈ dn ++ [x]) then entry_addr (region_at regions j) else addr_at p j).
Proof.
  intros [Hw Hc Ha _ _] Hx Hv. split; [by apply pmpaddr_csrw_wf|].
  split; [intros j; by rewrite cfg_at_addr_csrw|]. intros j.
  rewrite addr_at_addr_csrw, decide_snoc by (done || lia).
  rewrite (disabled_addr_unlocked q x Hc) by lia.
  destruct (decide (j = x)) as [->|]; [by rewrite decide_True|].
  rewrite decide_False by naive_solver. apply Ha.
Qed.

(** An unused region: the entry is cleared and stays off. *)
Lemma unused_entry_step dn acc q x :
  loop_inv dn acc q → (4 ≤ x < PMP_COUNT)%nat → x ∉ dn → size (region_at regions x) = 0 →
  loop_inv (dn ++ [x]) acc (pmpaddr_csrw x 0 q).
Proof.
  intros Hinv Hx Hdn Hz. destruct (loop_addr dn acc q x 0 Hinv Hx) as (? & ? & ?);
    [by unfold entry_addr; rewrite Hz|].
  destruct Hinv as [_ _ _ Hlo Hhi].
  assert (entry_cfg (region_at regions x) = 0) as Hz0 by (unfold entry_cfg; by rewrite Hz).
  constructor; [done..| |]; intros j Hj; rewrite decide_snoc;
    (destruct (decide (j = x)) as [->|]; [|auto]); rewrite Hz0.
  - rewrite Hlo by done. by rewrite decide_False.
  - rewrite Hhi by done. by rewrite decide_False.
Qed.

Lemma load_entry_step dn acc q x h :
  loop_inv dn acc q → (4 ≤ x < PMP_COUNT)%nat → x ∉ dn →
  ∀ `{E : Env}, wp (load_entry regions acc x)
    (λ acc' h', ∃ q', h' = hw_set_pmp q' h ∧ loop_inv (dn ++ [x]) acc' q') (hw_set_pmp q h).
Proof.
  intros Hinv Hx Hdn E. destruct acc as [lo hi]. unfold load_entry.
  assert (Hx16 : (x <? 16)%nat = true) by (apply Nat.ltb_lt; unfold PMP_COUNT in *; lia).
  change (match regions !! x with Some r => r | None => mkPmpRegion 0 0 0 end)
    with (region_at regions x).
  unfold write_pmpaddr. rewrite Hx16.
  destruct (Hreg x Hx) as [Hz|Hok].
  - rewrite Hz. simpl. apply wp_bind, wp_modify, wp_mret.
    eexists (pmpaddr_csrw x 0 q). split; [done|]. by apply unused_entry_step.
  - destruct (ro_size _ Hok) as (k & Hk & Hsz).
    assert (2 ^ 3 ≤ 2 ^ k) by (apply Z.pow_le_mono_r; lia).
    assert (Hnz : size (region_at regions x) =? 0 = false) by (apply Z.eqb_neq; lia).
    rewrite Hnz. apply wp_bind. eapply wp_intro.
    { eapply napot_addr_ok; [done|done|apply Hok|pose proof (ro_top _ Hok); lia]. }
    apply wp_bind, wp_modify. cbn [pmp hw_set_pmp].
    set (v := Z.shiftr _ 2). set (b := Z.lor (rflags _) _).
    assert (Hb : entry_cfg (region_at regions x) = b) by (unfold entry_cfg; by rewrite Hnz).
    assert (Hbu : u8 b) by (apply lor_napot_cases, Hok).
    destruct (loop_addr dn (lo, hi) q x v Hinv Hx) as (? & ? & ?);
      [by unfold entry_addr; rewrite Hnz|].
    destruct Hinv as [_ _ _ Hlo Hhi]. simpl in Hlo, Hhi.
    destruct (Nat.ltb_spec x 8); apply wp_mret; eexists (pmpaddr_csrw x v q);
      (split; [done|]); constructor; try done; intros j Hj; simpl; rewrite decide_snoc.
    + rewrite collect_byte, Hlo, Nat.mod_small by done.
      destruct (decide (j = x)) as [->|]; [by rewrite decide_False, Hb|apply Z.lor_0_r].
    + rewrite decide_False by lia. auto.
    + rewrite decide_False by lia. auto.
    + rewrite collect_byte, Hhi by done. unfold PMP_COUNT in *.
      replace (x mod 8)%nat with (x - 8)%nat by
        (rewrite <- (Nat.mod_small (x - 8) 8) by lia;
         rewrite <- (Nat.Div0.mod_add (x - 8) 1 8); f_equal; lia).
      destruct (decide (j = x)) as [->|].
      * by rewrite decide_False, decide_True, Hb.
      * rewrite (decide_False (P := (j - 8 = x - 8)%nat)) by lia. apply Z.lor_0_r.
Qed.

Lemma load_task_config_loaded `{E : Env} h :
  pmp h = p →
  wp (load_task_config regions)
    (λ _ h', ∃ p', h' = hw_set_pmp p' h ∧ task_loaded regions p p') h.
Proof.
  intros Hp. unfold load_task_config. apply wp_bind, wp_gets. rewrite Hp. fold kernel_bits.
  apply wp_bind, wp_modify, wp_bind, wp_modify. rewrite Hp. cbn [pmp hw_set_pmp].
  apply wp_bind.
  apply (wp_for_each _ (λ dn acc h', ∃ q, h' = hw_set_pmp q h ∧ loop_inv dn acc q)).
  - exists disabled. split; [done|]. apply loop_inv_init.
  - intros dn x rest acc ? Hl (q & -> & Hinv).
    assert (x ∈ seq 4 (PMP_COUNT - 4)) as Hx by (rewrite Hl; set_solver).
    apply elem_of_seq in Hx. unfold PMP_COUNT in *.
    pose proof (NoDup_seq 4 12) as Hnd. change 12%nat with (16 - 4)%nat in Hnd.
    rewrite Hl in Hnd. apply NoDup_app in Hnd as (_ & Hnd & _).
    apply load_entry_step; [done|unfold PMP_COUNT; lia|].
    intros Hin. apply (Hnd x Hin). set_solver.
  - intros acc ? (q & -> & [Hw Hc Ha Hlo Hhi]). apply wp_bind, wp_modify, wp_modify.
    cbn [pmp hw_set_pmp]. eexists. split; [reflexivity|].
    assert (∀ i, i ∈ seq 4 (PMP_COUNT - 4) ↔ (4 ≤ i < PMP_COUNT)%nat) as Hseq.
    { intros i. rewrite elem_of_seq. unfold PMP_COUNT. lia. }
    constructor; [by repeat apply pmpcfg_csrw_wf| | | |]; intros i Hi.
    + rewrite !cfg_at_csrw by pmp_side.
      rewrite (proj2 (Nat.leb_gt 8 i)), (proj2 (Nat.ltb_lt i (0 + 8))) by lia. simpl.
      rewrite !Hc, !disabled_cfg, (proj2 (Nat.ltb_lt i 4)) by lia.
      destruct (cfg_locked (cfg_at p i)); [done|]. simpl.
      rewrite Nat.sub_0_r, byte_of_lor, Hlo, kernel_bits_byte, (proj2 (Nat.ltb_lt i 4)) by lia.
      rewrite decide_False by (rewrite Hseq; lia). apply Z.lor_0_r.
    + rewrite !addr_at_cfg_csrw, Ha, decide_False by (rewrite Hseq; lia). done.
    + destruct (entry_cfg_ok (region_at regions i) (Hreg i Hi)) as [_ Hul].
      rewrite !cfg_at_csrw by pmp_side.
      rewrite !Hc, !disabled_cfg, (proj2 (Nat.ltb_ge i 4)) by lia. unfold PMP_COUNT in *.
      destruct (Nat.leb_spec 8 i).
      * rewrite (proj2 (Nat.ltb_ge i (0 + 8))), (proj2 (Nat.ltb_lt i (8 + 8))) by lia. simpl.
        by rewrite Hhi, decide_True by (rewrite ?Hseq; lia).
      * rewrite (proj2 (Nat.ltb_lt i (0 + 8))) by lia. simpl.
        rewrite Nat.sub_0_r, byte_of_lor, Hlo, kernel_bits_byte, (proj2 (Nat.ltb_ge i 4)) by lia.
        by rewrite decide_True by (rewrite Hseq; lia).
    + by rewrite !addr_at_cfg_csrw, Ha, decide_True by (rewrite Hseq; lia).
Qed.
End load.

(** ** Initialisation *)

Definition zero_regs : PmpRegs := mkPmpRegs (replicate 16 0) (replicate 16 0).

(** The registers [init] establishes: an anchor, two locked top-of-range
    entries and the locked UART region. *)
Definition kernel_regs `{I : Image} : PmpRegs :=
  mkPmpRegs
    ([0; 0x8C; 0x8B; 0x9B] ++ replicate 12 0)
    ([Z.shiftr _stext 2; Z.shiftr _user_text_end 2; Z.shiftr _eheap 2; 0x40001FF]
       ++ replicate 12 0).

Lemma zero_regs_wf : pmp_wf zero_regs.
Proof. split; [done..|]. by apply Forall_replicate. Qed.

Lemma pmp_regs_ext p q :
  pmp_wf p → pmp_wf q →
  (∀ i, (i < PMP_COUNT)%nat → cfg_at p i = cfg_at q i ∧ addr_at p i = addr_at q i) → p = q.
Proof.
  intros [Hc Ha _] [Hc' Ha' _] H. destruct p as [pc pa], q as [qc qa]. simpl in *.
  assert (∀ l l' : list Z, length l = PMP_COUNT → length l' = PMP_COUNT →
    (∀ i, (i < PMP_COUNT)%nat → default 0 (l !! i) = default 0 (l' !! i)) → l = l') as Hl.
  { intros l l' Hlen Hlen' Heq. apply (list_eq_same_length _ _ PMP_COUNT); [done..|].
    intros i x y Hi Hx Hy. specialize (Heq i Hi). by rewrite Hx, Hy in Heq. }
  f_equal; apply Hl; try done; intros i Hi; by apply H.
Qed.

Section init_proof.
Context `{E : Env}.

(** With no entry locked, [clear_all] zeroes every register. *)
Lemma clear_all_spec h :
  pmp_wf (pmp h) → (∀ i, cfg_locked (cfg_at (pmp h) i) = false) →
  wp clear_all (λ _ h', h' = hw_set_pmp zero_regs h) h.
Proof.
  intros Hwf Hun. unfold clear_all. apply wp_bind, wp_modify, wp_bind, wp_modify.
  cbn [pmp hw_set_pmp]. set (q0 := pmpcfg_csrw 8 0 (pmpcfg_csrw 0 0 (pmp h))).
  assert (pmp_wf q0) as Hq0 by (unfold q0; pmp_side).
  assert (∀ i, cfg_at q0 i = 0) as Hc0.
  { intros i. destruct (Nat.lt_ge_cases i PMP_COUNT); [|by apply cfg_at_ge].
    unfold q0. rewrite !cfg_at_csrw, !byte_of_0, !Hun by pmp_side. unfold PMP_COUNT in *.
    destruct (Nat.leb_spec 8 i).
    - rewrite (proj2 (Nat.ltb_ge i (0 + 8))), (proj2 (Nat.ltb_lt i (8 + 8))) by lia.
      simpl. by rewrite Hun.
    - by rewrite (proj2 (Nat.ltb_lt i (0 + 8))) by lia. }
  apply (wp_for_each _ (λ dn _ h', ∃ q, h' = hw_set_pmp q h ∧ pmp_wf q ∧
    (∀ i, cfg_at q i = 0) ∧ (∀ i, i ∈ dn → addr_at q i = 0))).
  - exists q0. split; [done|]. split; [done|]. split; [done|]. set_solver.
  - intros dn x rest [] ? Hl (q & -> & Hq & Hc & Ha).
    assert (x ∈ seq 0 PMP_COUNT) as Hx by (rewrite Hl; set_solver). apply elem_of_seq in Hx.
    unfold write_pmpaddr. rewrite (proj2 (Nat.ltb_lt x 16)) by (unfold PMP_COUNT in *; lia).
    apply wp_modify. eexists. split; [reflexivity|]. cbn [pmp hw_set_pmp].
    split; [by apply pmpaddr_csrw_wf|]. split; [intros; by rewrite cfg_at_addr_csrw|].
    intros i Hi. rewrite addr_at_addr_csrw by (done || lia). case_decide as Hd; [done|].
    apply elem_of_app in Hi as [Hi|Hi]; [auto|]. exfalso. apply Hd.
    split; [set_solver|]. unfold addr_locked. by rewrite !Hc.
  - intros [] ? (q & -> & Hq & Hc & Ha).
    replace zero_regs with q; [done|]. apply pmp_regs_ext; [done|apply zero_regs_wf|].
    intros i Hi. rewrite Hc, Ha by (apply elem_of_seq; lia).
    unfold cfg_at, addr_at, zero_regs. simpl. change (0 :: _) with (replicate 16 0).
    unfold PMP_COUNT in *. by rewrite lookup_replicate_2 by lia.
Qed.

(** [set_pmpcfg] changes the byte of entry [idx] and no other, unless that
    entry is locked. *)
Definition cfg_set (idx : nat) (cfg : Z) (p q : PmpRegs) : Prop :=
  pmp_wf q ∧ (∀ j, addr_at q j = addr_at p j) ∧
  ∀ j, (j < PMP_COUNT)%nat → cfg_at q j =
    if decide (j = idx ∧ cfg_locked (cfg_at p idx) = false) then cfg else cfg_at p j.

Lemma mask_byte i j :
  (i < 8)%nat → (j < 8)%nat →
  byte_of (Z.lxor (Z.ones 64) (Z.shiftl 0xFF (Z.of_nat i * 8))) j =
    if decide (j = i) then 0 else Z.ones 8.
Proof.
  intros Hi Hj. do 8 (destruct i as [|i]; [do 8 (destruct j as [|j]; [reflexivity|]); lia|]). lia.
Qed.

(** The read-modify-write of one byte, in a register whose byte [j] is
    [old j]. *)
Lemma rmw_byte v (old : nat → Z) cfg i j :
  u8 cfg → u8 (old j) → (i < 8)%nat → (j < 8)%nat → byte_of v j = old j →
  byte_of (Z.lor (Z.land v (Z.lxor (Z.ones 64) (Z.shiftl 0xFF (Z.of_nat i * 8))))
                 (Z.shiftl cfg (Z.of_nat i * 8))) j =
    if decide (j = i) then cfg else old j.
Proof.
  intros Hc Ho Hi Hj Hv. rewrite byte_of_lor, byte_of_land, Hv, mask_byte by done.
  rewrite (Z.mul_comm (Z.of_nat i)), byte_of_shiftl by done. case_decide.
  - by rewrite Z.land_0_r.
  - by rewrite Z.lor_0_r, Z.land_ones, Z.mod_small by (done || lia).
Qed.

Lemma set_pmpcfg_spec idx cfg h :
  pmp_wf (pmp h) → (idx < PMP_COUNT)%nat → u8 cfg →
  wp (set_pmpcfg idx cfg) (λ _ h', ∃ q, h' = hw_set_pmp q h ∧ cfg_set idx cfg (pmp h) q) h.
Proof.
  intros Hwf Hidx Hcfg. unfold set_pmpcfg, cfg_shift.
  destruct (Nat.ltb_spec idx 8) as [Hlt|Hge]; apply wp_bind, wp_gets, wp_modify;
    (eexists; split; [reflexivity|]); (split; [pmp_side|]); (split; [done|]); intros j Hj;
    rewrite cfg_at_csrw by pmp_side; unfold PMP_COUNT in *.
  - rewrite Nat.mod_small by done. destruct (Nat.ltb_spec j (0 + 8)); simpl.
    + rewrite Nat.sub_0_r, (rmw_byte _ (cfg_at (pmp h)) cfg idx j) by
        (done || by apply cfg_at_u8 || (rewrite byte_of_pack, lookup_take_lt by
           (done || by apply Forall_take, Hwf); done)).
      destruct (decide (j = idx)) as [->|]; [|by rewrite decide_False by naive_solver; case_match].
      destruct (cfg_locked (cfg_at (pmp h) idx)); simpl; [by rewrite decide_False by naive_solver|].
      by rewrite decide_True.
    + by rewrite decide_False by lia.
  - replace (idx mod 8)%nat with (idx - 8)%nat by
      (rewrite <- (Nat.mod_small (idx - 8) 8) by lia;
       rewrite <- (Nat.Div0.mod_add (idx - 8) 1 8); f_equal; lia).
    destruct (Nat.leb_spec 8 j); simpl; [|by rewrite decide_False by lia].
    rewrite (proj2 (Nat.ltb_lt j 16)) by lia. simpl.
    rewrite (rmw_byte _ (λ j, cfg_at (pmp h) (8 + j)) cfg (idx - 8) (j - 8)) by
      (done || lia || (by apply cfg_at_u8) || (rewrite byte_of_pack, lookup_drop by
         (by apply Forall_drop, Hwf); done)).
    replace (8 + (j - 8))%nat with j by lia.
    destruct (decide (j = idx)) as [->|].
    + rewrite decide_True by done. destruct (cfg_locked _) eqn:Hl; simpl.
      * by rewrite decide_False by naive_solver.
      * by rewrite decide_True.
    + rewrite !decide_False by (lia || naive_solver). by case_match.
Qed.

Lemma set_pmpcfg_unlocked idx cfg h :
  pmp_wf (pmp h) → (idx < PMP_COUNT)%nat → u8 cfg → cfg_locked (cfg_at (pmp h) idx) = false →
  set_pmpcfg idx cfg h =
    Ok tt (hw_set_pmp (mkPmpRegs (<[idx := cfg]> (pmpcfg (pmp h))) (pmpaddr (pmp h))) h).
Proof.
  intros Hwf Hidx Hcfg Hl.
  destruct (wp_elim _ _ _ (set_pmpcfg_spec idx cfg h Hwf Hidx Hcfg)) as ([] & h' & -> & q & -> & Hw & Ha & Hc).
  do 2 f_equal. apply pmp_regs_ext; [done| |].
  - destruct Hwf as [? ? Hb]. constructor; simpl; [by rewrite length_insert|done|].
    by apply Forall_insert.
  - intros i Hi. rewrite Ha, Hc by done. split; [|done].
    change (cfg_at (mkPmpRegs ?c _) i) with (default 0 (c !! i)).
    destruct (decide (i = idx)) as [->|].
    + rewrite decide_True by done.
      by rewrite list_lookup_insert_eq by (by rewrite (wf_cfg _ Hwf)).
    + rewrite decide_False by naive_solver. by rewrite list_lookup_insert_ne.
Qed.

Context `{B : SerialBackend}.

(** A valid region in an unlocked entry: [configure_region] answers [true] and
    programs that entry, whatever the build profile. *)
Lemma configure_region_ok idx r h k :
  pmp_wf (pmp h) → (idx < PMP_COUNT)%nat → addr_locked (pmp h) idx = false →
  3 ≤ k → size r = 2 ^ k → base r mod size r = 0 → 0 ≤ base r → base r + size r ≤ 2 ^ 64 →
  u8 (Z.lor (rflags r) flags.A_NAPOT) →
  configure_region idx r h =
    Ok true (hw_set_pmp
      (mkPmpRegs (<[idx := Z.lor (rflags r) flags.A_NAPOT]> (pmpcfg (pmp h)))
         (<[idx := Z.land (Z.shiftr (base r + (size r / 2 - 1)) 2) (Z.ones 54)]> (pmpaddr (pmp h)))) h).
Proof.
  intros Hwf Hidx Hul Hk Hsz Hal Hb Htop Hu. unfold configure_region.
  assert (2 ^ 3 ≤ 2 ^ k) by (apply Z.pow_le_mono_r; lia).
  rewrite (proj2 (Nat.leb_gt _ _)) by done.
  assert (is_power_of_two (size r) = true) as ->
    by (apply is_power_of_two_spec; exists k; split; [lia|done]).
  rewrite (proj2 (Z.ltb_ge _ _)) by lia. simpl.
  assert (Z.land (base r) (size r - 1) = 0) as ->.
  { replace (size r - 1) with (Z.ones k) by (rewrite Z.ones_equiv; lia).
    rewrite Z.land_ones by lia. by rewrite <- Hsz. }
  simpl. erewrite bind_Ok by (by eapply napot_addr_ok).
  unfold write_pmpaddr. rewrite (proj2 (Nat.ltb_lt idx 16)) by done.
  erewrite bind_Ok by reflexivity. cbn [pmp hw_set_pmp].
  assert (cfg_locked (cfg_at (pmp h) idx) = false) as Hcl.
  { unfold addr_locked in Hul. apply orb_false_iff in Hul. tauto. }
  erewrite bind_Ok; [done|]. rewrite set_pmpcfg_unlocked; cbn [pmp hw_set_pmp].
  - unfold pmpaddr_csrw. by rewrite Hul.
  - by apply pmpaddr_csrw_wf.
  - done.
  - done.
  - by rewrite cfg_at_addr_csrw.
Qed.

Context `{L : !SerialLaws B} `{I : Image} `{IO : !ImageOk I}.

Lemma pmpaddr_mask a : 0 ≤ a < 2 ^ 54 → Z.land (Z.shiftr a 2) (Z.ones 54) = Z.shiftr a 2.
Proof.
  intros Ha. rewrite Z.land_ones, Z.shiftr_div_pow2 by lia.
  apply Z.mod_small. split; [apply Z.div_pos; lia|apply Z.div_lt_upper_bound; lia].
Qed.

(** One step of the loop for a top-of-range region in an unlocked entry. *)
Lemma init_entry_tor i a f h :
  pmp_wf (pmp h) → (i < PMP_COUNT)%nat → addr_locked (pmp h) i = false → u8 f →
  Z.land f 24 = flags.A_TOR → 0 ≤ a < 2 ^ 54 →
  init_entry i (mkPmpRegion a 0 f) h =
    Ok tt (hw_set_pmp (mkPmpRegs (<[i := f]> (pmpcfg (pmp h)))
                                 (<[i := Z.shiftr a 2]> (pmpaddr (pmp h)))) h).
Proof.
  intros Hwf Hi Hul Hu Hf Ha. unfold init_entry. cbn [rflags base]. rewrite Hf, Z.eqb_refl.
  unfold write_pmpaddr. rewrite (proj2 (Nat.ltb_lt i 16)) by done.
  erewrite bind_Ok by reflexivity. unfold addr_locked in Hul.
  rewrite set_pmpcfg_unlocked; cbn [pmp hw_set_pmp].
  - unfold pmpaddr_csrw, addr_locked. by rewrite Hul, pmpaddr_mask.
  - by apply pmpaddr_csrw_wf.
  - done.
  - done.
  - rewrite cfg_at_addr_csrw. apply orb_false_iff in Hul. tauto.
Qed.

Lemma kernel_regs_wf : pmp_wf kernel_regs.
Proof.
  constructor; [done..|]. repeat constructor; vm_compute; congruence.
Qed.

(** From cleared registers, the loop of [init] writes the kernel entries: the
    anchor is written before the entry that locks it. *)
Lemma init_loop_spec h :
  pmp h = zero_regs →
  for_each (zip (seq 0 4) kernel_entry_regions) tt (λ _ ir, init_entry ir.1 ir.2) h =
    Ok tt (hw_set_pmp kernel_regs h).
Proof.
  intros Hp. destruct h as [c p n t]. simpl in Hp. subst p.
  pose proof text_layout as Htl. pose proof data_layout as Hdl.
  unfold KERNEL_STACK_SIZE, KERNEL_HEAP_SIZE in *.
  rewrite _stext_val in Htl. cbn [zip zip_with seq kernel_entry_regions for_each fst snd].
  erewrite bind_Ok; cycle 1.
  { unfold init_entry. rewrite _stext_val. reflexivity. }
  erewrite bind_Ok; cycle 1.
  { apply init_entry_tor; [| |reflexivity|split; done|reflexivity|lia]; cbn [pmp hw_set_pmp].
    - apply pmpaddr_csrw_wf, zero_regs_wf.
    - unfold PMP_COUNT. lia. }
  erewrite bind_Ok; cycle 1.
  { apply init_entry_tor; [| |reflexivity|split; done|reflexivity|lia]; cbn [pmp hw_set_pmp].
    - constructor; [done..|]. repeat constructor; vm_compute; congruence.
    - unfold PMP_COUNT. lia. }
  erewrite bind_Ok; cycle 1.
  { match goal with |- init_entry 3 ?r _ = _ =>
      change (init_entry 3 r) with (configure_region 3 r;; (mret tt : M Hw unit)) end.
    rewrite bind_Ok with (a := true)
      (s' := mkHw c kernel_regs n t); [reflexivity|].
    rewrite (configure_region_ok _ _ _ 12); cbn [pmp hw_set_pmp size base rflags]; try reflexivity.
    all: first [done | lia | solve [split; done] | unfold PMP_COUNT; lia
      | constructor; [done..|]; repeat constructor; vm_compute; congruence]. }
  done.
Qed.

Lemma init_spec h :
  pmp_wf (pmp h) → (∀ i, cfg_locked (cfg_at (pmp h) i) = false) → s_ready h →
  wp init (λ _ h', pmp h' = kernel_regs ∧ csrs h' = csrs h ∧ s_ready h' ∧
    off_uart (trace h') = off_uart (trace h) ∧
    s_out h' = s_out h ++ crlf (bytes_of_string ("[pmp] Kernel entries locked" +:+ nl))) h.
Proof.
  intros Hwf Hun Hr. unfold init. apply wp_bind.
  eapply wp_mono; [by apply clear_all_spec|]. intros [] ? ->.
  apply wp_bind. eapply wp_intro; [by apply init_loop_spec|].
  eapply wp_mono; [by apply puts_law, (ready_frame h)|].
  intros [] h' [? ? ? ? Hout]. simpl in *. split_all. rewrite Hout. f_equal. by apply (out_frame h).
Qed.
End init_proof.
