(* ===== verification/PmpAccess.v ===== *)
(** Memory protection as the tasks and the kernel experience it.

    The view of [pmp.rs] from the accesses: an abstract decision procedure on
    zones ([zones_allow]), the theorem that the registers programmed by
    [load_task_config] implement it, the persistence of the kernel entries, and
    what user mode and machine mode can and cannot reach. *)

From S2P Require Import Prelude Config Machine Serial PmpHw Linker Pmp.

Local Open Scope Z_scope.

(** ** What the programmed registers allow *)

(** A byte range with its permission bits (R, W, X and L). *)
Record zone := mkZone { z_lo : Z; z_hi : Z; z_perm : Z }.

(** The first zone that overlaps an access decides it; machine mode is allowed
    what no zone overlaps. *)
Fixpoint zones_allow (zs : list zone) (m : priv) (acc : access) (addr len : Z) : bool :=
  match zs with
  | [] => match m with MMode => true | UMode => false end
  | z :: zs' =>
    if misses (z_lo z) (z_hi z) addr len then zones_allow zs' m acc addr len
    else (z_lo z <=? addr) && (addr + len <=? z_hi z) && permitted (z_perm z) m acc
  end.

(** The zones of the kernel entries 0-3. *)
Definition kernel_zones `{I : Image} : list zone :=
  [ mkZone _stext _user_text_end (Z.lor flags.X flags.L);
    mkZone _user_text_end _eheap (Z.lor flags.RW flags.L);
    mkZone UART_BASE (UART_BASE + 0x1000) (Z.lor flags.RW flags.L) ].

(** The zones of a task: its used regions, in entry order. *)
Definition region_zone (r : PmpRegion) : option zone :=
  if size r =? 0 then None else Some (mkZone (base r) (base r + size r) (rflags r)).

Definition task_zones (regions : list PmpRegion) : list zone :=
  omap (λ i, region_zone (region_at regions i)) (seq 4 (PMP_COUNT - 4)).

(** The registers hold the four kernel entries. *)
Definition kernel_entries `{I : Image} (p : PmpRegs) : Prop :=
  ∀ i, (i < 4)%nat → cfg_at p i = cfg_at kernel_regs i ∧ addr_at p i = addr_at kernel_regs i.

Section zones.
Definition entry_zone (p : PmpRegs) (i : nat) : option zone :=
  '(lo, hi) ← entry_range p i; Some (mkZone lo hi (Z.land (cfg_at p i) 0x87)).

Lemma permitted_mask b m acc : permitted (Z.land b 0x87) m acc = permitted b m acc.
Proof.
  unfold permitted, cfg_locked. rewrite !Z.land_spec.
  destruct m, acc; simpl; by rewrite ?andb_true_r.
Qed.

Lemma pmp_scan_zones p es m acc addr len :
  pmp_scan p es m acc addr len = zones_allow (omap (entry_zone p) es) m acc addr len.
Proof.
  induction es as [|i es IH]; simpl; [done|]. unfold entry_zone at 1.
  destruct (entry_range p i) as [[lo hi]|]; simpl; [|done].
  rewrite permitted_mask. by case_match.
Qed.

Lemma shiftr_shiftl_4 a : a mod 4096 = 0 → Z.shiftl (Z.shiftr a 2) 2 = a.
Proof.
  intros Ha. rewrite Z.shiftl_mul_pow2, Z.shiftr_div_pow2 by lia.
  pose proof (Z.div_mod a 4096). pose proof (Z.div_mod a 4). pose proof (Z.mod_pos_bound a 4).
  change (2 ^ 2) with 4. lia.
Qed.

Lemma omap_app {A C} (f : A → option C) (l k : list A) : omap f (l ++ k) = omap f l ++ omap f k.
Proof. induction l as [|x l IH]; csimpl; [done|]. rewrite IH. by destruct (f x). Qed.

Lemma omap_ext_in {A C} (f g : A → option C) (l : list A) :
  (∀ x, x ∈ l → f x = g x) → omap f l = omap g l.
Proof.
  induction l as [|x l IH]; intros H; csimpl; [done|].
  rewrite H by set_solver. rewrite IH by (intros; apply H; set_solver). done.
Qed.

Lemma task_entry_zone regions p p' i :
  task_loaded regions p p' → regions_ok regions → (4 ≤ i < PMP_COUNT)%nat →
  entry_zone p' i = region_zone (region_at regions i).
Proof.
  intros [_ _ _ Hc Ha] Hok Hi. unfold entry_zone, entry_range, region_zone.
  rewrite Hc, Ha by done. unfold entry_cfg, entry_addr.
  destruct (Hok i Hi) as [->|Hr]; [done|].
  destruct (ro_size _ Hr) as (k & Hk & Hsz).
  assert (2 ^ 3 ≤ 2 ^ k) by (apply Z.pow_le_mono_r; lia).
  rewrite (proj2 (Z.eqb_neq (size _) 0)) by lia.
  destruct (lor_napot_cases _ (ro_flags _ Hr)) as (_ & _ & ->).
  rewrite Hsz, napot_range_encode by (try rewrite <- Hsz; apply Hr || lia).
  simpl. do 2 f_equal.
  assert (∀ f, 0 ≤ f < 8 → Z.land (Z.lor f flags.A_NAPOT) 0x87 = f) as Hf.
  { intros f Hf. assert (f = 0 ∨ f = 1 ∨ f = 2 ∨ f = 3 ∨ f = 4 ∨ f = 5 ∨ f = 6 ∨ f = 7)
      as H8 by lia. by destruct_or! H8; subst f. }
  apply Hf, Hr.
Qed.

Context `{I : Image} `{IO : !ImageOk I}.

Lemma kernel_entry_zones p :
  kernel_entries p → omap (entry_zone p) (seq 0 4) = kernel_zones.
Proof.
  intros Hk. pose proof text_layout as (_ & _ & _ & Hu). pose proof data_layout as (_ & _ & _ & _ & _ & He).
  assert (∀ i, (i < 4)%nat → entry_zone p i = entry_zone kernel_regs i) as Heq.
  { intros i Hi. unfold entry_zone, entry_range. destruct (Hk i Hi) as [-> ->].
    destruct i as [|i]; [done|]. by destruct (Hk i) as [_ ->]; [lia|]. }
  rewrite (omap_ext_in _ (entry_zone kernel_regs)) by
    (intros i Hi; apply Heq; apply elem_of_seq in Hi; lia).
  assert (Hs : Z.shiftl (Z.shiftr _stext 2) 2 = _stext) by (by rewrite _stext_val).
  trans [mkZone (Z.shiftl (Z.shiftr _stext 2) 2) (Z.shiftl (Z.shiftr _user_text_end 2) 2) 0x84;
         mkZone (Z.shiftl (Z.shiftr _user_text_end 2) 2) (Z.shiftl (Z.shiftr _eheap 2) 2) 0x83;
         mkZone 0x10000000 0x10001000 0x83]; [reflexivity|].
  rewrite Hs, !shiftr_shiftl_4 by assumption. reflexivity.
Qed.

(** The access decision of the registers is that of the zones. *)
Lemma pmp_check_zones regions p p' m acc addr len :
  task_loaded regions p p' → regions_ok regions → kernel_entries p →
  pmp_check p' m acc addr len =
    zones_allow (kernel_zones ++ task_zones regions) m acc addr len.
Proof.
  intros Hl Hok Hk. unfold pmp_check. rewrite pmp_scan_zones. f_equal.
  change (seq 0 PMP_COUNT) with (seq 0 4 ++ seq 4 (PMP_COUNT - 4)). rewrite omap_app.
  f_equal.
  - apply kernel_entry_zones. intros i Hi. destruct (Hk i Hi) as [<- <-].
    split; [by apply Hl|by apply Hl].
  - apply omap_ext_in. intros i Hi. apply elem_of_seq in Hi.
    eapply task_entry_zone; [done|done|unfold PMP_COUNT in *; lia].
Qed.
End zones.

(** ** Properties of the PMP driver *)

(** The invariant of the registers after boot: the kernel entries are in place
    and the task entries can be rewritten. *)
Record pmp_ready `{I : Image} (p : PmpRegs) : Prop := {
  pr_wf : pmp_wf p;
  pr_kernel : kernel_entries p;
  pr_unlocked : task_entries_unlocked p;
}.

Section ready.
Context `{E : Env} `{I : Image}.

Lemma task_loaded_ready regions p p' :
  pmp_ready p → regions_ok regions → task_loaded regions p p' → pmp_ready p'.
Proof.
  intros [Hwf Hk Hu] Hok Hl. constructor; [apply Hl| |].
  - intros i Hi. destruct (Hk i Hi) as [<- <-]. split; by apply Hl.
  - intros i Hi. rewrite (tl_task_cfg _ _ _ Hl) by done. by apply entry_cfg_ok, Hok.
Qed.

Lemma load_task_config_ready regions h :
  pmp_ready (pmp h) → regions_ok regions →
  wp (load_task_config regions) (λ _ h', ∃ p', h' = hw_set_pmp p' h ∧
    task_loaded regions (pmp h) p' ∧ pmp_ready p') h.
Proof.
  intros Hr Hok. eapply wp_mono; [by apply (load_task_config_loaded (pmp h)); try apply Hr|].
  intros [] h' (p' & -> & Hl). exists p'. split_all. by eapply task_loaded_ready.
Qed.

Lemma load_task_config_zones `{IO : !ImageOk I} regions h h' :
  pmp_ready (pmp h) → regions_ok regions → load_task_config regions h = Ok tt h' →
  ∀ m acc addr len, pmp_check (pmp h') m acc addr len =
    zones_allow (kernel_zones ++ task_zones regions) m acc addr len.
Proof.
  intros Hr Hok Hrun m acc addr len.
  destruct (wp_elim _ _ _ (load_task_config_ready regions h Hr Hok)) as ([] & h1 & Hrun' & p' & -> & Hl & _).
  rewrite Hrun in Hrun'. injection Hrun' as ->.
  eapply pmp_check_zones; [done|done|apply Hr].
Qed.
End ready.

Lemma kernel_regs_ready `{I : Image} : pmp_ready kernel_regs.
Proof.
  constructor; [apply kernel_regs_wf|done|]. intros i Hi. unfold PMP_COUNT in Hi.
  do 4 (destruct i as [|i]; [lia|]). do 12 (destruct i as [|i]; [reflexivity|]). lia.
Qed.

(** The NAPOT encoder is exact.  For a region whose size is a power of two
    of at least 8 bytes, aligned to its size and inside the 56-bit physical
    address space, [napot_addr] succeeds in both build profiles and the
    hardware decodes the register value as exactly the bytes of the region. *)
Lemma napot_addr_exact `{E : Env} (r : PmpRegion) (h : Hw) :
  region_ok r →
  ∃ a, napot_addr r h = Ok a h ∧ napot_range (Z.land a (Z.ones 54)) = (base r, base r + size r).
Proof.
  intros Hr. destruct (ro_size _ Hr) as (k & Hk & Hsz). eexists. split.
  - eapply napot_addr_ok; [done|done|apply Hr|pose proof (ro_top _ Hr); lia].
  - rewrite Hsz. apply napot_range_encode; rewrite <- ?Hsz; apply Hr || done.
Qed.

(** C7: loading a task's configuration refines the abstract view of protection.
    It returns, touches nothing but the PMP registers, keeps the kernel entries
    and the ability to reload, and afterwards every access, in either mode, is
    decided as by the list of zones: kernel text, kernel data, the UART, then
    the task's own regions in order. *)
Theorem load_task_config_refines `{E : Env} `{I : Image} `{IO : !ImageOk I} regions h :
  pmp_ready (pmp h) → regions_ok regions →
  ∃ p', load_task_config regions h = Ok tt (hw_set_pmp p' h) ∧ pmp_ready p' ∧
    ∀ m acc addr len, pmp_check p' m acc addr len =
      zones_allow (kernel_zones ++ task_zones regions) m acc addr len.
Proof.
  intros Hr Hok.
  destruct (wp_elim _ _ _ (load_task_config_ready regions h Hr Hok)) as ([] & h1 & Hrun & p' & -> & Hl & Hr').
  exists p'. split_all. intros. eapply pmp_check_zones; [done|done|apply Hr].
Qed.

(** The registers after [init] on the sample image, and a task with a code, a
    stack and a device region. *)
Definition sample_hw : Hw := hw_set_pmp (kernel_regs (I := sample_image)) hw_reset.

Definition sample_regions : list PmpRegion :=
  replicate 4 no_region ++
  [mkPmpRegion 0x80004000 0x1000 flags.RX; mkPmpRegion 0x8001A000 0x2000 flags.RW;
   mkPmpRegion 0x20000000 0x1000 flags.RW] ++ replicate 9 no_region.

Lemma sample_regions_ok : regions_ok sample_regions.
Proof.
  intros i Hi. unfold PMP_COUNT in Hi.
  do 4 (destruct i as [|i]; [lia|]).
  destruct i as [|i]; [right; constructor; [exists 12|..]; vm_compute; intuition congruence|].
  destruct i as [|i]; [right; constructor; [exists 13|..]; vm_compute; intuition congruence|].
  destruct i as [|i]; [right; constructor; [exists 12|..]; vm_compute; intuition congruence|].
  left. do 9 (destruct i as [|i]; [reflexivity|]). lia.
Qed.

Lemma load_task_config_refines_witness :
  ∃ p', load_task_config (E := quiet_board true) sample_regions sample_hw
          = Ok tt (hw_set_pmp p' sample_hw) ∧ pmp_ready (I := sample_image) p' ∧
    ∀ m acc addr len, pmp_check p' m acc addr len =
      zones_allow (kernel_zones (I := sample_image) ++ task_zones sample_regions) m acc addr len.
Proof.
  apply (load_task_config_refines (E := quiet_board true) (I := sample_image) sample_regions sample_hw);
    [apply (kernel_regs_ready (I := sample_image))|apply sample_regions_ok].
Defined.

(** [init], from registers with no locked entry (the reset state), returns
    with exactly the kernel entries it documents: the anchor [_stext], the
    execute-only text range, the read-write data range and the UART page, each
    with its lock bit except the anchor; the task entries are off; no other
    register changes. *)
Lemma pmp_init_establishes `{E : Env} `{B : SerialBackend} `{L : !SerialLaws B}
    `{I : Image} `{IO : !ImageOk I} h :
  pmp_wf (pmp h) → (∀ i, cfg_locked (cfg_at (pmp h) i) = false) → s_ready h →
  ∃ h', init h = Ok tt h' ∧ pmp h' = kernel_regs ∧ pmp_ready (pmp h') ∧ csrs h' = csrs h ∧
    off_uart (trace h') = off_uart (trace h) ∧ s_ready h'.
Proof.
  intros Hwf Hun Hr. destruct (wp_elim _ _ _ (init_spec h Hwf Hun Hr)) as ([] & h' & Hrun & Hp & ? & ? & ? & _).
  exists h'. split_all. rewrite Hp. apply kernel_regs_ready.
Qed.

(** The three ways the driver writes PMP registers; all its functions are built
    from them. *)
Inductive pmp_op := OpCfg0 (v : Z) | OpCfg2 (v : Z) | OpAddr (idx : nat) (v : Z).

Definition run_op (op : pmp_op) : M Hw unit :=
  match op with
  | OpCfg0 v => write_pmpcfg0 v
  | OpCfg2 v => write_pmpcfg2 v
  | OpAddr idx v => write_pmpaddr idx v
  end.

Section locked.
Context `{I : Image}.

Definition kernel_locked (p : PmpRegs) : Prop :=
  pmp_wf p ∧ (∀ i, (1 ≤ i < 4)%nat → cfg_at p i = cfg_at kernel_regs i) ∧
  (∀ i, (i < 4)%nat → addr_at p i = addr_at kernel_regs i).

Lemma kernel_regs_locks i : (1 ≤ i < 4)%nat → cfg_locked (cfg_at kernel_regs i) = true.
Proof. intros Hi. do 4 (destruct i as [|i]; [lia || reflexivity|]). lia. Qed.

Lemma kernel_locked_cfg first v p : kernel_locked p → kernel_locked (pmpcfg_csrw first v p).
Proof.
  intros (Hwf & Hc & Ha). split; [by apply pmpcfg_csrw_wf|]. split; [|done].
  intros i Hi. rewrite cfg_at_csrw by pmp_side.
  rewrite Hc, kernel_regs_locks by done. simpl. by rewrite andb_false_r.
Qed.

Lemma kernel_locked_addr j v p :
  (j < PMP_COUNT)%nat → kernel_locked p → kernel_locked (pmpaddr_csrw j v p).
Proof.
  intros Hj (Hwf & Hc & Ha). split; [by apply pmpaddr_csrw_wf|].
  split; [intros; rewrite cfg_at_addr_csrw; auto|].
  intros i Hi. rewrite addr_at_addr_csrw by done. case_decide as Hd; [|auto].
  destruct Hd as [<- Hl]. exfalso. unfold addr_locked in Hl.
  apply orb_false_iff in Hl as [Hl Hl'].
  destruct i as [|i]; [by rewrite Hc in Hl' by lia|].
  rewrite Hc, kernel_regs_locks in Hl by lia. done.
Qed.

Lemma run_op_locked op h h' :
  kernel_locked (pmp h) → run_op op h = Ok tt h' → kernel_locked (pmp h').
Proof.
  intros Hk. destruct op as [v|v|j v]; simpl.
  1,2: intros [= <-]; by apply kernel_locked_cfg.
  unfold write_pmpaddr. case_match eqn:Hj; [|done]. intros [= <-].
  apply kernel_locked_addr; [|done]. by apply Nat.ltb_lt.
Qed.
End locked.

(** The kernel entries cannot be undone.  Whatever sequence of PMP register
    writes the driver performs after [init] (reloading tasks, [clear_all],
    reconfiguring any entry), the configuration of entries 1-3 and the address
    registers 0-3 keep the values of [init]; the anchor's own configuration
    byte is the one kernel byte that is not locked. *)
Lemma kernel_entries_survive `{I : Image} (ops : list pmp_op) h h' :
  pmp h = kernel_regs → for_each ops tt (λ _ op, run_op op) h = Ok tt h' →
  (∀ i, (1 ≤ i < 4)%nat → cfg_at (pmp h') i = cfg_at kernel_regs i) ∧
  (∀ i, (i < 4)%nat → addr_at (pmp h') i = addr_at kernel_regs i) ∧
  cfg_locked (cfg_at kernel_regs 0) = false.
Proof.
  intros Hp Hrun.
  assert (kernel_locked (pmp h)) as Hk by (rewrite Hp; split; [apply kernel_regs_wf|done]).
  cut (kernel_locked (pmp h')); [intros (_ & ? & ?); by split_all|].
  clear Hp. revert h Hk Hrun. induction ops as [|op ops IH]; intros h Hk; simpl.
  - by intros [= <-].
  - destruct (run_op op h) as [[] h1|e h1|h1] eqn:Hop.
    + erewrite bind_Ok by done. apply IH. by eapply run_op_locked.
    + by erewrite bind_Panic by done.
    + unfold mbind, M_bind. by rewrite Hop.
Qed.

(** *** Who can access what *)

Lemma misses_spec lo hi addr len :
  misses lo hi addr len = true ↔ hi ≤ lo ∨ addr + len ≤ lo ∨ hi ≤ addr.
Proof. unfold misses. rewrite !orb_true_iff, !Z.leb_le. tauto. Qed.

Lemma zones_allow_hit z zs m acc addr len :
  z_lo z ≤ addr → 0 < len → addr + len ≤ z_hi z →
  zones_allow (z :: zs) m acc addr len = permitted (z_perm z) m acc.
Proof.
  intros Hlo Hlen Hhi. simpl.
  destruct (misses _ _ _ _) eqn:Hm; [apply misses_spec in Hm; lia|].
  by rewrite (proj2 (Z.leb_le _ _) Hlo), (proj2 (Z.leb_le _ _) Hhi).
Qed.

Lemma zones_allow_miss z zs m acc addr len :
  z_hi z ≤ addr ∨ addr + len ≤ z_lo z →
  zones_allow (z :: zs) m acc addr len = zones_allow zs m acc addr len.
Proof.
  intros H. simpl. by rewrite (proj2 (misses_spec _ _ _ _)) by tauto.
Qed.

Lemma zones_allow_all_miss zs m acc addr len :
  Forall (λ z, z_hi z ≤ addr ∨ addr + len ≤ z_lo z) zs →
  zones_allow zs m acc addr len = match m with MMode => true | UMode => false end.
Proof.
  induction 1 as [|z zs Hz _ IH]; [done|]. by rewrite zones_allow_miss.
Qed.

(** An access that overlaps a zone is allowed only by the permissions of that
    zone, when the earlier zones miss it. *)
Lemma zones_allow_overlap z zs m acc addr len :
  misses (z_lo z) (z_hi z) addr len = false → permitted (z_perm z) m acc = false →
  zones_allow (z :: zs) m acc addr len = false.
Proof. intros Hm Hp. simpl. by rewrite Hm, Hp, andb_false_r. Qed.

(** An access partly inside and partly outside a region. *)
Definition straddles (r : PmpRegion) (addr len : Z) : Prop :=
  misses (base r) (base r + size r) addr len = false ∧
  ¬ (base r ≤ addr ∧ addr + len ≤ base r + size r).

(** Machine mode is never stopped by a task region, for these are not locked. *)
Lemma zones_allow_task_M regions acc addr len :
  regions_ok regions → 0 < len →
  zones_allow (task_zones regions) MMode acc addr len = true ∨
  ∃ i, (4 ≤ i < PMP_COUNT)%nat ∧ straddles (region_at regions i) addr len.
Proof.
  intros Hok Hlen. unfold task_zones.
  assert (∀ i, i ∈ seq 4 (PMP_COUNT - 4) → (4 ≤ i < PMP_COUNT)%nat) as Hseq.
  { intros i. rewrite elem_of_seq. unfold PMP_COUNT. lia. }
  revert Hseq. induction (seq 4 (PMP_COUNT - 4)) as [|i l IH]; intros Hseq; [by left|].
  csimpl. unfold region_zone at 1.
  destruct (Hok i) as [->|Hr]; [apply Hseq; set_solver|apply IH; intros; apply Hseq; set_solver|].
  destruct (size (region_at regions i) =? 0); [apply IH; intros; apply Hseq; set_solver|].
  simpl. destruct (misses _ _ _ _) eqn:Hm; [apply IH; intros; apply Hseq; set_solver|].
  assert (Z.testbit (rflags (region_at regions i)) 7 = false) as Hl.
  { pose proof (ro_flags _ Hr) as Hf.
    rewrite <- (Z.mod_small (rflags (region_at regions i)) (2 ^ 3)) by lia.
    by apply Z.mod_pow2_bits_high. }
  unfold permitted, cfg_locked. rewrite Hl. simpl. rewrite andb_true_r.
  destruct (_ && _) eqn:Hin; [by left|]. right. exists i.
  split; [apply Hseq; set_solver|]. split; [done|].
  rewrite <- !Z.leb_le, <- andb_true_iff. congruence.
Qed.

Section access.
Context `{E : Env} `{I : Image} `{IO : !ImageOk I}.
Context (regions : list PmpRegion) (h h' : Hw).
Context (Hready : pmp_ready (pmp h)) (Hok : regions_ok regions).
Context (Hrun : load_task_config regions h = Ok tt h').

(** Text is execute-only for user tasks.  After any task has been loaded,
    a user-mode load or store that touches a byte of the kernel or user text
    is refused, even if the task has a readable region there: this is what
    stops the task that reads address 0x8000_0000. *)
Lemma umode_text_execute_only acc addr len :
  acc ≠ AccX → addr < _user_text_end → _stext < addr + len →
  pmp_check (pmp h') UMode acc addr len = false.
Proof.
  intros Hacc Hlo Hhi. rewrite (load_task_config_zones regions h h') by done.
  pose proof text_layout. simpl app. apply zones_allow_overlap.
  - apply not_true_iff_false. rewrite misses_spec. simpl. lia.
  - by destruct acc.
Qed.

(** Everything outside the kernel image, the UART page and the task's own
    regions is refused to the task. *)
Lemma umode_default_deny acc addr len :
  addr + len ≤ _stext ∨ _eheap ≤ addr →
  addr + len ≤ UART_BASE ∨ UART_BASE + 0x1000 ≤ addr →
  Forall (λ z, z_hi z ≤ addr ∨ addr + len ≤ z_lo z) (task_zones regions) →
  pmp_check (pmp h') UMode acc addr len = false.
Proof.
  intros Hk Hu Ht. rewrite (load_task_config_zones regions h h') by done.
  pose proof text_layout. pose proof data_layout as Hdl.
  unfold KERNEL_STACK_SIZE, KERNEL_HEAP_SIZE in Hdl.
  apply zones_allow_all_miss, Forall_app. split; [|done].
  unfold kernel_zones. rewrite !Forall_cons, Forall_nil. simpl. lia.
Qed.

(** Kernel data is open to user tasks.  The locked entry 2 applies to user
    mode as well and precedes the task entries, so after any task has been
    loaded a user-mode load or store anywhere between the end of the text and
    the end of the heap (kernel data, stack, heap, and the stacks of the other
    tasks) is allowed, and so is the UART page to every task. *)
Lemma umode_kernel_data_open acc addr len :
  acc ≠ AccX → 0 < len →
  (_user_text_end ≤ addr ∧ addr + len ≤ _eheap) ∨
  (UART_BASE ≤ addr ∧ addr + len ≤ UART_BASE + 0x1000) →
  pmp_check (pmp h') UMode acc addr len = true.
Proof.
  intros Hacc Hlen Hin. rewrite (load_task_config_zones regions h h') by done.
  pose proof text_layout as Htl. pose proof data_layout as Hdl. rewrite _stext_val in Htl.
  unfold KERNEL_STACK_SIZE, KERNEL_HEAP_SIZE, UART_BASE in *. simpl app.
  destruct Hin as [[? ?]|[? ?]].
  - rewrite zones_allow_miss by (simpl; lia). rewrite zones_allow_hit by (simpl; lia).
    by destruct acc.
  - rewrite zones_allow_miss by (simpl; rewrite _stext_val; lia).
    rewrite zones_allow_miss by (simpl; lia).
    rewrite zones_allow_hit by (simpl; unfold UART_BASE; lia). by destruct acc.
Qed.

(** The kernel keeps working under its own protection: machine mode may
    execute the text, read and write its data and the UART, and is not
    constrained on the CLINT registers of the timer unless a task region
    straddles the access; it may not read its text as data. *)
Lemma mmode_access_kept addr len :
  0 < len →
  (_stext ≤ addr ∧ addr + len ≤ _user_text_end →
     pmp_check (pmp h') MMode AccX addr len = true ∧
     pmp_check (pmp h') MMode AccR addr len = false) ∧
  ((_user_text_end ≤ addr ∧ addr + len ≤ _eheap) ∨
   (UART_BASE ≤ addr ∧ addr + len ≤ UART_BASE + 0x1000) →
     ∀ acc, acc ≠ AccX → pmp_check (pmp h') MMode acc addr len = true) ∧
  (addr + len ≤ UART_BASE → ∀ acc,
     pmp_check (pmp h') MMode acc addr len = true ∨
     ∃ i, (4 ≤ i < PMP_COUNT)%nat ∧ straddles (region_at regions i) addr len).
Proof.
  intros Hlen. pose proof (load_task_config_zones regions h h' Hready Hok Hrun) as Hz.
  pose proof text_layout as Htl. pose proof data_layout as Hdl. rewrite _stext_val in Htl.
  unfold KERNEL_STACK_SIZE, KERNEL_HEAP_SIZE in *. simpl app in Hz.
  split; [|split].
  - intros [? ?]. by rewrite !Hz, !zones_allow_hit by (simpl; lia).
  - intros Hin acc Hacc. unfold UART_BASE in *. destruct Hin as [[? ?]|[? ?]].
    + rewrite Hz, zones_allow_miss, zones_allow_hit by (simpl; lia). by destruct acc.
    + rewrite Hz, zones_allow_miss by (simpl; rewrite _stext_val; lia).
      rewrite zones_allow_miss, zones_allow_hit by (simpl; unfold UART_BASE; lia). by destruct acc.
  - intros Hlow acc. rewrite Hz.
    rewrite !zones_allow_miss by (simpl; rewrite ?_stext_val; unfold UART_BASE in *; lia).
    by apply zones_allow_task_M.
Qed.
End access.
