(* ===== verification/PmpApi.v ===== *)
(** The public operations of the PMP driver ([crates/kernel/src/pmp.rs]) that the
    boot sequence uses only in part: [configure_region] on every input and every
    state of the registers, and the two that read the configuration back,
    [save_current_config] and [dump_config]. *)

From S2P Require Import Prelude Config Machine Serial PmpHw Linker Pmp PmpAccess.

Local Open Scope Z_scope.

(** ** Specification *)

(** The checks of [configure_region], in their order. *)
Definition size_valid (r : PmpRegion) : bool := is_power_of_two (size r) && (8 <=? size r).
Definition base_aligned (r : PmpRegion) : bool := base r mod size r =? 0.

Definition region_valid (idx : nat) (r : PmpRegion) : bool :=
  (idx <? PMP_COUNT)%nat && size_valid r && base_aligned r.

Definition refusal (idx : nat) (r : PmpRegion) : list Z :=
  if (PMP_COUNT <=? idx)%nat then []
  else if negb (size_valid r) then
    crlf (bytes_of_string ("[pmp] Invalid region size (must be power of 2 >= 8)" +:+ nl))
  else crlf (bytes_of_string ("[pmp] Base not aligned to size" +:+ nl)).

(** The registers after entry [idx] has been written with [r]; the hardware drops
    the writes that a lock forbids. *)
Record entry_written (idx : nat) (r : PmpRegion) (p q : PmpRegs) : Prop := {
  ew_wf : pmp_wf q;
  ew_cfg : ∀ j, (j < PMP_COUNT)%nat → cfg_at q j =
    if decide (j = idx ∧ cfg_locked (cfg_at p idx) = false) then Z.lor (rflags r) flags.A_NAPOT else cfg_at p j;
  ew_addr : ∀ j, addr_at q j =
    if decide (j = idx ∧ addr_locked p idx = false)
    then Z.land (Z.shiftr (base r + (size r / 2 - 1)) 2) (Z.ones 54) else addr_at p j;
}.

(** What [save_current_config] makes of entry [i]. *)
Definition saved_entry (p : PmpRegs) (i : nat) : PmpRegion := mkPmpRegion (4 * addr_at p i) 8 (cfg_at p i).

(** ** Lemmas *)

Lemma size_valid_spec r : size_valid r = true ↔ ∃ k, 3 ≤ k ∧ size r = 2 ^ k.
Proof.
  unfold size_valid. rewrite andb_true_iff, is_power_of_two_spec, Z.leb_le. split.
  - intros [(k & Hk & Hs) H8]. exists k. split; [|done]. rewrite Hs in H8.
    destruct (Z.le_gt_cases 3 k); [done|]. assert (2 ^ k ≤ 2 ^ 2) by (apply Z.pow_le_mono_r; lia). lia.
  - intros (k & Hk & Hs). split; [exists k; split; [lia|done]|].
    rewrite Hs. change 8 with (2 ^ 3). apply Z.pow_le_mono_r; lia.
Qed.

(** An aligned region does not run past the end of the address space. *)
Lemma aligned_top b k : 3 ≤ k → 0 ≤ b < 2 ^ 64 → 2 ^ k < 2 ^ 64 → b mod 2 ^ k = 0 → b + 2 ^ k ≤ 2 ^ 64.
Proof.
  intros Hk Hb Hlt Hal. assert (k < 64) as Hk' by (by apply (Z.pow_lt_mono_r_iff 2); lia).
  assert (2 ^ 64 = 2 ^ (64 - k) * 2 ^ k) as H64 by (rewrite <- Z.pow_add_r by lia; f_equal; lia).
  assert (0 < 2 ^ k) by (apply Z.pow_pos_nonneg; lia).
  pose proof (Z.div_mod b (2 ^ k)) as Hd. rewrite Hal in Hd.
  assert (b = b / 2 ^ k * 2 ^ k) as Hq by lia. rewrite Hq in Hb |- *. rewrite H64 in Hb |- *.
  assert (b / 2 ^ k < 2 ^ (64 - k)) by nia. nia.
Qed.

Lemma mask_aligned r k : 3 ≤ k → size r = 2 ^ k → Z.land (base r) (size r - 1) = base r mod size r.
Proof.
  intros Hk ->. replace (2 ^ k - 1) with (Z.ones k) by (rewrite Z.ones_equiv; lia).
  by rewrite Z.land_ones by lia.
Qed.

Lemma napot_flags_u8 f : u8 f → u8 (Z.lor f flags.A_NAPOT).
Proof. intros Hf. by apply in_width_lor. Qed.

Lemma napot_flags_mode f : cfg_mode (Z.lor f flags.A_NAPOT) = 3.
Proof.
  unfold cfg_mode. rewrite Z.shiftr_lor, Z.land_lor_distr_l. change (Z.land (Z.shiftr flags.A_NAPOT 3) 3) with 3.
  bits i Hi. autorewrite with zbits. by destruct (Z.testbit 3 i); rewrite ?andb_false_r, ?orb_true_r.
Qed.

Section configure.
Context `{E : Env} `{B : SerialBackend} `{L : !SerialLaws B}.

Lemma configure_region_writes idx r h :
  pmp_wf (pmp h) → region_valid idx r = true → u64 (base r) → u64 (size r) → u8 (rflags r) →
  ∃ q, configure_region idx r h = Ok true (hw_set_pmp q h) ∧ entry_written idx r (pmp h) q.
Proof.
  intros Hwf Hv [Hb Hb'] [_ Hs'] Hf. unfold region_valid in Hv. rewrite !andb_true_iff in Hv.
  destruct Hv as [[Hidx%Nat.ltb_lt (k & Hk & Hsz)%size_valid_spec] Hal%Z.eqb_eq].
  unfold configure_region. rewrite (proj2 (Nat.leb_gt _ _) Hidx), (mask_aligned r k), Hal by done.
  assert (negb (is_power_of_two (size r)) || (size r <? 8) = false) as ->.
  { pose proof (proj2 (size_valid_spec r)) as Hsv. unfold size_valid in Hsv. rewrite andb_true_iff, Z.leb_le in Hsv.
    destruct Hsv as [-> Hge]; [by exists k|]. by rewrite (proj2 (Z.ltb_ge _ _) Hge). }
  cbn [Z.eqb negb]. rewrite Hsz in Hal, Hs'.
  erewrite bind_Ok by (eapply (napot_addr_ok r h k); [done|done|done|]; rewrite Hsz; by apply aligned_top).
  unfold write_pmpaddr. rewrite (proj2 (Nat.ltb_lt idx 16)) by done. erewrite bind_Ok by reflexivity.
  set (h1 := hw_set_pmp _ h). assert (pmp_wf (pmp h1)) as Hwf1 by (by apply pmpaddr_csrw_wf).
  destruct (wp_elim _ _ _ (set_pmpcfg_spec idx (Z.lor (rflags r) flags.A_NAPOT) h1 Hwf1 Hidx (napot_flags_u8 _ Hf)))
    as ([] & h2 & Hrun & q & -> & Hq & Ha & Hc). erewrite bind_Ok by exact Hrun.
  exists q. split; [done|]. constructor; [done| |].
  - intros j Hj. rewrite Hc by done. unfold h1. cbn [pmp hw_set_pmp]. by rewrite !cfg_at_addr_csrw.
  - intros j. rewrite Ha. unfold h1. cbn [pmp hw_set_pmp]. by apply addr_at_addr_csrw.
Qed.

Lemma configure_region_refuses idx r h :
  s_ready h → region_valid idx r = false →
  ∃ h', configure_region idx r h = Ok false h' ∧ prints (refusal idx r) h h'.
Proof.
  intros Hr Hv. unfold configure_region, refusal. destruct (Nat.leb_spec PMP_COUNT idx) as [Hidx|Hidx].
  { exists h. split; [done|]. by apply prints_refl. }
  assert (∀ s, ∃ h', (puts_str s;; mret false) h = Ok false h' ∧ prints (crlf (bytes_of_string s)) h h') as Hp.
  { intros s. destruct (wp_elim _ _ _ (puts_law (bytes_of_string s) h Hr)) as ([] & h' & Hrun & Hp).
    exists h'. split; [|done]. by erewrite bind_Ok by exact Hrun. }
  destruct (size_valid r) eqn:Hsv.
  - destruct (proj1 (size_valid_spec r) Hsv) as (k & Hk & Hsz).
    unfold size_valid in Hsv. apply andb_true_iff in Hsv as [-> H8%Z.leb_le].
    rewrite (proj2 (Z.ltb_ge _ _) H8), (mask_aligned r k) by done. cbn [negb orb].
    assert (base_aligned r = false) as Ha.
    { unfold region_valid in Hv. rewrite (proj2 (Nat.ltb_lt _ _) Hidx) in Hv.
      by rewrite (proj2 (size_valid_spec r)) in Hv by eauto. }
    unfold base_aligned in Ha. rewrite Ha. apply Hp.
  - assert (negb (is_power_of_two (size r)) || (size r <? 8) = true) as ->; [|apply Hp].
    unfold size_valid in Hsv. rewrite Z.ltb_antisym, <- negb_andb, Hsv. done.
Qed.
End configure.

Lemma entry_written_range idx r p q :
  (idx < PMP_COUNT)%nat → cfg_locked (cfg_at p idx) = false → entry_written idx r p q →
  entry_range q idx = Some (napot_range (addr_at q idx)).
Proof.
  intros Hidx Hl [_ Hc _]. unfold entry_range. rewrite (Hc idx), decide_True by done. by rewrite napot_flags_mode.
Qed.

(** Byte [idx mod 8] of the packed register of entry [idx]. *)
Lemma cfg_byte p (idx : nat) :
  pmp_wf p → (idx < PMP_COUNT)%nat →
  (if (idx <? 8)%nat then Z.land (Z.shiftr (pack (take 8 (pmpcfg p))) (cfg_shift idx)) 0xFF
   else Z.land (Z.shiftr (pack (drop 8 (pmpcfg p))) (cfg_shift idx)) 0xFF) = cfg_at p idx.
Proof.
  intros Hwf Hidx. unfold cfg_shift. rewrite Z.mul_comm. change (Z.land (Z.shiftr ?v (8 * Z.of_nat ?i)) 0xFF) with (byte_of v i).
  unfold PMP_COUNT in Hidx. destruct (Nat.ltb_spec idx 8).
  - rewrite Nat.mod_small, byte_of_pack, lookup_take_lt by (done || by apply Forall_take, Hwf). done.
  - rewrite byte_of_pack, lookup_drop by (by apply Forall_drop, Hwf). unfold cfg_at. do 2 f_equal.
    do 8 (destruct idx as [|idx]; [lia|]). do 8 (destruct idx as [|idx]; [done|]). lia.
Qed.

Lemma save_run h :
  pmp_wf (pmp h) → (∀ i, 0 ≤ addr_at (pmp h) i < 2 ^ 54) →
  save_current_config h = Ok (saved_entry (pmp h) <$> seq 0 PMP_COUNT) h.
Proof.
  intros Hwf Ha.
  assert (wp save_current_config (λ out h', out = saved_entry (pmp h) <$> seq 0 PMP_COUNT ∧ h' = h) h) as Hwp;
    [|by destruct (wp_elim _ _ _ Hwp) as (out & h' & -> & -> & ->)].
  unfold save_current_config. apply wp_bind, wp_gets, wp_bind, wp_gets.
  apply (wp_for_each _ (λ dn out h', out = saved_entry (pmp h) <$> dn ∧ h' = h)); [done| |done].
  intros dn idx rest ? h' Hl [-> ->].
  assert (idx < PMP_COUNT)%nat as Hidx.
  { assert (idx ∈ seq 0 PMP_COUNT) as Hin by (rewrite Hl; apply elem_of_app; right; left). apply elem_of_seq in Hin. lia. }
  unfold read_pmpaddr. rewrite (proj2 (Nat.ltb_lt idx 16)) by done. apply wp_bind, wp_gets, wp_mret.
  rewrite cfg_byte by done. rewrite fmap_app. split; [|done]. do 2 f_equal. unfold saved_entry. simpl. do 2 f_equal.
  rewrite Z.shiftl_mul_pow2 by done. specialize (Ha idx). rewrite Z.mod_small by lia. lia.
Qed.

(** The registers, recovered from what was saved. *)
Lemma saved_inverse p :
  pmp_wf p →
  p = mkPmpRegs (rflags <$> (saved_entry p <$> seq 0 PMP_COUNT))
        ((λ r, base r / 4) <$> (saved_entry p <$> seq 0 PMP_COUNT)).
Proof.
  intros Hwf. rewrite <- !list_fmap_compose. apply pmp_regs_ext; [done| |].
  - constructor; [done..|]. apply Forall_fmap, Forall_true.
    intros i. by apply cfg_at_u8.
  - intros i Hi. unfold cfg_at at 2, addr_at at 2. cbn [pmpcfg pmpaddr].
    rewrite !list_lookup_fmap, lookup_seq_lt by done. simpl. split; [done|]. rewrite Z.mul_comm, Z.div_mul; done.
Qed.

(** Four times the encoded address of a region. *)
Lemma napot_middle r :
  region_ok r → 4 * Z.land (Z.shiftr (base r + (size r / 2 - 1)) 2) (Z.ones 54) = base r + size r / 2 - 4.
Proof.
  intros [(k & Hk & Hsz) Hal Hb Htop _]. rewrite Hsz in *.
  assert (2 ^ k = 8 * 2 ^ (k - 3)) as Hpk 
    by (change 8 with (2 ^ 3); rewrite <- Z.pow_add_r by lia; f_equal; lia).
  assert (0 < 2 ^ (k - 3)) by (apply Z.pow_pos_nonneg; lia).
  assert (2 ^ k / 2 = 4 * 2 ^ (k - 3)) as ->.
  { rewrite Hpk. replace (8 * 2 ^ (k - 3)) with (4 * 2 ^ (k - 3) * 2) by lia. apply Z.div_mul. lia. }
  pose proof (Z.div_mod (base r) (2 ^ k)) as Hd. rewrite Hal in Hd.
  assert (Z.shiftr (base r + (4 * 2 ^ (k - 3) - 1)) 2 = 2 * 2 ^ (k - 3) * (base r / 2 ^ k) + 2 ^ (k - 3) - 1) as ->.
  { rewrite Z.shiftr_div_pow2 by lia. symmetry. apply (Z.div_unique _ _ _ 3); nia. }
  rewrite Z.land_ones, Z.mod_small; nia.
Qed.

(** The two configuration registers, as [dump_config] prints them. *)
Definition dumped (p : PmpRegs) : list Z :=
  let hex v := bytes_of_string "0x" ++ hex_bytes v in
  crlf (bytes_of_string ("[pmp] Configuration:" +:+ nl)) ++
  crlf (bytes_of_string "  pmpcfg0: ") ++ hex (pack (take 8 (pmpcfg p))) ++
  crlf (bytes_of_string (nl +:+ "  pmpcfg2: ")) ++ hex (pack (drop 8 (pmpcfg p))) ++
  crlf (bytes_of_string nl).

Section dump.
Context `{E : Env} `{B : SerialBackend} `{L : !SerialLaws B}.

(** One more piece of output, the state being known to print [o] so far. *)
Lemma prints_step (m k : M Hw unit) o o1 h0 h Q :
  prints o h0 h → (s_ready h → wp m (λ _, prints o1 h) h) →
  (∀ h', prints (o ++ o1) h0 h' → wp k Q h') → wp (m;; k) Q h.
Proof.
  intros Hp Hm Hk. apply wp_bind. eapply wp_mono; [apply Hm, Hp|]. intros [] h' Hp'.
  apply Hk. by eapply prints_trans.
Qed.

Lemma dump_run h : pmp_wf (pmp h) → s_ready h → wp dump_config (λ _, prints (dumped (pmp h)) h) h.
Proof.
  intros Hwf Hr.
  assert (u64 (pack (take 8 (pmpcfg (pmp h)))) ∧ u64 (pack (drop 8 (pmpcfg (pmp h))))) as [Hlo Hhi].
  { pose proof (pack_width _ (Forall_take _ 8 _ (wf_bytes _ Hwf))) as H1.
    pose proof (pack_width _ (Forall_drop _ 8 _ (wf_bytes _ Hwf))) as H2.
    rewrite length_take, (wf_cfg _ Hwf) in H1. rewrite length_drop, (wf_cfg _ Hwf) in H2. done. }
  unfold dump_config. eapply prints_step; [by apply prints_refl|apply puts_law|]. intros h1 Hp1.
  eapply prints_step; [done|apply puts_law|]. intros h2 Hp2.
  apply wp_bind, wp_gets. rewrite (prints_pmp _ _ _ Hp2).
  eapply prints_step; [done|by apply put_hex_law|]. intros h3 Hp3.
  eapply prints_step; [done|apply puts_law|]. intros h4 Hp4.
  apply wp_bind, wp_gets. rewrite (prints_pmp _ _ _ Hp4).
  eapply prints_step; [done|by apply put_hex_law|]. intros h5 Hp5.
  eapply wp_mono; [apply puts_law, Hp5|]. intros [] h6 Hp6.
  pose proof (prints_trans _ _ _ _ _ Hp5 Hp6) as Hp. unfold dumped. by rewrite !app_assoc in *.
Qed.
End dump.

(** ** Properties *)

(** C30: [configure_region] on every input.  It answers [true] exactly for an index
    below sixteen, a size that is a power of two of at least 8 and a base aligned
    to it; otherwise it touches no register and prints which check of the region
    failed, and nothing for an index out of range.  An unlocked entry then matches
    exactly the bytes of the region, if that ends within the 56-bit addresses the
    PMP has.  But [true] is also the answer when the hardware has dropped the write: a locked entry is
    unchanged, and an entry whose address register is locked by its successor
    (entry 0 after [init]) is switched on at the old address. *)
Theorem configure_region_outcomes `{E : Env} `{B : SerialBackend} `{L : !SerialLaws B} idx r h :
  pmp_wf (pmp h) → s_ready h → u64 (base r) → u64 (size r) → u8 (rflags r) →
  let p := pmp h in
  if region_valid idx r then
    ∃ q, configure_region idx r h = Ok true (hw_set_pmp q h) ∧ entry_written idx r p q ∧
      (addr_locked p idx = false → base r + size r ≤ 2 ^ 56 →
         entry_range q idx = Some (base r, base r + size r)) ∧
      (cfg_locked (cfg_at p idx) = true → q = p) ∧
      (addr_locked p idx = true → cfg_locked (cfg_at p idx) = false →
         entry_range q idx = Some (napot_range (addr_at p idx)))
  else ∃ h', configure_region idx r h = Ok false h' ∧ prints (refusal idx r) h h'.
Proof.
  intros Hwf Hr Hb Hs Hf p. destruct (region_valid idx r) eqn:Hv; [|by apply configure_region_refuses].
  destruct (configure_region_writes idx r h Hwf Hv Hb Hs Hf) as (q & Hrun & Hw).
  fold p in Hw. exists q. split; [done|]. split; [done|].
  unfold region_valid in Hv. rewrite !andb_true_iff in Hv.
  destruct Hv as [[Hidx%Nat.ltb_lt (k & Hk & Hsz)%size_valid_spec] Hal%Z.eqb_eq]. split; [|split].
  - intros Hul Htop. pose proof Hul as [Hcl _]%orb_false_iff. rewrite (entry_written_range idx r p q) by done.
    rewrite (ew_addr _ _ _ _ Hw), decide_True by done. f_equal.
    rewrite Hsz in *. apply napot_range_encode; [done|apply Hb|done|done].
  - intros Hl. apply pmp_regs_ext; [apply Hw|done|]. intros i Hi.
    rewrite (ew_cfg _ _ _ _ Hw), (ew_addr _ _ _ _ Hw) by done. rewrite !decide_False; [done|..].
    + intros [_ [H _]%orb_false_iff]. congruence.
    + intros [_ H]. congruence.
  - intros Hl Hcl. rewrite (entry_written_range idx r p q) by done.
    by rewrite (ew_addr _ _ _ _ Hw), decide_False by (intros [_ H]; congruence).
Qed.

(** After [init], a region for entry 0 is accepted and lands on the first eight
    bytes of the kernel text; one for entry 5 is programmed. *)
Lemma configure_region_outcomes_witness :
  let E := quiet_board true in
  let B := uart16550_backend (E := E) in
  (∃ q, configure_region (E := E) (B := B) 5 (mkPmpRegion 0x80005000 0x1000 5) sample_hw = Ok true (hw_set_pmp q sample_hw) ∧
    entry_range q 5 = Some (0x80005000, 0x80005000 + 0x1000)) ∧
  (∃ q, configure_region (E := E) (B := B) 0 (mkPmpRegion 0x80005000 0x1000 5) sample_hw = Ok true (hw_set_pmp q sample_hw) ∧
    entry_range q 0 = Some (0x80000000, 0x80000008)).
Proof.
  intros E B. split.
  - destruct (configure_region_outcomes (E := E) (B := B) 5 (mkPmpRegion 0x80005000 0x1000 5) sample_hw)
      as (q & H1 & _ & H2 & _); [by apply (kernel_regs_wf (I := sample_image))|done..|]. exists q. split; [done|].
    apply H2; [reflexivity|vm_compute; congruence].
  - destruct (configure_region_outcomes (E := E) (B := B) 0 (mkPmpRegion 0x80005000 0x1000 5) sample_hw)
      as (q & H1 & _ & _ & _ & H2); [by apply (kernel_regs_wf (I := sample_image))|done..|]. exists q. split; [done|].
    apply H2; reflexivity.
Defined.

(** The configuration can be read back.  [save_current_config] changes nothing
    and returns, for each entry, four times its address register, the size 8 and
    its configuration byte; from this the registers can be recovered.  For a
    region written by [configure_region] the saved base is the middle of the
    region less four, not its base.  [dump_config] prints the two configuration
    registers in hexadecimal and changes nothing else. *)
Lemma saved_config_exact `{E : Env} `{B : SerialBackend} `{L : !SerialLaws B} h :
  pmp_wf (pmp h) → (∀ i, 0 ≤ addr_at (pmp h) i < 2 ^ 54) → s_ready h →
  (∃ h', dump_config h = Ok tt h' ∧ prints (dumped (pmp h)) h h') ∧
  ∃ out, save_current_config h = Ok out h ∧ length out = PMP_COUNT ∧
    pmp h = mkPmpRegs (rflags <$> out) ((λ r, base r / 4) <$> out) ∧
    ∀ idx r p, (idx < PMP_COUNT)%nat → region_ok r → addr_locked p idx = false → entry_written idx r p (pmp h) →
      out !! idx = Some (mkPmpRegion (base r + size r / 2 - 4) 8 (Z.lor (rflags r) flags.A_NAPOT)).
Proof.
  intros Hwf Ha Hr. split.
  { destruct (wp_elim _ _ _ (dump_run h Hwf Hr)) as ([] & h' & Hrun & Hp). by exists h'. }
  exists (saved_entry (pmp h) <$> seq 0 PMP_COUNT).
  split; [by apply save_run|]. split; [by rewrite length_fmap, length_seq|]. split; [by apply saved_inverse|].
  intros idx r p Hidx Hreg Hul Hw. pose proof Hul as [Hcl _]%orb_false_iff.
  rewrite list_lookup_fmap, lookup_seq_lt by done. simpl. f_equal. unfold saved_entry.
  rewrite (ew_cfg _ _ _ _ Hw), (ew_addr _ _ _ _ Hw), !decide_True by done. f_equal. by apply napot_middle.
Qed.

