(* ===== verification/Sync.v ===== *)
(** Synchronisation: [sync/irq_cell.rs] and [sync/atomic_counter.rs].

    [with_lock] is the critical section of [IrqCell]: it clears the global
    interrupt-enable bit of [mstatus], runs its closure on the protected state
    and sets the bit again only if it was set before.  The theorem shows that the
    closure runs with interrupts off and that the interrupt state is restored,
    which also makes the section safe to nest and to enter from a handler. *)

From S2P Require Import Prelude Config Machine.

Local Open Scope Z_scope.

(** ** IrqCell *)

Section irq_cell.
Context `{HW : HasHw W}.

Definition with_lock {R} (f : M W R) : M W R :=
  mstatus ← lift (csr_read Mstatus);
  lift (csr_clear_bits Mstatus (Z.shiftl 1 3));;
  result ← f;
  (if Z.land mstatus (Z.shiftl 1 3) =? 0 then mret tt
   else lift (csr_set_bits Mstatus (Z.shiftl 1 3)));;
  mret result.
End irq_cell.

(** ** AtomicCounter *)

Definition counter_new (val : Z) : Z := val.

(** [fetch_add] wraps around and returns the old value. *)
Definition counter_increment (c : Z) : Z * Z := (c, (c + 1) mod 2 ^ 64).
Definition counter_get (c : Z) : Z := c.

(** ** The critical section *)

Definition mie_bit (mstatus : Z) : bool := Z.testbit mstatus 3.

Lemma land_mie m : (Z.land m (Z.shiftl 1 3) =? 0) = negb (mie_bit m).
Proof.
  unfold mie_bit. change (Z.shiftl 1 3) with (2 ^ 3).
  destruct (Z.eqb_spec (Z.land m (2 ^ 3)) 0) as [H|H]; destruct (Z.testbit m 3) eqn:Hb; try done.
  - apply (f_equal (λ v, Z.testbit v 3)) in H.
    rewrite Z.land_spec, Z.pow2_bits_true, Hb in H by lia. done.
  - exfalso. apply H. bits i Hi. rewrite Z.land_spec, Z.pow2_bits_eqb, Z.testbit_0_l by lia.
    destruct (Z.eqb_spec 3 i) as [<-|]; [by rewrite Hb|by rewrite andb_false_r].
Qed.

Lemma ldiff_mie m : mie_bit (Z.ldiff m (Z.shiftl 1 3)) = false.
Proof. unfold mie_bit. by rewrite Z.ldiff_spec, andb_false_r. Qed.

Lemma ldiff_mie_off m : mie_bit m = false → Z.ldiff m (Z.shiftl 1 3) = m.
Proof.
  unfold mie_bit. intros H. bits i Hi. change (Z.shiftl 1 3) with (2 ^ 3).
  rewrite Z.ldiff_spec, Z.pow2_bits_eqb by lia.
  destruct (Z.eqb_spec 3 i) as [<-|]; [by rewrite H|by rewrite andb_true_r].
Qed.

Lemma ldiff_lor_mie m : mie_bit m = true → Z.lor (Z.ldiff m (Z.shiftl 1 3)) (Z.shiftl 1 3) = m.
Proof.
  unfold mie_bit. intros H. bits i Hi. change (Z.shiftl 1 3) with (2 ^ 3).
  rewrite Z.lor_spec, Z.ldiff_spec, Z.pow2_bits_eqb by lia.
  destruct (Z.eqb_spec 3 i) as [<-|]; [by rewrite H|by rewrite andb_true_r, orb_false_r].
Qed.

Section critical.
Context `{HW : HasHw W}.

Definition get_mstatus (s : W) : Z := csr_get Mstatus (csrs (hw_of s)).

(** The state with only [mstatus] replaced. *)
Definition with_mstatus (v : Z) (s : W) : W :=
  hw_upd (hw_set_csrs (csr_put Mstatus v (csrs (hw_of s))) (hw_of s)) s.

Lemma get_with_mstatus v s : get_mstatus (with_mstatus v s) = v.
Proof. unfold get_mstatus, with_mstatus. rewrite hw_of_upd. apply csr_get_put_eq. Qed.

Lemma with_mstatus_twice v w s : with_mstatus v (with_mstatus w s) = with_mstatus v s.
Proof.
  unfold with_mstatus. rewrite hw_of_upd, hw_upd_upd. unfold hw_set_csrs. simpl.
  by rewrite csr_put_put.
Qed.

Lemma with_mstatus_id s : with_mstatus (get_mstatus s) s = s.
Proof.
  unfold with_mstatus, get_mstatus. rewrite csr_put_get. unfold hw_set_csrs.
  destruct (hw_of s) eqn:Hh. simpl. rewrite <- Hh. apply hw_upd_of.
Qed.

(** What [with_lock] does, step by step: the closure starts with MIE cleared,
    and MIE is set again exactly when it was set at entry. *)
Lemma with_lock_run {R} (f : M W R) s :
  with_lock f s =
    match f (with_mstatus (Z.ldiff (get_mstatus s) (Z.shiftl 1 3)) s) with
    | Ok r s2 =>
      Ok r (if mie_bit (get_mstatus s)
            then with_mstatus (Z.lor (get_mstatus s2) (Z.shiftl 1 3)) s2 else s2)
    | Panic e s2 => Panic e s2
    | Spin s2 => Spin s2
    end.
Proof.
  unfold with_lock. erewrite bind_Ok; cycle 1.
  { unfold lift. simpl. reflexivity. }
  erewrite bind_Ok; cycle 1.
  { unfold lift. simpl. reflexivity. }
  rewrite hw_upd_of. fold (get_mstatus s). change (hw_upd _ s) with
    (with_mstatus (Z.ldiff (get_mstatus s) (Z.shiftl 1 3)) s).
  unfold mbind at 1, M_bind at 1.
  destruct (f _) as [r s2|e s2|s2]; [|done|done].
  rewrite land_mie. change (r_mstatus (csrs (hw_of s))) with (get_mstatus s).
  by destruct (mie_bit (get_mstatus s)).
Qed.

(** The proof rule: it is enough to verify the closure from the state with
    interrupts off, for closures that leave [mstatus] as they find it. *)
Lemma wp_with_lock {R} (f : M W R) (Q : R → W → Prop) s :
  (let s1 := with_mstatus (Z.ldiff (get_mstatus s) (Z.shiftl 1 3)) s in
   wp f (λ r s2, get_mstatus s2 = get_mstatus s1 ∧
                 Q r (with_mstatus (get_mstatus s) s2)) s1) →
  wp (with_lock f) Q s.
Proof.
  intros Hf. unfold wp in *. rewrite with_lock_run.
  destruct (f _) as [r s2|e s2|s2]; try done. destruct Hf as [Hm HQ].
  rewrite get_with_mstatus in Hm.
  destruct (mie_bit (get_mstatus s)) eqn:Hb.
  - by rewrite Hm, ldiff_lor_mie.
  - rewrite (ldiff_mie_off _ Hb) in Hm. by rewrite <- Hm, with_mstatus_id in HQ.
Qed.
End critical.

(** C34: critical sections.  [with_lock f] runs [f] from the state at entry with
    machine interrupts disabled and nothing else changed, and returns exactly
    when [f] does, with its result.  If [f] leaves [mstatus] as it found it,
    [mstatus] is at exit what it was at entry, whether interrupts were enabled
    or not, and the rest of the state is what [f] left; so sections nest and can
    be entered from a handler.  A panic of [f] is passed on. *)
Theorem with_lock_critical `{HW : HasHw W} {R} (f : M W R) s :
  ∃ s1, mie_bit (get_mstatus s1) = false ∧ with_mstatus (get_mstatus s) s1 = s ∧
    match f s1 with
    | Ok r s2 => ∃ s', with_lock f s = Ok r s' ∧
        mie_bit (get_mstatus s') = mie_bit (get_mstatus s2) || mie_bit (get_mstatus s) ∧
        (get_mstatus s2 = get_mstatus s1 → s' = with_mstatus (get_mstatus s) s2)
    | Panic e s2 => with_lock f s = Panic e s2
    | Spin s2 => with_lock f s = Spin s2
    end.
Proof.
  rewrite with_lock_run. set (s1 := with_mstatus _ s).
  assert (get_mstatus s1 = Z.ldiff (get_mstatus s) (Z.shiftl 1 3)) as H1 by apply get_with_mstatus.
  exists s1. rewrite H1. split; [apply ldiff_mie|].
  split; [unfold s1; by rewrite with_mstatus_twice, with_mstatus_id|].
  destruct (f s1) as [r s2|e s2|s2]; try done. eexists. split; [done|].
  destruct (mie_bit (get_mstatus s)) eqn:Hb.
  - split; [|intros ->; by rewrite ldiff_lor_mie].
    rewrite get_with_mstatus. unfold mie_bit. by rewrite Z.lor_spec.
  - split; [by rewrite orb_false_r|].
    rewrite (ldiff_mie_off _ Hb). intros <-. by rewrite with_mstatus_id.
Qed.
