(* ===== verification/Timer.v ===== *)
(** The CLINT timer driver: [crates/kernel/src/timer.rs].

    [mtime] is read from the bus and [mtimecmp] written to it; the compare value
    in force is the last one written ([mtimecmp_of]).  The theorems give the
    conversion from microseconds, with its overflow bound, and show that arming
    the timer programs exactly one interval ahead of the time read. *)

From S2P Require Import Prelude Config Machine Serial.

Local Open Scope Z_scope.

Section driver.
Context `{E : Env}.

Definition read_mtime : M Hw Z := read_volatile_u64 (CLINT_BASE + MTIME_OFFSET).
Definition write_mtimecmp (v : Z) : M Hw unit :=
  write_volatile_u64 (CLINT_BASE + MTIMECMP_OFFSET) v.

Definition enable_timer_interrupt : M Hw unit := mie.enable_timer.
Definition disable_timer_interrupt : M Hw unit := mie.disable_timer.
Definition enable_interrupts : M Hw unit := mstatus.set_bits mstatus.MIE.
Definition disable_interrupts : M Hw unit := mstatus.clear_bits mstatus.MIE.

Definition us_to_ticks (us : Z) : M Hw Z :=
  prod ← mul_u64 us TIMER_FREQ_HZ; mret (prod / 1000000).

Definition set_timer_us (delta_us : Z) : M Hw unit :=
  current ← read_mtime;
  delta_ticks ← us_to_ticks delta_us;
  deadline ← add_u64 current delta_ticks;
  write_mtimecmp deadline.

Definition clear_timer : M Hw unit := write_mtimecmp u64_max.

Definition schedule_next_tick : M Hw unit := set_timer_us TICK_INTERVAL_US.

Context `{B : SerialBackend}.

Definition timer_init : M Hw unit :=
  clear_timer;;
  enable_timer_interrupt;;
  set_timer_us TICK_INTERVAL_US;;
  println [Lit "[timer] CLINT initialized, tick="; Dec (TICK_INTERVAL_US / 1000); Lit "ms"].
End driver.

(** The compare value in force after the accesses [t]: the last one written, and
    the all-ones value before the first write is not assumed. *)
Fixpoint mtimecmp_of (t : list mmio_event) : option Z :=
  match t with
  | [] => None
  | Wr64 a v :: t' => if a =? CLINT_BASE + MTIMECMP_OFFSET then Some v else mtimecmp_of t'
  | _ :: t' => mtimecmp_of t'
  end.

(** It depends on the accesses off the UART only. *)
Lemma mtimecmp_off_uart t : mtimecmp_of (off_uart t) = mtimecmp_of t.
Proof.
  induction t as [|e t IH]; [done|]. unfold off_uart. rewrite filter_cons.
  change (filter _ t) with (off_uart t). case_decide as Hd; [by destruct e; simpl; rewrite IH|].
  apply not_false_iff_true in Hd. unfold is_uart in Hd. rewrite andb_true_iff, Z.leb_le, Z.ltb_lt in Hd.
  rewrite IH. destruct e as [a v|a v|a v|a v|a v]; simpl in *; try done.
  rewrite (proj2 (Z.eqb_neq _ _)); [done|]. unfold UART_BASE, CLINT_BASE, MTIMECMP_OFFSET in *. lia.
Qed.

Section timer_proofs.
Context `{E : Env}.

Lemma us_to_ticks_ok us h : 0 ≤ us → us * TIMER_FREQ_HZ < 2 ^ 64 → us_to_ticks us h = Ok (us * 10) h.
Proof.
  intros H0 H. unfold us_to_ticks, mul_u64. rewrite checked_ok, mret_bind by (unfold TIMER_FREQ_HZ in *; split; lia).
  unfold TIMER_FREQ_HZ, mret, M_ret. f_equal.
  replace (us * 10000000) with (us * 10 * 1000000) by lia. apply Z.div_mul. lia.
Qed.

(** Arming the timer: one read of [mtime], one write of [mtimecmp]. *)
Lemma set_timer_us_run us h :
  0 ≤ us → us * TIMER_FREQ_HZ < 2 ^ 64 →
  let now := mmio_in (nreads h) (CLINT_BASE + MTIME_OFFSET) mod 2 ^ 64 in
  now + us * 10 < 2 ^ 64 →
  set_timer_us us h = Ok tt (mkHw (csrs h) (pmp h) (S (nreads h))
    (Wr64 (CLINT_BASE + MTIMECMP_OFFSET) (now + us * 10)
      :: Rd64 (CLINT_BASE + MTIME_OFFSET) now :: trace h)).
Proof.
  intros H0 H now Hnow. unfold set_timer_us. erewrite bind_Ok by reflexivity. fold now.
  erewrite bind_Ok by (by apply us_to_ticks_ok). unfold add_u64.
  rewrite checked_ok; [done|]. pose proof (Z.mod_pos_bound (mmio_in (nreads h) (CLINT_BASE + MTIME_OFFSET)) (2 ^ 64)).
  split; unfold now; lia.
Qed.

Context `{B : SerialBackend} `{L : !SerialLaws B}.

(** Boot-time arming: nothing can fire before the deadline is set, for the
    compare value is first pushed to the far future. *)
Lemma timer_init_spec h :
  let now := mmio_in (nreads h) (CLINT_BASE + MTIME_OFFSET) mod 2 ^ 64 in
  now + 100000 < 2 ^ 64 → s_ready h →
  wp timer_init (λ _ h', pmp h' = pmp h ∧
    csrs h' = csr_put Mie (Z.lor (csr_get Mie (csrs h)) mie.MTIE) (csrs h) ∧ s_ready h' ∧
    off_uart (trace h') =
      [Wr64 (CLINT_BASE + MTIMECMP_OFFSET) (now + 100000);
       Rd64 (CLINT_BASE + MTIME_OFFSET) now;
       Wr64 (CLINT_BASE + MTIMECMP_OFFSET) u64_max] ++ off_uart (trace h)) h.
Proof.
  intros now Hnow Hr. unfold timer_init. apply wp_bind, wp_modify, wp_bind, wp_modify.
  apply wp_bind. eapply wp_intro.
  { apply set_timer_us_run; [done|done|]. change (TICK_INTERVAL_US * 10) with 100000. done. }
  change (TICK_INTERVAL_US * 10) with 100000. cbn [nreads csrs pmp trace hw_set_csrs]. fold now.
  set (h1 := mkHw _ _ _ _). assert (s_ready h1) as Hr1 by (by apply (ready_frame h)).
  eapply wp_mono; [by apply println_prints|]. intros [] h' [Hc Hp Hb Hr' _].
  split; [by rewrite Hp|]. split; [by rewrite Hc|]. split; [done|]. by rewrite Hb.
Qed.
End timer_proofs.

(** ** Properties of the timer *)

(** Microseconds to ticks.  The conversion is exact (10 ticks per
    microsecond) up to 1844674407370 us, about 21 days; above, the product
    leaves 64 bits: the dev build panics, the release build wraps. *)
Lemma us_to_ticks_exact `{E : Env} us h :
  u64 us →
  us_to_ticks us h =
    if us <=? 1844674407370 then Ok (us * 10) h
    else if debug_build then Panic "attempt to multiply with overflow" h
    else Ok (us * TIMER_FREQ_HZ mod 2 ^ 64 / 1000000) h.
Proof.
  intros [H0 H]. destruct (Z.leb_spec us 1844674407370) as [Hle|Hgt].
  - apply us_to_ticks_ok; [done|]. unfold TIMER_FREQ_HZ. lia.
  - unfold us_to_ticks, mul_u64, checked.
    rewrite (proj2 (Z.leb_le _ _)) by (unfold TIMER_FREQ_HZ; lia).
    rewrite (proj2 (Z.ltb_ge _ _)) by (unfold TIMER_FREQ_HZ; lia). simpl.
    by destruct debug_build.
Qed.

(** The preemption tick.  [schedule_next_tick] reads [mtime] once and
    programs [mtimecmp] 100000 ticks later, 10 ms at 10 MHz, until [mtime] is
    within one interval of its end; no register of the core changes, and the
    compare value in force is the new deadline. *)
Lemma tick_armed `{E : Env} h :
  let now := mmio_in (nreads h) (CLINT_BASE + MTIME_OFFSET) mod 2 ^ 64 in
  now < 2 ^ 64 - 100000 →
  ∃ h', schedule_next_tick h = Ok tt h' ∧ mtimecmp_of (trace h') = Some (now + 100000) ∧
    csrs h' = csrs h ∧ pmp h' = pmp h ∧ nreads h' = S (nreads h).
Proof.
  intros now Hnow. eexists. split.
  - unfold schedule_next_tick. apply set_timer_us_run; [done|done|].
    unfold TICK_INTERVAL_US. fold now. lia.
  - split_all.
Qed.
