(* ===== verification/Allocator.v ===== *)
(** The bump heap allocator: [crates/kernel/src/allocator.rs].

    [alloc] is the body of [GlobalAlloc::alloc] with its compare-exchange loop.
    The first part verifies it as the kernel uses it, one allocation after the
    other: a successful allocation is an aligned block inside the heap, and the
    blocks of any sequence of allocations do not overlap.  The second part takes
    the atomics seriously: any number of contexts run [alloc] with their loads
    and compare-exchanges, which are those of the first part, interleaved
    arbitrarily ([step]), and the blocks are still disjoint. *)

From S2P Require Import Prelude Config Machine.

Local Open Scope Z_scope.

(** ** The allocator *)

Record BumpAllocator := mkBump { heap_start : Z; heap_end : Z; next : Z }.

Definition bump_new : BumpAllocator := mkBump 0 0 0.

Definition bump_init (start endp : Z) : M BumpAllocator unit :=
  modify (λ _, mkBump start endp start).

(** [core::alloc::Layout] and its checked constructor: the alignment is a power
    of two and the size, rounded up to it, does not exceed [isize::MAX]. *)
Record Layout := mkLayout { l_size : Z; l_align : Z }.

Definition from_size_align (sz al : Z) : option Layout :=
  if is_power_of_two al && (0 <=? sz) && (sz <=? 2 ^ 63 - al) then Some (mkLayout sz al) else None.

(** [!v] on [usize]. *)
Definition not_usize (v : Z) : Z := Z.lxor (Z.ones 64) v.

Section alloc.
Context `{E : Env}.

(** The candidate block for a bump pointer [current]: its aligned start and
    the pointer after it. *)
Definition bump {St} (l : Layout) (current : Z) : M St (Z * Z) :=
  s1 ← add_u64 current (l_align l);
  s2 ← sub_u64 s1 1;
  m ← sub_u64 (l_align l) 1;
  let aligned := Z.land s2 (not_usize m) in
  new_next ← add_u64 aligned (l_size l);
  mret (aligned, new_next).

(** [AtomicUsize::compare_exchange] on [next]. *)
Definition compare_exchange (current new_next : Z) : M BumpAllocator bool := λ a,
  if next a =? current then Ok true (mkBump (heap_start a) (heap_end a) new_next)
  else Ok false a.

(** A round of the [loop] of [alloc] after the load of [next]: the arithmetic, the
    bound check and the compare-exchange.  [Some] is the pointer returned, null
    being 0; [None] is the next round. *)
Definition alloc_round (l : Layout) (endp current : Z) : M BumpAllocator (option Z) :=
  '(aligned, new_next) ← bump l current;
  if endp <? new_next then mret (Some 0) else
  ok ← compare_exchange current new_next;
  if (ok : bool) then mret (Some aligned) else mret None.

Fixpoint alloc_loop (fuel : nat) (l : Layout) (endp : Z) : M BumpAllocator Z :=
  match fuel with
  | O => spin
  | S f =>
    current ← gets next;
    r ← alloc_round l endp current;
    match r with Some p => mret p | None => alloc_loop f l endp end
  end.

(** With no interference between the load and the compare-exchange one round
    is enough. *)
Definition alloc (l : Layout) : M BumpAllocator Z :=
  endp ← gets heap_end;
  alloc_loop 1 l endp.

Definition dealloc (ptr : Z) (l : Layout) : M BumpAllocator unit := mret tt.

(** A client: allocations in sequence, the pointers in order. *)
Fixpoint alloc_all (ls : list Layout) : M BumpAllocator (list Z) :=
  match ls with
  | [] => mret []
  | l :: ls' => p ← alloc l; ps ← alloc_all ls'; mret (p :: ps)
  end.
End alloc.

(** A board with nothing on the bus. *)
Definition quiet_board0 : Env := {| mmio_in := λ _ _, 0; spin_fuel := 1; debug_build := true |}.

(** ** Arithmetic of the bump *)

Record layout_ok (l : Layout) : Prop := {
  lo_align : ∃ k, 0 ≤ k < 64 ∧ l_align l = 2 ^ k;
  lo_size : 0 ≤ l_size l ≤ 2 ^ 63 - l_align l;
}.

Lemma from_size_align_ok sz al l : from_size_align sz al = Some l → layout_ok l ∧ l = mkLayout sz al.
Proof.
  unfold from_size_align. case_match eqn:H; [|done]. intros [= <-]. split; [|done].
  rewrite !andb_true_iff, !Z.leb_le, is_power_of_two_spec in H.
  destruct H as [[(k & Hk & ->) ?] Hsz]. constructor; simpl; [|lia].
  exists k. split; [|done]. split; [done|].
  destruct (Z.lt_ge_cases k 64) as [|Hge]; [done|].
  assert (2 ^ 64 ≤ 2 ^ k) by (apply Z.pow_le_mono_r; lia). lia.
Qed.

(** The address [current] rounded up to the alignment. *)
Definition round_up (current al : Z) : Z := (current + al - 1) / al * al.

Lemma round_up_spec c al : 0 < al → c ≤ round_up c al < c + al ∧ round_up c al mod al = 0.
Proof.
  intros Ha. unfold round_up. pose proof (Z.div_mod (c + al - 1) al).
  pose proof (Z.mod_pos_bound (c + al - 1) al). split; [lia|apply Z.mod_mul; lia].
Qed.

(** Clearing the low bits rounds down to a multiple of the power of two. *)
Lemma land_not_mask x k :
  0 ≤ x < 2 ^ 64 → 0 ≤ k < 64 → Z.land x (not_usize (2 ^ k - 1)) = x / 2 ^ k * 2 ^ k.
Proof.
  intros Hx Hk. rewrite <- Z.shiftl_mul_pow2, <- Z.shiftr_div_pow2 by lia.
  replace (2 ^ k - 1) with (Z.ones k) by (rewrite Z.ones_equiv; lia).
  bits i Hi. unfold not_usize. rewrite Z.land_spec, Z.lxor_spec, !Z.testbit_ones_nonneg by lia.
  rewrite Z.shiftl_spec by done.
  destruct (Z.ltb_spec i k).
  - rewrite (proj2 (Z.ltb_lt i 64)) by lia. rewrite (Z.testbit_neg_r _ (i - k)) by lia. apply andb_false_r.
  - rewrite Z.shiftr_spec by lia. replace (i - k + k) with i by lia.
    destruct (Z.ltb_spec i 64); simpl; [apply andb_true_r|].
    rewrite <- (Z.mod_small x (2 ^ 64)) by done. by rewrite Z.mod_pow2_bits_high.
Qed.

Section alloc_proofs.
Context `{E : Env}.

(** Under the invariants of [Layout] and a heap in the low half of the address
    space, no operation of [alloc] overflows, in either build profile. *)
Lemma bump_ok {St} l c (s : St) :
  layout_ok l → 0 ≤ c < 2 ^ 62 →
  bump l c s = Ok (round_up c (l_align l), round_up c (l_align l) + l_size l) s.
Proof.
  intros [(k & Hk & Hal) Hsz] Hc.
  assert (0 < 2 ^ k) by (apply Z.pow_pos_nonneg; lia).
  assert (2 ^ k ≤ 2 ^ 63) by (apply Z.pow_le_mono_r; lia).
  unfold bump, add_u64, sub_u64. rewrite Hal in *.
  do 3 (erewrite bind_Ok; [|rewrite checked_ok by (split; lia); reflexivity]).
  rewrite land_not_mask by lia. fold (round_up c (2 ^ k)).
  destruct (round_up_spec c (2 ^ k)); [done|].
  rewrite checked_ok by (split; lia). done.
Qed.

(** The state of an allocator in use. *)
Record bump_wf (a : BumpAllocator) : Prop := {
  bw_start : 0 < heap_start a;
  bw_next : heap_start a ≤ next a ≤ heap_end a;
  bw_end : heap_end a < 2 ^ 62;
}.

(** A round on every branch. *)
Lemma alloc_round_spec l endp cur a :
  layout_ok l → 0 ≤ cur < 2 ^ 62 →
  let p := round_up cur (l_align l) in
  alloc_round l endp cur a =
    if endp <? p + l_size l then Ok (Some 0) a
    else if next a =? cur then Ok (Some p) (mkBump (heap_start a) (heap_end a) (p + l_size l))
    else Ok None a.
Proof.
  intros Hl Hc p. unfold alloc_round. erewrite bind_Ok by (by apply bump_ok). simpl. fold p.
  destruct (endp <? p + l_size l); [done|]. unfold mbind, M_bind, compare_exchange. by destruct (next a =? cur).
Qed.

(** [alloc] on every branch. *)
Lemma alloc_spec l a :
  layout_ok l → bump_wf a →
  let p := round_up (next a) (l_align l) in
  alloc l a =
    if heap_end a <? p + l_size l then Ok 0 a
    else Ok p (mkBump (heap_start a) (heap_end a) (p + l_size l)).
Proof.
  intros Hl [? ? ?] p. unfold alloc. erewrite bind_Ok by reflexivity. cbn [alloc_loop].
  erewrite bind_Ok by reflexivity. pose proof (alloc_round_spec l (heap_end a) (next a) a Hl ltac:(lia)) as Hr.
  cbn zeta in Hr. fold p in Hr. rewrite Z.eqb_refl in Hr. unfold mbind, M_bind. rewrite Hr.
  by destruct (heap_end a <? p + l_size l).
Qed.

Lemma alloc_wf l a p a' :
  layout_ok l → bump_wf a → alloc l a = Ok p a' →
  bump_wf a' ∧ heap_start a' = heap_start a ∧ heap_end a' = heap_end a ∧ next a ≤ next a' ∧
  (p = 0 ∧ a' = a ∨
   p mod l_align l = 0 ∧ next a ≤ p ∧ p + l_size l = next a' ∧ next a' ≤ heap_end a).
Proof.
  intros Hl Hwf. rewrite alloc_spec by done. destruct Hwf as [? ? ?].
  destruct Hl as [(k & Hk & Hal) Hsz]. assert (0 < 2 ^ k) by (apply Z.pow_pos_nonneg; lia).
  destruct (round_up_spec (next a) (l_align l)); [lia|]. case_bool; intros [= <- <-].
  - split; [done|]. split_all; try lia. by left.
  - split; [constructor; simpl; lia|]. simpl. split_all; lia.
Qed.
End alloc_proofs.

(** ** Disjointness of the blocks of a sequence of allocations *)

(** A block in use: its address and size. *)
Definition block : Type := Z * Z.

Definition disjoint_blocks (b c : block) : Prop := b.1 + b.2 ≤ c.1 ∨ c.1 + c.2 ≤ b.1.

(** Pairwise disjoint. *)
Fixpoint all_disjoint (bs : list block) : Prop :=
  match bs with
  | [] => True
  | b :: bs' => Forall (disjoint_blocks b) bs' ∧ all_disjoint bs'
  end.

(** The blocks a sequence of requests obtained: the null answers are failures. *)
Definition blocks_of (ls : list Layout) (ps : list Z) : list block :=
  omap (λ lp : Layout * Z, if lp.2 =? 0 then None else Some (lp.2, l_size lp.1)) (zip ls ps).

Section sequence.
Context `{E : Env}.

Lemma alloc_all_blocks ls a ps a' :
  Forall layout_ok ls → bump_wf a → alloc_all ls a = Ok ps a' →
  bump_wf a' ∧ next a ≤ next a' ∧ heap_end a' = heap_end a ∧
  Forall (λ b : block, next a ≤ b.1 ∧ b.1 + b.2 ≤ next a') (blocks_of ls ps) ∧
  all_disjoint (blocks_of ls ps) ∧
  Forall2 (λ l p, p = 0 ∨ p mod l_align l = 0) ls ps.
Proof.
  intros Hls. revert a ps. induction Hls as [|l ls Hl _ IH]; intros a ps Hwf; simpl.
  { intros [= <- <-]. split_all; try lia; by constructor. }
  pose proof (alloc_spec l a Hl Hwf) as Hsp. cbv zeta in Hsp.
  destruct (alloc l a) as [p a1|e a1|a1] eqn:Hal; [|by revert Hsp; case_bool|by revert Hsp; case_bool].
  erewrite bind_Ok by done. clear Hsp.
  destruct (alloc_wf l a p a1 Hl Hwf Hal) as (Hwf1 & Hs1 & He1 & Hn1 & Hcase).
  destruct (alloc_all ls a1) as [ps1 a2|e a2|a2] eqn:Hall; unfold mbind, M_bind; rewrite Hall; try done.
  intros [= <- <-]. destruct (IH a1 ps1 Hwf1 Hall) as (? & ? & ? & Hin & Hdj & Hal2).
  split; [done|]. split; [lia|]. split; [congruence|].
  assert (Forall (λ b : block, next a ≤ b.1 ∧ b.1 + b.2 ≤ next a2) (blocks_of ls ps1)) as Hin'.
  { eapply Forall_impl; [done|]. simpl. intros; lia. }
  unfold blocks_of in *. simpl zip. csimpl. destruct (Z.eqb_spec p 0) as [->|Hp].
  - split_all. constructor; [by left|done].
  - destruct Hcase as [[? _]|(Hm & Hge & Hend & _)]; [done|].
    split; [constructor; [simpl; lia|done]|]. split; [|constructor; [by right|done]].
    split; [|done]. eapply Forall_impl; [exact Hin|]. simpl. intros b [? ?]. left. simpl. lia.
Qed.
End sequence.

(** ** Interleaved allocations *)

(** A context inside [alloc]: before the load of the end of the heap, at the head
    of the loop, between the load of [next] and the compare-exchange, or returned. *)
Inductive tstate :=
| TEnter (l : Layout)
| TStart (l : Layout) (endp : Z)
| TLoaded (l : Layout) (endp current : Z)
| TDone (l : Layout) (p : Z).

(** The shared allocator, the contexts, and the blocks handed out so far. *)
Record config := mkConfig { c_alloc : BumpAllocator; c_threads : list tstate; c_blocks : list block }.

(** Where a context is after a round, and the blocks then handed out. *)
Definition after_round (l : Layout) (endp : Z) (r : option Z) : tstate :=
  match r with Some p => TDone l p | None => TStart l endp end.

Definition handed_out (l : Layout) (r : option Z) (bs : list block) : list block :=
  match r with Some p => if p =? 0 then bs else (p, l_size l) :: bs | None => bs end.

(** One step of one context on the shared allocator: one of the two loads, or the
    round of [alloc_loop] that ends in the compare-exchange, the only access to
    shared memory in it. *)
Inductive step `{E : Env} : config → config → Prop :=
| step_end a ts bs i l endp :
    ts !! i = Some (TEnter l) → gets heap_end a = Ok endp a →
    step (mkConfig a ts bs) (mkConfig a (<[i := TStart l endp]> ts) bs)
| step_load a ts bs i l endp cur :
    ts !! i = Some (TStart l endp) → gets next a = Ok cur a →
    step (mkConfig a ts bs) (mkConfig a (<[i := TLoaded l endp cur]> ts) bs)
| step_round a ts bs i l endp cur r a' :
    ts !! i = Some (TLoaded l endp cur) → alloc_round l endp cur a = Ok r a' →
    step (mkConfig a ts bs) (mkConfig a' (<[i := after_round l endp r]> ts) (handed_out l r bs)).

Definition layout_of (t : tstate) : Layout :=
  match t with TEnter l | TStart l _ | TLoaded l _ _ | TDone l _ => l end.

(** What a context knows: the end of the heap, and a past value of the pointer; a
    returned one owns its block. *)
Definition tstate_ok (a0 a : BumpAllocator) (bs : list block) (t : tstate) : Prop :=
  match t with
  | TEnter _ => True
  | TStart _ endp => endp = heap_end a0
  | TLoaded _ endp cur => endp = heap_end a0 ∧ next a0 ≤ cur ≤ next a
  | TDone l p => p = 0 ∨ (p, l_size l) ∈ bs ∧ p mod l_align l = 0
  end.

(** Every block lies between the pointer at the start and the one now, and the
    blocks are pairwise disjoint. *)
Record conc_inv (a0 : BumpAllocator) (c : config) : Prop := {
  ci_heap : heap_start (c_alloc c) = heap_start a0 ∧ heap_end (c_alloc c) = heap_end a0;
  ci_next : next a0 ≤ next (c_alloc c) ≤ heap_end a0;
  ci_blocks : Forall (λ b : block, next a0 ≤ b.1 ∧ 0 ≤ b.2 ∧ b.1 + b.2 ≤ next (c_alloc c)) (c_blocks c);
  ci_disj : all_disjoint (c_blocks c);
  ci_layouts : Forall (λ t, layout_ok (layout_of t)) (c_threads c);
  ci_known : Forall (tstate_ok a0 (c_alloc c) (c_blocks c)) (c_threads c);
}.

(** A larger pointer and more blocks leave what is known true. *)
Lemma tstate_ok_mono a0 a a' bs bs' t :
  next a ≤ next a' → (∀ b, b ∈ bs → b ∈ bs') → tstate_ok a0 a bs t → tstate_ok a0 a' bs' t.
Proof. intros Hn Hb. destruct t; simpl; [done|done|intros [? ?]; split; [done|lia]|]. intros [?|[? ?]]; auto. Qed.

(** The context [i] moves to [t]; the allocator and the blocks only grow. *)
Lemma conc_inv_move a0 a a' ts bs bs' i t :
  bump_wf a0 → conc_inv a0 (mkConfig a ts bs) →
  heap_start a' = heap_start a0 → heap_end a' = heap_end a0 → next a ≤ next a' ≤ heap_end a0 →
  (∀ b, b ∈ bs → b ∈ bs') → all_disjoint bs' →
  Forall (λ b : block, next a0 ≤ b.1 ∧ 0 ≤ b.2 ∧ b.1 + b.2 ≤ next a') bs' →
  layout_ok (layout_of t) → tstate_ok a0 a' bs' t → conc_inv a0 (mkConfig a' (<[i := t]> ts) bs').
Proof.
  intros Hwf [Hh Hn Hb Hd Hl Hk] H1 H2 H3 H4 H5 H6 H7 H8. simpl in *.
  constructor; simpl; [done|lia|done|done|by apply Forall_insert|].
  apply Forall_insert; [|done]. eapply Forall_impl; [exact Hk|]. intros u. apply tstate_ok_mono; [lia|done].
Qed.

Lemma conc_inv_step `{E : Env} a0 c c' : bump_wf a0 → conc_inv a0 c → step c c' → conc_inv a0 c'.
Proof.
  intros Hwf Hinv Hstep. pose proof Hinv as [[Hh He] Hn Hb Hd Hl Hk]. pose proof Hwf as [Hs0 Hn0 He0].
  destruct Hstep as [a ts bs i l endp Hi [= <-]|a ts bs i l endp cur Hi [= <-]|a ts bs i l endp cur r a' Hi Hr]; simpl in *;
    pose proof (Forall_lookup_1 _ _ _ _ Hl Hi) as Hlk; pose proof (Forall_lookup_1 _ _ _ _ Hk Hi) as Hki; simpl in Hlk, Hki.
  - by apply (conc_inv_move a0 a a ts bs); try done; lia.
  - apply (conc_inv_move a0 a a ts bs); try done; [lia|]. simpl. split; [done|lia].
  - destruct Hki as [-> Hcur]. rewrite alloc_round_spec in Hr by (done || lia).
    assert (0 < l_align l) by (destruct Hlk as [(k & ? & ->) _]; apply Z.pow_pos_nonneg; lia).
    destruct (round_up_spec cur (l_align l)) as [Hal Hmod]; [done|]. pose proof (lo_size l Hlk) as Hsz.
    destruct (Z.ltb_spec (heap_end a0) (round_up cur (l_align l) + l_size l)); [|destruct (Z.eqb_spec (next a) cur) as [Heq|]].
    + injection Hr as <- <-. apply (conc_inv_move a0 a a ts bs); try done; [lia|by left].
    + injection Hr as <- <-. unfold handed_out. rewrite (proj2 (Z.eqb_neq _ _)) by lia.
      apply (conc_inv_move a0 a _ ts bs); try done; simpl; [lia|by right| | |].
      * split; [|done]. eapply Forall_impl; [exact Hb|]. intros b (? & ? & ?). right. simpl. lia.
      * constructor; [simpl; lia|]. eapply Forall_impl; [exact Hb|]. simpl. intros; lia.
      * right. split; [by left|done].
    + injection Hr as <- <-. by apply (conc_inv_move a0 a a ts bs); try done; lia.
Qed.

(** ** Properties of the allocator *)

(** C32: one allocation, on every branch.  For a layout accepted by
    [Layout::from_size_align] and a heap below 2^62, [alloc] returns without
    overflow in both build profiles.  It answers null, and changes nothing,
    exactly when the aligned block does not fit; otherwise it answers the first
    aligned address at or above the bump pointer and moves the pointer to the
    end of the block. *)
Theorem alloc_correct `{E : Env} sz al l a :
  from_size_align sz al = Some l → bump_wf a →
  ∃ p a', alloc l a = Ok p a' ∧ bump_wf a' ∧
    (p = 0 ∧ a' = a ∧ heap_end a < round_up (next a) al + sz ∨
     heap_start a ≤ p ∧ p mod al = 0 ∧ next a ≤ p < next a + al ∧
     p + sz ≤ heap_end a ∧ a' = mkBump (heap_start a) (heap_end a) (p + sz)).
Proof.
  intros Hl Hwf. destruct (from_size_align_ok _ _ _ Hl) as [Hok ->].
  pose proof (alloc_spec _ a Hok Hwf) as Hsp. simpl in Hsp.
  assert (0 < al) by (destruct Hok as [(k & ? & Hk) _]; simpl in Hk; subst; apply Z.pow_pos_nonneg; lia).
  destruct (round_up_spec (next a) al) as [? ?]; [done|].
  pose proof (lo_size _ Hok) as Hsz. simpl in Hsz. destruct Hwf as [? ? ?] eqn:Hw.
  destruct (Z.ltb_spec (heap_end a) (round_up (next a) al + sz)).
  - exists 0, a. split_all. by left.
  - exists (round_up (next a) al), (mkBump (heap_start a) (heap_end a) (round_up (next a) al + sz)).
    split; [done|]. split; [constructor; simpl; lia|]. right. split_all; lia.
Qed.

Lemma alloc_correct_witness :
  ∃ p a', alloc (E := quiet_board0) (mkLayout 8192 8192) (mkBump 0x80019000 0x81019000 0x80019003) = Ok p a' ∧
    bump_wf a' ∧
    (p = 0 ∧ a' = mkBump 0x80019000 0x81019000 0x80019003 ∧ 0x81019000 < round_up 0x80019003 8192 + 8192 ∨
     0x80019000 ≤ p ∧ p mod 8192 = 0 ∧ 0x80019003 ≤ p < 0x80019003 + 8192 ∧
     p + 8192 ≤ 0x81019000 ∧ a' = mkBump 0x80019000 0x81019000 (p + 8192)).
Proof.
  apply (alloc_correct (E := quiet_board0) 8192 8192 (mkLayout 8192 8192) (mkBump 0x80019000 0x81019000 0x80019003));
    [reflexivity|constructor; vm_compute; intuition congruence].
Defined.

(** The blocks of any sequence of allocations lie in the heap, are aligned
    as requested and are pairwise disjoint; the allocator stays well formed. *)
Lemma alloc_sequence_disjoint `{E : Env} ls a ps a' :
  Forall layout_ok ls → bump_wf a → alloc_all ls a = Ok ps a' →
  bump_wf a' ∧ all_disjoint (blocks_of ls ps) ∧
  Forall (λ b : block, heap_start a ≤ b.1 ∧ b.1 + b.2 ≤ heap_end a) (blocks_of ls ps) ∧
  Forall2 (λ l p, p = 0 ∨ p mod l_align l = 0) ls ps.
Proof.
  intros Hls Hwf Hrun.
  destruct (alloc_all_blocks ls a ps a' Hls Hwf Hrun) as (Hwf' & ? & ? & Hin & ? & ?).
  split_all. eapply Forall_impl; [exact Hin|]. destruct Hwf, Hwf'. simpl. intros; lia.
Qed.

(** C33: the compare-exchange loop is safe under interference.  Let any number of
    contexts be inside [alloc] on one allocator in use, and let their loads and
    the rounds of their loops, each of which ends in a compare-exchange, be
    interleaved in any way.  The blocks handed out stay between the pointer the
    contexts found and the end of the heap and pairwise disjoint, the allocator
    stays well-formed, and every context that has returned non-null owns one of
    the blocks, aligned as it asked. *)
Theorem alloc_interleaving_safe `{E : Env} a0 ls c :
  bump_wf a0 → Forall layout_ok ls → rtc step (mkConfig a0 (TEnter <$> ls) []) c →
  bump_wf (c_alloc c) ∧ all_disjoint (c_blocks c) ∧
  Forall (λ b : block, next a0 ≤ b.1 ∧ b.1 + b.2 ≤ heap_end a0) (c_blocks c) ∧
  ∀ i l p, c_threads c !! i = Some (TDone l p) → p ≠ 0 →
    (p, l_size l) ∈ c_blocks c ∧ p mod l_align l = 0.
Proof.
  intros Hwf Hls Hrun.
  assert (conc_inv a0 (mkConfig a0 (TEnter <$> ls) [])) as H0.
  { destruct Hwf. constructor; simpl; try done; try lia; apply Forall_fmap; by eapply Forall_impl. }
  assert (conc_inv a0 c) as [[Hs He] Hn Hb Hd _ Hk].
  { clear -Hwf H0 Hrun. induction Hrun as [|x y z Hxy _ IH]; [done|]. apply IH. by eapply conc_inv_step. }
  split; [destruct Hwf; constructor; rewrite ?Hs, ?He; lia|]. split; [done|].
  split; [eapply Forall_impl; [exact Hb|]; simpl; intros; lia|].
  intros i l p Hi Hp. pose proof (Forall_lookup_1 _ _ _ _ Hk Hi) as Ht. simpl in Ht. tauto.
Qed.

(** Two contexts race: both load the same pointer, one compare-exchange wins and
    the other context starts over. *)
Lemma alloc_interleaving_safe_witness :
  ∃ c, rtc (step (E := quiet_board0))
    (mkConfig (mkBump 0x1000 0x6000 0x1000) (TEnter <$> [mkLayout 16 8; mkLayout 32 16]) []) c ∧
  c_threads c !! 0%nat = Some (TStart (mkLayout 16 8) 0x6000) ∧ c_blocks c = [(0x1000, 32)] ∧
  all_disjoint (c_blocks c) ∧ bump_wf (c_alloc c).
Proof.
  eassert (rtc (step (E := quiet_board0))
    (mkConfig (mkBump 0x1000 0x6000 0x1000) (TEnter <$> [mkLayout 16 8; mkLayout 32 16]) []) _) as Hrun.
  { eapply rtc_l; [apply (step_end _ _ _ 0%nat); reflexivity|].
    eapply rtc_l; [apply (step_end _ _ _ 1%nat); reflexivity|].
    eapply rtc_l; [eapply (step_load _ _ _ 0%nat); reflexivity|].
    eapply rtc_l; [eapply (step_load _ _ _ 1%nat); reflexivity|].
    eapply rtc_l; [eapply (step_round _ _ _ 1%nat); reflexivity|].
    eapply rtc_l; [eapply (step_round _ _ _ 0%nat); reflexivity|].
    apply rtc_refl. }
  eexists. split; [exact Hrun|]. split; [reflexivity|]. split; [reflexivity|].
  assert (bump_wf (mkBump 0x1000 0x6000 0x1000)) as Hwf by (constructor; vm_compute; intuition congruence).
  assert (Forall layout_ok [mkLayout 16 8; mkLayout 32 16]) as Hls.
  { apply Forall_cons_2; [constructor; [exists 3|]; vm_compute; intuition congruence|].
    apply Forall_cons_2; [constructor; [exists 4|]; vm_compute; intuition congruence|].
    apply Forall_nil_2. }
  destruct (alloc_interleaving_safe (E := quiet_board0) _ _ _ Hwf Hls Hrun) as (H1 & H2 & _). exact (conj H2 H1).
Defined.
