(* ===== verification/Registers.v ===== *)
(** Register files: [TrapFrame] (trap.rs), [TaskContext] (sched/task.rs) and the
    [copy_gpr_fields!] macro (arch/register.rs).

    Both structures are [repr(C)]: a field at position [i] has byte offset
    [8 * i], which is what the assembly of [trap.rs] relies on.  [to_list] gives
    the fields in that order. *)

From S2P Require Import Prelude.

Local Open Scope Z_scope.

(** ** The trap frame *)

Module TrapFrame.
Record t := mk {
  ra : Z; t0 : Z; t1 : Z; t2 : Z; t3 : Z; t4 : Z; t5 : Z; t6 : Z; a0 : Z; a1 : Z;
  a2 : Z; a3 : Z; a4 : Z; a5 : Z; a6 : Z; a7 : Z; s0 : Z; s1 : Z; s2 : Z; s3 : Z;
  s4 : Z; s5 : Z; s6 : Z; s7 : Z; s8 : Z; s9 : Z; s10 : Z; s11 : Z; gp : Z; tp : Z;
  sp : Z;
}.

Definition to_list (f : t) : list Z :=
  [ra f; t0 f; t1 f; t2 f; t3 f; t4 f; t5 f; t6 f; a0 f; a1 f; a2 f; a3 f; a4 f; a5 f;
   a6 f; a7 f; s0 f; s1 f; s2 f; s3 f; s4 f; s5 f; s6 f; s7 f; s8 f; s9 f; s10 f; s11 f;
   gp f; tp f; sp f].

(** [frame.a0 = v]. *)
Definition set_a0 (v : Z) (f : t) : t :=
  mk (ra f) (t0 f) (t1 f) (t2 f) (t3 f) (t4 f) (t5 f) (t6 f) v (a1 f) (a2 f) (a3 f)
     (a4 f) (a5 f) (a6 f) (a7 f) (s0 f) (s1 f) (s2 f) (s3 f) (s4 f) (s5 f) (s6 f) (s7 f)
     (s8 f) (s9 f) (s10 f) (s11 f) (gp f) (tp f) (sp f).

(** [a7] set by a task before an [ecall]. *)
Definition set_a7 (v : Z) (f : t) : t :=
  mk (ra f) (t0 f) (t1 f) (t2 f) (t3 f) (t4 f) (t5 f) (t6 f) (a0 f) (a1 f) (a2 f) (a3 f)
     (a4 f) (a5 f) (a6 f) v (s0 f) (s1 f) (s2 f) (s3 f) (s4 f) (s5 f) (s6 f) (s7 f)
     (s8 f) (s9 f) (s10 f) (s11 f) (gp f) (tp f) (sp f).
End TrapFrame.

(** ** The saved task context *)

Module TaskContext.
Record t := mk {
  ra : Z; t0 : Z; t1 : Z; t2 : Z; t3 : Z; t4 : Z; t5 : Z; t6 : Z; a0 : Z; a1 : Z;
  a2 : Z; a3 : Z; a4 : Z; a5 : Z; a6 : Z; a7 : Z; s0 : Z; s1 : Z; s2 : Z; s3 : Z;
  s4 : Z; s5 : Z; s6 : Z; s7 : Z; s8 : Z; s9 : Z; s10 : Z; s11 : Z; gp : Z; tp : Z;
  sp : Z; mepc : Z; mstatus : Z;
}.

Definition to_list (c : t) : list Z :=
  [ra c; t0 c; t1 c; t2 c; t3 c; t4 c; t5 c; t6 c; a0 c; a1 c; a2 c; a3 c; a4 c; a5 c;
   a6 c; a7 c; s0 c; s1 c; s2 c; s3 c; s4 c; s5 c; s6 c; s7 c; s8 c; s9 c; s10 c; s11 c;
   gp c; tp c; sp c; mepc c; mstatus c].

(** [TaskContext::new_mmode]: MPP = 11, MPIE = 1. *)
Definition new_mmode (entry_point stack_top : Z) : t :=
  let mstatus := Z.lor (Z.shiftl 3 11) (Z.shiftl 1 7) in
  mk 0 0 0 0 0 0 0 0 0 0 0 0 0 0 0 0 0 0 0 0 0 0 0 0 0 0 0 0 0 0
     stack_top entry_point mstatus.

(** [TaskContext::new_umode]: MPP = 00, MPIE = 1. *)
Definition new_umode (entry_point stack_top : Z) : t :=
  let mstatus := Z.shiftl 1 7 in
  mk 0 0 0 0 0 0 0 0 0 0 0 0 0 0 0 0 0 0 0 0 0 0 0 0 0 0 0 0 0 0
     stack_top entry_point mstatus.
End TaskContext.

(** ** [copy_gpr_fields!] *)

(** [copy_gpr_fields!(frame, ctx)]: the 31 registers, not the two CSRs. *)
Definition copy_frame_to_ctx (src : TrapFrame.t) (dst : TaskContext.t) : TaskContext.t :=
  TaskContext.mk
    (TrapFrame.ra src) (TrapFrame.t0 src) (TrapFrame.t1 src) (TrapFrame.t2 src)
    (TrapFrame.t3 src) (TrapFrame.t4 src) (TrapFrame.t5 src) (TrapFrame.t6 src)
    (TrapFrame.a0 src) (TrapFrame.a1 src) (TrapFrame.a2 src) (TrapFrame.a3 src)
    (TrapFrame.a4 src) (TrapFrame.a5 src) (TrapFrame.a6 src) (TrapFrame.a7 src)
    (TrapFrame.s0 src) (TrapFrame.s1 src) (TrapFrame.s2 src) (TrapFrame.s3 src)
    (TrapFrame.s4 src) (TrapFrame.s5 src) (TrapFrame.s6 src) (TrapFrame.s7 src)
    (TrapFrame.s8 src) (TrapFrame.s9 src) (TrapFrame.s10 src) (TrapFrame.s11 src)
    (TrapFrame.gp src) (TrapFrame.tp src) (TrapFrame.sp src)
    (TaskContext.mepc dst) (TaskContext.mstatus dst).

(** [copy_gpr_fields!(ctx, frame)]. *)
Definition copy_ctx_to_frame (src : TaskContext.t) (dst : TrapFrame.t) : TrapFrame.t :=
  TrapFrame.mk
    (TaskContext.ra src) (TaskContext.t0 src) (TaskContext.t1 src) (TaskContext.t2 src)
    (TaskContext.t3 src) (TaskContext.t4 src) (TaskContext.t5 src) (TaskContext.t6 src)
    (TaskContext.a0 src) (TaskContext.a1 src) (TaskContext.a2 src) (TaskContext.a3 src)
    (TaskContext.a4 src) (TaskContext.a5 src) (TaskContext.a6 src) (TaskContext.a7 src)
    (TaskContext.s0 src) (TaskContext.s1 src) (TaskContext.s2 src) (TaskContext.s3 src)
    (TaskContext.s4 src) (TaskContext.s5 src) (TaskContext.s6 src) (TaskContext.s7 src)
    (TaskContext.s8 src) (TaskContext.s9 src) (TaskContext.s10 src) (TaskContext.s11 src)
    (TaskContext.gp src) (TaskContext.tp src) (TaskContext.sp src).

(** [ctx.mepc = mepc; ctx.mstatus = mstatus]. *)
Definition set_ctx_csrs (mepc mstatus : Z) (c : TaskContext.t) : TaskContext.t :=
  TaskContext.mk
    (TaskContext.ra c) (TaskContext.t0 c) (TaskContext.t1 c) (TaskContext.t2 c)
    (TaskContext.t3 c) (TaskContext.t4 c) (TaskContext.t5 c) (TaskContext.t6 c)
    (TaskContext.a0 c) (TaskContext.a1 c) (TaskContext.a2 c) (TaskContext.a3 c)
    (TaskContext.a4 c) (TaskContext.a5 c) (TaskContext.a6 c) (TaskContext.a7 c)
    (TaskContext.s0 c) (TaskContext.s1 c) (TaskContext.s2 c) (TaskContext.s3 c)
    (TaskContext.s4 c) (TaskContext.s5 c) (TaskContext.s6 c) (TaskContext.s7 c)
    (TaskContext.s8 c) (TaskContext.s9 c) (TaskContext.s10 c) (TaskContext.s11 c)
    (TaskContext.gp c) (TaskContext.tp c) (TaskContext.sp c)
    mepc mstatus.

(** ** Lemmas *)

Lemma trap_frame_size f : length (TrapFrame.to_list f) = 31%nat.
Proof. done. Qed.

Lemma task_context_size c : length (TaskContext.to_list c) = 33%nat.
Proof. done. Qed.

(** A context is a frame followed by the two CSRs: the layouts agree. *)
Lemma context_extends_frame f c mepc mstatus :
  TaskContext.to_list (set_ctx_csrs mepc mstatus (copy_frame_to_ctx f c)) =
  TrapFrame.to_list f ++ [mepc; mstatus].
Proof. done. Qed.

(** What is saved is what is restored. *)
Lemma copy_roundtrip f f' c : copy_ctx_to_frame (copy_frame_to_ctx f c) f' = f.
Proof. by destruct f. Qed.

Lemma copy_roundtrip_csrs f f' c mepc mstatus :
  copy_ctx_to_frame (set_ctx_csrs mepc mstatus (copy_frame_to_ctx f c)) f' = f.
Proof. by destruct f. Qed.
