(* ===== verification/Policy.v ===== *)
(** The task-selection policy: [crates/kernel/src/sched/policy.rs].

    [select_next_ready] is characterised by an order: the slots counted from the
    one after the current task ([rr_dist]).  It picks the ready non-idle slot
    that comes first in that order, the idle slot when no other is ready, and
    nothing when not even idle is ready.  Each choice brings every waiting task
    nearer, so a task that stays ready is picked within a bounded number of
    choices whatever the others do. *)

From S2P Require Import Prelude.

Local Open Scope nat_scope.

Definition IDLE_TASK_INDEX : nat := 0.

(** The [for offset in 0..N] loop: the first index that passes the test. *)
Fixpoint scan (start n : nat) (offsets : list nat) (is_ready : nat → bool) : option nat :=
  match offsets with
  | [] => None
  | offset :: rest =>
    let idx := (start + offset) mod n in
    if negb (idx =? IDLE_TASK_INDEX) && is_ready idx then Some idx else scan start n rest is_ready
  end.

Definition rr_start (n : nat) (current : option nat) : nat :=
  match current with
  | None => (IDLE_TASK_INDEX + 1) mod n
  | Some current => (current + 1) mod n
  end.

Definition select_next_ready (n : nat) (current : option nat) (is_ready : nat → bool) : option nat :=
  if n =? 0 then None else
  match scan (rr_start n current) n (seq 0 n) is_ready with
  | Some idx => Some idx
  | None => if is_ready IDLE_TASK_INDEX then Some IDLE_TASK_INDEX else None
  end.

(** ** Round-robin order *)

(** Case analysis on the comparisons of natural numbers, then arithmetic. *)
Ltac nat_cases :=
  repeat match goal with
  | |- context [?a <=? ?b] => destruct (Nat.leb_spec a b)
  | |- context [?a <? ?b] => destruct (Nat.ltb_spec a b)
  | _ : context [?a <=? ?b] |- _ => destruct (Nat.leb_spec a b)
  | _ : context [?a <? ?b] |- _ => destruct (Nat.ltb_spec a b)
  end; try lia.

(** Position of slot [idx] in the order that starts at [start]. *)
Definition rr_dist (n start idx : nat) : nat := (idx + (n - start)) mod n.

Section order.
Context (n start : nat) (Hs : start < n).

Lemma rr_dist_lt idx : rr_dist n start idx < n.
Proof. apply Nat.mod_upper_bound. lia. Qed.

(** Case form of the modulus: below or past the wrap-around. *)
Lemma rr_dist_cases idx :
  idx < n → rr_dist n start idx = if start <=? idx then idx - start else idx + n - start.
Proof.
  intros Hi. unfold rr_dist. destruct (Nat.leb_spec start idx).
  - replace (idx + (n - start)) with (idx - start + 1 * n) by lia.
    rewrite Nat.Div0.mod_add. apply Nat.mod_small. lia.
  - rewrite Nat.mod_small; lia.
Qed.

Lemma rr_slot_cases off : off < n → (start + off) mod n = if start + off <? n then start + off else start + off - n.
Proof.
  intros Ho. destruct (Nat.ltb_spec (start + off) n); [by apply Nat.mod_small|].
  replace (start + off) with (start + off - n + 1 * n) by lia.
  rewrite Nat.Div0.mod_add. rewrite Nat.mod_small; lia.
Qed.

Lemma rr_dist_slot off : off < n → rr_dist n start ((start + off) mod n) = off.
Proof.
  intros Ho. rewrite rr_dist_cases by (apply Nat.mod_upper_bound; lia).
  rewrite rr_slot_cases by done. nat_cases.
Qed.

Lemma rr_slot_dist idx : idx < n → (start + rr_dist n start idx) mod n = idx.
Proof.
  intros Hi. rewrite rr_slot_cases by apply rr_dist_lt. rewrite rr_dist_cases by done.
  nat_cases.
Qed.
End order.

(** ** Specification *)

(** [i] is the first ready non-idle slot in round-robin order from [start]. *)
Definition first_ready (n start : nat) (is_ready : nat → bool) (i : nat) : Prop :=
  i < n ∧ i ≠ IDLE_TASK_INDEX ∧ is_ready i = true ∧
  ∀ j, j < n → j ≠ IDLE_TASK_INDEX → is_ready j = true → rr_dist n start i ≤ rr_dist n start j.

(** The three outcomes of the policy. *)
Inductive choice (n : nat) (current : option nat) (is_ready : nat → bool) : option nat → Prop :=
| choice_task i :
    first_ready n (rr_start n current) is_ready i → choice n current is_ready (Some i)
| choice_idle :
    (∀ j, j < n → j ≠ IDLE_TASK_INDEX → is_ready j = false) →
    is_ready IDLE_TASK_INDEX = true → choice n current is_ready (Some IDLE_TASK_INDEX)
| choice_none :
    (∀ j, j < n → is_ready j = false) → choice n current is_ready None.

Lemma rr_start_lt n current : n ≠ 0 → rr_start n current < n.
Proof. intros. destruct current; apply Nat.mod_upper_bound; done. Qed.

Section select.
Context (n : nat) (Hn : n ≠ 0) (is_ready : nat → bool).

(** The loop over the offsets [a .. a+len). *)
Lemma scan_spec start a len :
  start < n → a + len = n →
  match scan start n (seq a len) is_ready with
  | Some i => i < n ∧ i ≠ IDLE_TASK_INDEX ∧ is_ready i = true ∧
      ∀ j, j < n → a ≤ rr_dist n start j → j ≠ IDLE_TASK_INDEX → is_ready j = true →
           rr_dist n start i ≤ rr_dist n start j
  | None => ∀ j, j < n → a ≤ rr_dist n start j → j ≠ IDLE_TASK_INDEX → is_ready j = false
  end.
Proof.
  intros Hs. revert a. induction len as [|len IH]; intros a Hlen; simpl.
  - intros j Hj Ha. pose proof (rr_dist_lt n start Hs j). lia.
  - set (idx := (start + a) mod n).
    assert (Hidx : idx < n) by (apply Nat.mod_upper_bound; lia).
    assert (Hd : rr_dist n start idx = a) by (apply rr_dist_slot; lia).
    destruct (negb (idx =? IDLE_TASK_INDEX) && is_ready idx) eqn:Ht.
    + apply andb_true_iff in Ht as [Hne Hr]. apply negb_true_iff, Nat.eqb_neq in Hne.
      split_all. intros j Hj Ha _ _. by rewrite Hd.
    + assert (∀ j, j < n → rr_dist n start j = a → j = idx) as Huniq.
      { intros j Hj Hja. unfold idx. rewrite <- Hja. symmetry. by apply rr_slot_dist. }
      assert (∀ j, j < n → rr_dist n start j = a → j ≠ IDLE_TASK_INDEX → is_ready j = false) as Hskip.
      { intros j Hj Hja Hne. rewrite (Huniq j Hj Hja) in *. apply andb_false_iff in Ht as [Ht|Ht]; [|done].
        apply negb_false_iff, Nat.eqb_eq in Ht. done. }
      specialize (IH (S a) ltac:(lia)). destruct (scan _ _ _ _) as [i|].
      * destruct IH as (? & ? & ? & Hmin). split_all. intros j Hj Ha Hne Hr.
        destruct (decide (rr_dist n start j = a)) as [Heq|]; [by rewrite Hskip in Hr|].
        apply Hmin; try done. lia.
      * intros j Hj Ha Hne. destruct (decide (rr_dist n start j = a)); [auto|]. apply IH; [done|lia|done].
Qed.

Lemma select_choice current : choice n current is_ready (select_next_ready n current is_ready).
Proof.
  unfold select_next_ready. rewrite (proj2 (Nat.eqb_neq n 0)) by done.
  pose proof (scan_spec (rr_start n current) 0 n (rr_start_lt n current Hn) eq_refl) as Hscan.
  destruct (scan _ _ _ _) as [i|].
  - destruct Hscan as (? & ? & ? & Hmin). constructor. unfold first_ready. split_all. intros. apply Hmin; lia || done.
  - destruct (is_ready IDLE_TASK_INDEX) eqn:Hr; [apply choice_idle|apply choice_none]; try done; intros.
    + apply Hscan; lia || done.
    + destruct (decide (j = IDLE_TASK_INDEX)) as [->|]; [done|]. apply Hscan; lia || done.
Qed.

Lemma select_is_ready current i : select_next_ready n current is_ready = Some i → is_ready i = true.
Proof.
  intros Hs. pose proof (select_choice current) as Hc. rewrite Hs in Hc.
  inversion Hc as [j (_ & _ & Hr & _)|_ Hr|]; by subst.
Qed.

(** The specification determines the answer. *)
Lemma choice_unique current r r' :
  choice n current is_ready r → choice n current is_ready r' → r = r'.
Proof.
  assert (rr_start n current < n) as Hs by (by apply rr_start_lt).
  intros H H'. destruct H as [i (Hi & Hi0 & Hir & Hmin)|Hno Hr|Hno]; inversion H' as [i' (Hi' & Hi0' & Hir' & Hmin')|Hno' Hr'|Hno']; subst.
  - specialize (Hmin i' Hi' Hi0' Hir'). specialize (Hmin' i Hi Hi0 Hir).
    rewrite <- (rr_slot_dist n (rr_start n current) Hs i), <- (rr_slot_dist n (rr_start n current) Hs i') by done.
    do 2 f_equal. f_equal. lia.
  - by rewrite Hno' in Hir.
  - by rewrite Hno' in Hir.
  - by rewrite Hno in Hir'.
  - done.
  - by rewrite Hno' in Hr by (unfold IDLE_TASK_INDEX; lia).
  - by rewrite Hno in Hir'.
  - by rewrite Hno in Hr' by (unfold IDLE_TASK_INDEX; lia).
  - done.
Qed.

(** Non-idle slots that come before [i] in the order from [start]. *)
Definition rr_ahead (start i : nat) : nat :=
  rr_dist n start i -
  (if rr_dist n start IDLE_TASK_INDEX <? rr_dist n start i then 1 else 0).

Lemma rr_ahead_lt start i : start < n → i < n → i ≠ IDLE_TASK_INDEX → rr_ahead start i < n - 1.
Proof.
  unfold rr_ahead, IDLE_TASK_INDEX. intros Hs Hi Hi0. rewrite !rr_dist_cases by lia. nat_cases.
Qed.

(** Moving the start past a slot [c] that comes before [i] leaves fewer ahead. *)
Lemma rr_ahead_decreases start c i :
  start < n → c < n → i < n → c ≠ IDLE_TASK_INDEX → i ≠ IDLE_TASK_INDEX → c ≠ i →
  rr_dist n start c ≤ rr_dist n start i →
  rr_ahead ((c + 1) mod n) i < rr_ahead start i.
Proof.
  unfold rr_ahead, IDLE_TASK_INDEX. intros Hs Hc Hi Hc0 Hi0 Hne.
  assert (Hs' : (c + 1) mod n < n) by (apply Nat.mod_upper_bound; lia).
  assert ((c + 1) mod n = if c + 1 <? n then c + 1 else 0) as Hmod.
  { destruct (Nat.ltb_spec (c + 1) n); [by apply Nat.mod_small|].
    replace (c + 1) with n by lia. apply Nat.Div0.mod_same. }
  rewrite !rr_dist_cases by lia. rewrite Hmod. nat_cases.
Qed.

(** Progress: while task [i] is ready, either it is chosen or a task ahead of it
    is, and fewer are ahead of it from there. *)
Lemma choice_progress current i :
  i < n → i ≠ IDLE_TASK_INDEX → is_ready i = true →
  ∃ c, select_next_ready n current is_ready = Some c ∧
    (c = i ∨ rr_ahead (rr_start n (Some c)) i < rr_ahead (rr_start n current) i).
Proof.
  intros Hi Hi0 Hr. assert (rr_start n current < n) as Hs by (by apply rr_start_lt).
  pose proof (select_choice current) as Hc. inversion Hc as [c (Hcn & Hc0 & _ & Hmin) Heq|Hno|Hno]; subst.
  - exists c. split; [done|]. destruct (decide (c = i)) as [|Hne]; [by left|]. right.
    apply rr_ahead_decreases; auto.
  - by rewrite Hno in Hr.
  - by rewrite Hno in Hr.
Qed.
End select.

(** ** Sequences of decisions *)

(** The current task after [k] decisions, the [j]-th of which sees the readiness
    [rs j]; a decision that finds nothing leaves the current task. *)
Fixpoint decisions (n : nat) (rs : nat → nat → bool) (current : option nat) (k : nat) : option nat :=
  match k with
  | O => current
  | S k =>
    let c := decisions n rs current k in
    match select_next_ready n c (rs k) with Some c' => Some c' | None => c end
  end.

Lemma decisions_reach n rs current i m : n ≠ 0 →
  i < n → i ≠ IDLE_TASK_INDEX → (∀ k, k ≤ m → rs k i = true) →
  (∃ k, k ≤ m ∧ select_next_ready n (decisions n rs current k) (rs k) = Some i) ∨
  rr_ahead n (rr_start n (decisions n rs current (S m))) i + S m ≤ rr_ahead n (rr_start n current) i.
Proof.
  intros Hn Hi Hi0. induction m as [|m IH]; intros Hr.
  - destruct (choice_progress n Hn (rs 0) current i) as (c & Hc & [->|Hlt]); auto.
    + left. by exists 0.
    + right. simpl. rewrite Hc. lia.
  - destruct IH as [(k & Hk & Hsel)|Hle]; [auto|left; exists k; split; [lia|done]|].
    destruct (choice_progress n Hn (rs (S m)) (decisions n rs current (S m)) i)
      as (c & Hc & [->|Hlt]); auto.
    + left. by exists (S m).
    + right. change (decisions n rs current (S (S m))) with
        (match select_next_ready n (decisions n rs current (S m)) (rs (S m)) with
         | Some c' => Some c' | None => decisions n rs current (S m) end).
      rewrite Hc. lia.
Qed.

(** ** Properties *)

(** C17: refinement of the policy.  For a table of [n > 0] slots,
    [select_next_ready] returns exactly the answer of the specification
    [choice], which determines it: the first ready non-idle slot in round-robin
    order after the current task; idle slot 0 only when no other slot is ready;
    nothing when no slot is ready. *)
Theorem select_next_ready_refines n current is_ready r :
  n ≠ 0 → select_next_ready n current is_ready = r ↔ choice n current is_ready r.
Proof.
  intros Hn. split; [intros <-; by apply select_choice|].
  intros Hc. eapply choice_unique; [done|by apply select_choice|done].
Qed.

Lemma select_next_ready_refines_witness :
  select_next_ready 4 (Some 1) (λ i, i =? 1) = Some 1 ∧ choice 4 None (λ i, i =? 0) (Some 0).
Proof.
  split; [reflexivity|]. apply (select_next_ready_refines 4 None (λ i, i =? 0) (Some 0)); [done|reflexivity].
Defined.

(** Fairness of the policy.  Whatever the readiness of the other tasks
    does from one decision to the next, a non-idle task that is ready at each of
    [n - 1] consecutive decisions (three for the kernel's table of four) is
    chosen at one of them. *)
Lemma select_next_ready_fair n rs current i :
  i < n → i ≠ IDLE_TASK_INDEX → (∀ k, k < n - 1 → rs k i = true) →
  ∃ k, k < n - 1 ∧ select_next_ready n (decisions n rs current k) (rs k) = Some i.
Proof.
  unfold IDLE_TASK_INDEX. intros Hi Hi0 Hr.
  destruct (decisions_reach n rs current i (n - 2) ltac:(lia) Hi Hi0) as [(k & Hk & Hsel)|Hle].
  - intros k Hk. apply Hr. lia.
  - exists k. split; [lia|done].
  - pose proof (rr_ahead_lt n ltac:(lia) (rr_start n current) i (rr_start_lt n current ltac:(lia)) Hi Hi0). lia.
Qed.
