(* ===== verification/Task.v ===== *)
(** Task control blocks: [crates/kernel/src/sched/task.rs].

    The life-cycle states, the per-task PMP configuration with its builder, and
    the task record.  The builder's assertions are panics of the model; the
    lemmas give its result on every sequence of requests. *)

From S2P Require Import Prelude Config Machine PmpHw Pmp Registers.

Local Open Scope Z_scope.

(** ** Task state *)

Inductive TaskState := Created | Ready | Running | Dead.

#[export] Instance TaskState_eq_dec : EqDecision TaskState.
Proof. solve_decision. Defined.

Record TaskId := mkTaskId { tid : Z }.

(** ** PMP configuration of a task *)

Record PmpConfig := mkPmpConfig { regions : list PmpRegion }.

(** [PmpConfig::empty]. *)
Definition PmpConfig_empty : PmpConfig := mkPmpConfig (replicate PMP_COUNT no_region).

Record PmpConfigBuilder := mkBuilder { b_regions : list PmpRegion; next_idx : nat }.

(** [PmpConfig::builder]. *)
Definition builder : PmpConfigBuilder := mkBuilder (replicate PMP_COUNT no_region) 4.

Section task_ops.
Context `{E : Env} {St : Type}.

Definition b_region (b : PmpConfigBuilder) (base size flags : Z) : M St PmpConfigBuilder :=
  rassert (next_idx b <? PMP_COUNT)%nat "PMP region table full";;
  rassert ((8 <=? size) && is_power_of_two size)
    "PMP region size must be a power of 2 and at least 8 bytes";;
  mask ← sub_u64 size 1;
  rassert (Z.land base mask =? 0) "PMP region base must be aligned to size";;
  mret (mkBuilder (<[next_idx b := mkPmpRegion base size flags]> (b_regions b)) (S (next_idx b))).

Definition code_region (b : PmpConfigBuilder) (base size : Z) : M St PmpConfigBuilder :=
  b_region b base size flags.RX.

Definition stack_region (b : PmpConfigBuilder) (base size : Z) : M St PmpConfigBuilder :=
  b_region b base size flags.RW.

Definition mmio_region (b : PmpConfigBuilder) (base size : Z) : M St PmpConfigBuilder :=
  b_region b base size flags.RW.

Definition build (b : PmpConfigBuilder) : PmpConfig := mkPmpConfig (b_regions b).
End task_ops.

(** ** The task control block *)

Record Task := mkTask {
  id : TaskId;
  state : TaskState;
  context : TaskContext.t;
  pmp_config : PmpConfig;
  stack_bottom : Z;
  stack_top : Z;
  entry_point : Z;
}.

(** [Task::new]. *)
Definition Task_new `{E : Env} {St} (i : TaskId) (entry stack_top : Z) : M St Task :=
  bottom ← sub_u64 stack_top TASK_STACK_SIZE;
  mret (mkTask i Created (TaskContext.new_umode entry stack_top) PmpConfig_empty
          bottom stack_top entry).

(** Field updates. *)
Definition set_state (s : TaskState) (t : Task) : Task :=
  mkTask (id t) s (context t) (pmp_config t) (stack_bottom t) (stack_top t) (entry_point t).
Definition set_context (c : TaskContext.t) (t : Task) : Task :=
  mkTask (id t) (state t) c (pmp_config t) (stack_bottom t) (stack_top t) (entry_point t).
Definition set_pmp_config (c : PmpConfig) (t : Task) : Task :=
  mkTask (id t) (state t) (context t) c (stack_bottom t) (stack_top t) (entry_point t).

(** ** The builder on every request *)

(** The checks of [region], as a predicate. *)
Definition region_valid (r : PmpRegion) : bool :=
  (8 <=? size r) && is_power_of_two (size r) && (Z.land (base r) (size r - 1) =? 0).

(** A request that passes them is a region the hardware can express. *)
Lemma region_valid_ok r :
  region_valid r = true → 0 ≤ base r → base r + size r ≤ 2 ^ 56 → 0 ≤ rflags r < 8 → region_ok r.
Proof.
  unfold region_valid. rewrite !andb_true_iff, Z.leb_le, Z.eqb_eq.
  intros [[H8 (k & Hk & Hsz)%is_power_of_two_spec] Hal] Hb Ht Hf.
  constructor; try done.
  - exists k. split; [|done]. apply Z.nlt_ge. intros Hlt.
    assert (2 ^ k ≤ 2 ^ 2) by (apply Z.pow_le_mono_r; lia). lia.
  - rewrite Hsz in *. replace (2 ^ k - 1) with (Z.ones k) in Hal by (rewrite Z.ones_equiv; lia).
    by rewrite Z.land_ones in Hal.
Qed.

(** The contents of a builder after the requests [reqs]. *)
Definition filled (reqs : list PmpRegion) : PmpConfigBuilder :=
  mkBuilder (replicate 4 no_region ++ reqs ++ replicate (12 - length reqs) no_region) (4 + length reqs).

Section builder_proofs.
Context `{E : Env} {St : Type}.

Lemma b_region_ok reqs base size flags (s : St) :
  (length reqs < 12)%nat → size < 2 ^ 64 → region_valid (mkPmpRegion base size flags) = true →
  b_region (filled reqs) base size flags s = Ok (filled (reqs ++ [mkPmpRegion base size flags])) s.
Proof.
  unfold region_valid. cbn [Pmp.size Pmp.base]. rewrite !andb_true_iff, Z.leb_le.
  intros Hlen Hs [[H8 Hp] Hal]. unfold b_region, PMP_COUNT. cbn [next_idx b_regions filled].
  rewrite (proj2 (Nat.ltb_lt _ _)) by lia. rewrite (proj2 (Z.leb_le _ _) H8), Hp.
  unfold sub_u64. rewrite checked_ok by (split; lia).
  do 3 (erewrite bind_Ok by reflexivity). rewrite Hal. erewrite bind_Ok by reflexivity.
  unfold filled. rewrite length_app. cbn [length].
  unfold mret, M_ret. simpl. do 2 f_equal; [|lia]. do 4 f_equal.
  replace (12 - length reqs)%nat with (S (12 - (length reqs + 1))) by lia.
  rewrite <- (app_assoc reqs), <- (Nat.add_0_r (length reqs)) at 1.
  rewrite insert_app_r. simpl. rewrite ?Nat.add_0_r. done.
Qed.

Lemma b_region_panics reqs base size flags (s : St) :
  size < 2 ^ 64 → (12 ≤ length reqs)%nat ∨ region_valid (mkPmpRegion base size flags) = false →
  ∃ msg, b_region (filled reqs) base size flags s = Panic msg s.
Proof.
  intros Hs Hbad. unfold b_region, PMP_COUNT. cbn [next_idx b_regions filled].
  destruct (Nat.ltb_spec (4 + length reqs) 16) as [Hlt|]; [|by eexists].
  destruct Hbad as [?|Hbad]; [lia|]. unfold region_valid in Hbad. cbn [Pmp.size Pmp.base] in Hbad.
  erewrite bind_Ok by reflexivity.
  destruct ((8 <=? size) && is_power_of_two size) eqn:Hsz; [|by eexists].
  erewrite bind_Ok by reflexivity. apply andb_true_iff in Hsz as [H8%Z.leb_le _].
  unfold sub_u64. rewrite checked_ok by (split; lia). erewrite bind_Ok by reflexivity.
  simpl in Hbad. rewrite Hbad. by eexists.
Qed.
End builder_proofs.
