(* ===== verification/Kernel.v ===== *)
(** The kernel state: the hardware and the [static] items of the sources.

    [SCHEDULER] (sched/scheduler.rs), [ALLOCATOR] (main.rs) and [TICK_COUNT]
    (timer.rs) are the fields of one record over the hardware state, so that
    computations of the components run in the monad of the whole kernel. *)

From S2P Require Import Prelude Config Machine Allocator Sync Task.

Local Open Scope Z_scope.

(** [SchedulerState]: [current] is [None] in the bootstrap context. *)
Record SchedulerState := mkSched {
  current : option nat;
  tasks : list (option Task);
}.

(** The initial value of [SCHEDULER]. *)
Definition SCHEDULER : SchedulerState := mkSched None (replicate MAX_TASKS None).

Record Kernel := mkKernel {
  k_hw : Hw;
  k_alloc : BumpAllocator;
  k_sched : SchedulerState;
  k_ticks : Z;
}.

#[export] Instance Kernel_HasHw : HasHw Kernel.
Proof.
  refine {| hw_of := k_hw; hw_upd := λ h k, mkKernel h (k_alloc k) (k_sched k) (k_ticks k) |}.
  - done.
  - by intros [].
  - done.
Defined.

Definition set_sched (s : SchedulerState) (k : Kernel) : Kernel :=
  mkKernel (k_hw k) (k_alloc k) s (k_ticks k).
Definition set_alloc (a : BumpAllocator) (k : Kernel) : Kernel :=
  mkKernel (k_hw k) a (k_sched k) (k_ticks k).

(** Hardware and allocator computations in the kernel. *)
Definition on_hw {A} (m : M Hw A) : M Kernel A := lift m.

Definition on_alloc {A} (m : M BumpAllocator A) : M Kernel A := λ k,
  match m (k_alloc k) with
  | Ok a s => Ok a (set_alloc s k)
  | Panic e s => Panic e (set_alloc s k)
  | Spin s => Spin (set_alloc s k)
  end.

Definition TICK_COUNT : Z := counter_new 0.

(** [timer::increment_tick] and [timer::get_tick_count]. *)
Definition increment_tick : M Kernel unit := λ k,
  let '(_, c) := counter_increment (k_ticks k) in
  Ok tt (mkKernel (k_hw k) (k_alloc k) (k_sched k) c).

Definition get_tick_count : M Kernel Z := gets (λ k, counter_get (k_ticks k)).

(** ** Access to the task table *)

(** [state.tasks[i]], bounds check included. *)
Definition task_at (i : nat) : M Kernel (option Task) :=
  ts ← gets (λ k, tasks (k_sched k));
  match ts !! i with
  | Some slot => mret slot
  | None => panic "index out of bounds"
  end.

Definition store_task (i : nat) (slot : option Task) : M Kernel unit :=
  task_at i;;
  modify (λ k, set_sched (mkSched (current (k_sched k)) (<[i := slot]> (tasks (k_sched k)))) k).

Definition set_current (c : option nat) : M Kernel unit :=
  modify (λ k, set_sched (mkSched c (tasks (k_sched k))) k).

(** The task in slot [i], if any. *)
Definition task_of (st : SchedulerState) (i : nat) : option Task := mjoin (tasks st !! i).

(** [st] with the task in slot [i] updated. *)
Definition upd_task (f : Task → Task) (i : nat) (st : SchedulerState) : SchedulerState :=
  mkSched (current st) (alter (fmap f) i (tasks st)).

(** ** Lemmas *)

Lemma wp_on_hw {A} (m : M Hw A) (Q : A → Kernel → Prop) k :
  wp m (λ a h, Q a (hw_upd h k)) (k_hw k) → wp (on_hw m) Q k.
Proof. exact (wp_lift m Q k). Qed.

Lemma on_hw_Ok {A} (m : M Hw A) k a h :
  m (k_hw k) = Ok a h → on_hw m k = Ok a (hw_upd h k).
Proof. unfold on_hw, lift. simpl. by intros ->. Qed.

Lemma task_of_lookup st i t : task_of st i = Some t ↔ tasks st !! i = Some (Some t).
Proof. unfold task_of. destruct (tasks st !! i) as [[]|]; simpl; naive_solver. Qed.

Lemma task_of_upd f i j st :
  task_of (upd_task f i st) j = if decide (i = j) then f <$> task_of st j else task_of st j.
Proof.
  unfold task_of, upd_task. simpl. destruct (decide (i = j)) as [->|Hne].
  - rewrite list_lookup_alter, decide_True by done. by destruct (tasks st !! j) as [[]|].
  - by rewrite list_lookup_alter, decide_False.
Qed.

Lemma length_upd_task f i st : length (tasks (upd_task f i st)) = length (tasks st).
Proof. apply length_alter. Qed.

Lemma task_at_run i k :
  (i < length (tasks (k_sched k)))%nat → task_at i k = Ok (task_of (k_sched k) i) k.
Proof.
  intros Hi. unfold task_at, task_of. erewrite bind_Ok by reflexivity.
  by destruct (lookup_lt_is_Some_2 _ _ Hi) as [slot ->].
Qed.

Lemma store_task_run i f t k :
  task_of (k_sched k) i = Some t →
  store_task i (Some (f t)) k = Ok tt (set_sched (upd_task f i (k_sched k)) k).
Proof.
  intros Ht. pose proof Ht as Hl. apply task_of_lookup in Hl.
  unfold store_task. erewrite bind_Ok; [|apply task_at_run; by eapply lookup_lt_Some].
  unfold modify, upd_task. do 3 f_equal. apply list_eq. intros j. destruct (decide (i = j)) as [->|Hne].
  - rewrite list_lookup_insert_eq by (by eapply lookup_lt_Some). by rewrite list_lookup_alter, decide_True, Hl.
  - by rewrite list_lookup_insert_ne, list_lookup_alter, decide_False.
Qed.

Lemma on_hw_csr_read c k : on_hw (csr_read c) k = Ok (csr_get c (csrs (k_hw k))) k.
Proof. by destruct k. Qed.

(** A critical section that works on the scheduler only. *)
Lemma with_lock_sched {R} (f : M Kernel R) (r : R) st' k :
  (∀ h, f (hw_upd h k) = Ok r (set_sched st' (hw_upd h k))) →
  with_lock f k = Ok r (set_sched st' k).
Proof.
  intros Hf. rewrite with_lock_run. unfold with_mstatus at 1. rewrite Hf.
  change (hw_upd _ k) with (with_mstatus (Z.ldiff (get_mstatus k) (Z.shiftl 1 3)) k).
  change (set_sched st' (with_mstatus ?v k)) with (with_mstatus v (set_sched st' k)).
  rewrite get_with_mstatus. f_equal. change (get_mstatus k) with (get_mstatus (set_sched st' k)).
  destruct (mie_bit _) eqn:Hb.
  - by rewrite with_mstatus_twice, ldiff_lor_mie, with_mstatus_id.
  - by rewrite ldiff_mie_off, with_mstatus_id.
Qed.
