(* ===== verification/Scheduler.v ===== *)
(** The scheduler: [crates/kernel/src/sched/scheduler.rs].

    [init], [schedule], [create_task], [create_task_mmode] and [kill_current] on
    the kernel state, their results on every branch, and the invariant
    [sched_wf] of the task table that all of them keep. *)

From S2P Require Import Prelude Config Machine Serial PmpHw Linker Pmp PmpAccess Sync Registers.
From S2P Require Import Policy Task Kernel.

Local Open Scope Z_scope.

(** ** Operations *)

(** [task.state == TaskState::Ready] of slot [idx]. *)
Definition is_ready (ts : list (option Task)) (idx : nat) : bool :=
  match ts !! idx with
  | Some (Some task) => bool_decide (state task = Ready)
  | _ => false
  end.

Section ops.
Context `{E : Env} `{B : SerialBackend}.

Definition init : M Kernel unit :=
  with_lock (for_each (seq 0 MAX_TASKS) tt (λ _ i,
    slot ← task_at i;
    match slot with
    | Some task =>
      if bool_decide (state task = Created) then store_task i (Some (set_state Ready task)) else mret tt
    | None => mret tt
    end)).

(** Step 1 of [schedule]: the interrupted context goes into the task's record;
    a task that is [Dead] stays so. *)
Definition save_task (frame : TrapFrame.t) (mepc mstatus : Z) (task : Task) : Task :=
  let task := set_context
    (set_ctx_csrs mepc mstatus (copy_frame_to_ctx frame (context task))) task in
  if bool_decide (state task = Running) then set_state Ready task else task.

(** The closure of [schedule]: steps 1 to 3. *)
Definition pick (frame : TrapFrame.t) (mepc mstatus : Z) :
    M Kernel (option (nat * list PmpRegion * TaskContext.t)) :=
  cur ← gets (λ k, current (k_sched k));
  match cur with
  | Some c =>
    slot ← task_at c;
    match slot with
    | Some task => store_task c (Some (save_task frame mepc mstatus task))
    | None => mret tt
    end
  | None => mret tt
  end;;
  ts ← gets (λ k, tasks (k_sched k));
  match select_next_ready MAX_TASKS cur (is_ready ts) with
  | Some next_idx =>
    slot ← task_at next_idx;
    match slot with
    | Some task => store_task next_idx (Some (set_state Running task))
    | None => mret tt
    end;;
    set_current (Some next_idx);;
    slot ← task_at next_idx;
    mret ((λ task, (next_idx, regions (pmp_config task), context task)) <$> slot)
  | None => mret None
  end.

Definition schedule (frame : TrapFrame.t) : M Kernel TrapFrame.t :=
  mepc ← on_hw mepc.read;
  mstatus ← on_hw mstatus.read;
  switch_target ← with_lock (pick frame mepc mstatus);
  match switch_target with
  | Some (next_idx, pmp_regions, ctx) =>
    on_hw (puts_str "[sched] switching to task ");;
    on_hw (s_put_dec (Z.of_nat next_idx));;
    on_hw (puts_str nl);;
    on_hw (load_task_config pmp_regions);;
    let frame := copy_ctx_to_frame ctx frame in
    on_hw (mepc.write (TaskContext.mepc ctx));;
    on_hw (mstatus.write (TaskContext.mstatus ctx));;
    mret frame
  | None => mret frame
  end.

Definition _empty_pmp_config : PmpConfig := PmpConfig_empty.

(** The [for idx in 0..MAX_TASKS] loop of the two constructors: [mk] builds the
    task for the first free slot. *)
Fixpoint create_in (mk : nat → M Kernel Task) (slots : list nat) : M Kernel TaskId :=
  match slots with
  | [] => panic "task table full"
  | idx :: rest =>
    slot ← task_at idx;
    match slot with
    | None =>
      task ← mk idx;
      store_task idx (Some task);;
      mret (mkTaskId (Z.of_nat idx mod 2 ^ 8))
    | Some _ => create_in mk rest
    end
  end.

(** [for (i, r) in pmp_regions.iter().enumerate().take(16)]. *)
Definition copy_regions (pmp_regions dst : list PmpRegion) : list PmpRegion :=
  foldl (λ acc ir, <[ir.1 := ir.2]> acc) dst (take 16 (zip (seq 0 (length pmp_regions)) pmp_regions)).

Definition create_task (entry stack_top : Z) (pmp_regions : list PmpRegion) : M Kernel TaskId :=
  with_lock (create_in (λ idx,
    task ← Task_new (mkTaskId (Z.of_nat idx mod 2 ^ 8)) entry stack_top;
    mret (set_pmp_config (mkPmpConfig (copy_regions pmp_regions (regions (pmp_config task)))) task))
    (seq 0 MAX_TASKS)).

Definition create_task_mmode (entry stack_top : Z) : M Kernel TaskId :=
  with_lock (create_in (λ idx,
    task ← Task_new (mkTaskId (Z.of_nat idx mod 2 ^ 8)) entry stack_top;
    mret (set_context (TaskContext.new_mmode entry stack_top) task))
    (seq 0 MAX_TASKS)).

(** The closure of [kill_current]. *)
Definition kill_mark : M Kernel unit :=
  cur ← gets (λ k, current (k_sched k));
  match cur with
  | Some c =>
    slot ← task_at c;
    match slot with
    | Some task =>
      store_task c (Some (set_state Dead task));;
      on_hw (puts_str "[sched] task killed: ");;
      on_hw (s_put_dec (Z.of_nat c));;
      on_hw (puts_str nl)
    | None => mret tt
    end
  | None => mret tt
  end.

Definition kill_current (frame : TrapFrame.t) : M Kernel TrapFrame.t :=
  with_lock kill_mark;;
  schedule frame.
End ops.

(** ** The scheduler's state as pure functions *)

Definition saved (frame : TrapFrame.t) (mepc mstatus : Z) (st : SchedulerState) : SchedulerState :=
  match current st with
  | Some c => upd_task (save_task frame mepc mstatus) c st
  | None => st
  end.

Definition next_of (st : SchedulerState) : option nat :=
  select_next_ready MAX_TASKS (current st) (is_ready (tasks st)).

Definition dispatched (i : nat) (st : SchedulerState) : SchedulerState :=
  let st' := upd_task (set_state Running) i st in mkSched (Some i) (tasks st').

Definition killed (st : SchedulerState) : SchedulerState :=
  match current st with
  | Some c => upd_task (set_state Dead) c st
  | None => st
  end.

Definition promote (t : Task) : Task :=
  if bool_decide (state t = Created) then set_state Ready t else t.

Definition promoted (st : SchedulerState) : SchedulerState :=
  mkSched (current st) ((λ slot : option Task, promote <$> slot) <$> tasks st).

(** [st] with [t] added in slot [i]. *)
Definition added (i : nat) (t : Task) (st : SchedulerState) : SchedulerState :=
  mkSched (current st) (<[i := Some t]> (tasks st)).

(** ** The invariant of the task table *)

Record task_wf (i : nat) (t : Task) : Prop := {
  tw_id : tid (id t) = Z.of_nat i;
  tw_regions : regions_ok (regions (pmp_config t));
}.

(** The table has its four slots; a slot holds a task that knows its own number
    and has loadable PMP regions; the current task exists, and it is the only
    one that can be marked [Running]. *)
Record sched_wf (st : SchedulerState) : Prop := {
  sw_len : length (tasks st) = MAX_TASKS;
  sw_tasks : ∀ i t, task_of st i = Some t → task_wf i t;
  sw_current : ∀ c, current st = Some c →
    ∃ t, task_of st c = Some t ∧ (state t = Running ∨ state t = Dead);
  sw_running : ∀ i t, task_of st i = Some t → state t = Running → current st = Some i;
}.

Lemma task_of_lt st i t : task_of st i = Some t → (i < length (tasks st))%nat.
Proof. intros H%task_of_lookup. by eapply lookup_lt_Some. Qed.

Lemma is_ready_spec st i :
  is_ready (tasks st) i = true ↔ ∃ t, task_of st i = Some t ∧ state t = Ready.
Proof.
  unfold is_ready, task_of. destruct (tasks st !! i) as [[t|]|]; simpl.
  - rewrite bool_decide_eq_true. naive_solver.
  - naive_solver.
  - naive_solver.
Qed.

Lemma next_of_ready st i :
  next_of st = Some i → ∃ t, task_of st i = Some t ∧ state t = Ready.
Proof.
  unfold next_of. intros Hs. apply is_ready_spec. by eapply (select_is_ready MAX_TASKS).
Qed.

Lemma next_of_none st i t : length (tasks st) = MAX_TASKS →
  next_of st = None → task_of st i = Some t → state t ≠ Ready.
Proof.
  unfold next_of. intros Hlen Hs Ht Hr.
  pose proof (select_choice MAX_TASKS ltac:(done) (is_ready (tasks st)) (current st)) as Hc.
  rewrite Hs in Hc. inversion Hc as [| |Hno].
  assert (is_ready (tasks st) i = true) as Hri by (apply is_ready_spec; eauto).
  rewrite Hno in Hri; [done|]. rewrite <- Hlen. by eapply task_of_lt.
Qed.

(** ** What the operations compute *)

(** Task records after each pure step. *)
Lemma task_of_saved frame mepc mstatus st i :
  task_of (saved frame mepc mstatus st) i =
    if decide (current st = Some i) then save_task frame mepc mstatus <$> task_of st i
    else task_of st i.
Proof.
  unfold saved. destruct (current st) as [c|]; [|done]. rewrite task_of_upd.
  destruct (decide (c = i)) as [->|]; [by rewrite decide_True|]. rewrite decide_False; [done|congruence].
Qed.

Lemma task_of_dispatched i j st :
  task_of (dispatched i st) j =
    if decide (i = j) then set_state Running <$> task_of st j else task_of st j.
Proof. apply (task_of_upd _ _ _ st). Qed.

Lemma task_of_killed st i :
  task_of (killed st) i =
    if decide (current st = Some i) then set_state Dead <$> task_of st i else task_of st i.
Proof.
  unfold killed. destruct (current st) as [c|]; [|done]. rewrite task_of_upd.
  destruct (decide (c = i)) as [->|]; [by rewrite decide_True|]. rewrite decide_False; [done|congruence].
Qed.

Lemma task_of_promoted st i : task_of (promoted st) i = promote <$> task_of st i.
Proof.
  unfold task_of, promoted. simpl. rewrite list_lookup_fmap.
  by destruct (tasks st !! i) as [[]|].
Qed.

Lemma task_of_added i j t st : (i < length (tasks st))%nat →
  task_of (added i t st) j = if decide (i = j) then Some t else task_of st j.
Proof.
  intros Hi. unfold task_of, added. simpl. rewrite list_lookup_insert.
  destruct (decide (i = j)) as [->|Hne].
  - by rewrite decide_True.
  - rewrite decide_False by naive_solver. done.
Qed.

Lemma current_saved frame mepc mstatus st : current (saved frame mepc mstatus st) = current st.
Proof. unfold saved. by destruct (current st) eqn:Hc. Qed.

Lemma current_killed st : current (killed st) = current st.
Proof. unfold killed. by destruct (current st) eqn:Hc. Qed.

Lemma length_saved frame mepc mstatus st :
  length (tasks (saved frame mepc mstatus st)) = length (tasks st).
Proof. unfold saved. destruct (current st); [apply length_upd_task|done]. Qed.

Lemma length_killed st : length (tasks (killed st)) = length (tasks st).
Proof. unfold killed. destruct (current st); [apply length_upd_task|done]. Qed.

(** [save_task] field by field. *)
Lemma save_task_fields frame mepc mstatus t :
  id (save_task frame mepc mstatus t) = id t ∧
  pmp_config (save_task frame mepc mstatus t) = pmp_config t ∧
  context (save_task frame mepc mstatus t) =
    set_ctx_csrs mepc mstatus (copy_frame_to_ctx frame (context t)) ∧
  state (save_task frame mepc mstatus t) =
    if bool_decide (state t = Running) then Ready else state t.
Proof. unfold save_task. simpl. by destruct (bool_decide _). Qed.

Section run.
Context `{E : Env} `{B : SerialBackend}.

(** The closure of [schedule] is the composition of the pure steps. *)
Lemma pick_run frame mepc mstatus k :
  sched_wf (k_sched k) →
  pick frame mepc mstatus k =
    let st := saved frame mepc mstatus (k_sched k) in
    match next_of st with
    | Some i =>
      Ok ((λ t, (i, regions (pmp_config t), context t)) <$> task_of st i) (set_sched (dispatched i st) k)
    | None => Ok None (set_sched st k)
    end.
Proof.
  intros Hwf. set (st := saved _ _ _ _). unfold pick. erewrite bind_Ok by reflexivity.
  assert (∀ (K : unit → M Kernel (option (nat * list PmpRegion * TaskContext.t))),
    (match current (k_sched k) with
     | Some c => slot ← task_at c;
        match slot with
        | Some task => store_task c (Some (save_task frame mepc mstatus task))
        | None => mret tt end
     | None => mret tt end ≫= K) k = K tt (set_sched st k)) as Hsave.
  { intros K. apply bind_Ok. unfold st, saved. destruct (current (k_sched k)) as [c|] eqn:Hc.
    - destruct (sw_current _ Hwf c Hc) as (t & Ht & _).
      erewrite bind_Ok; [|apply task_at_run; by eapply task_of_lt].
      rewrite Ht. by apply store_task_run.
    - by destruct k as [? ? [] ?]. }
  rewrite Hsave. erewrite bind_Ok by reflexivity. cbn [k_sched set_sched].
  rewrite <- (current_saved frame mepc mstatus (k_sched k)). fold st (next_of st).
  destruct (next_of st) as [i|] eqn:Hsel; [|done].
  destruct (next_of_ready st i Hsel) as (t & Ht & _).
  erewrite bind_Ok; [|apply task_at_run; cbn; by eapply task_of_lt].
  cbn [k_sched set_sched]. rewrite Ht.
  erewrite bind_Ok; [|apply store_task_run; done].
  erewrite bind_Ok by reflexivity. cbn [k_sched set_sched].
  erewrite bind_Ok; cycle 1.
  { apply task_at_run. cbn. rewrite length_alter. by eapply task_of_lt. }
  cbn [k_sched set_sched]. change (mkSched (Some i) _) with (dispatched i st).
  rewrite task_of_dispatched, decide_True, Ht by done. done.
Qed.
End run.

(** What holds of the hardware whenever the scheduler runs: the kernel's PMP
    entries are in place and the console is initialised. *)
Record hw_ready `{I : Image} `{B : SerialBackend} (h : Hw) : Prop := {
  hr_pmp : pmp_ready (pmp h);
  hr_serial : s_ready h;
}.

Definition switch_msg (i : nat) : list Z :=
  crlf (bytes_of_string "[sched] switching to task ") ++ dec_bytes (Z.of_nat i) ++ crlf (bytes_of_string nl).

Definition kill_msg (i : nat) : list Z :=
  crlf (bytes_of_string "[sched] task killed: ") ++ dec_bytes (Z.of_nat i) ++ crlf (bytes_of_string nl).

(** The hardware [h'] is [h] switched to the task [t] of slot [i]: its [mepc],
    [mstatus] and PMP regions are installed, a line is printed, and nothing else
    has changed. *)
Record switched `{I : Image} `{B : SerialBackend} (i : nat) (t : Task) (h h' : Hw) : Prop := {
  sd_csrs : csrs h' = csr_put Mstatus (TaskContext.mstatus (context t))
                        (csr_put Mepc (TaskContext.mepc (context t)) (csrs h));
  sd_pmp : task_loaded (regions (pmp_config t)) (pmp h) (pmp h');
  sd_ready : hw_ready h';
  sd_bus : off_uart (trace h') = off_uart (trace h);
  sd_out : s_out h' = s_out h ++ switch_msg i;
}.

(** The outcome of [schedule] as a function of the state it starts in. *)
Definition scheduled `{I : Image} `{B : SerialBackend} (frame : TrapFrame.t) (k : Kernel)
    (frame' : TrapFrame.t) (k' : Kernel) : Prop :=
  let st := saved frame (csr_get Mepc (csrs (k_hw k))) (csr_get Mstatus (csrs (k_hw k))) (k_sched k) in
  match next_of st with
  | None => frame' = frame ∧ k' = set_sched st k
  | Some i => ∃ t, task_of st i = Some t ∧ frame' = copy_ctx_to_frame (context t) frame ∧
      switched i t (k_hw k) (k_hw k') ∧ k_sched k' = dispatched i st ∧
      k_alloc k' = k_alloc k ∧ k_ticks k' = k_ticks k
  end.

Section spec.
Context `{E : Env} `{B : SerialBackend} `{L : !SerialLaws B} `{I : Image}.

(** Three pieces of console output in a row. *)
Lemma wp_announce (a b : string) n (K : M Kernel TrapFrame.t) Q k :
  u64 n → s_ready (k_hw k) →
  (∀ h', prints (crlf (bytes_of_string a) ++ dec_bytes n ++ crlf (bytes_of_string b)) (k_hw k) h' →
     wp K Q (hw_upd h' k)) →
  wp (on_hw (puts_str a);; on_hw (s_put_dec n);; on_hw (puts_str b);; K) Q k.
Proof.
  intros Hn Hr HK. apply wp_bind, wp_on_hw. eapply wp_mono; [by apply puts_law|]. intros [] h1 H1.
  apply wp_bind, wp_on_hw. eapply wp_mono; [by apply put_dec_law; [done|apply H1]|]. intros [] h2 H2.
  apply wp_bind, wp_on_hw. eapply wp_mono; [by apply puts_law, H2|]. intros [] h3 H3.
  apply (HK h3). eapply prints_trans; [done|]. by eapply prints_trans.
Qed.

Lemma announce_run (a b : string) n k :
  u64 n → s_ready (k_hw k) →
  wp (on_hw (puts_str a);; on_hw (s_put_dec n);; on_hw (puts_str b))
    (λ _ k', ∃ h', prints (crlf (bytes_of_string a) ++ dec_bytes n ++ crlf (bytes_of_string b)) (k_hw k) h' ∧
       k' = hw_upd h' k) k.
Proof.
  intros Hn Hr. apply wp_bind, wp_on_hw. eapply wp_mono; [by apply puts_law|]. intros [] h1 H1.
  apply wp_bind, wp_on_hw. eapply wp_mono; [by apply put_dec_law; [done|apply H1]|]. intros [] h2 H2.
  apply wp_on_hw. eapply wp_mono; [by apply puts_law, H2|]. intros [] h3 H3.
  exists h3. split; [|done]. eapply prints_trans; [done|]. by eapply prints_trans.
Qed.

Lemma small_index i : (i < MAX_TASKS)%nat → u64 (Z.of_nat i).
Proof. unfold MAX_TASKS. intros. split; lia. Qed.

Lemma saved_lt st i t : length (tasks st) = MAX_TASKS → task_of st i = Some t → (i < MAX_TASKS)%nat.
Proof. intros <-. apply task_of_lt. Qed.

(** Every branch of [schedule]. *)
Lemma schedule_spec frame k :
  sched_wf (k_sched k) → hw_ready (k_hw k) →
  wp (schedule frame) (λ frame' k', scheduled frame k frame' k') k.
Proof.
  intros Hwf [Hp Hr]. unfold schedule. apply wp_bind. eapply wp_intro; [apply on_hw_csr_read|].
  apply wp_bind. eapply wp_intro; [apply on_hw_csr_read|]. apply wp_bind.
  unfold scheduled. set (st := saved _ _ _ _). destruct (next_of st) as [i|] eqn:Hnext.
  - destruct (next_of_ready _ _ Hnext) as (t & Ht & _). eapply wp_intro.
    { apply with_lock_sched. intros h. rewrite pick_run by done. cbn [k_sched hw_upd Kernel_HasHw].
      fold st. rewrite Hnext. cbn zeta. rewrite Ht. reflexivity. }
    cbn [fmap option_fmap option_map].
    assert (i < MAX_TASKS)%nat as Hi.
    { eapply saved_lt; [|done]. unfold st. rewrite length_saved. apply Hwf. }
    apply wp_announce; [by apply small_index|done|]. intros h1 [Hc1 Hp1 Hb1 Hr1 Ho1].
    apply wp_bind, wp_on_hw. eapply wp_mono.
    { apply load_task_config_ready; cbn; [by rewrite Hp1|].
      assert (∃ t0, task_of (k_sched k) i = Some t0 ∧ pmp_config t = pmp_config t0) as (t0 & Ht0 & ->).
      { unfold st in Ht. rewrite task_of_saved in Ht. case_decide; [|eauto].
        destruct (task_of (k_sched k) i) as [t0|]; [|done]. injection Ht as <-. exists t0.
        split; [done|apply save_task_fields]. }
      by eapply tw_regions, sw_tasks. }
    intros [] h2 (p' & -> & Hl & Hrdy). cbn in Hl. rewrite Hp1 in Hl.
    apply wp_bind. eapply wp_intro; [reflexivity|]. apply wp_bind. eapply wp_intro; [reflexivity|].
    apply wp_mret. exists t. split_all. constructor; simpl; try done.
    + by rewrite Hc1.
    + split; [done|]. by apply (ready_frame h1).
    + transitivity (s_out h1); [by apply out_frame|done].
  - eapply wp_intro.
    { apply with_lock_sched. intros h. rewrite pick_run by done. cbn [k_sched hw_upd Kernel_HasHw].
      fold st. rewrite Hnext. reflexivity. }
    apply wp_mret. done.
Qed.

(** The hardware after [kill_mark]: a line is printed when there is a task. *)
Definition kill_printed (st : SchedulerState) (h h1 : Hw) : Prop :=
  match current st with
  | Some c => prints (kill_msg c) h h1
  | None => h1 = h
  end.

Lemma kill_printed_ready st h h1 : hw_ready h → kill_printed st h h1 → hw_ready h1.
Proof.
  intros [Hp Hr]. unfold kill_printed. destruct (current st); [|by intros ->].
  intros Hpr. constructor; [by rewrite (prints_pmp _ _ _ Hpr)|apply Hpr].
Qed.

(** A console line printed inside a critical section. *)
Lemma locked_print k st' out h3 :
  let k2 := set_sched st' (with_mstatus (Z.ldiff (get_mstatus k) (Z.shiftl 1 3)) k) in
  prints out (k_hw k2) h3 →
  ∃ h4, with_mstatus (get_mstatus k) (hw_upd h3 k2) = mkKernel h4 (k_alloc k) st' (k_ticks k) ∧
    prints out (k_hw k) h4.
Proof.
  intros k2 [Hc3 Hp3 Hb3 Hr3 Ho3]. exists (hw_set_csrs (csrs (k_hw k)) h3). split.
  - unfold with_mstatus. simpl. rewrite Hc3. simpl. do 2 f_equal.
    rewrite csr_put_put. apply (csr_put_get Mstatus).
  - constructor; simpl; [done|by rewrite Hp3|by rewrite Hb3|by apply (ready_frame h3)|].
    transitivity (s_out h3); [by apply out_frame|]. rewrite Ho3. f_equal. by apply out_frame.
Qed.

Lemma kill_mark_spec k :
  sched_wf (k_sched k) → s_ready (k_hw k) →
  wp (with_lock kill_mark) (λ _ k', ∃ h1, kill_printed (k_sched k) (k_hw k) h1 ∧
    k' = mkKernel h1 (k_alloc k) (killed (k_sched k)) (k_ticks k)) k.
Proof.
  intros Hwf Hr. apply wp_with_lock. cbn zeta. set (k1 := with_mstatus _ k).
  unfold kill_mark. apply wp_bind, wp_gets. change (k_sched k1) with (k_sched k).
  unfold kill_printed, killed. destruct (current (k_sched k)) as [c|] eqn:Hc.
  - destruct (sw_current _ Hwf c Hc) as (t & Ht & _).
    apply wp_bind. eapply wp_intro; [apply task_at_run; by eapply task_of_lt|].
    change (k_sched k1) with (k_sched k). rewrite Ht. apply wp_bind.
    eapply wp_intro; [by apply (store_task_run c (set_state Dead) t k1)|].
    change (k_sched k1) with (k_sched k). set (k2 := set_sched _ k1).
    assert (s_ready (k_hw k2)) as Hr2 by (by apply (ready_frame (k_hw k))).
    assert (u64 (Z.of_nat c)) as Hu by (eapply small_index, saved_lt; [apply Hwf|done]).
    eapply wp_mono; [by apply announce_run|]. intros [] k3 (h3 & Hpr & ->).
    split; [unfold get_mstatus; simpl; by rewrite (prints_csrs _ _ _ Hpr)|].
    destruct (locked_print k _ _ h3 Hpr) as (h4 & Heq & Hpr'). by exists h4.
  - apply wp_mret. split; [done|]. unfold k1. rewrite with_mstatus_twice, with_mstatus_id.
    exists (k_hw k). split; [done|]. by destruct k.
Qed.

(** [kill_current] is [schedule] after marking the current task. *)
Lemma kill_current_spec frame k :
  sched_wf (k_sched k) → sched_wf (killed (k_sched k)) → hw_ready (k_hw k) →
  wp (kill_current frame) (λ frame' k', ∃ h1, kill_printed (k_sched k) (k_hw k) h1 ∧
    scheduled frame (mkKernel h1 (k_alloc k) (killed (k_sched k)) (k_ticks k)) frame' k') k.
Proof.
  intros Hwf Hwf' Hhw. unfold kill_current. apply wp_bind.
  eapply wp_mono; [apply kill_mark_spec; [done|apply Hhw]|]. intros [] k' (h1 & Hpr & ->).
  eapply wp_mono; [apply schedule_spec; cbn; [done|by eapply kill_printed_ready]|].
  intros frame' k' Hs. by exists h1.
Qed.
End spec.

(** ** The invariant is preserved *)

(** The scheduler state after [schedule]. *)
Definition resched (frame : TrapFrame.t) (mepc mstatus : Z) (st : SchedulerState) : SchedulerState :=
  let st := saved frame mepc mstatus st in
  match next_of st with Some i => dispatched i st | None => st end.

Lemma scheduled_sched `{I : Image} `{B : SerialBackend} frame k frame' k' :
  scheduled frame k frame' k' →
  k_sched k' = resched frame (csr_get Mepc (csrs (k_hw k))) (csr_get Mstatus (csrs (k_hw k))) (k_sched k).
Proof.
  unfold scheduled, resched. set (st := saved _ _ _ _). destruct (next_of st).
  - by intros (t & _ & _ & _ & -> & _).
  - by intros [_ ->].
Qed.

Lemma save_task_wf frame mepc mstatus i t : task_wf i t → task_wf i (save_task frame mepc mstatus t).
Proof.
  intros [Hid Hr]. destruct (save_task_fields frame mepc mstatus t) as (Hi & Hp & _).
  constructor; [by rewrite Hi|by rewrite Hp].
Qed.

Lemma save_task_not_running frame mepc mstatus t : state (save_task frame mepc mstatus t) ≠ Running.
Proof.
  destruct (save_task_fields frame mepc mstatus t) as (_ & _ & _ & ->).
  case_bool_decide; done.
Qed.

(** After saving, no task is [Running]. *)
Lemma saved_tasks frame mepc mstatus st i t : sched_wf st →
  task_of (saved frame mepc mstatus st) i = Some t → task_wf i t ∧ state t ≠ Running.
Proof.
  intros Hwf. rewrite task_of_saved. case_decide as Hc.
  - intros (t0 & Ht0 & ->)%fmap_Some. split; [|apply save_task_not_running].
    by eapply save_task_wf, sw_tasks.
  - intros Ht. split; [by eapply sw_tasks|]. intros Hr. by eapply Hc, sw_running.
Qed.

Lemma resched_wf frame mepc mstatus st : sched_wf st → sched_wf (resched frame mepc mstatus st).
Proof.
  intros Hwf. unfold resched. set (st1 := saved _ _ _ _). cbn zeta.
  assert (length (tasks st1) = MAX_TASKS) as Hlen by (unfold st1; rewrite length_saved; apply Hwf).
  assert (∀ i t, task_of st1 i = Some t → task_wf i t ∧ state t ≠ Running) as Hts
    by (intros i t; by apply saved_tasks).
  destruct (next_of st1) as [i|] eqn:Hn.
  - destruct (next_of_ready _ _ Hn) as (t & Ht & _). constructor.
    + unfold dispatched. simpl. by rewrite length_alter.
    + intros j u. rewrite task_of_dispatched. case_decide as Hij; [|naive_solver].
      intros (u0 & Hu0 & ->)%fmap_Some. destruct (Hts j u0 Hu0) as [[] _]. by constructor.
    + simpl. intros c [= <-]. rewrite task_of_dispatched, decide_True, Ht by done. simpl. eauto.
    + intros j u. rewrite task_of_dispatched. case_decide as Hij; [by subst|naive_solver].
  - constructor; [done|naive_solver| |naive_solver].
    intros c Hc. unfold st1 in Hc. rewrite current_saved in Hc.
    destruct (sw_current _ Hwf c Hc) as (t & Ht & Hst).
    exists (save_task frame mepc mstatus t). unfold st1. rewrite task_of_saved, decide_True, Ht by done.
    split; [done|]. right.
    assert (task_of st1 c = Some (save_task frame mepc mstatus t)) as Hc1
      by (unfold st1; by rewrite task_of_saved, decide_True, Ht).
    pose proof (next_of_none _ _ _ Hlen Hn Hc1) as Hnr. revert Hnr.
    destruct (save_task_fields frame mepc mstatus t) as (_ & _ & _ & ->).
    case_bool_decide; naive_solver.
Qed.

Lemma killed_wf st : sched_wf st → sched_wf (killed st).
Proof.
  intros Hwf. constructor.
  - rewrite length_killed. apply Hwf.
  - intros i t. rewrite task_of_killed. case_decide; [|apply Hwf].
    intros (t0 & Ht0 & ->)%fmap_Some. destruct (sw_tasks _ Hwf _ _ Ht0). by constructor.
  - rewrite current_killed. intros c Hc. destruct (sw_current _ Hwf c Hc) as (t & Ht & _).
    exists (set_state Dead t). rewrite task_of_killed, decide_True, Ht by done. split; [done|by right].
  - intros i t. rewrite task_of_killed, current_killed. case_decide as Hc; [|apply Hwf].
    intros (t0 & _ & ->)%fmap_Some. done.
Qed.

Lemma promote_fields t :
  id (promote t) = id t ∧ pmp_config (promote t) = pmp_config t ∧ context (promote t) = context t ∧
  state (promote t) = if bool_decide (state t = Created) then Ready else state t.
Proof. unfold promote. by case_bool_decide. Qed.

Lemma promoted_wf st : sched_wf st → sched_wf (promoted st).
Proof.
  intros Hwf. constructor.
  - simpl. rewrite length_fmap. apply Hwf.
  - intros i t. rewrite task_of_promoted. intros (t0 & Ht0 & ->)%fmap_Some.
    destruct (sw_tasks _ Hwf _ _ Ht0). destruct (promote_fields t0) as (Hi & Hp & _).
    constructor; [by rewrite Hi|by rewrite Hp].
  - simpl. intros c Hc. destruct (sw_current _ Hwf c Hc) as (t & Ht & Hst). exists (promote t).
    rewrite task_of_promoted, Ht. split; [done|]. destruct (promote_fields t) as (_ & _ & _ & ->).
    destruct Hst as [-> | ->]; auto.
  - intros i t. rewrite task_of_promoted. intros (t0 & Ht0 & ->)%fmap_Some.
    destruct (promote_fields t0) as (_ & _ & _ & ->). case_bool_decide; [done|]. by apply Hwf.
Qed.

Lemma added_wf i t st :
  sched_wf st → (i < MAX_TASKS)%nat → task_of st i = None → task_wf i t → state t = Created →
  sched_wf (added i t st).
Proof.
  intros Hwf Hi Hnone Ht Hst.
  assert (i < length (tasks st))%nat as Hi' by (by rewrite (sw_len _ Hwf)). constructor.
  - simpl. rewrite length_insert. apply Hwf.
  - intros j u. rewrite task_of_added by done. case_decide; [intros [= <-]; by subst|apply Hwf].
  - simpl. intros c Hc. destruct (sw_current _ Hwf c Hc) as (u & Hu & Hsu). exists u.
    rewrite task_of_added by done. rewrite decide_False by congruence. done.
  - intros j u. rewrite task_of_added by done. case_decide; [intros [= <-]; by rewrite Hst|apply Hwf].
Qed.

(** ** Start-up and creation *)

Lemma insert_zip_seq {A} (l pre suf : list A) : (length l ≤ length suf)%nat →
  foldl (λ acc ir, <[ir.1 := ir.2]> acc) (pre ++ suf) (zip (seq (length pre) (length l)) l) =
  pre ++ l ++ drop (length l) suf.
Proof.
  revert pre suf. induction l as [|x l IH]; intros pre suf Hl; [done|].
  destruct suf as [|y suf]; [simpl in Hl; lia|]. simpl.
  replace (<[length pre := x]> (pre ++ y :: suf)) with ((pre ++ [x]) ++ suf)
    by (rewrite <- (Nat.add_0_r (length pre)), insert_app_r, <- app_assoc; done).
  replace (S (length pre)) with (length (pre ++ [x])) by (rewrite length_app; simpl; lia).
  rewrite IH by (simpl in Hl; lia). by rewrite <- app_assoc.
Qed.

(** The first sixteen descriptors replace the first ones of the task's table. *)
Lemma copy_regions_spec l dst : (length l ≤ 16)%nat → (length l ≤ length dst)%nat →
  copy_regions l dst = l ++ drop (length l) dst.
Proof.
  intros H16 Hl. unfold copy_regions. rewrite take_ge by (rewrite length_zip_with, length_seq; lia).
  apply (insert_zip_seq l [] dst Hl).
Qed.

(** The tasks the two constructors put into slot [i]. *)
Definition user_task (i : nat) (entry stack_top : Z) (rs : list PmpRegion) : Task :=
  mkTask (mkTaskId (Z.of_nat i)) Created (TaskContext.new_umode entry stack_top) (mkPmpConfig rs)
    (stack_top - TASK_STACK_SIZE) stack_top entry.

Definition mmode_task (i : nat) (entry stack_top : Z) : Task :=
  mkTask (mkTaskId (Z.of_nat i)) Created (TaskContext.new_mmode entry stack_top) PmpConfig_empty
    (stack_top - TASK_STACK_SIZE) stack_top entry.

Definition is_free (st : SchedulerState) (i : nat) : bool :=
  match task_of st i with None => true | Some _ => false end.

(** The first free slot. *)
Definition free_slot (st : SchedulerState) : option nat := find (is_free st) (seq 0 MAX_TASKS).

Lemma free_slot_Some st i : free_slot st = Some i → (i < MAX_TASKS)%nat ∧ task_of st i = None.
Proof.
  intros [Hin Hf]%find_some. apply in_seq in Hin. split; [lia|].
  unfold is_free in Hf. by destruct (task_of st i).
Qed.

Lemma find_seq_first f a n i j : find f (seq a n) = Some i → (a ≤ j < i)%nat → f j = false.
Proof.
  revert a. induction n as [|n IH]; intros a; [done|]. simpl. destruct (f a) eqn:Hf.
  - intros [= <-]. lia.
  - intros Hfind Hj. destruct (decide (j = a)) as [->|]; [done|]. eapply IH; [done|lia].
Qed.

Lemma free_slot_first st i j : free_slot st = Some i → (j < i)%nat → is_free st j = false.
Proof. intros Hf Hj. eapply find_seq_first; [done|lia]. Qed.

Section creation.
Context `{E : Env} `{B : SerialBackend}.

Lemma init_step i k : (i < length (tasks (k_sched k)))%nat →
  (slot ← task_at i;
   match slot with
   | Some task =>
     if bool_decide (state task = Created) then store_task i (Some (set_state Ready task)) else mret tt
   | None => mret tt
   end) k = Ok tt (set_sched (upd_task promote i (k_sched k)) k).
Proof.
  intros Hi. erewrite bind_Ok by (by apply task_at_run).
  assert (∀ st, (∀ t, task_of st i = Some t → promote t = t) → upd_task promote i st = st) as Hsame.
  { intros [c ts] Hst. unfold upd_task. simpl. f_equal. apply list_eq. intros j.
    rewrite list_lookup_alter. case_decide as Hij; [subst j|done].
    destruct (ts !! i) as [[t|]|] eqn:Ht; [|done..]. simpl.
    by rewrite Hst by (by apply task_of_lookup). }
  destruct (task_of (k_sched k) i) as [t|] eqn:Ht.
  - destruct (bool_decide (state t = Created)) eqn:Hb.
    + replace (set_state Ready t) with (promote t) by (unfold promote; by rewrite Hb).
      by apply store_task_run.
    + rewrite Hsame; [by destruct k|]. rewrite Ht. intros u [= <-]. unfold promote. by rewrite Hb.
  - rewrite Hsame; [by destruct k|]. by rewrite Ht.
Qed.

Lemma init_run k : sched_wf (k_sched k) → init k = Ok tt (set_sched (promoted (k_sched k)) k).
Proof.
  intros Hwf. pose proof (sw_len _ Hwf) as Hlen. unfold init. apply with_lock_sched. intros h.
  destruct k as [h0 al [cur ts] tk]. cbn [k_sched tasks hw_upd Kernel_HasHw k_alloc k_ticks] in *.
  unfold MAX_TASKS in *. destruct ts as [|a [|b [|c [|d []]]]]; try done. cbn [seq for_each].
  do 4 (erewrite bind_Ok; [|apply init_step; cbn; lia]). done.
Qed.

(** The creation loop, on a constructor that does not fail. *)
Lemma create_in_run mk f slots k :
  (∀ i, i ∈ slots → (i < length (tasks (k_sched k)))%nat ∧ mk i k = Ok (f i) k ∧ Z.of_nat i < 2 ^ 8) →
  create_in mk slots k =
    match find (is_free (k_sched k)) slots with
    | Some i => Ok (mkTaskId (Z.of_nat i)) (set_sched (added i (f i) (k_sched k)) k)
    | None => Panic "task table full" k
    end.
Proof.
  induction slots as [|i slots IH]; intros Hmk; [done|]. simpl.
  destruct (Hmk i) as (Hi & Hrun & Hu); [by left|].
  erewrite bind_Ok by (by apply task_at_run). unfold is_free at 1.
  destruct (task_of (k_sched k) i) as [t|] eqn:Ht.
  - apply IH. intros j Hj. apply Hmk. by right.
  - erewrite bind_Ok by done.
    erewrite bind_Ok; [|unfold store_task; erewrite bind_Ok by (by apply task_at_run); reflexivity].
    rewrite Z.mod_small by lia. done.
Qed.

Lemma with_lock_create mk f k :
  sched_wf (k_sched k) →
  (∀ i h, (i < MAX_TASKS)%nat → mk i (hw_upd h k) = Ok (f i) (hw_upd h k)) →
  match free_slot (k_sched k) with
  | Some i => with_lock (create_in mk (seq 0 MAX_TASKS)) k =
      Ok (mkTaskId (Z.of_nat i)) (set_sched (added i (f i) (k_sched k)) k)
  | None => ∃ k', with_lock (create_in mk (seq 0 MAX_TASKS)) k = Panic "task table full" k'
  end.
Proof.
  intros Hwf Hmk.
  assert (∀ h, create_in mk (seq 0 MAX_TASKS) (hw_upd h k) =
    match free_slot (k_sched k) with
    | Some i => Ok (mkTaskId (Z.of_nat i)) (set_sched (added i (f i) (k_sched k)) (hw_upd h k))
    | None => Panic "task table full" (hw_upd h k)
    end) as Hrun.
  { intros h. rewrite (create_in_run mk f); [reflexivity|]. intros i Hi%elem_of_seq. simpl. rewrite (sw_len _ Hwf).
    unfold MAX_TASKS in *. split_all; [lia|apply Hmk; lia|lia]. }
  destruct (free_slot (k_sched k)) as [i|].
  - apply with_lock_sched. intros h. by rewrite Hrun.
  - rewrite with_lock_run. unfold with_mstatus at 1. rewrite Hrun. eauto.
Qed.

(** Both constructors: the first free slot, or a panic when there is none. *)
Lemma create_task_run entry top rs k :
  sched_wf (k_sched k) → TASK_STACK_SIZE ≤ top < 2 ^ 64 → length rs = PMP_COUNT →
  match free_slot (k_sched k) with
  | Some i => create_task entry top rs k =
      Ok (mkTaskId (Z.of_nat i)) (set_sched (added i (user_task i entry top rs) (k_sched k)) k)
  | None => ∃ k', create_task entry top rs k = Panic "task table full" k'
  end.
Proof.
  intros Hwf Htop Hrs. apply (with_lock_create _ (λ i, user_task i entry top rs)); [done|].
  intros i h Hi. unfold Task_new, sub_u64, TASK_STACK_SIZE in *. rewrite checked_ok by (split; lia).
  rewrite !mret_bind. cbn [pmp_config regions PmpConfig_empty].
  rewrite copy_regions_spec by (rewrite ?length_replicate; unfold PMP_COUNT in *; lia).
  rewrite Hrs, drop_ge, app_nil_r by (rewrite length_replicate; lia). unfold MAX_TASKS in *.
  rewrite Z.mod_small by lia. done.
Qed.

Lemma create_task_mmode_run entry top k :
  sched_wf (k_sched k) → TASK_STACK_SIZE ≤ top < 2 ^ 64 →
  match free_slot (k_sched k) with
  | Some i => create_task_mmode entry top k =
      Ok (mkTaskId (Z.of_nat i)) (set_sched (added i (mmode_task i entry top) (k_sched k)) k)
  | None => ∃ k', create_task_mmode entry top k = Panic "task table full" k'
  end.
Proof.
  intros Hwf Htop. apply (with_lock_create _ (λ i, mmode_task i entry top)); [done|].
  intros i h Hi. unfold Task_new, sub_u64, TASK_STACK_SIZE in *. rewrite checked_ok by (split; lia).
  rewrite !mret_bind. unfold MAX_TASKS in *. rewrite Z.mod_small by lia. done.
Qed.
End creation.

Lemma empty_regions_ok : regions_ok (replicate PMP_COUNT no_region).
Proof. intros i Hi. left. unfold region_at. by rewrite lookup_replicate_2 by lia. Qed.

Lemma user_task_wf i entry top rs : regions_ok rs → task_wf i (user_task i entry top rs).
Proof. by constructor. Qed.

Lemma mmode_task_wf i entry top : task_wf i (mmode_task i entry top).
Proof. constructor; [done|apply empty_regions_ok]. Qed.

Lemma SCHEDULER_wf : sched_wf SCHEDULER.
Proof.
  assert (∀ i, task_of SCHEDULER i = None) as Hn.
  { intros i. unfold task_of. simpl. do 4 (destruct i as [|i]; [done|]). done. }
  constructor; [done|intros i t; by rewrite Hn|done|intros i t; by rewrite Hn].
Qed.
