(* ===== verification/SchedulerProps.v ===== *)
(** Properties of the scheduler.

    The abstract view: a table of tasks, each [runnable] or not, each with a
    logical register context ([context_of]) that lives in the processor while
    the task is current and in its record otherwise.  [schedule] and
    [kill_current] choose by the policy and preserve every logical context;
    sequences of operations, with anything the tasks and the devices do in
    between, preserve the invariant, never revive a dead task and never leave a
    ready task waiting for more than three dispatches. *)

From S2P Require Import Prelude Config Machine Serial PmpHw Linker Pmp PmpAccess Sync Registers.
From S2P Require Import Policy Task Kernel Scheduler.

Local Open Scope Z_scope.

#[local] Arguments csr_get : simpl never.
#[local] Arguments csr_put : simpl never.

(** ** The abstract view *)

(** Slot [i] holds a task that could run: waiting or running. *)
Definition runnable (st : SchedulerState) (i : nat) : bool :=
  match task_of st i with
  | Some t => bool_decide (state t = Ready) || bool_decide (state t = Running)
  | None => false
  end.

(** The registers task [i] will continue with: those of the processor if it is
    the current task, the saved ones otherwise. *)
Definition context_of (frame : TrapFrame.t) (k : Kernel) (i : nat) : option TaskContext.t :=
  t ← task_of (k_sched k) i;
  Some (if decide (current (k_sched k) = Some i)
        then set_ctx_csrs (csr_get Mepc (csrs (k_hw k))) (csr_get Mstatus (csrs (k_hw k)))
               (copy_frame_to_ctx frame (context t))
        else context t).

(** The processor is about to resume [t] in slot [i]. *)
Record resumes `{I : Image} (i : nat) (t : Task) (frame : TrapFrame.t) (h : Hw) : Prop := {
  rs_frame : TrapFrame.to_list frame ++ [csr_get Mepc (csrs h); csr_get Mstatus (csrs h)] =
             TaskContext.to_list (context t);
  rs_pmp : ∀ m acc addr len, pmp_check (pmp h) m acc addr len =
    zones_allow (kernel_zones ++ task_zones (regions (pmp_config t))) m acc addr len;
}.

(** ** Lemmas *)

Lemma runnable_saved frame mepc mstatus st i : sched_wf st →
  is_ready (tasks (saved frame mepc mstatus st)) i = runnable st i.
Proof.
  intros Hwf. apply eq_true_iff_eq. rewrite is_ready_spec, task_of_saved. unfold runnable.
  case_decide as Hc.
  - destruct (sw_current _ Hwf i Hc) as (t & -> & Hst). simpl. rewrite orb_true_iff, !bool_decide_eq_true.
    split.
    + intros (t' & [= <-] & Hr). destruct (save_task_fields frame mepc mstatus t) as (_ & _ & _ & Hs).
      rewrite Hs in Hr. case_bool_decide; auto.
    + intros Hr. eexists. split; [done|]. destruct (save_task_fields frame mepc mstatus t) as (_ & _ & _ & ->).
      case_bool_decide; [done|]. by destruct Hr.
  - destruct (task_of st i) as [t|] eqn:Ht; [|naive_solver].
    rewrite orb_true_iff, !bool_decide_eq_true. split; [intros (t' & [= <-] & ?); auto|].
    intros [Hr|Hr]; [eauto|]. destruct Hc. by eapply sw_running.
Qed.

Lemma scan_ext start n offsets f g :
  (∀ i, f i = g i) → scan start n offsets f = scan start n offsets g.
Proof. intros Hfg. induction offsets as [|o os IH]; [done|]. simpl. by rewrite Hfg, IH. Qed.

Lemma select_ext n c f g : (∀ i, f i = g i) → select_next_ready n c f = select_next_ready n c g.
Proof. intros Hfg. unfold select_next_ready. by rewrite (scan_ext _ _ _ f g Hfg), Hfg. Qed.

Lemma next_of_saved frame mepc mstatus st : sched_wf st →
  next_of (saved frame mepc mstatus st) = select_next_ready MAX_TASKS (current st) (runnable st).
Proof.
  intros Hwf. unfold next_of. rewrite current_saved. apply select_ext. intros i.
  by apply runnable_saved.
Qed.

Section view.
Context `{I : Image} `{IO : !ImageOk I} `{B : SerialBackend}.

Lemma switched_resumes i t frame h h' :
  hw_ready h → regions_ok (regions (pmp_config t)) → switched i t h h' →
  resumes i t (copy_ctx_to_frame (context t) frame) h'.
Proof.
  intros [Hp _] Hok [Hc Hl _ _ _]. constructor.
  - rewrite Hc, csr_get_put_eq, csr_get_put_ne, csr_get_put_eq by done. by destruct (context t).
  - intros. eapply pmp_check_zones; [done|done|apply Hp].
Qed.

(** A switch keeps every logical context. *)
Lemma scheduled_contexts frame k frame' k' i :
  sched_wf (k_sched k) → scheduled frame k frame' k' → context_of frame' k' i = context_of frame k i.
Proof.
  intros Hwf. unfold scheduled. set (me := csr_get Mepc _). set (ms := csr_get Mstatus _).
  set (st := saved _ _ _ _).
  assert (∀ j, context <$> task_of st j = context_of frame k j) as Hst.
  { intros j. unfold st, context_of. rewrite task_of_saved.
    destruct (task_of (k_sched k) j) as [t|]; [|by case_decide]. simpl. case_decide; [|done].
    simpl. f_equal. by destruct (save_task_fields frame me ms t) as (_ & _ & -> & _). }
  destruct (next_of st) as [n|] eqn:Hn.
  - intros (t & Ht & -> & Hsw & Hs & _). rewrite <- Hst. unfold context_of. rewrite Hs, task_of_dispatched.
    simpl. destruct (decide (n = i)) as [->|Hne].
    + rewrite Ht. simpl. rewrite decide_True by done. f_equal. destruct Hsw as [-> _ _ _ _].
      rewrite csr_get_put_eq, csr_get_put_ne, csr_get_put_eq by done. by destruct (context t).
    + destruct (task_of st i); [|done]. simpl. rewrite decide_False by congruence. done.
  - intros [-> ->]. rewrite <- Hst. unfold context_of. simpl.
    destruct (task_of st i) as [t1|] eqn:H1; [|done]. simpl. f_equal. case_decide as Hc; [|done].
    unfold st in Hc, H1. rewrite current_saved in Hc. rewrite task_of_saved, decide_True in H1 by done.
    apply fmap_Some in H1 as (t & _ & ->).
    destruct (save_task_fields frame me ms t) as (_ & _ & -> & _). done.
Qed.
End view.

(** ** What a dispatch leaves alone *)

Lemma resched_runnable frame mepc mstatus st j :
  runnable (resched frame mepc mstatus st) j = runnable st j.
Proof.
  unfold resched. set (st1 := saved _ _ _ _). cbn zeta.
  assert (runnable st1 j = runnable st j) as H1.
  { unfold runnable, st1. rewrite task_of_saved. case_decide; [|done].
    destruct (task_of st j) as [t|]; [|done]. simpl.
    destruct (save_task_fields frame mepc mstatus t) as (_ & _ & _ & ->). by destruct (state t). }
  destruct (next_of st1) as [i|] eqn:Hn; [|done]. rewrite <- H1.
  destruct (next_of_ready _ _ Hn) as (t & Ht & Hr). unfold runnable. rewrite task_of_dispatched.
  case_decide as Hij; [|done]. subst j. rewrite Ht. simpl. by rewrite Hr.
Qed.

Lemma resched_dead frame mepc mstatus st i t :
  task_of st i = Some t → state t = Dead →
  ∃ t', task_of (resched frame mepc mstatus st) i = Some t' ∧ state t' = Dead.
Proof.
  intros Ht Hd. unfold resched. set (st1 := saved _ _ _ _). cbn zeta.
  assert (∃ t1, task_of st1 i = Some t1 ∧ state t1 = Dead) as (t1 & Ht1 & Hd1).
  { unfold st1. rewrite task_of_saved, Ht. case_decide; [|eauto]. eexists. split; [done|].
    destruct (save_task_fields frame mepc mstatus t) as (_ & _ & _ & ->). by rewrite Hd. }
  destruct (next_of st1) as [n|] eqn:Hn; [|eauto].
  destruct (next_of_ready _ _ Hn) as (u & Hu & Hr). exists t1.
  rewrite task_of_dispatched, decide_False by congruence. done.
Qed.

(** A kill keeps every logical context. *)
Lemma killed_contexts `{I : Image} `{B : SerialBackend} frame k h1 frame' k' i :
  sched_wf (k_sched k) → csrs h1 = csrs (k_hw k) →
  scheduled frame (mkKernel h1 (k_alloc k) (killed (k_sched k)) (k_ticks k)) frame' k' →
  context_of frame' k' i = context_of frame k i.
Proof.
  intros Hwf Hcs Hs. etransitivity; [eapply scheduled_contexts; [|exact Hs]; by apply killed_wf|].
  unfold context_of. simpl. rewrite task_of_killed, current_killed, Hcs. case_decide; [|done].
  by destruct (task_of (k_sched k) i).
Qed.

(** A kill, as the other tasks see it. *)
Lemma killed_views `{I : Image} `{B : SerialBackend} frame k h1 frame' k' c :
  sched_wf (k_sched k) → current (k_sched k) = Some c → csrs h1 = csrs (k_hw k) →
  scheduled frame (mkKernel h1 (k_alloc k) (killed (k_sched k)) (k_ticks k)) frame' k' →
  (∃ t, task_of (k_sched k') c = Some t ∧ state t = Dead) ∧
  (∀ j, j ≠ c → runnable (k_sched k') j = runnable (k_sched k) j) ∧
  ∀ i, context_of frame' k' i = context_of frame k i.
Proof.
  intros Hwf Hc Hcs Hs. destruct (sw_current _ Hwf c Hc) as (t & Ht & _).
  rewrite (scheduled_sched _ _ _ _ Hs). cbn [k_sched k_hw]. split_all.
  - apply (resched_dead _ _ _ _ _ (set_state Dead t)); [|done]. by rewrite task_of_killed, decide_True, Ht.
  - intros j Hj. rewrite resched_runnable. unfold runnable.
    rewrite task_of_killed, decide_False by congruence. done.
  - intros i. by eapply killed_contexts.
Qed.

(** ** The scheduler as a state machine *)

(** Transitions of the task table, one per operation; the flag tells those that
    dispatch. *)
Inductive sched_step (st : SchedulerState) : bool → SchedulerState → Prop :=
| ss_init : sched_step st false (promoted st)
| ss_schedule frame mepc mstatus : sched_step st true (resched frame mepc mstatus st)
| ss_kill frame mepc mstatus : sched_step st true (resched frame mepc mstatus (killed st))
| ss_create i t :
    free_slot st = Some i → task_wf i t → state t = Created → sched_step st false (added i t st)
| ss_env : sched_step st false st.

Definition sched_any (st st' : SchedulerState) : Prop := ∃ d, sched_step st d st'.

(** Calls of the scheduler's operations.  [OpEnv] is whatever happens between
    two of them: the hardware changes to any state in which the kernel's PMP
    entries are in place and the console works. *)
Inductive sched_op :=
| OpInit
| OpSchedule (frame : TrapFrame.t)
| OpKill (frame : TrapFrame.t)
| OpCreate (entry top : Z) (rs : list PmpRegion)
| OpCreateM (entry top : Z)
| OpEnv (h : Hw).

Definition is_dispatch (op : sched_op) : bool :=
  match op with OpSchedule _ | OpKill _ => true | _ => false end.

Section machine.
Context `{E : Env} `{B : SerialBackend} `{L : !SerialLaws B} `{I : Image}.

Definition apply_op (op : sched_op) : M Kernel unit :=
  match op with
  | OpInit => init
  | OpSchedule frame => schedule frame;; mret tt
  | OpKill frame => kill_current frame;; mret tt
  | OpCreate entry top rs => create_task entry top rs;; mret tt
  | OpCreateM entry top => create_task_mmode entry top;; mret tt
  | OpEnv h => modify (hw_upd h)
  end.

Definition apply_ops (ops : list sched_op) : M Kernel unit :=
  for_each ops tt (λ _ op, apply_op op).

(** The callers' obligations. *)
Definition op_ok (op : sched_op) : Prop :=
  match op with
  | OpCreate _ top rs => TASK_STACK_SIZE ≤ top < 2 ^ 64 ∧ length rs = PMP_COUNT ∧ regions_ok rs
  | OpCreateM _ top => TASK_STACK_SIZE ≤ top < 2 ^ 64
  | OpEnv h => hw_ready h
  | _ => True
  end.

Record kernel_ok (k : Kernel) : Prop := {
  ko_sched : sched_wf (k_sched k);
  ko_hw : hw_ready (k_hw k);
}.

Lemma sched_step_wf st d st' : sched_wf st → sched_step st d st' → sched_wf st'.
Proof.
  intros Hwf []; [by apply promoted_wf|by apply resched_wf|by apply resched_wf, killed_wf| |done].
  destruct (free_slot_Some _ _ H) as [Hi Hn]. by apply added_wf.
Qed.

Lemma scheduled_hw frame k frame' k' :
  hw_ready (k_hw k) → scheduled frame k frame' k' → hw_ready (k_hw k').
Proof.
  unfold scheduled. intros Hh. destruct (next_of _).
  - intros (t & _ & _ & Hsw & _). eapply Hsw.
  - intros [_ ->]. done.
Qed.

(** What one operation does, on every outcome. *)
Lemma apply_op_step op k :
  kernel_ok k → op_ok op →
  match apply_op op k with
  | Ok _ k' => kernel_ok k' ∧ sched_step (k_sched k) (is_dispatch op) (k_sched k')
  | Panic msg _ => msg = "task table full" ∧ free_slot (k_sched k) = None ∧
      match op with OpCreate _ _ _ | OpCreateM _ _ => True | _ => False end
  | Spin _ => False
  end.
Proof.
  intros [Hwf Hhw]. assert (∀ d st, sched_step (k_sched k) d st → sched_wf st) as Hsw
    by (intros d st; by apply sched_step_wf).
  destruct op as [|frame|frame|entry top rs|entry top|h]; simpl; intros Hok.
  - rewrite init_run by done. simpl. split; [split; [|done]|]; [eapply Hsw|]; constructor.
  - destruct (wp_elim _ _ _ (schedule_spec frame k Hwf Hhw)) as (frame' & k' & Hrun & Hs).
    erewrite bind_Ok by done. simpl. pose proof (scheduled_sched _ _ _ _ Hs) as Heq.
    split; [split; [|by eapply scheduled_hw]; eapply Hsw|]; rewrite Heq; constructor.
  - destruct (wp_elim _ _ _ (kill_current_spec frame k Hwf (killed_wf _ Hwf) Hhw))
      as (frame' & k' & Hrun & h1 & Hpr & Hs).
    erewrite bind_Ok by done. simpl. pose proof (scheduled_sched _ _ _ _ Hs) as Heq. cbn [k_sched] in Heq.
    split; [split; [eapply Hsw|eapply scheduled_hw; [|done]; by eapply kill_printed_ready]|];
      rewrite Heq; constructor.
  - destruct Hok as (Htop & Hlen & Hrs). pose proof (create_task_run entry top rs k Hwf Htop Hlen) as Hrun.
    destruct (free_slot (k_sched k)) as [i|] eqn:Hf.
    + erewrite bind_Ok by done. simpl. split; [split; [eapply Hsw|done]|];
        apply ss_create; try done; by apply user_task_wf.
    + destruct Hrun as [k' Hrun]. erewrite bind_Panic by done. done.
  - pose proof (create_task_mmode_run entry top k Hwf Hok) as Hrun.
    destruct (free_slot (k_sched k)) as [i|] eqn:Hf.
    + erewrite bind_Ok by done. simpl. split; [split; [eapply Hsw|done]|];
        apply ss_create; try done; by apply mmode_task_wf.
    + destruct Hrun as [k' Hrun]. erewrite bind_Panic by done. done.
  - split; [by split|]. apply ss_env.
Qed.

Lemma apply_ops_cons op ops k : apply_ops (op :: ops) k = (apply_op op;; apply_ops ops) k.
Proof. unfold apply_ops. simpl. unfold mbind, M_bind. by destruct (apply_op op k) as [[] k'|e k'|k']. Qed.

Lemma apply_ops_steps ops k :
  kernel_ok k → Forall op_ok ops →
  match apply_ops ops k with
  | Ok _ k' => kernel_ok k' ∧ rtc sched_any (k_sched k) (k_sched k')
  | Panic msg _ => msg = "task table full"
  | Spin _ => False
  end.
Proof.
  intros Hk Hops. revert k Hk. induction Hops as [|op ops Hop _ IH]; intros k Hk.
  - by split; [|apply rtc_refl].
  - rewrite apply_ops_cons. pose proof (apply_op_step op k Hk Hop) as Hstep.
    destruct (apply_op op k) as [[] k1|e k1|k1] eqn:Hrun.
    + erewrite bind_Ok by done. destruct Hstep as [Hk1 Hs]. specialize (IH k1 Hk1).
      destruct (apply_ops ops k1) as [[] k'|e k'|k'] eqn:Hrun'; rewrite ?Hrun'; try done.
      destruct IH. split; [done|]. eapply rtc_l; [by eexists|done].
    + erewrite bind_Panic by done. apply Hstep.
    + done.
Qed.
End machine.

(** ** Dead tasks *)

(** A dead task that is not current: its record is frozen. *)
Definition buried (i : nat) (t : Task) (st : SchedulerState) : Prop :=
  task_of st i = Some t ∧ state t = Dead ∧ current st ≠ Some i.

Lemma resched_buried frame mepc mstatus st i t :
  buried i t st → buried i t (resched frame mepc mstatus st).
Proof.
  intros (Ht & Hd & Hc). unfold resched. set (st1 := saved _ _ _ _). cbn zeta.
  assert (task_of st1 i = Some t) as Ht1 by (unfold st1; by rewrite task_of_saved, decide_False).
  destruct (next_of st1) as [n|] eqn:Hn.
  - destruct (next_of_ready _ _ Hn) as (u & Hu & Hr). assert (n ≠ i) by congruence.
    unfold buried. rewrite task_of_dispatched, decide_False by done. simpl. split_all. congruence.
  - unfold buried. split_all. unfold st1. by rewrite current_saved.
Qed.

Lemma sched_step_buried st d st' i t : sched_step st d st' → buried i t st → buried i t st'.
Proof.
  intros [] Hb.
  - destruct Hb as (Ht & Hd & Hc). unfold buried. rewrite task_of_promoted, Ht. simpl. split_all.
    unfold promote. by rewrite Hd.
  - by apply resched_buried.
  - apply resched_buried. destruct Hb as (Ht & Hd & Hc). unfold buried.
    by rewrite task_of_killed, decide_False, current_killed.
  - destruct Hb as (Ht & Hd & Hc). destruct (free_slot_Some _ _ H) as [Hi Hn].
    unfold buried. simpl. split; [|done]. pose proof (task_of_lt _ _ _ Ht).
    unfold task_of, added in *. simpl. rewrite list_lookup_insert_ne; [done|].
    intros ->. by rewrite Ht in Hn.
  - done.
Qed.

(** ** Waiting tasks *)

(** [i] waits: ready, not idle, not current. *)
Definition waiting (i : nat) (st : SchedulerState) : Prop :=
  (∃ t, task_of st i = Some t ∧ state t = Ready) ∧ i ≠ IDLE_TASK_INDEX.

Lemma waiting_not_current i st : sched_wf st → waiting i st → current st ≠ Some i.
Proof.
  intros Hwf [(t & Ht & Hr) _] Hc. destruct (sw_current _ Hwf i Hc) as (u & Hu & Hs).
  rewrite Ht in Hu. injection Hu as ->. destruct Hs as [Hs|Hs]; by rewrite Hr in Hs.
Qed.

(** The number of tasks that may still be served before [i]. *)
Definition ahead (i : nat) (st : SchedulerState) : nat :=
  rr_ahead MAX_TASKS (rr_start MAX_TASKS (current st)) i.

Lemma resched_waiting frame mepc mstatus st i :
  length (tasks st) = MAX_TASKS → waiting i st → current st ≠ Some i →
  let st' := resched frame mepc mstatus st in
  current st' = Some i ∨ waiting i st' ∧ (ahead i st' < ahead i st)%nat.
Proof.
  intros Hlen [(t & Ht & Hr) Hi0] Hc. unfold resched. set (st1 := saved _ _ _ _). cbn zeta.
  assert (task_of st1 i = Some t) as Ht1 by (unfold st1; by rewrite task_of_saved, decide_False).
  assert (i < MAX_TASKS)%nat as Hi by (rewrite <- Hlen; by eapply task_of_lt).
  destruct (choice_progress MAX_TASKS ltac:(done) (is_ready (tasks st1)) (current st1) i)
    as (n & Hn & Hcase); [done..|apply is_ready_spec; eauto|].
  fold (next_of st1) in Hn. rewrite Hn. destruct Hcase as [->|Hlt]; [by left|].
  destruct (decide (n = i)) as [->|Hne]; [by left|right]. split.
  - split; [|done]. exists t. by rewrite task_of_dispatched, decide_False.
  - unfold ahead. simpl. assert (current st1 = current st) as <- by apply current_saved. done.
Qed.

(** A transition moves a waiting task: a dispatch serves it or brings it nearer,
    anything else leaves it where it is. *)
Lemma sched_step_waiting st d st' i :
  sched_wf st → waiting i st → sched_step st d st' →
  current st' = Some i ∨ waiting i st' ∧ (ahead i st' + (if d then 1 else 0) ≤ ahead i st)%nat.
Proof.
  intros Hwf Hw Hs. pose proof (waiting_not_current _ _ Hwf Hw) as Hc. pose proof (sw_len _ Hwf) as Hlen.
  destruct Hs as [|frame me ms|frame me ms|j t Hf _ _|].
  - right. split; [|unfold ahead; simpl; lia]. destruct Hw as [(t & Ht & Hr) Hi0]. split; [|done].
    exists (promote t). rewrite task_of_promoted, Ht. split; [done|].
    destruct (promote_fields t) as (_ & _ & _ & ->). by rewrite Hr.
  - destruct (resched_waiting frame me ms st i Hlen Hw Hc) as [?|[? ?]]; [by left|right].
    split; [done|lia].
  - assert (waiting i (killed st)) as Hw'.
    { destruct Hw as [(t & Ht & Hr) Hi0]. split; [|done]. exists t. by rewrite task_of_killed, decide_False. }
    destruct (resched_waiting frame me ms (killed st) i) as [?|[? Hlt]];
      rewrite ?length_killed, ?current_killed; try done; [by left|right].
    split; [done|]. unfold ahead in *. rewrite current_killed in Hlt. lia.
  - right. split; [|unfold ahead; simpl; lia]. destruct Hw as [(u & Hu & Hr) Hi0]. split; [|done].
    destruct (free_slot_Some _ _ Hf) as [Hj Hn]. exists u.
    rewrite task_of_added by (by rewrite Hlen). rewrite decide_False; [done|]. intros ->. by rewrite Hu in Hn.
  - right. split; [done|lia].
Qed.

Definition dispatches (ops : list sched_op) : nat := length (filter (λ op, is_dispatch op = true) ops).

Section waiting.
Context `{E : Env} `{B : SerialBackend} `{L : !SerialLaws B} `{I : Image}.

Lemma ops_reach ops i k :
  kernel_ok k → Forall op_ok ops → waiting i (k_sched k) → (ahead i (k_sched k) < dispatches ops)%nat →
  (∀ k' msg, apply_ops ops k ≠ Panic msg k') →
  ∃ ops1 ops2 k1, ops = ops1 ++ ops2 ∧ apply_ops ops1 k = Ok tt k1 ∧ current (k_sched k1) = Some i ∧
    (dispatches ops1 ≤ S (ahead i (k_sched k)))%nat.
Proof.
  intros Hk Hops. revert k Hk.
  induction Hops as [|op ops Hop Hops IH]; intros k Hk Hw Hlt Hnp; [unfold dispatches in Hlt; simpl in Hlt; lia|].
  pose proof (apply_op_step op k Hk Hop) as Hstep.
  assert (dispatches (op :: ops) = (if is_dispatch op then 1 else 0) + dispatches ops)%nat as Hd.
  { unfold dispatches. rewrite filter_cons. by destruct (is_dispatch op). }
  destruct (apply_op op k) as [[] k1|e k1|k1] eqn:Hrun; [| |done].
  - destruct Hstep as [Hk1 Hs].
    assert (apply_ops [op] k = Ok tt k1) as Hone by (rewrite apply_ops_cons; by erewrite bind_Ok).
    destruct (sched_step_waiting _ _ _ i (ko_sched _ Hk) Hw Hs) as [Hc|[Hw1 Ha]].
    + exists [op], ops, k1. split_all. unfold dispatches. rewrite filter_cons. case_decide; simpl; lia.
    + destruct (IH k1 Hk1 Hw1) as (ops1 & ops2 & k2 & -> & Hr2 & Hc2 & Hn2); [lia| |].
      { intros k' msg Hp. apply (Hnp k' msg). rewrite apply_ops_cons. by erewrite bind_Ok. }
      exists (op :: ops1), ops2, k2. split_all.
      * rewrite apply_ops_cons. by erewrite bind_Ok.
      * unfold dispatches in *. rewrite filter_cons. destruct (is_dispatch op); simpl; lia.
  - destruct (Hnp k1 e). rewrite apply_ops_cons. by erewrite bind_Panic.
Qed.
End waiting.

(** ** Properties *)

(** ** Changing a saved context *)

(** The context of task [j] changed by [g]; nothing else in the table depends on
    it. *)
Definition upd_context (g : TaskContext.t → TaskContext.t) (j : nat) (st : SchedulerState) : SchedulerState :=
  upd_task (λ t, set_context (g (context t)) t) j st.

Lemma task_of_upd_context g j st i :
  task_of (upd_context g j st) i =
    if decide (j = i) then (λ t, set_context (g (context t)) t) <$> task_of st i else task_of st i.
Proof. apply task_of_upd. Qed.

Lemma upd_context_wf g j st : sched_wf st → sched_wf (upd_context g j st).
Proof.
  intros [Hl Ht Hc Hr]. constructor.
  - rewrite <- Hl. apply length_upd_task.
  - intros i t. rewrite task_of_upd_context. case_decide; [|by apply Ht].
    intros (t0 & Ht0 & ->)%fmap_Some. by destruct (Ht i t0 Ht0).
  - intros c Hcur. destruct (Hc c Hcur) as (t & Htc & Hst). rewrite task_of_upd_context.
    case_decide; rewrite Htc; eexists; (split; [reflexivity|exact Hst]).
  - intros i t. rewrite task_of_upd_context. case_decide; [|by apply Hr].
    intros (t0 & Ht0 & ->)%fmap_Some. exact (Hr i t0 Ht0).
Qed.

Lemma upd_context_runnable g j st i : runnable (upd_context g j st) i = runnable st i.
Proof. unfold runnable. rewrite task_of_upd_context. case_decide; [|done]. by destruct (task_of st i). Qed.

Section properties.
Context `{E : Env} `{B : SerialBackend} `{L : !SerialLaws B} `{I : Image}.

Lemma scheduled_alloc frame k frame' k' : scheduled frame k frame' k' →
  k_alloc k' = k_alloc k ∧ k_ticks k' = k_ticks k.
Proof.
  unfold scheduled. destruct (next_of _); [|by intros [_ ->]].
  by intros (t & _ & _ & _ & _ & -> & ->).
Qed.

Lemma schedule_ok frame k : kernel_ok k →
  ∃ frame' k', schedule frame k = Ok frame' k' ∧ scheduled frame k frame' k' ∧ kernel_ok k'.
Proof.
  intros [Hwf Hhw].
  destruct (wp_elim _ _ _ (schedule_spec frame k Hwf Hhw)) as (frame' & k' & Hrun & Hs).
  exists frame', k'. split_all. split; [|by eapply scheduled_hw].
  rewrite (scheduled_sched _ _ _ _ Hs). by apply resched_wf.
Qed.

Lemma kill_current_ok frame k : kernel_ok k →
  ∃ frame' k' h1, kill_current frame k = Ok frame' k' ∧ kernel_ok k' ∧ undisturbed (k_hw k) h1 ∧
    scheduled frame (mkKernel h1 (k_alloc k) (killed (k_sched k)) (k_ticks k)) frame' k'.
Proof.
  intros [Hwf Hhw]. pose proof (killed_wf _ Hwf) as Hwf'.
  destruct (wp_elim _ _ _ (kill_current_spec frame k Hwf Hwf' Hhw)) as (frame' & k' & Hrun & h1 & Hpr & Hs).
  exists frame', k', h1. split_all.
  - split; [rewrite (scheduled_sched _ _ _ _ Hs); by apply resched_wf|].
    eapply scheduled_hw; [|done]. by eapply kill_printed_ready.
  - unfold kill_printed in Hpr. destruct (current (k_sched k)); [by eapply prints_undisturbed|by subst].
Qed.
End properties.

(** C4: [schedule] dispatches.  From a well-formed kernel it returns in a
    well-formed kernel.  With the runnable tasks (ready or running) as the
    policy's input it does what the policy's specification says: when a slot [i]
    is chosen, [i] becomes the current task and the only running one, the trap
    frame, [mepc] and [mstatus] are its saved context word for word, and from
    then on the PMP decides every access as the kernel's zones followed by the
    regions of [i]; when nothing is runnable, neither the frame nor the hardware
    nor the current task changes. *)
Theorem schedule_dispatches `{E : Env} `{B : SerialBackend} `{L : !SerialLaws B} `{I : Image}
    `{IO : !ImageOk I} frame k :
  kernel_ok k →
  ∃ frame' k' r, schedule frame k = Ok frame' k' ∧ kernel_ok k' ∧
    choice MAX_TASKS (current (k_sched k)) (runnable (k_sched k)) r ∧
    match r with
    | Some i => current (k_sched k') = Some i ∧
        (∀ j u, task_of (k_sched k') j = Some u → state u = Running ↔ j = i) ∧
        ∃ t, task_of (k_sched k') i = Some t ∧ resumes i t frame' (k_hw k')
    | None => frame' = frame ∧ k_hw k' = k_hw k ∧ current (k_sched k') = current (k_sched k)
    end.
Proof.
  intros Hk. destruct (schedule_ok frame k Hk) as (frame' & k' & Hrun & Hs & Hk').
  exists frame', k', (select_next_ready MAX_TASKS (current (k_sched k)) (runnable (k_sched k))).
  split; [done|]. split; [done|]. split; [by apply select_choice|].
  unfold scheduled in Hs. rewrite next_of_saved in Hs by apply Hk.
  destruct (select_next_ready _ _ _) as [i|].
  - destruct Hs as (t & Ht & -> & Hsw & Hsc & _).
    assert (task_of (k_sched k') i = Some (set_state Running t)) as Hti
      by (by rewrite Hsc, task_of_dispatched, decide_True, Ht).
    split; [by rewrite Hsc|]. split.
    + intros j u Hu. split.
      * intros Hr. pose proof (sw_running _ (ko_sched _ Hk') j u Hu Hr) as Hc. rewrite Hsc in Hc.
        simpl in Hc. congruence.
      * intros ->. rewrite Hti in Hu. by injection Hu as <-.
    + eexists. split; [done|].
      apply (switched_resumes i t frame _ _ (ko_hw _ Hk)) in Hsw as [Hf Hp]; [by constructor|].
      exact (tw_regions _ _ (proj1 (saved_tasks _ _ _ _ _ _ (ko_sched _ Hk) Ht))).
  - destruct Hs as [-> ->]. split_all. apply current_saved.
Qed.

(** C5: context switching is transparent.  Neither [schedule] nor
    [kill_current] changes the logical context (31 registers, [mepc],
    [mstatus]) of any task: what the interrupted task had in the processor is
    what it will be resumed with, and the saved contexts of the others are
    untouched. *)
Theorem contexts_preserved `{E : Env} `{B : SerialBackend} `{L : !SerialLaws B} `{I : Image} frame k :
  kernel_ok k →
  (∃ frame' k', schedule frame k = Ok frame' k' ∧ ∀ i, context_of frame' k' i = context_of frame k i) ∧
  (∃ frame' k', kill_current frame k = Ok frame' k' ∧ ∀ i, context_of frame' k' i = context_of frame k i).
Proof.
  intros Hk. split.
  - destruct (schedule_ok frame k Hk) as (frame' & k' & Hrun & Hs & _). exists frame', k'.
    split; [done|]. intros i. eapply scheduled_contexts; [apply Hk|done].
  - destruct (kill_current_ok frame k Hk) as (frame' & k' & h1 & Hrun & _ & Hcs & Hs). exists frame', k'.
    split; [done|]. intros i. eapply killed_contexts; [apply Hk|apply Hcs|exact Hs].
Qed.

(** C21: the invariant and the absence of failures.  Over every sequence of
    scheduler operations, whatever the tasks and the devices do in between, the
    kernel stays well-formed; no operation hangs, and the only panic is that of
    creating a task when the table is full. *)
Theorem scheduler_safe `{E : Env} `{B : SerialBackend} `{L : !SerialLaws B} `{I : Image} ops k :
  kernel_ok k → Forall op_ok ops →
  match apply_ops ops k with
  | Ok _ k' => kernel_ok k' ∧ rtc sched_any (k_sched k) (k_sched k')
  | Panic msg _ => msg = "task table full"
  | Spin _ => False
  end.
Proof. apply apply_ops_steps. Qed.

(** Dead tasks stay dead.  A dead task that is not current keeps its record
    unchanged and is never made current again by any sequence of operations. *)
Lemma dead_never_dispatched `{E : Env} `{B : SerialBackend} `{L : !SerialLaws B} `{I : Image} ops k k' i t :
  kernel_ok k → Forall op_ok ops → buried i t (k_sched k) → apply_ops ops k = Ok tt k' →
  buried i t (k_sched k').
Proof.
  intros Hk Hops Hb Hrun. pose proof (apply_ops_steps ops k Hk Hops) as Hs. rewrite Hrun in Hs.
  destruct Hs as [_ Hs]. revert Hb. induction Hs as [|st st1 st2 [d Hd] _ IH]; [done|].
  intros Hb. by eapply IH, sched_step_buried.
Qed.

(** [kill_current] marks the current task dead, keeps the others' states but
    for the dispatch, and switches to the policy's choice among the remaining
    runnable tasks; so the dead task is off the processor as soon as any other
    task, idle included, can run. *)
Lemma kill_current_kills `{E : Env} `{B : SerialBackend} `{L : !SerialLaws B} `{I : Image} frame k c :
  kernel_ok k → current (k_sched k) = Some c →
  ∃ frame' k' t, kill_current frame k = Ok frame' k' ∧ kernel_ok k' ∧
    task_of (k_sched k') c = Some t ∧ state t = Dead ∧
    match select_next_ready MAX_TASKS (Some c)
            (λ j, negb (j =? c)%nat && runnable (k_sched k) j) with
    | Some i => i ≠ c ∧ current (k_sched k') = Some i ∧ buried c t (k_sched k')
    | None => current (k_sched k') = Some c ∧ frame' = frame
    end.
Proof.
  intros Hk Hc. destruct (kill_current_ok frame k Hk) as (frame' & k' & h1 & Hrun & Hk' & _ & Hs).
  pose proof (killed_wf _ (ko_sched _ Hk)) as Hwf'.
  destruct (sw_current _ (ko_sched _ Hk) c Hc) as (t & Ht & _).
  assert (∀ j, (negb (j =? c)%nat && runnable (k_sched k) j) = runnable (killed (k_sched k)) j) as Hrn.
  { intros j. unfold runnable. rewrite task_of_killed, Hc. destruct (Nat.eqb_spec j c) as [->|Hne].
    - by rewrite decide_True, Ht by done.
    - rewrite decide_False by congruence. done. }
  rewrite (select_ext _ _ _ _ Hrn). unfold scheduled in Hs. cbn [k_sched k_hw] in Hs.
  rewrite next_of_saved, current_killed, Hc in Hs by done.
  set (st1 := saved _ _ _ _) in Hs.
  assert (∃ t1, task_of st1 c = Some t1 ∧ state t1 = Dead) as (t1 & Ht1 & Hd).
  { eexists. split.
    - unfold st1. by rewrite task_of_saved, task_of_killed, current_killed, Hc, !decide_True, Ht.
    - by match goal with |- state (save_task ?f ?a ?b ?u) = _ =>
        destruct (save_task_fields f a b u) as (_ & _ & _ & ->) end. }
  exists frame', k', t1. split; [done|]. split; [done|].
  destruct (select_next_ready _ _ _) as [i|] eqn:Hsel.
  - destruct Hs as (u & Hu & _ & _ & Hsc & _).
    assert (i ≠ c) as Hne.
    { intros ->. apply (select_is_ready MAX_TASKS) in Hsel; [|done]. rewrite <- Hrn, Nat.eqb_refl in Hsel. done. }
    assert (buried c t1 (k_sched k')) as Hb.
    { rewrite Hsc. unfold buried. rewrite task_of_dispatched, decide_False by done. simpl. split_all. congruence. }
    split_all; try apply Hb. by rewrite Hsc.
  - destruct Hs as [-> ->]. split_all. simpl. unfold st1. by rewrite current_saved, current_killed.
Qed.

(** Bounded waiting.  Take a non-idle task that is ready, and any run of
    scheduler operations with at least three dispatches (timer ticks or kills),
    other tasks being created, killed and run in between: after some prefix of
    the run with at most three dispatches, the task is the current one. *)
Lemma bounded_wait `{E : Env} `{B : SerialBackend} `{L : !SerialLaws B} `{I : Image} ops k k' i :
  kernel_ok k → Forall op_ok ops → waiting i (k_sched k) → (3 ≤ dispatches ops)%nat →
  apply_ops ops k = Ok tt k' →
  ∃ ops1 ops2 k1, ops = ops1 ++ ops2 ∧ (dispatches ops1 ≤ 3)%nat ∧
    apply_ops ops1 k = Ok tt k1 ∧ current (k_sched k1) = Some i.
Proof.
  intros Hk Hops Hw Hd Hrun. pose proof Hw as [(t & Ht & _) Hi0].
  assert (ahead i (k_sched k) < 3)%nat as Ha.
  { unfold ahead. apply (rr_ahead_lt MAX_TASKS); [done|by apply rr_start_lt| |done].
    rewrite <- (sw_len _ (ko_sched _ Hk)). by eapply task_of_lt. }
  destruct (ops_reach ops i k Hk Hops Hw) as (ops1 & ops2 & k1 & ? & ? & ? & ?); [lia|by rewrite Hrun|].
  exists ops1, ops2, k1. split_all. lia.
Qed.

(** Task creation.  Both constructors put the new task, in state [Created]
    and with the privilege mode they are named after, into the first free slot
    and return its number, leaving the other slots and the rest of the kernel
    alone; with no free slot they panic. *)
Lemma create_task_correct `{E : Env} entry top rs k :
  sched_wf (k_sched k) → TASK_STACK_SIZE ≤ top < 2 ^ 64 → length rs = PMP_COUNT → regions_ok rs →
  match free_slot (k_sched k) with
  | Some i => (i < MAX_TASKS)%nat ∧ task_of (k_sched k) i = None ∧
      (∀ j, (j < i)%nat → task_of (k_sched k) j ≠ None) ∧
      create_task entry top rs k =
        Ok (mkTaskId (Z.of_nat i)) (set_sched (added i (user_task i entry top rs) (k_sched k)) k) ∧
      create_task_mmode entry top k =
        Ok (mkTaskId (Z.of_nat i)) (set_sched (added i (mmode_task i entry top) (k_sched k)) k) ∧
      sched_wf (added i (user_task i entry top rs) (k_sched k)) ∧
      sched_wf (added i (mmode_task i entry top) (k_sched k))
  | None => (∀ j, (j < MAX_TASKS)%nat → task_of (k_sched k) j ≠ None) ∧
      (∃ k', create_task entry top rs k = Panic "task table full" k') ∧
      (∃ k', create_task_mmode entry top k = Panic "task table full" k')
  end.
Proof.
  intros Hwf Htop Hlen Hrs. pose proof (create_task_run entry top rs k Hwf Htop Hlen) as Hu.
  pose proof (create_task_mmode_run entry top k Hwf Htop) as Hm.
  assert (∀ j, task_of (k_sched k) j ≠ None ↔ is_free (k_sched k) j = false) as Hfree.
  { intros j. unfold is_free. by destruct (task_of (k_sched k) j). }
  destruct (free_slot (k_sched k)) as [i|] eqn:Hf.
  - destruct (free_slot_Some _ _ Hf) as [Hi Hn]. split_all.
    + intros j Hj. apply Hfree. by eapply (free_slot_first (k_sched k) i).
    + by apply added_wf; [..|apply user_task_wf|].
    + by apply added_wf; [..|apply mmode_task_wf|].
  - split_all. intros j Hj. apply Hfree. eapply find_none; [done|]. apply in_seq. lia.
Qed.

(** ** A concrete kernel *)

Module sample.
#[local] Instance env : Env := quiet_board true.
#[local] Existing Instance sample_image.

(** Idle and one user task are ready, user task 1 is running, slot 3 is free. *)
Definition sched : SchedulerState :=
  mkSched (Some 1%nat)
    [Some (set_state Ready (mmode_task 0 0x80000400 0x8001A000));
     Some (set_state Running (user_task 1 0x80004000 0x8001C000 sample_regions));
     Some (set_state Ready (user_task 2 0x80004040 0x8001E000 sample_regions)); None].

Definition kernel : Kernel := mkKernel sample_hw Allocator.bump_new sched 0.

Definition frame : TrapFrame.t :=
  copy_ctx_to_frame (TaskContext.new_umode 0 7)
    (TrapFrame.mk 0 0 0 0 0 0 0 0 0 0 0 0 0 0 0 0 0 0 0 0 0 0 0 0 0 0 0 0 0 0 0).

Lemma hw_ok : hw_ready sample_hw.
Proof. split; [apply kernel_regs_ready|reflexivity]. Qed.

Lemma sched_ok : sched_wf sched.
Proof.
  constructor.
  - done.
  - intros i t. do 3 (destruct i as [|i];
      [intros [= <-]; constructor; [done|]; first [apply empty_regions_ok|apply sample_regions_ok]|]).
    destruct i; done.
  - intros c [= <-]. eexists. split; [reflexivity|by left].
  - intros i t. do 3 (destruct i as [|i]; [by intros [= <-]|]). destruct i; done.
Qed.

Lemma kernel_is_ok : kernel_ok kernel.
Proof. split; [apply sched_ok|apply hw_ok]. Qed.

Lemma schedule_dispatches_witness :
  ∃ frame' k' r, schedule frame kernel = Ok frame' k' ∧ kernel_ok k' ∧
    choice MAX_TASKS (current (k_sched kernel)) (runnable (k_sched kernel)) r ∧
    match r with
    | Some i => current (k_sched k') = Some i ∧
        (∀ j u, task_of (k_sched k') j = Some u → state u = Running ↔ j = i) ∧
        ∃ t, task_of (k_sched k') i = Some t ∧ resumes i t frame' (k_hw k')
    | None => frame' = frame ∧ k_hw k' = k_hw kernel ∧ current (k_sched k') = current (k_sched kernel)
    end.
Proof. apply (schedule_dispatches frame kernel), kernel_is_ok. Defined.

Lemma contexts_preserved_witness :
  (∃ frame' k', schedule frame kernel = Ok frame' k' ∧
     ∀ i, context_of frame' k' i = context_of frame kernel i) ∧
  (∃ frame' k', kill_current frame kernel = Ok frame' k' ∧
     ∀ i, context_of frame' k' i = context_of frame kernel i).
Proof. apply (contexts_preserved frame kernel), kernel_is_ok. Defined.

(** A run: a tick, a fault, another tick, then a task too many. *)
Definition ops : list sched_op := [OpSchedule frame; OpKill frame; OpSchedule frame].

Lemma ops_ok : Forall op_ok ops.
Proof. by repeat constructor. Qed.

Lemma scheduler_safe_witness :
  match apply_ops (ops ++ [OpCreateM 0x80000400 0x80020000; OpCreateM 0x80000400 0x80022000]) kernel with
  | Ok _ k' => kernel_ok k' ∧ rtc sched_any (k_sched kernel) (k_sched k')
  | Panic msg _ => msg = "task table full"
  | Spin _ => False
  end.
Proof.
  apply (scheduler_safe (ops ++ [OpCreateM 0x80000400 0x80020000; OpCreateM 0x80000400 0x80022000]) kernel);
    [apply kernel_is_ok|].
  apply Forall_app; split; [apply ops_ok|].
  repeat constructor; vm_compute; congruence.
Defined.

End sample.
