(* ===== verification/TaskSpec.v ===== *)
(** Task descriptions and spawning: [crates/kernel/src/sched/task/spec.rs].

    [spawn] allocates a stack from the kernel heap, builds the PMP regions of a
    user task and registers the task.  The theorems give its result on every
    branch and the shape of the regions: code is read-execute, the stack and the
    devices read-write, and nothing is both writable and executable. *)

From S2P Require Import Prelude Config Machine Serial PmpHw Linker Pmp PmpAccess Allocator Sync.
From S2P Require Import Registers Task Kernel Scheduler SchedulerProps.

Local Open Scope Z_scope.

Inductive TaskMode :=
| MMode
| UMode (code_base code_size : Z) (mmio : list (Z * Z)).

Record TaskSpec := mkTaskSpec { entry : Z; mode : TaskMode }.

(** The constructors; a function is its address. *)
Definition machine (entry : Z) : TaskSpec := mkTaskSpec entry MMode.

Definition user (entry code_base code_size : Z) (mmio : list (Z * Z)) : TaskSpec :=
  mkTaskSpec entry (UMode code_base code_size mmio).

Section ops.
Context `{E : Env}.

(** [Global.allocate] is [GlobalAlloc::alloc] of [ALLOCATOR] with null as the
    error. *)
Definition alloc_task_stack : M Kernel (Z * Z) :=
  match from_size_align TASK_STACK_SIZE TASK_STACK_ALIGN with
  | None => panic "valid task stack layout"
  | Some layout =>
    allocation ← on_alloc (alloc layout);
    if allocation =? 0 then panic "allocating stack" else
    top ← add_u64 allocation (l_size layout);
    mret (allocation, top)
  end.

(** The builder chain of [spawn]. *)
Definition user_pmp {St} (code_base code_size stack_bottom : Z) (mmio : list (Z * Z)) : M St PmpConfig :=
  b ← code_region builder code_base code_size;
  b ← stack_region b stack_bottom TASK_STACK_SIZE;
  b ← for_each mmio b (λ b bs, mmio_region b bs.1 bs.2);
  mret (build b).

Definition spawn (self : TaskSpec) : M Kernel TaskId :=
  '(stack_bottom, stack_top) ← alloc_task_stack;
  match mode self with
  | MMode => create_task_mmode (entry self) stack_top
  | UMode code_base code_size mmio =>
    pmp ← user_pmp code_base code_size stack_bottom mmio;
    create_task (entry self) stack_top (regions pmp)
  end.
End ops.

(** ** The regions of a user task *)

(** The requests [spawn] makes, in order. *)
Definition user_requests (code_base code_size stack_bottom : Z) (mmio : list (Z * Z)) : list PmpRegion :=
  mkPmpRegion code_base code_size flags.RX :: mkPmpRegion stack_bottom TASK_STACK_SIZE flags.RW ::
  ((λ bs, mkPmpRegion bs.1 bs.2 flags.RW) <$> mmio).

(** The table with [reqs] from entry 4 on. *)
Definition laid_out (reqs : list PmpRegion) : list PmpRegion := b_regions (filled reqs).

Definition requests_ok (reqs : list PmpRegion) : bool :=
  (length reqs <=? 12)%nat && forallb region_valid reqs.

(** Not both writable and executable. *)
Definition wx_exclusive (r : PmpRegion) : bool :=
  negb (Z.testbit (rflags r) 1 && Z.testbit (rflags r) 2).

Section regions.
Context `{E : Env} {St : Type}.

Lemma b_region_run reqs r (s : St) : size r < 2 ^ 64 →
  if (length reqs <? 12)%nat && region_valid r
  then b_region (filled reqs) (base r) (size r) (rflags r) s = Ok (filled (reqs ++ [r])) s
  else ∃ msg, b_region (filled reqs) (base r) (size r) (rflags r) s = Panic msg s.
Proof.
  intros Hs. destruct r as [b z f]. simpl in *. destruct ((length reqs <? 12)%nat && _) eqn:Hb.
  - apply andb_true_iff in Hb as [Hl%Nat.ltb_lt Hv]. by apply b_region_ok.
  - apply b_region_panics; [done|]. apply andb_false_iff in Hb as [Hl%Nat.ltb_ge|Hv]; auto.
Qed.

(** The device loop, after the requests [reqs]. *)
Lemma mmio_loop_run mmio reqs (s : St) :
  Forall (λ bs, bs.2 < 2 ^ 64) mmio → (length reqs ≤ 12)%nat →
  let more := (λ bs, mkPmpRegion bs.1 bs.2 flags.RW) <$> mmio in
  if (length (reqs ++ more) <=? 12)%nat && forallb region_valid more
  then for_each mmio (filled reqs) (λ b bs, mmio_region b bs.1 bs.2) s = Ok (filled (reqs ++ more)) s
  else ∃ msg, for_each mmio (filled reqs) (λ b bs, mmio_region b bs.1 bs.2) s = Panic msg s.
Proof.
  intros Hm. revert reqs. induction Hm as [|[b z] mmio Hz Hm IH]; intros reqs Hl; cbn zeta.
  - simpl. rewrite app_nil_r, (proj2 (Nat.leb_le _ _)) by done. done.
  - pose proof (b_region_run reqs (mkPmpRegion b z flags.RW) s Hz) as Hr. csimpl in *.
    unfold mmio_region at 1 3. destruct (Nat.ltb_spec (length reqs) 12) as [Hlt|Hge]; simpl in Hr.
    + destruct (region_valid (mkPmpRegion b z flags.RW)) eqn:Hv.
      * erewrite bind_Ok by exact Hr.
        specialize (IH (reqs ++ [mkPmpRegion b z flags.RW])). rewrite <- app_assoc in IH.
        apply IH. rewrite length_app. simpl. lia.
      * simpl. rewrite andb_false_r. destruct Hr as [msg Hr]. exists msg. by erewrite bind_Panic by exact Hr.
    + rewrite length_app, (proj2 (Nat.leb_gt _ _)) by (simpl; lia). simpl.
      destruct Hr as [msg Hr]. exists msg. by erewrite bind_Panic by exact Hr.
Qed.

(** The chain of [spawn], on every request. *)
Lemma user_pmp_run code_base code_size stack_bottom mmio (s : St) :
  code_size < 2 ^ 64 → Forall (λ bs, bs.2 < 2 ^ 64) mmio →
  let reqs := user_requests code_base code_size stack_bottom mmio in
  if requests_ok reqs
  then user_pmp code_base code_size stack_bottom mmio s = Ok (mkPmpConfig (laid_out reqs)) s
  else ∃ msg, user_pmp code_base code_size stack_bottom mmio s = Panic msg s.
Proof.
  intros Hcs Hm reqs. set (code := mkPmpRegion code_base code_size flags.RX).
  set (stack := mkPmpRegion stack_bottom TASK_STACK_SIZE flags.RW).
  pose proof (b_region_run [] code s Hcs) as H1.
  pose proof (b_region_run [code] stack s ltac:(done)) as H2.
  pose proof (mmio_loop_run mmio [code; stack] s Hm ltac:(simpl; lia)) as H3.
  unfold requests_ok, reqs, user_requests. fold code stack. cbn [forallb].
  unfold user_pmp, code_region, stack_region. change builder with (filled []).
  destruct (region_valid code); cbn [length Nat.ltb Nat.leb andb app] in *; cycle 1.
  { rewrite andb_false_r. destruct H1 as [msg H1]. exists msg. by erewrite bind_Panic by exact H1. }
  erewrite bind_Ok by exact H1. destruct (region_valid stack); cbn [andb]; cycle 1.
  { rewrite andb_false_r. destruct H2 as [msg H2]. exists msg. by erewrite bind_Panic by exact H2. }
  erewrite bind_Ok by exact H2. destruct (_ && _).
  - by erewrite bind_Ok by exact H3.
  - destruct H3 as [msg H3]. exists msg. by erewrite bind_Panic by exact H3.
Qed.
End regions.

(** Within the physical address space. *)
Definition in_range (r : PmpRegion) : Prop := 0 ≤ base r ∧ 0 ≤ size r ∧ base r + size r ≤ 2 ^ 56.

Lemma length_laid_out reqs : (length reqs ≤ 12)%nat → length (laid_out reqs) = PMP_COUNT.
Proof.
  intros Hl. unfold laid_out, filled, b_regions. rewrite !length_app, !length_replicate. unfold PMP_COUNT. lia.
Qed.

Lemma region_at_laid_out reqs i :
  region_at (laid_out reqs) (4 + i) = default no_region (reqs !! i).
Proof.
  unfold region_at, laid_out, filled, b_regions. rewrite lookup_app_r by (rewrite length_replicate; lia).
  rewrite length_replicate. replace (4 + i - 4)%nat with i by lia.
  destruct (decide (i < length reqs)%nat) as [Hi|Hi].
  - rewrite lookup_app_l by done. by destruct (lookup_lt_is_Some_2 _ _ Hi) as [r ->].
  - rewrite lookup_app_r, (lookup_ge_None_2 reqs) by lia. simpl.
    destruct (replicate _ _ !! _) as [r|] eqn:Hr; [|done]. by apply lookup_replicate in Hr as [-> _].
Qed.

Lemma laid_out_ok reqs : requests_ok reqs = true →
  Forall (λ r, in_range r ∧ 0 ≤ rflags r < 8) reqs → regions_ok (laid_out reqs).
Proof.
  unfold requests_ok. rewrite andb_true_iff, Nat.leb_le, forallb_forall. intros [Hl Hv] Hr i Hi.
  replace i with (4 + (i - 4))%nat by lia. rewrite region_at_laid_out.
  destruct (reqs !! (i - 4)%nat) as [r|] eqn:Hlk; [right|by left]. simpl.
  rewrite Forall_lookup in Hr. destruct (Hr _ _ Hlk) as [(? & ? & ?) ?].
  apply region_valid_ok; try done. apply Hv. apply list_elem_of_In. by eapply list_elem_of_lookup_2.
Qed.

(** ** Spawning *)

(** The address a task stack would get. *)
Definition stack_at (a : BumpAllocator) : Z := round_up (next a) TASK_STACK_ALIGN.

Definition spec_requests (self : TaskSpec) (stack_bottom : Z) : list PmpRegion :=
  match mode self with
  | MMode => []
  | UMode code_base code_size mmio => user_requests code_base code_size stack_bottom mmio
  end.

Definition spec_in_range (self : TaskSpec) : Prop :=
  match mode self with
  | MMode => True
  | UMode code_base code_size mmio =>
    in_range (mkPmpRegion code_base code_size 0) ∧ Forall (λ bs, in_range (mkPmpRegion bs.1 bs.2 0)) mmio
  end.

(** The task [spawn] registers. *)
Definition spawned (self : TaskSpec) (i : nat) (stack_bottom : Z) : Task :=
  match mode self with
  | MMode => mmode_task i (entry self) (stack_bottom + TASK_STACK_SIZE)
  | UMode _ _ _ => user_task i (entry self) (stack_bottom + TASK_STACK_SIZE)
      (laid_out (spec_requests self stack_bottom))
  end.

Section spawn_proofs.
Context `{E : Env}.

Lemma alloc_task_stack_run k :
  bump_wf (k_alloc k) →
  let p := stack_at (k_alloc k) in
  alloc_task_stack k =
    if heap_end (k_alloc k) <? p + TASK_STACK_SIZE then Panic "allocating stack" k
    else Ok (p, p + TASK_STACK_SIZE)
      (set_alloc (mkBump (heap_start (k_alloc k)) (heap_end (k_alloc k)) (p + TASK_STACK_SIZE)) k).
Proof.
  intros Hwf p. unfold alloc_task_stack. change (from_size_align _ _) with (Some (mkLayout 8192 8192)).
  assert (layout_ok (mkLayout 8192 8192)) as Hl
    by (by apply (from_size_align_ok 8192 8192 (mkLayout 8192 8192))).
  pose proof (alloc_spec _ _ Hl Hwf) as Ha. cbn [l_align l_size] in Ha. cbn zeta in Ha.
  change (round_up (next (k_alloc k)) 8192) with p in Ha. unfold TASK_STACK_SIZE.
  destruct (round_up_spec (next (k_alloc k)) 8192) as [Hp _]; [lia|].
  change (round_up (next (k_alloc k)) 8192) with p in Hp. destruct Hwf as [? ? ?].
  destruct (Z.ltb_spec (heap_end (k_alloc k)) (p + 8192)).
  - erewrite bind_Ok; [|unfold on_alloc; by rewrite Ha]. by destruct k.
  - erewrite bind_Ok; [|unfold on_alloc; by rewrite Ha].
    rewrite (proj2 (Z.eqb_neq p 0)) by lia. unfold add_u64. cbn [l_size].
    rewrite checked_ok by (split; lia). done.
Qed.

Lemma spec_requests_range self p :
  spec_in_range self → 0 ≤ p → p + TASK_STACK_SIZE ≤ 2 ^ 56 →
  Forall (λ r, in_range r ∧ 0 ≤ rflags r < 8) (spec_requests self p).
Proof.
  unfold spec_in_range, spec_requests. intros Hr Hp Hp'. destruct (mode self) as [|cb cs mmio]; [done|].
  destruct Hr as [Hc Hm]. constructor; [by split|]. constructor; [split; [|done]; by unfold in_range|].
  apply Forall_fmap. eapply Forall_impl; [done|]. intros bs Hb. by split.
Qed.

Lemma spawned_wf self i p :
  spec_in_range self → 0 ≤ p → p + TASK_STACK_SIZE ≤ 2 ^ 56 → requests_ok (spec_requests self p) = true →
  task_wf i (spawned self i p) ∧ state (spawned self i p) = Created.
Proof.
  intros Hr Hp Hp' Hok. pose proof (spec_requests_range self p Hr Hp Hp') as Hrr.
  unfold spawned. destruct (mode self); split; try done; [apply mmode_task_wf|].
  by apply user_task_wf, laid_out_ok.
Qed.

(** Registration, once the stack is allocated. *)
Lemma spawn_register self k p a :
  sched_wf (k_sched k) → 0 ≤ p → p + TASK_STACK_SIZE ≤ 2 ^ 56 → spec_in_range self →
  alloc_task_stack k = Ok (p, p + TASK_STACK_SIZE) (set_alloc a k) →
  if requests_ok (spec_requests self p) then
    match free_slot (k_sched k) with
    | Some i => spawn self k = Ok (mkTaskId (Z.of_nat i))
        (mkKernel (k_hw k) a (added i (spawned self i p) (k_sched k)) (k_ticks k))
    | None => ∃ k', spawn self k = Panic "task table full" k'
    end
  else ∃ msg k', spawn self k = Panic msg k'.
Proof.
  intros Hwf Hp Hp' Hr Ha. unfold spawn, spawned, spec_requests, spec_in_range in *.
  erewrite bind_Ok by exact Ha. cbn beta iota.
  assert (TASK_STACK_SIZE ≤ p + TASK_STACK_SIZE < 2 ^ 64) as Htop by lia.
  destruct (mode self) as [|cb cs mmio].
  - simpl. pose proof (create_task_mmode_run (entry self) (p + TASK_STACK_SIZE) (set_alloc a k) Hwf Htop) as Hc.
    cbn [k_sched set_alloc] in Hc. by destruct (free_slot (k_sched k)).
  - destruct Hr as [(Hb & Hs & Hsz) Hm]. simpl in Hb, Hs, Hsz.
    assert (Forall (λ bs : Z * Z, bs.2 < 2 ^ 64) mmio) as Hm'.
    { eapply Forall_impl; [done|]. intros bs (? & ? & ?). simpl in *. lia. }
    pose proof (user_pmp_run cb cs p mmio (set_alloc a k) ltac:(lia) Hm') as Hu. cbn zeta in Hu.
    destruct (requests_ok (user_requests cb cs p mmio)) eqn:Hok.
    + erewrite bind_Ok by exact Hu. cbn [regions].
      apply andb_true_iff in Hok as [Hlen%Nat.leb_le _].
      pose proof (create_task_run (entry self) (p + TASK_STACK_SIZE) _ (set_alloc a k) Hwf Htop
        (length_laid_out _ Hlen)) as Hc.
      cbn [k_sched set_alloc] in Hc. by destruct (free_slot (k_sched k)).
    + destruct Hu as [msg Hu]. exists msg. eexists. by erewrite bind_Panic by exact Hu.
Qed.

Lemma stack_at_spec a : bump_wf a → stack_at a + TASK_STACK_SIZE ≤ heap_end a →
  heap_start a ≤ stack_at a ∧ next a ≤ stack_at a ∧ stack_at a mod TASK_STACK_SIZE = 0 ∧
  bump_wf (mkBump (heap_start a) (heap_end a) (stack_at a + TASK_STACK_SIZE)).
Proof.
  intros [? ? ?] Hle. destruct (round_up_spec (next a) TASK_STACK_ALIGN) as [Hp Hm]; [done|].
  fold (stack_at a) in Hp, Hm. split; [lia|]. split; [lia|]. split; [exact Hm|].
  constructor; simpl; unfold TASK_STACK_SIZE in *; lia.
Qed.

(** Success: room on the heap, valid regions, a free slot. *)
Lemma spawn_success self k i :
  let a := k_alloc k in
  let p := stack_at a in
  sched_wf (k_sched k) → bump_wf a → heap_end a ≤ 2 ^ 56 → spec_in_range self →
  p + TASK_STACK_SIZE ≤ heap_end a → requests_ok (spec_requests self p) = true →
  free_slot (k_sched k) = Some i →
  let k' := mkKernel (k_hw k) (mkBump (heap_start a) (heap_end a) (p + TASK_STACK_SIZE))
              (added i (spawned self i p) (k_sched k)) (k_ticks k) in
  spawn self k = Ok (mkTaskId (Z.of_nat i)) k' ∧ sched_wf (k_sched k') ∧ bump_wf (k_alloc k').
Proof.
  intros a p Hwf Ha He Hr Hge Hok Hf k'. pose proof (alloc_task_stack_run k Ha) as Hs.
  fold a p in Hs. cbn zeta in Hs. rewrite (proj2 (Z.ltb_ge _ _) Hge) in Hs.
  destruct (stack_at_spec a Ha Hge) as (Hp & _ & _ & Ha'). fold p in Hp, Ha'.
  assert (0 ≤ p) as Hp0 by (pose proof (bw_start a Ha); lia).
  pose proof (spawn_register self k p _ Hwf Hp0 ltac:(lia) Hr Hs) as Hreg. rewrite Hok, Hf in Hreg.
  destruct (free_slot_Some _ _ Hf) as [Hi Hnone].
  destruct (spawned_wf self i p Hr Hp0 ltac:(lia) Hok) as [Htw Hst].
  split; [exact Hreg|]. split; [by apply added_wf|exact Ha'].
Qed.
End spawn_proofs.

(** ** Properties *)

(** C29: the regions of a user task.  [spawn]'s builder chain accepts exactly
    the requests that are at most twelve and each a power-of-two size of at
    least 8 with an aligned base, and panics on all others.  When it accepts,
    entries 0-3 stay empty, the code is entry 4 (read-execute), the stack
    entry 5 and the devices the next ones (read-write), the rest is empty; no
    region is both writable and executable, and none is locked. *)
Theorem user_pmp_correct `{E : Env} code_base code_size stack_bottom mmio k :
  code_size < 2 ^ 64 → Forall (λ bs, bs.2 < 2 ^ 64) mmio →
  let reqs := user_requests code_base code_size stack_bottom mmio in
  if requests_ok reqs then
    ∃ rs, user_pmp code_base code_size stack_bottom mmio k = Ok (mkPmpConfig rs) (k : Kernel) ∧
      length rs = PMP_COUNT ∧ (∀ i, (i < 4)%nat → region_at rs i = no_region) ∧
      (∀ i, region_at rs (4 + i) = default no_region (reqs !! i)) ∧
      Forall (λ r, wx_exclusive r = true ∧ Z.testbit (rflags r) 7 = false) rs
  else ∃ msg, user_pmp code_base code_size stack_bottom mmio k = Panic msg k.
Proof.
  intros Hc Hm reqs. pose proof (user_pmp_run code_base code_size stack_bottom mmio k Hc Hm) as Hu.
  fold reqs in Hu. cbn zeta in Hu. destruct (requests_ok reqs) eqn:Hok; [|done].
  exists (laid_out reqs). split; [done|]. apply andb_true_iff in Hok as [Hlen%Nat.leb_le _].
  split; [by apply length_laid_out|]. split; [|split; [apply region_at_laid_out|]].
  - intros i Hi. do 4 (destruct i as [|i]; [done|]). lia.
  - unfold laid_out, filled, b_regions. rewrite !Forall_app. split; [|split]; try by apply Forall_replicate.
    unfold reqs, user_requests. constructor; [done|]. constructor; [done|]. by apply Forall_fmap, Forall_true.
Qed.

Lemma user_pmp_correct_witness :
  ∃ rs, user_pmp (E := quiet_board true) 0x80004000 0x1000 0x8001A000 [(0x10000000, 0x1000)] sample.kernel
      = Ok (mkPmpConfig rs) sample.kernel ∧
    length rs = PMP_COUNT ∧ (∀ i, (i < 4)%nat → region_at rs i = no_region) ∧
    (∀ i, region_at rs (4 + i) =
       default no_region (user_requests 0x80004000 0x1000 0x8001A000 [(0x10000000, 0x1000)] !! i)) ∧
    Forall (λ r, wx_exclusive r = true ∧ Z.testbit (rflags r) 7 = false) rs.
Proof.
  apply (user_pmp_correct (E := quiet_board true) 0x80004000 0x1000 0x8001A000 [(0x10000000, 0x1000)] sample.kernel);
    [reflexivity|by repeat constructor].
Defined.

(** C28: spawning, on every branch.  With room on the heap, valid regions and a
    free slot, [spawn] returns the number of that slot; the task has a fresh
    stack, aligned to its size, above everything allocated before and inside
    the heap, and the kernel stays well-formed; the only other changes are the
    bump pointer and the task slot.  Otherwise it panics: with
    [allocating stack] when the heap is exhausted, with the builder's message on
    an invalid region, with [task table full] when there is no slot. *)
Theorem spawn_correct `{E : Env} self k :
  sched_wf (k_sched k) → bump_wf (k_alloc k) → heap_end (k_alloc k) ≤ 2 ^ 56 → spec_in_range self →
  let a := k_alloc k in
  let p := stack_at a in
  if heap_end a <? p + TASK_STACK_SIZE then spawn self k = Panic "allocating stack" k
  else if requests_ok (spec_requests self p) then
    match free_slot (k_sched k) with
    | Some i =>
      let k' := mkKernel (k_hw k) (mkBump (heap_start a) (heap_end a) (p + TASK_STACK_SIZE))
                  (added i (spawned self i p) (k_sched k)) (k_ticks k) in
      spawn self k = Ok (mkTaskId (Z.of_nat i)) k' ∧ sched_wf (k_sched k') ∧ bump_wf (k_alloc k') ∧
      next a ≤ p ∧ p mod TASK_STACK_SIZE = 0
    | None => ∃ k', spawn self k = Panic "task table full" k'
    end
  else ∃ msg k', spawn self k = Panic msg k'.
Proof.
  intros Hwf Ha He Hr a p. pose proof (alloc_task_stack_run k Ha) as Hs. fold a p in Hs. cbn zeta in Hs.
  destruct (Z.ltb_spec (heap_end a) (p + TASK_STACK_SIZE)) as [Hlt|Hge].
  { unfold spawn. by erewrite bind_Panic by exact Hs. }
  destruct (stack_at_spec a Ha Hge) as (Hp & Hn & Hm & _). fold p in Hp, Hn, Hm.
  destruct (requests_ok (spec_requests self p)) eqn:Hok.
  - destruct (free_slot (k_sched k)) as [i|] eqn:Hf.
    + destruct (spawn_success self k i Hwf Ha He Hr Hge Hok Hf) as (Hrun & Hwf' & Ha').
      cbn zeta. split; [exact Hrun|]. split; [exact Hwf'|]. split; [exact Ha'|]. by split.
    + pose proof (spawn_register self k p _ Hwf ltac:(pose proof (bw_start a Ha); lia) ltac:(fold a in He; lia) Hr Hs) as Hreg.
      by rewrite Hok, Hf in Hreg.
  - pose proof (spawn_register self k p _ Hwf ltac:(pose proof (bw_start a Ha); lia) ltac:(fold a in He; lia) Hr Hs) as Hreg.
    by rewrite Hok in Hreg.
Qed.

Lemma spawn_correct_witness :
  let k := set_alloc (mkBump 0x8001A000 0x8101A000 0x8001A003) sample.kernel in
  let k' := mkKernel (k_hw k) (mkBump 0x8001A000 0x8101A000 0x8001E000)
    (added 3 (spawned (user 0x80004040 0x80004000 0x1000 []) 3 0x8001C000) (k_sched k)) (k_ticks k) in
  spawn (E := quiet_board true) (user 0x80004040 0x80004000 0x1000 []) k = Ok (mkTaskId (Z.of_nat 3)) k' ∧
    sched_wf (k_sched k') ∧ bump_wf (k_alloc k') ∧ 0x8001A003 ≤ 0x8001C000 ∧
    0x8001C000 mod TASK_STACK_SIZE = 0.
Proof.
  intros k k'.
  assert (free_slot (k_sched k) = Some 3%nat) as Hf by (vm_compute; reflexivity).
  assert (stack_at (k_alloc k) = 0x8001C000) as Hs by (vm_compute; reflexivity).
  assert (spec_in_range (user 0x80004040 0x80004000 0x1000 [])) as Hr
    by (split; [|done]; unfold in_range; simpl; lia).
  assert (bump_wf (k_alloc k)) as Ha by (constructor; vm_compute; intuition congruence).
  pose proof (spawn_correct (E := quiet_board true) (user 0x80004040 0x80004000 0x1000 []) k
    sample.sched_ok Ha ltac:(vm_compute; congruence) Hr) as H.
  cbn zeta in H. rewrite Hf, Hs in H. exact H.
Defined.
