(* ===== verification/Trap.v ===== *)
(** Trap handling: [crates/kernel/src/trap.rs], the Rust part.

    [trap_handler] is called by the assembly of [trap_vector] with the frame it
    saved.  The panics of fatal exceptions and of unknown causes are values of
    the model; the messages are those of the source. *)

From S2P Require Import Prelude Config Machine Serial PmpHw Linker Pmp PmpAccess Sync Timer.
From S2P Require Import Registers Policy Task Kernel Scheduler SchedulerProps.

Local Open Scope Z_scope.

#[local] Arguments csr_get : simpl never.
#[local] Arguments csr_put : simpl never.

(** ** Causes *)

Inductive Exception :=
| InstructionMisaligned | InstructionAccessFault | IllegalInstruction | Breakpoint
| LoadMisaligned | LoadAccessFault | StoreMisaligned | StoreAccessFault
| EcallFromU | EcallFromS | EcallFromM
| InstructionPageFault | LoadPageFault | StorePageFault.

Definition exception_code (e : Exception) : Z :=
  match e with
  | InstructionMisaligned => 0 | InstructionAccessFault => 1 | IllegalInstruction => 2
  | Breakpoint => 3 | LoadMisaligned => 4 | LoadAccessFault => 5 | StoreMisaligned => 6
  | StoreAccessFault => 7 | EcallFromU => 8 | EcallFromS => 9 | EcallFromM => 11
  | InstructionPageFault => 12 | LoadPageFault => 13 | StorePageFault => 15
  end.

Inductive Interrupt :=
| SupervisorSoftware | MachineSoftware | SupervisorTimer | MachineTimer
| SupervisorExternal | MachineExternal.

Definition interrupt_code (i : Interrupt) : Z :=
  match i with
  | SupervisorSoftware => 1 | MachineSoftware => 3 | SupervisorTimer => 5
  | MachineTimer => 7 | SupervisorExternal => 9 | MachineExternal => 11
  end.

(** ** Operations *)

Section ops.
Context `{E : Env} `{B : SerialBackend}.

(** [trap::init]. *)
Definition trap_init `{I : Image} : M Kernel unit :=
  on_hw (mtvec.write trap_vector_addr);;
  on_hw (println [Lit "[trap] mtvec initialized"]).

Definition read_mcause : M Kernel Z := on_hw mcause.read.
Definition read_mepc : M Kernel Z := on_hw mepc.read.
Definition write_mepc (v : Z) : M Kernel unit := on_hw (mepc.write v).
Definition read_mtval : M Kernel Z := on_hw mtval.read.
Definition read_mpp : M Kernel Z := on_hw mstatus.read_mpp.

Definition panic_exception {A} (name : string) (mepc mtval : Z) : M Kernel A :=
  on_hw (println [Lit "[trap] FATAL: "; Lit name; Lit (nl +:+ "  mepc:  "); Hex mepc;
                  Lit (nl +:+ "  mtval: "); Hex mtval]);;
  panic name.

Definition handle_interrupt (cause : Z) (frame : TrapFrame.t) : M Kernel TrapFrame.t :=
  if cause =? 7 then
    increment_tick;;
    ticks ← get_tick_count;
    (if ticks mod 100 =? 0 then on_hw (println [Lit "[timer] tick "; Dec ticks]) else mret tt);;
    on_hw schedule_next_tick;;
    schedule frame
  else if cause =? 11 then
    on_hw (println [Lit "[trap] External interrupt"]);; mret frame
  else if cause =? 3 then
    on_hw (println [Lit "[trap] Software interrupt"]);; mret frame
  else
    on_hw (println [Lit "[trap] Unknown interrupt: "; Dec cause]);; mret frame.

Definition handle_access_fault (name : string) (mepc mtval : Z) (frame : TrapFrame.t) : M Kernel TrapFrame.t :=
  mpp ← read_mpp;
  if mpp =? 0 then
    on_hw (println [Lit "[trap] U-mode access fault: "; Lit name; Lit " at mepc="; Hex mepc;
                    Lit " addr="; Hex mtval]);;
    kill_current frame
  else panic_exception name mepc mtval.

Definition handle_syscall (frame : TrapFrame.t) : M Kernel TrapFrame.t :=
  if TrapFrame.a7 frame =? SYS_GETC then
    c ← on_hw s_try_getc;
    mret (TrapFrame.set_a0 (default 0xFF c) frame)
  else if TrapFrame.a7 frame =? SYS_PUTC then
    on_hw (s_putc (TrapFrame.a0 frame mod 2 ^ 8));; mret frame
  else if TrapFrame.a7 frame =? SYS_LEGACY_POC then
    on_hw (println [Lit "[trap] U-mode POC ecall (legacy)"]);; mret frame
  else
    on_hw (println [Lit "[syscall] unknown: "; Dec (TrapFrame.a7 frame)]);; mret frame.

(** [write_mepc(mepc + 4)]. *)
Definition skip_instruction (mepc : Z) : M Kernel unit :=
  next ← add_u64 mepc 4; write_mepc next.

Definition handle_exception (cause mepc mtval : Z) (frame : TrapFrame.t) : M Kernel TrapFrame.t :=
  match cause with
  | 0 => panic_exception "Instruction address misaligned" mepc mtval
  | 1 => handle_access_fault "Instruction access fault" mepc mtval frame
  | 2 => panic_exception "Illegal instruction" mepc mtval
  | 3 => on_hw (println [Lit "[trap] Breakpoint at "; Hex mepc]);; skip_instruction mepc;; mret frame
  | 4 => panic_exception "Load address misaligned" mepc mtval
  | 5 => handle_access_fault "Load access fault" mepc mtval frame
  | 6 => panic_exception "Store address misaligned" mepc mtval
  | 7 => handle_access_fault "Store access fault" mepc mtval frame
  | 8 => frame ← handle_syscall frame; skip_instruction mepc;; mret frame
  | 9 => on_hw (println [Lit "[trap] Ecall from S-mode"]);; skip_instruction mepc;; mret frame
  | 11 => on_hw (println [Lit "[trap] Ecall from M-mode"]);; skip_instruction mepc;; mret frame
  | 12 => panic_exception "Instruction page fault" mepc mtval
  | 13 => panic_exception "Load page fault" mepc mtval
  | 15 => panic_exception "Store page fault" mepc mtval
  | _ => on_hw (println [Lit "[trap] Unknown exception: "; Dec cause; Lit " at "; Hex mepc]);;
         panic "Unhandled exception"
  end.

Definition trap_handler (frame : TrapFrame.t) : M Kernel TrapFrame.t :=
  mcause ← read_mcause;
  mepc ← read_mepc;
  mtval ← read_mtval;
  let is_interrupt := Z.land (Z.shiftr mcause 63) 1 =? 1 in
  let cause_code := Z.land mcause 0x7FFFFFFFFFFFFFFF in
  if (is_interrupt : bool) then handle_interrupt cause_code frame
  else handle_exception cause_code mepc mtval frame.
End ops.

(** ** Lemmas *)

(** The clock is more than one tick away from the end of its range. *)
Class ClockOk (E : Env) : Prop :=
  clock_ok : ∀ n, mmio_in n (CLINT_BASE + MTIME_OFFSET) mod 2 ^ 64 + 100000 < 2 ^ 64.

(** An outcome: either a normal return in [Q], or a panic when [fatal]. *)
Definition outcome {A} (fatal : bool) (Q : A → Kernel → Prop) (r : Res Kernel A) : Prop :=
  match r with
  | Ok a k' => fatal = false ∧ Q a k'
  | Panic _ _ => fatal = true
  | Spin _ => False
  end.

Lemma mcause_split c : u64 c →
  (Z.land (Z.shiftr c 63) 1 =? 1) = (2 ^ 63 <=? c) ∧
  Z.land c 0x7FFFFFFFFFFFFFFF = if 2 ^ 63 <=? c then c - 2 ^ 63 else c.
Proof.
  intros [H0 H]. change 0x7FFFFFFFFFFFFFFF with (Z.ones 63). rewrite Z.land_ones by lia.
  change 1 with (Z.ones 1) at 1. rewrite Z.land_ones, Z.shiftr_div_pow2 by lia.
  pose proof (Z.div_mod c (2 ^ 63) ltac:(lia)) as Hd. pose proof (Z.mod_pos_bound c (2 ^ 63) ltac:(lia)).
  destruct (Z.leb_spec (2 ^ 63) c) as [Hle|Hlt].
  - assert (c / 2 ^ 63 = 1) as Hq by (symmetry; apply Z.div_unique with (r := c - 2 ^ 63); lia).
    rewrite Hq in *. split; [done|lia].
  - rewrite Z.div_small by lia. split; [done|]. apply Z.mod_small. lia.
Qed.

Section lemmas.
Context `{E : Env} `{B : SerialBackend} `{L : !SerialLaws B} `{I : Image}.

Lemma prints_hw_ready out h h' : hw_ready h → prints out h h' → hw_ready h'.
Proof. intros [Hp _] Hpr. split; [by rewrite (prints_pmp _ _ _ Hpr)|apply Hpr]. Qed.

Lemma on_hw_println ps k : hw_ready (k_hw k) →
  ∃ h', on_hw (println ps) k = Ok tt (hw_upd h' k) ∧
    prints (crlf (render_all ps ++ [10])) (k_hw k) h' ∧ hw_ready h'.
Proof.
  intros Hr. destruct (wp_elim _ _ _ (println_prints ps (k_hw k) (hr_serial _ Hr))) as ([] & h' & Hrun & Hp).
  exists h'. split; [by apply on_hw_Ok|]. split; [done|]. by eapply prints_hw_ready.
Qed.

(** Changing a CSR keeps the hardware ready. *)
Lemma hw_ready_csrs f h : hw_ready h → hw_ready (hw_set_csrs f h).
Proof. intros [Hp Hr]. split; [done|]. by apply (ready_frame h). Qed.

Lemma trap_handler_run frame k : u64 (csr_get Mcause (csrs (k_hw k))) →
  let mcause := csr_get Mcause (csrs (k_hw k)) in
  trap_handler frame k =
    if 2 ^ 63 <=? mcause then handle_interrupt (mcause - 2 ^ 63) frame k
    else handle_exception mcause (csr_get Mepc (csrs (k_hw k))) (csr_get Mtval (csrs (k_hw k))) frame k.
Proof.
  intros Hc mcause. unfold trap_handler. do 3 (erewrite bind_Ok by apply on_hw_csr_read). fold mcause.
  destruct (mcause_split mcause Hc) as [-> ->]. cbn zeta. by destruct (2 ^ 63 <=? mcause).
Qed.

Lemma panic_exception_run {A} name mepc mtval k : hw_ready (k_hw k) →
  ∃ k', panic_exception (A := A) name mepc mtval k = Panic name k'.
Proof.
  intros Hr. unfold panic_exception. destruct (on_hw_println
    [Lit "[trap] FATAL: "; Lit name; Lit (nl +:+ "  mepc:  "); Hex mepc; Lit (nl +:+ "  mtval: "); Hex mtval]
    k Hr) as (h' & Hrun & _). erewrite bind_Ok by exact Hrun. by eexists.
Qed.

Lemma skip_instruction_run mepc k : 0 ≤ mepc < 2 ^ 64 - 4 →
  skip_instruction mepc k =
    Ok tt (hw_upd (hw_set_csrs (csr_put Mepc (mepc + 4) (csrs (k_hw k))) (k_hw k)) k).
Proof.
  intros Hm. unfold skip_instruction, add_u64. rewrite checked_ok by (split; lia). done.
Qed.

(** A message, then the instruction is skipped. *)
Lemma print_skip_run ps mepc (frame : TrapFrame.t) (k : Kernel) : hw_ready (k_hw k) → 0 ≤ mepc < 2 ^ 64 - 4 →
  ∃ h1, (on_hw (println ps);; skip_instruction mepc;; mret frame) k =
      Ok frame (hw_upd (hw_set_csrs (csr_put Mepc (mepc + 4) (csrs (k_hw k))) h1) k) ∧
    prints (crlf (render_all ps ++ [10])) (k_hw k) h1.
Proof.
  intros Hr Hm. destruct (on_hw_println ps k Hr) as (h1 & Hrun & Hp & _). exists h1. split; [|done].
  erewrite bind_Ok by exact Hrun. erewrite bind_Ok by (by apply skip_instruction_run).
  simpl. by rewrite (prints_csrs _ _ _ Hp).
Qed.

(** [mstatus.MPP]. *)
Definition mpp_of (mstatus : Z) : Z := Z.land (Z.shiftr mstatus 11) 3.

Lemma read_mpp_run k : read_mpp k = Ok (mpp_of (csr_get Mstatus (csrs (k_hw k)))) k.
Proof. by destruct k. Qed.

Lemma off_uart_cons e t : is_uart e = false → off_uart (e :: t) = e :: off_uart t.
Proof. intros He. unfold off_uart. rewrite filter_cons. case_decide; [done|congruence]. Qed.

Lemma on_uart_cons e t : is_uart e = false → on_uart (e :: t) = on_uart t.
Proof. intros He. unfold on_uart. rewrite filter_cons. case_decide; [congruence|done]. Qed.

(** The next deadline: one read of the clock, one write of the comparator. *)
Definition armed (h h' : Hw) : Prop :=
  ∃ now, off_uart (trace h') = Wr64 (CLINT_BASE + MTIMECMP_OFFSET) (now + 100000)
           :: Rd64 (CLINT_BASE + MTIME_OFFSET) now :: off_uart (trace h).

Context `{CK : !ClockOk E}.

Lemma next_tick_run k : hw_ready (k_hw k) →
  ∃ h', on_hw schedule_next_tick k = Ok tt (hw_upd h' k) ∧ csrs h' = csrs (k_hw k) ∧ pmp h' = pmp (k_hw k) ∧
    armed (k_hw k) h' ∧ hw_ready h' ∧ s_out h' = s_out (k_hw k).
Proof.
  intros [Hp Hr]. eexists. split.
  { apply on_hw_Ok. unfold schedule_next_tick. apply set_timer_us_run; [done|done|]. apply clock_ok. }
  split; [done|]. split; [done|]. split; [|split; [split; [done|]|]].
  - eexists. cbn [trace]. rewrite !off_uart_cons by done. done.
  - apply (ready_frame (k_hw k)); [|done]. cbn [trace]. by rewrite !on_uart_cons.
  - apply out_frame. cbn [trace]. by rewrite !on_uart_cons.
Qed.

(** The timer interrupt: [schedule] runs in the kernel with the tick counted and
    the next deadline armed. *)
Lemma tick_spec frame k : kernel_ok k →
  ∃ frame' k' h1, handle_interrupt 7 frame k = Ok frame' k' ∧ kernel_ok k' ∧
    csrs h1 = csrs (k_hw k) ∧ pmp h1 = pmp (k_hw k) ∧ armed (k_hw k) h1 ∧
    scheduled frame (mkKernel h1 (k_alloc k) (k_sched k) ((k_ticks k + 1) mod 2 ^ 64)) frame' k'.
Proof.
  intros [Hwf Hhw]. unfold handle_interrupt. cbn [Z.eqb Pos.eqb].
  erewrite bind_Ok by reflexivity. erewrite bind_Ok by reflexivity. unfold counter_get. cbn [k_ticks].
  set (n := (k_ticks k + 1) mod 2 ^ 64). set (k1 := mkKernel _ _ _ n).
  assert (∃ h1, (if n mod 100 =? 0 then on_hw (println [Lit "[timer] tick "; Dec n]) else mret tt) k1
      = Ok tt (hw_upd h1 k1) ∧ hw_ready h1 ∧ undisturbed (k_hw k) h1) as (h1 & Hrun1 & Hr1 & [Hc1 Hp1 Ht1]).
  { destruct (n mod 100 =? 0).
    - destruct (on_hw_println [Lit "[timer] tick "; Dec n] k1 Hhw) as (h' & Hrun & Hp & Hr).
      exists h'. split_all. by eapply prints_undisturbed.
    - by exists (k_hw k). }
  erewrite bind_Ok by exact Hrun1.
  destruct (next_tick_run (mkKernel h1 (k_alloc k) (k_sched k) n) Hr1)
    as (h2 & Hrun2 & Hc2 & Hp2 & (now & Ha) & Hr2 & _).
  erewrite bind_Ok by exact Hrun2. simpl in Hc2, Hp2, Ha. rewrite Ht1 in Ha.
  destruct (schedule_ok frame (mkKernel h2 (k_alloc k) (k_sched k) n)) as (frame' & k' & Hrun3 & Hs & Hk'); [by split|].
  exists frame', k', h2. split; [done|]. split; [done|]. split; [congruence|].
  split; [congruence|]. split; [by exists now|done].
Qed.

(** System calls change the frame's [a0] at most, and only the console. *)
Lemma syscall_spec frame k : kernel_ok k →
  ∃ v h1 out, handle_syscall frame k = Ok (TrapFrame.set_a0 v frame) (hw_upd h1 k) ∧
    prints out (k_hw k) h1 ∧ hw_ready h1 ∧
    (TrapFrame.a7 frame = SYS_GETC → out = [] ∧ v = default 0xFF (s_rx (k_hw k)) ∧ u8 v) ∧
    (TrapFrame.a7 frame ≠ SYS_GETC → v = TrapFrame.a0 frame) ∧
    (TrapFrame.a7 frame = SYS_PUTC → out = [TrapFrame.a0 frame mod 2 ^ 8]).
Proof.
  intros [Hwf Hhw]. pose proof (hr_serial _ Hhw) as Hr. unfold handle_syscall.
  assert (TrapFrame.set_a0 (TrapFrame.a0 frame) frame = frame) as Hid by (by destruct frame).
  destruct (Z.eqb_spec (TrapFrame.a7 frame) SYS_GETC) as [Ha|Ha].
  { destruct (wp_elim _ _ _ (try_getc_law (k_hw k) Hr)) as (c & h1 & Hrun & Hp & Hrx & Hc).
    exists (default 0xFF c), h1, []. erewrite bind_Ok by (by apply on_hw_Ok).
    split; [done|]. split; [done|]. split; [by eapply prints_hw_ready|]. rewrite Ha.
    split; [intros _; split; [done|]; split; [by rewrite Hrx|]|split; [done|]].
    - destruct c as [c|]; [by apply Hc|]. split; done.
    - done. }
  destruct (Z.eqb_spec (TrapFrame.a7 frame) SYS_PUTC) as [Hb|Hb].
  { destruct (wp_elim _ _ _ (putc_law (TrapFrame.a0 frame mod 2 ^ 8) (k_hw k) Hr)) as ([] & h1 & Hrun & Hp).
    exists (TrapFrame.a0 frame), h1, [TrapFrame.a0 frame mod 2 ^ 8]. rewrite Hid.
    erewrite bind_Ok by (by apply on_hw_Ok).
    split; [done|]. split; [done|]. split; [by eapply prints_hw_ready|]. by rewrite Hb. }
  assert (∀ ps, ∃ h1, (on_hw (println ps);; mret frame) k = Ok frame (hw_upd h1 k) ∧
    prints (crlf (render_all ps ++ [10])) (k_hw k) h1 ∧ hw_ready h1) as Hln.
  { intros ps. destruct (on_hw_println ps k Hhw) as (h1 & Hrun & Hp & Hr1). exists h1.
    erewrite bind_Ok by exact Hrun. done. }
  destruct (TrapFrame.a7 frame =? SYS_LEGACY_POC).
  all: edestruct Hln as (h1 & Hrun & Hp & Hr1); exists (TrapFrame.a0 frame), h1; eexists; rewrite Hid;
    split; [exact Hrun|]; split; [exact Hp|]; by split.
Qed.

(** Exceptions that end the run. *)
Definition fatal_exception (cause mpp : Z) : bool :=
  bool_decide (cause ∉ [1; 3; 5; 7; 8; 9; 11]) || bool_decide (cause ∈ [1; 5; 7] ∧ mpp ≠ 0).
End lemmas.


(** ** Outcomes of every trap *)

Section outcomes.
Context `{E : Env} `{B : SerialBackend} `{L : !SerialLaws B} `{I : Image} `{CK : !ClockOk E}.

Lemma println_return ps (frame : TrapFrame.t) k : kernel_ok k →
  outcome false (λ _ k', kernel_ok k') ((on_hw (println ps);; mret frame) k).
Proof.
  intros [Hwf Hhw]. destruct (on_hw_println ps k Hhw) as (h' & Hrun & _ & Hr).
  erewrite bind_Ok by exact Hrun. split; [done|]. by split.
Qed.

Lemma println_skip ps mepc (frame : TrapFrame.t) k : kernel_ok k → 0 ≤ mepc < 2 ^ 64 - 4 →
  outcome false (λ _ k', kernel_ok k') ((on_hw (println ps);; skip_instruction mepc;; mret frame) k).
Proof.
  intros [Hwf Hhw] Hm. destruct (print_skip_run ps mepc frame k Hhw Hm) as (h1 & -> & Hp).
  split; [done|]. split; [done|]. by eapply hw_ready_csrs, prints_hw_ready.
Qed.

Lemma panic_outcome {A} name mepc mtval (Q : A → Kernel → Prop) k : kernel_ok k →
  outcome true Q (panic_exception name mepc mtval k).
Proof.
  intros [_ Hhw]. by destruct (panic_exception_run (A := A) name mepc mtval k Hhw) as (k' & ->).
Qed.

Lemma interrupt_outcome cause frame k : kernel_ok k →
  outcome false (λ _ k', kernel_ok k') (handle_interrupt cause frame k).
Proof.
  intros Hk. destruct (Z.eqb_spec cause 7) as [->|H7].
  - by destruct (tick_spec frame k Hk) as (frame' & k' & h1 & -> & Hk' & _).
  - unfold handle_interrupt. rewrite (proj2 (Z.eqb_neq _ _) H7).
    destruct (cause =? 11); [by apply println_return|].
    destruct (cause =? 3); by apply println_return.
Qed.

Lemma access_fault_run name mepc mtval frame k : kernel_ok k →
  if mpp_of (csr_get Mstatus (csrs (k_hw k))) =? 0 then
    ∃ h1, handle_access_fault name mepc mtval frame k = kill_current frame (hw_upd h1 k) ∧
      undisturbed (k_hw k) h1 ∧ hw_ready h1
  else ∃ k', handle_access_fault name mepc mtval frame k = Panic name k'.
Proof.
  intros [Hwf Hhw]. unfold handle_access_fault. erewrite bind_Ok by apply read_mpp_run.
  destruct (_ =? 0); [|by apply panic_exception_run].
  edestruct on_hw_println as (h1 & Hrun & Hp & Hr); [done|]. exists h1.
  erewrite bind_Ok by exact Hrun. split_all. by eapply prints_undisturbed.
Qed.

Lemma access_fault_outcome name mepc mtval frame k : kernel_ok k →
  outcome (negb (mpp_of (csr_get Mstatus (csrs (k_hw k))) =? 0)) (λ _ k', kernel_ok k')
    (handle_access_fault name mepc mtval frame k).
Proof.
  intros Hk. pose proof (access_fault_run name mepc mtval frame k Hk) as Hf.
  destruct (_ =? 0); [|by destruct Hf as [k' ->]].
  destruct Hf as (h1 & -> & _ & Hr).
  destruct (kill_current_ok frame (mkKernel h1 (k_alloc k) (k_sched k) (k_ticks k)))
    as (frame' & k' & h2 & Hrun & Hk' & _); [split; [apply Hk|done]|].
  simpl. rewrite Hrun. done.
Qed.

Lemma syscall_outcome frame mepc k : kernel_ok k → 0 ≤ mepc < 2 ^ 64 - 4 →
  outcome false (λ _ k', kernel_ok k') ((frame ← handle_syscall frame; skip_instruction mepc;; mret frame) k).
Proof.
  intros Hk Hm. destruct (syscall_spec frame k Hk) as (v & h1 & out & Hrun & Hp & Hr & _).
  erewrite bind_Ok by exact Hrun. erewrite bind_Ok by (by apply skip_instruction_run).
  split; [done|]. split; [apply Hk|]. by apply hw_ready_csrs.
Qed.

(** The default arm of [handle_exception]. *)
Lemma unknown_handler cause mepc mtval frame : 0 ≤ cause →
  cause ∉ [0; 1; 2; 3; 4; 5; 6; 7; 8; 9; 11; 12; 13; 15] →
  handle_exception cause mepc mtval frame =
    (on_hw (println [Lit "[trap] Unknown exception: "; Dec cause; Lit " at "; Hex mepc]);;
     panic "Unhandled exception").
Proof.
  intros H0 Hn. unfold handle_exception. rewrite !not_elem_of_cons in Hn.
  destruct cause as [|p|p]; [naive_solver| |lia].
  do 4 (try destruct p as [p|p|]); first [reflexivity|naive_solver].
Qed.

Lemma exception_outcome cause mepc mtval frame k :
  kernel_ok k → 0 ≤ cause → 0 ≤ mepc < 2 ^ 64 - 4 →
  outcome (fatal_exception cause (mpp_of (csr_get Mstatus (csrs (k_hw k))))) (λ _ k', kernel_ok k')
    (handle_exception cause mepc mtval frame k).
Proof.
  intros Hk H0 Hm. set (mpp := mpp_of _).
  assert (∀ c, c ∈ [1; 5; 7] → fatal_exception c mpp = negb (mpp =? 0)) as Hacc.
  { intros c Hc. unfold fatal_exception. rewrite (bool_decide_eq_false_2 (c ∉ _))
      by (rewrite !elem_of_cons in *; tauto). simpl.
    destruct (Z.eqb_spec mpp 0); simpl; [by rewrite bool_decide_eq_false_2; naive_solver|].
    by rewrite bool_decide_eq_true_2. }
  assert (∀ c, c ∈ [3; 8; 9; 11] → fatal_exception c mpp = false) as Hret.
  { intros c Hc. unfold fatal_exception. rewrite !elem_of_cons in Hc. destruct_or! Hc; subst.
    5: by apply elem_of_nil in Hc.
    all: rewrite bool_decide_eq_false_2 by by_evaluation; apply bool_decide_eq_false_2.
    all: intros [Hin _]; revert Hin; by_evaluation. }
  assert (∀ c, c ∉ [1; 3; 5; 7; 8; 9; 11] → fatal_exception c mpp = true) as Hfat.
  { intros c Hc. unfold fatal_exception. by rewrite (bool_decide_eq_true_2 (c ∉ _)). }
  destruct (decide (cause ∈ [0; 1; 2; 3; 4; 5; 6; 7; 8; 9; 11; 12; 13; 15])) as [Hin|Hnin].
  - rewrite !elem_of_cons in Hin. destruct_or! Hin; subst; try by apply elem_of_nil in Hin.
    all: unfold handle_exception.
    all: first [ rewrite Hacc by by_evaluation; by apply access_fault_outcome
               | rewrite Hret by by_evaluation; first [by apply println_skip|by apply syscall_outcome]
               | rewrite Hfat by by_evaluation; by apply panic_outcome ].
  - rewrite Hfat by (rewrite !elem_of_cons in *; tauto). rewrite unknown_handler by done.
    edestruct on_hw_println as (h1 & Hrun & _); [apply Hk|]. by erewrite bind_Ok by exact Hrun.
Qed.
End outcomes.

(** ** Properties *)

Section armed.
Context `{B : SerialBackend} `{I : Image}.

Lemma scheduled_bus frame k frame' k' : scheduled frame k frame' k' →
  off_uart (trace (k_hw k')) = off_uart (trace (k_hw k)).
Proof.
  unfold scheduled. destruct (next_of _); [|by intros [_ ->]].
  intros (t & _ & _ & Hsw & _). apply Hsw.
Qed.

Lemma scheduled_current frame k frame' k' : sched_wf (k_sched k) → scheduled frame k frame' k' →
  current (k_sched k') =
    match select_next_ready MAX_TASKS (current (k_sched k)) (runnable (k_sched k)) with
    | Some i => Some i
    | None => current (k_sched k)
    end.
Proof.
  intros Hwf. unfold scheduled. rewrite next_of_saved by done. destruct (select_next_ready _ _ _).
  - by intros (t & _ & _ & _ & -> & _).
  - intros [_ ->]. apply current_saved.
Qed.

(** Logical contexts depend on the CSRs and the task table only. *)
Lemma context_of_ext frame k1 k2 i :
  csrs (k_hw k1) = csrs (k_hw k2) → k_sched k1 = k_sched k2 → context_of frame k1 i = context_of frame k2 i.
Proof. intros Hc Hs. unfold context_of. by rewrite Hc, Hs. Qed.
End armed.

(** C13: the timer interrupt.  The handler returns; it counts the tick (modulo
    2^64), arms the next one exactly 100000 clock ticks after the time it read,
    hands the processor to the policy's choice among the runnable tasks, and
    preserves the logical context of every task, the interrupted one included. *)
Theorem timer_interrupt_correct `{E : Env} `{B : SerialBackend} `{L : !SerialLaws B} `{I : Image}
    `{CK : !ClockOk E} frame k :
  kernel_ok k → csr_get Mcause (csrs (k_hw k)) = 2 ^ 63 + interrupt_code MachineTimer →
  ∃ frame' k', trap_handler frame k = Ok frame' k' ∧ kernel_ok k' ∧
    k_ticks k' = (k_ticks k + 1) mod 2 ^ 64 ∧ armed (k_hw k) (k_hw k') ∧
    current (k_sched k') =
      match select_next_ready MAX_TASKS (current (k_sched k)) (runnable (k_sched k)) with
      | Some i => Some i
      | None => current (k_sched k)
      end ∧
    ∀ i, context_of frame' k' i = context_of frame k i.
Proof.
  intros Hk Hc. rewrite trap_handler_run by (rewrite Hc; done). rewrite Hc.
  destruct (tick_spec frame k Hk) as (frame' & k' & h1 & Hrun & Hk' & Hc1 & _ & (now & Ha) & Hs).
  set (k1 := mkKernel h1 _ _ _) in Hs. assert (sched_wf (k_sched k1)) as Hwf by apply Hk.
  exists frame', k'. split; [exact Hrun|]. split; [done|].
  destruct (scheduled_alloc _ _ _ _ Hs) as [_ Ht]. split; [done|].
  split; [exists now; by rewrite (scheduled_bus _ _ _ _ Hs)|].
  split; [by rewrite (scheduled_current _ _ _ _ Hwf Hs)|].
  intros i. rewrite (scheduled_contexts _ _ _ _ i Hwf Hs). by apply context_of_ext.
Qed.

(** C12: system calls.  An ecall from user mode returns to the instruction after
    it with every register but [a0] as it was, no CSR changed but [mepc], the
    PMP, the task table and every device but the console untouched.  GETC puts the
    byte the receiver offers, or 0xFF when there is none, into [a0] and sends
    nothing; all the others leave [a0] too; PUTC sends
    exactly the low byte of [a0]. *)
Theorem syscall_correct `{E : Env} `{B : SerialBackend} `{L : !SerialLaws B} `{I : Image}
    `{CK : !ClockOk E} frame k :
  kernel_ok k → csr_get Mcause (csrs (k_hw k)) = exception_code EcallFromU →
  0 ≤ csr_get Mepc (csrs (k_hw k)) < 2 ^ 64 - 4 →
  ∃ v k' out, trap_handler frame k = Ok (TrapFrame.set_a0 v frame) k' ∧ kernel_ok k' ∧
    k_sched k' = k_sched k ∧ k_alloc k' = k_alloc k ∧ k_ticks k' = k_ticks k ∧
    csrs (k_hw k') = csr_put Mepc (csr_get Mepc (csrs (k_hw k)) + 4) (csrs (k_hw k)) ∧
    pmp (k_hw k') = pmp (k_hw k) ∧ off_uart (trace (k_hw k')) = off_uart (trace (k_hw k)) ∧
    s_out (k_hw k') = s_out (k_hw k) ++ out ∧
    (TrapFrame.a7 frame = SYS_GETC → out = [] ∧ v = default 0xFF (s_rx (k_hw k)) ∧ u8 v) ∧
    (TrapFrame.a7 frame ≠ SYS_GETC → v = TrapFrame.a0 frame) ∧
    (TrapFrame.a7 frame = SYS_PUTC → out = [TrapFrame.a0 frame mod 2 ^ 8]).
Proof.
  intros Hk Hc Hm. rewrite trap_handler_run by (rewrite Hc; done). rewrite Hc. cbn [exception_code].
  change (2 ^ 63 <=? 8) with false. unfold handle_exception.
  destruct (syscall_spec frame k Hk) as (v & h1 & out & Hrun & Hp & Hr & Hv).
  erewrite bind_Ok by exact Hrun. erewrite bind_Ok by (by apply skip_instruction_run).
  eexists v, _, out. split; [reflexivity|]. cbn. rewrite (prints_csrs _ _ _ Hp).
  split; [split; [apply Hk|by apply hw_ready_csrs]|].
  do 3 (split; [done|]). split; [done|]. split; [apply Hp|]. split; [apply Hp|]. split; [|done].
  rewrite <- (prints_out _ _ _ Hp). by apply out_frame.
Qed.

(** The access faults, with the names the handler prints. *)
Definition fault_name (e : Exception) : option string :=
  match e with
  | InstructionAccessFault => Some "Instruction access fault"
  | LoadAccessFault => Some "Load access fault"
  | StoreAccessFault => Some "Store access fault"
  | _ => None
  end.

(** An access fault taken in user mode with task [c] current. *)
Lemma user_fault_run `{E : Env} `{B : SerialBackend} `{L : !SerialLaws B} `{I : Image} frame k e name c :
  kernel_ok k → fault_name e = Some name → csr_get Mcause (csrs (k_hw k)) = exception_code e →
  current (k_sched k) = Some c →
  if mpp_of (csr_get Mstatus (csrs (k_hw k))) =? 0 then
    ∃ frame' k' t, trap_handler frame k = Ok frame' k' ∧ kernel_ok k' ∧
      task_of (k_sched k') c = Some t ∧ state t = Dead ∧
      (∀ j, j ≠ c → runnable (k_sched k') j = runnable (k_sched k) j) ∧
      (∀ i, context_of frame' k' i = context_of frame k i) ∧
      current (k_sched k') =
        match select_next_ready MAX_TASKS (Some c) (runnable (killed (k_sched k))) with
        | Some i => Some i
        | None => Some c
        end
  else ∃ k', trap_handler frame k = Panic name k'.
Proof.
  intros Hk Hn Hc Hcur. rewrite trap_handler_run by (rewrite Hc; by destruct e). rewrite Hc.
  assert (∀ mepc mtval, (if 2 ^ 63 <=? exception_code e then handle_interrupt (exception_code e - 2 ^ 63) frame k
    else handle_exception (exception_code e) mepc mtval frame k) =
    handle_access_fault name mepc mtval frame k) as ->
    by (intros; destruct e; try discriminate Hn; injection Hn as <-; reflexivity).
  pose proof (access_fault_run name (csr_get Mepc (csrs (k_hw k))) (csr_get Mtval (csrs (k_hw k))) frame k Hk) as Hf.
  destruct (_ =? 0); [|done]. destruct Hf as (h1 & -> & Hc1 & Hr1).
  set (k1 := mkKernel h1 (k_alloc k) (k_sched k) (k_ticks k)).
  assert (kernel_ok k1) as Hk1 by (split; [apply Hk|done]).
  destruct (kill_current_ok frame k1 Hk1) as (frame' & k' & h2 & Hrun & Hk' & Hc2 & Hs).
  destruct (killed_views frame k1 h2 frame' k' c (ko_sched _ Hk1) Hcur (un_csrs _ _ Hc2) Hs) as ((t & Ht & Hd) & Hrn & Hctx).
  exists frame', k', t. split_all.
  - intros i. rewrite Hctx. apply context_of_ext; [apply Hc1|done].
  - set (k2 := mkKernel h2 _ _ _) in Hs. assert (sched_wf (k_sched k2)) as Hwf2 by apply killed_wf, Hk.
    rewrite (scheduled_current _ _ _ _ Hwf2 Hs). cbn. by rewrite current_killed, Hcur.
Qed.

(** C8: access faults are contained.  A fault that comes from user mode kills
    the current task and nothing else: the kernel goes on, well-formed, with
    the policy's choice among the tasks that are left, the logical contexts of
    all tasks being what they were.  A fault from machine mode panics with the
    name of the fault. *)
Theorem access_fault_contained `{E : Env} `{B : SerialBackend} `{L : !SerialLaws B} `{I : Image}
    frame k e name c :
  kernel_ok k → fault_name e = Some name → csr_get Mcause (csrs (k_hw k)) = exception_code e →
  current (k_sched k) = Some c →
  if mpp_of (csr_get Mstatus (csrs (k_hw k))) =? 0 then
    ∃ frame' k' t, trap_handler frame k = Ok frame' k' ∧ kernel_ok k' ∧
      task_of (k_sched k') c = Some t ∧ state t = Dead ∧
      (∀ j, j ≠ c → runnable (k_sched k') j = runnable (k_sched k) j) ∧
      (∀ i, context_of frame' k' i = context_of frame k i) ∧
      current (k_sched k') =
        match select_next_ready MAX_TASKS (Some c) (runnable (killed (k_sched k))) with
        | Some i => Some i
        | None => Some c
        end
  else ∃ k', trap_handler frame k = Panic name k'.
Proof. apply user_fault_run. Qed.

(** C22: every trap has a defined outcome.  Whatever the cause, the handler
    never hangs; it returns in a well-formed kernel unless the trap is fatal, and
    panics exactly on the fatal ones: access faults from machine mode,
    misaligned accesses, illegal instructions, page faults and unknown exception
    codes.  Interrupts are never fatal. *)
Theorem trap_outcomes `{E : Env} `{B : SerialBackend} `{L : !SerialLaws B} `{I : Image}
    `{CK : !ClockOk E} frame k :
  let mcause := csr_get Mcause (csrs (k_hw k)) in
  kernel_ok k → u64 mcause → 0 ≤ csr_get Mepc (csrs (k_hw k)) < 2 ^ 64 - 4 →
  outcome (negb (2 ^ 63 <=? mcause) && fatal_exception mcause (mpp_of (csr_get Mstatus (csrs (k_hw k)))))
    (λ _ k', kernel_ok k') (trap_handler frame k).
Proof.
  intros mcause Hk Hu Hm. rewrite trap_handler_run by done. fold mcause.
  destruct (2 ^ 63 <=? mcause); [by apply interrupt_outcome|].
  apply exception_outcome; [done|apply Hu|done].
Qed.

(** ** Witnesses *)

Module trap_sample.
#[local] Instance env : Env := quiet_board true.
#[local] Existing Instance sample_image.

#[local] Instance clock : ClockOk env.
Proof. by intros n. Qed.

(** The sample kernel entering a trap from user mode. *)
Definition trapped (cause mstatus : Z) : Kernel :=
  hw_upd (hw_set_csrs (mkCsrFile mstatus 0x80 0x80004010 cause 0x80000000 0x80000020 0) sample_hw) sample.kernel.

Lemma trapped_is_ok cause mstatus : kernel_ok (trapped cause mstatus).
Proof. split; [apply sample.sched_ok|]. apply hw_ready_csrs, sample.hw_ok. Qed.

Definition getc_frame : TrapFrame.t := TrapFrame.set_a0 65 sample.frame.

Lemma timer_interrupt_correct_witness :
  let k := trapped (2 ^ 63 + 7) 0x80 in
  ∃ frame' k', trap_handler sample.frame k = Ok frame' k' ∧ kernel_ok k' ∧
    k_ticks k' = (k_ticks k + 1) mod 2 ^ 64 ∧ armed (k_hw k) (k_hw k') ∧
    current (k_sched k') =
      match select_next_ready MAX_TASKS (current (k_sched k)) (runnable (k_sched k)) with
      | Some i => Some i
      | None => current (k_sched k)
      end ∧
    ∀ i, context_of frame' k' i = context_of sample.frame k i.
Proof. apply (timer_interrupt_correct sample.frame (trapped (2 ^ 63 + 7) 0x80)); [apply trapped_is_ok|reflexivity]. Defined.

Lemma syscall_correct_witness :
  ∃ v k' out, trap_handler getc_frame (trapped 8 0x80) = Ok (TrapFrame.set_a0 v getc_frame) k' ∧
    kernel_ok k' ∧ out = [] ∧ v = 0xFF ∧ s_out (k_hw k') = s_out (k_hw (trapped 8 0x80)) ++ out.
Proof.
  destruct (syscall_correct getc_frame (trapped 8 0x80)) as
    (v & k' & out & Hrun & Hk & _ & _ & _ & _ & _ & _ & Ho & Hg & _);
    [apply trapped_is_ok|reflexivity|split; vm_compute; congruence|].
  destruct (Hg ltac:(reflexivity)) as (H1 & H2 & _). exists v, k', out. split_all.
Defined.

Lemma access_fault_contained_witness :
  ∃ frame' k' t, trap_handler sample.frame (trapped 5 0x80) = Ok frame' k' ∧ kernel_ok k' ∧
    task_of (k_sched k') 1 = Some t ∧ state t = Dead ∧
    (∀ j, j ≠ 1%nat → runnable (k_sched k') j = runnable (k_sched (trapped 5 0x80)) j) ∧
    (∀ i, context_of frame' k' i = context_of sample.frame (trapped 5 0x80) i) ∧
    current (k_sched k') = Some 2%nat.
Proof.
  apply (access_fault_contained sample.frame (trapped 5 0x80) LoadAccessFault "Load access fault" 1);
    [apply trapped_is_ok|reflexivity..].
Defined.

Lemma trap_outcomes_witness :
  outcome false (λ _ k', kernel_ok k') (trap_handler sample.frame (trapped 5 0x80)) ∧
  outcome true (λ _ k', kernel_ok k') (trap_handler sample.frame (trapped 2 0x80)).
Proof.
  split; [apply (trap_outcomes sample.frame (trapped 5 0x80))|apply (trap_outcomes sample.frame (trapped 2 0x80))];
    first [apply trapped_is_ok|split; vm_compute; congruence].
Defined.
End trap_sample.
