(* ===== verification/Asm.v ===== *)
(** The assembly of [crates/kernel/src/trap.rs]: [trap_vector],
    [do_context_switch_asm] and [context_switch].

    The programs are lists of the instructions in the source, run on a processor
    with 31 general registers, byte-addressed little-endian memory and the
    machine CSRs.  The theorems connect them to the [repr(C)] structures the Rust
    code works on: what [trap_vector] stores is a [TrapFrame], and what it
    restores is whatever frame the handler left. *)

From S2P Require Import Prelude Config Machine PmpHw Registers.

Local Open Scope Z_scope.

#[local] Arguments csr_get : simpl never.
#[local] Arguments csr_put : simpl never.

(** ** The processor *)

Inductive reg :=
| Ra | T0 | T1 | T2 | T3 | T4 | T5 | T6 | A0 | A1 | A2 | A3 | A4 | A5 | A6 | A7
| S0 | S1 | S2 | S3 | S4 | S5 | S6 | S7 | S8 | S9 | S10 | S11 | Gp | Tp | Sp.

#[export] Instance reg_eq_dec : EqDecision reg.
Proof. solve_decision. Defined.

(** Memory by bytes; a doubleword at [a] is the bytes [a .. a+7]. *)
Definition memory : Type := Z → Z.

Definition store64 (a v : Z) (m : memory) : memory := λ x,
  if (a <=? x) && (x <? a + 8) then byte_of v (Z.to_nat (x - a)) else m x.

Definition load64 (a : Z) (m : memory) : Z := pack ((λ i, m (a + Z.of_nat i)) <$> seq 0 8).

Record cpu := mkCpu {
  rf : reg → Z;
  mem : memory;
  cf : CsrFile;
  pc : Z;
  mode : priv;
}.

Definition set_reg (r : reg) (v : Z) (c : cpu) : cpu :=
  mkCpu (λ r', if decide (r = r') then v else rf c r') (mem c) (cf c) (pc c) (mode c).
Definition set_mem (m : memory) (c : cpu) : cpu := mkCpu (rf c) m (cf c) (pc c) (mode c).
Definition set_cf (f : CsrFile) (c : cpu) : cpu := mkCpu (rf c) (mem c) f (pc c) (mode c).

(** [mret]: MIE becomes MPIE, MPIE becomes 1, MPP becomes 0, and execution
    continues at [mepc] in the mode MPP held. *)
Definition mret_mstatus (m : Z) : Z :=
  let m1 := if Z.testbit m 7 then Z.lor m (Z.shiftl 1 3) else Z.ldiff m (Z.shiftl 1 3) in
  Z.lor (Z.ldiff m1 (Z.shiftl 3 11)) (Z.shiftl 1 7).

Definition mpp_priv (m : Z) : priv := if Z.land (Z.shiftr m 11) 3 =? 3 then MMode else UMode.

Inductive instr :=
| Sd (rs : reg) (off : Z) (b : reg)
| Ld (rd : reg) (off : Z) (b : reg)
| Addi (rd rs : reg) (imm : Z)
| Mv (rd rs : reg)
| Csrw (c : csr) (rs : reg)
| Csrr (rd : reg) (c : csr)
| Mret.

Definition ea (c : cpu) (b : reg) (off : Z) : Z := (rf c b + off) mod 2 ^ 64.

Definition exec1 (c : cpu) (i : instr) : cpu :=
  match i with
  | Sd rs off b => set_mem (store64 (ea c b off) (rf c rs) (mem c)) c
  | Ld rd off b => set_reg rd (load64 (ea c b off) (mem c)) c
  | Addi rd rs imm => set_reg rd ((rf c rs + imm) mod 2 ^ 64) c
  | Mv rd rs => set_reg rd (rf c rs) c
  | Csrw r rs => set_cf (csr_put r (rf c rs) (cf c)) c
  | Csrr rd r => set_reg rd (csr_get r (cf c)) c
  | Mret =>
    let m := csr_get Mstatus (cf c) in
    mkCpu (rf c) (mem c) (csr_put Mstatus (mret_mstatus m) (cf c)) (csr_get Mepc (cf c)) (mpp_priv m)
  end.

Definition exec (p : list instr) (c : cpu) : cpu := foldl exec1 c p.

(** The same under the PMP: [None] when a load or a store is refused, which on
    the machine is an access fault. *)
Definition instr_open (p : PmpRegs) (c : cpu) (i : instr) : bool :=
  match i with
  | Sd _ off b => pmp_check p (mode c) AccW (ea c b off) 8
  | Ld _ off b => pmp_check p (mode c) AccR (ea c b off) 8
  | _ => true
  end.

Fixpoint exec_checked (p : PmpRegs) (code : list instr) (c : cpu) : option cpu :=
  match code with
  | [] => Some c
  | i :: code => if instr_open p c i then exec_checked p code (exec1 c i) else None
  end.

(** Machine mode may access the 31 words of the frame at [a]. *)
Definition frame_open (p : PmpRegs) (acc : access) (a : Z) : bool :=
  forallb (λ i, pmp_check p MMode acc (a + 8 * Z.of_nat i) 8) (seq 0 31).

(** ** The programs *)

(** [trap_vector] up to the call of [trap_handler]. *)
Definition trap_vector_entry : list instr := [
  Csrw Mscratch Sp;
  Addi Sp Sp (-256);
  Sd Ra 0 Sp; Sd T0 8 Sp; Sd T1 16 Sp; Sd T2 24 Sp; Sd T3 32 Sp; Sd T4 40 Sp; Sd T5 48 Sp; Sd T6 56 Sp;
  Sd A0 64 Sp; Sd A1 72 Sp; Sd A2 80 Sp; Sd A3 88 Sp; Sd A4 96 Sp; Sd A5 104 Sp; Sd A6 112 Sp; Sd A7 120 Sp;
  Sd S0 128 Sp; Sd S1 136 Sp; Sd S2 144 Sp; Sd S3 152 Sp; Sd S4 160 Sp; Sd S5 168 Sp; Sd S6 176 Sp;
  Sd S7 184 Sp; Sd S8 192 Sp; Sd S9 200 Sp; Sd S10 208 Sp; Sd S11 216 Sp; Sd Gp 224 Sp; Sd Tp 232 Sp;
  Csrr T0 Mscratch;
  Sd T0 240 Sp;
  Mv A0 Sp].

(** [trap_vector] after the call. *)
Definition trap_vector_exit : list instr := [
  Ld Ra 0 Sp; Ld T0 8 Sp; Ld T1 16 Sp; Ld T2 24 Sp; Ld T3 32 Sp; Ld T4 40 Sp; Ld T5 48 Sp; Ld T6 56 Sp;
  Ld A0 64 Sp; Ld A1 72 Sp; Ld A2 80 Sp; Ld A3 88 Sp; Ld A4 96 Sp; Ld A5 104 Sp; Ld A6 112 Sp; Ld A7 120 Sp;
  Ld S0 128 Sp; Ld S1 136 Sp; Ld S2 144 Sp; Ld S3 152 Sp; Ld S4 160 Sp; Ld S5 168 Sp; Ld S6 176 Sp;
  Ld S7 184 Sp; Ld S8 192 Sp; Ld S9 200 Sp; Ld S10 208 Sp; Ld S11 216 Sp; Ld Gp 224 Sp; Ld Tp 232 Sp;
  Ld Sp 240 Sp;
  Mret].

Definition do_context_switch_asm : list instr := [
  Sd Ra 0 A0; Sd T0 8 A0; Sd T1 16 A0; Sd T2 24 A0; Sd T3 32 A0; Sd T4 40 A0; Sd T5 48 A0; Sd T6 56 A0;
  Sd A0 64 A0; Sd A1 72 A0; Sd A2 80 A0; Sd A3 88 A0; Sd A4 96 A0; Sd A5 104 A0; Sd A6 112 A0; Sd A7 120 A0;
  Sd S0 128 A0; Sd S1 136 A0; Sd S2 144 A0; Sd S3 152 A0; Sd S4 160 A0; Sd S5 168 A0; Sd S6 176 A0;
  Sd S7 184 A0; Sd S8 192 A0; Sd S9 200 A0; Sd S10 208 A0; Sd S11 216 A0; Sd Gp 224 A0; Sd Tp 232 A0;
  Sd Sp 240 A0;
  Ld T0 248 A1; Csrw Mepc T0; Ld T0 256 A1; Csrw Mstatus T0;
  Ld Ra 0 A1; Ld T0 8 A1; Ld T1 16 A1; Ld T2 24 A1; Ld T3 32 A1; Ld T4 40 A1; Ld T5 48 A1; Ld T6 56 A1;
  Ld A0 64 A1; Ld A2 80 A1; Ld A3 88 A1; Ld A4 96 A1; Ld A5 104 A1; Ld A6 112 A1; Ld A7 120 A1;
  Ld S0 128 A1; Ld S1 136 A1; Ld S2 144 A1; Ld S3 152 A1; Ld S4 160 A1; Ld S5 168 A1; Ld S6 176 A1;
  Ld S7 184 A1; Ld S8 192 A1; Ld S9 200 A1; Ld S10 208 A1; Ld S11 216 A1; Ld Gp 224 A1; Ld Tp 232 A1;
  Ld Sp 240 A1;
  Ld A1 72 A1;
  Mret].

(** [context_switch]: the two CSRs go into [*old] before the registers, which
    are those of the call: [a0] is [old], [a1] is [new]. *)
Definition context_switch (old new : Z) (c : cpu) : cpu :=
  let mepc := csr_get Mepc (cf c) in
  let mstatus := csr_get Mstatus (cf c) in
  let c := set_mem (store64 (old + 256) mstatus (store64 (old + 248) mepc (mem c))) c in
  exec do_context_switch_asm (set_reg A1 new (set_reg A0 old c)).

(** ** Structures in memory *)

(** The doublewords at [a, a+8, ...]. *)
Definition words (n : nat) (a : Z) (m : memory) : list Z := (λ i, load64 (a + 8 * Z.of_nat i) m) <$> seq 0 n.

(** Storing [vs] at [a + 8k, a + 8(k+1), ...], in order. *)
Fixpoint store_from (a : Z) (k : nat) (vs : list Z) (m : memory) : memory :=
  match vs with
  | [] => m
  | v :: vs => store_from a (S k) vs (store64 (a + 8 * Z.of_nat k) v m)
  end.

(** [*(a as *const TrapFrame)] and [*(a as *const TaskContext)]. *)
Definition frame_in (a : Z) (m : memory) (f : TrapFrame.t) : Prop := words 31 a m = TrapFrame.to_list f.
Definition context_in (a : Z) (m : memory) (c : TaskContext.t) : Prop := words 33 a m = TaskContext.to_list c.

(** The registers in the order of the structures. *)
Definition gpr_order : list reg :=
  [Ra; T0; T1; T2; T3; T4; T5; T6; A0; A1; A2; A3; A4; A5; A6; A7;
   S0; S1; S2; S3; S4; S5; S6; S7; S8; S9; S10; S11; Gp; Tp; Sp].

Definition frame_of (r : reg → Z) : TrapFrame.t :=
  TrapFrame.mk (r Ra) (r T0) (r T1) (r T2) (r T3) (r T4) (r T5) (r T6) (r A0) (r A1) (r A2) (r A3) (r A4)
    (r A5) (r A6) (r A7) (r S0) (r S1) (r S2) (r S3) (r S4) (r S5) (r S6) (r S7) (r S8) (r S9) (r S10) (r S11)
    (r Gp) (r Tp) (r Sp).

Lemma frame_of_list r : TrapFrame.to_list (frame_of r) = r <$> gpr_order.
Proof. done. Qed.

(** Runs of stores and loads. *)
Definition saves (b : reg) (k : nat) (rs : list reg) : list instr :=
  imap (λ i r, Sd r (8 * Z.of_nat (k + i)) b) rs.
Definition loads (b : reg) (k : nat) (rs : list reg) : list instr :=
  imap (λ i r, Ld r (8 * Z.of_nat (k + i)) b) rs.

(** ** Memory lemmas *)

Lemma pack_bytes v : u64 v → pack (byte_of v <$> seq 0 8) = v.
Proof.
  intros Hv. assert (Forall u8 (byte_of v <$> seq 0 8)) as Hb
    by (apply Forall_fmap, Forall_true; intros i; apply byte_of_range).
  assert (∀ i, byte_of (pack (byte_of v <$> seq 0 8)) i = if decide (i < 8)%nat then byte_of v i else 0) as Hi.
  { intros i. rewrite byte_of_pack, list_lookup_fmap by done. case_decide.
    - by rewrite lookup_seq_lt.
    - by rewrite lookup_seq_ge by lia. }
  bits n Hn. set (i := Z.to_nat (n / 8)).
  assert (n = n mod 8 + 8 * Z.of_nat i) as Hsplit.
  { unfold i. rewrite Z2Nat.id by (apply Z.div_pos; lia). pose proof (Z.div_mod n 8). lia. }
  pose proof (Z.mod_pos_bound n 8 ltac:(lia)) as Hr.
  assert (∀ w, Z.testbit w n = Z.testbit (byte_of w i) (n mod 8)) as Hw.
  { intros w. rewrite byte_of_testbit by lia. rewrite <- Hsplit, (proj2 (Z.ltb_lt _ _)) by lia. by rewrite andb_true_r. }
  rewrite !Hw, Hi. case_decide as Hlt; [done|].
  rewrite Z.testbit_0_l, byte_of_testbit, <- Hsplit by lia.
  symmetry. apply andb_false_iff. left. destruct (decide (v = 0)) as [->|Hz]; [apply Z.testbit_0_l|].
  apply Z.bits_above_log2; [apply Hv|]. apply Z.log2_lt_pow2; [destruct Hv; lia|].
  eapply Z.lt_le_trans; [apply Hv|]. apply Z.pow_le_mono_r; lia.
Qed.

Lemma load64_ext a m m' : (∀ x, a ≤ x < a + 8 → m x = m' x) → load64 a m = load64 a m'.
Proof.
  intros Hm. unfold load64. f_equal. apply list_fmap_ext. intros i x Hx.
  apply lookup_seq in Hx as [-> Hi]. apply Hm. lia.
Qed.

Lemma load_store_same a v m : u64 v → load64 a (store64 a v m) = v.
Proof.
  intros Hv. rewrite <- (pack_bytes v Hv) at 2. unfold load64. f_equal. apply list_fmap_ext. intros i x Hx.
  apply lookup_seq in Hx as [-> Hi]. unfold store64.
  rewrite (proj2 (Z.leb_le _ _)), (proj2 (Z.ltb_lt _ _)) by lia. simpl. f_equal. lia.
Qed.

Lemma store64_out a v m x : x < a ∨ a + 8 ≤ x → store64 a v m x = m x.
Proof.
  intros Hx. unfold store64. destruct (Z.leb_spec a x), (Z.ltb_spec x (a + 8)); try done; lia.
Qed.

Lemma store_from_out a k vs m x :
  x < a + 8 * Z.of_nat k ∨ a + 8 * Z.of_nat (k + length vs) ≤ x → store_from a k vs m x = m x.
Proof.
  revert k m. induction vs as [|v vs IH]; intros k m Hx; [done|]. simpl in *.
  rewrite IH by lia. apply store64_out. lia.
Qed.

Lemma load_store_from_out a k vs m x :
  x + 8 ≤ a + 8 * Z.of_nat k ∨ a + 8 * Z.of_nat (k + length vs) ≤ x →
  load64 x (store_from a k vs m) = load64 x m.
Proof. intros Hx. apply load64_ext. intros y Hy. apply store_from_out. lia. Qed.

Lemma load_store_from a k vs m i v :
  Forall u64 vs → vs !! i = Some v → load64 (a + 8 * Z.of_nat (k + i)) (store_from a k vs m) = v.
Proof.
  intros Hvs. revert k m i. induction Hvs as [|w vs Hw _ IH]; intros k m [|i] Hi; try done; simpl in *.
  - injection Hi as ->. rewrite load_store_from_out by lia. rewrite Nat.add_0_r. by apply load_store_same.
  - rewrite <- (IH (S k) (store64 (a + 8 * Z.of_nat k) w m) i Hi). do 2 f_equal. lia.
Qed.

Lemma words_store_from a vs m : Forall u64 vs → words (length vs) a (store_from a 0 vs m) = vs.
Proof.
  intros Hvs. apply list_eq. intros i. unfold words. rewrite list_lookup_fmap.
  destruct (decide (i < length vs)%nat) as [Hi|Hi].
  - rewrite lookup_seq_lt by done. simpl. destruct (lookup_lt_is_Some_2 _ _ Hi) as [v Hv]. rewrite Hv.
    f_equal. by apply (load_store_from a 0).
  - rewrite lookup_seq_ge, lookup_ge_None_2 by lia. done.
Qed.

Lemma words_lookup n a m i : (i < n)%nat → words n a m !! i = Some (load64 (a + 8 * Z.of_nat i) m).
Proof. intros Hi. unfold words. by rewrite list_lookup_fmap, lookup_seq_lt. Qed.

(** ** Runs of stores and loads *)

Lemma exec_app p q c : exec (p ++ q) c = exec q (exec p c).
Proof. apply foldl_app. Qed.

Lemma saves_cons b k r rs : saves b k (r :: rs) = Sd r (8 * Z.of_nat k) b :: saves b (S k) rs.
Proof.
  unfold saves. rewrite imap_cons, Nat.add_0_r. f_equal. apply imap_ext. intros. simpl. do 2 f_equal. lia.
Qed.

Lemma loads_cons b k r rs : loads b k (r :: rs) = Ld r (8 * Z.of_nat k) b :: loads b (S k) rs.
Proof.
  unfold loads. rewrite imap_cons, Nat.add_0_r. f_equal. apply imap_ext. intros. simpl. do 2 f_equal. lia.
Qed.

Lemma exec_saves b k rs c :
  0 ≤ rf c b → rf c b + 8 * Z.of_nat (k + length rs) ≤ 2 ^ 64 →
  exec (saves b k rs) c = set_mem (store_from (rf c b) k (rf c <$> rs) (mem c)) c.
Proof.
  revert k c. induction rs as [|r rs IH]; intros k c H0 Hhi; [by destruct c|].
  rewrite saves_cons. csimpl. simpl in Hhi. unfold exec. simpl. fold (exec (saves b (S k) rs)).
  unfold exec in IH. rewrite IH by (simpl; lia). simpl. unfold ea. rewrite Z.mod_small by lia. done.
Qed.

Lemma exec_loads b k rs c :
  0 ≤ rf c b → rf c b + 8 * Z.of_nat (k + length rs) ≤ 2 ^ 64 → b ∉ rs → NoDup rs →
  let c' := exec (loads b k rs) c in
  (∀ i r, rs !! i = Some r → rf c' r = load64 (rf c b + 8 * Z.of_nat (k + i)) (mem c)) ∧
  (∀ r, r ∉ rs → rf c' r = rf c r) ∧ mem c' = mem c ∧ cf c' = cf c.
Proof.
  revert k c. induction rs as [|r rs IH]; intros k c H0 Hhi Hb Hnd; [done|].
  rewrite loads_cons. apply not_elem_of_cons in Hb as [Hbr Hb]. apply NoDup_cons in Hnd as [Hr Hnd].
  simpl in Hhi. set (c1 := set_reg r (load64 (rf c b + 8 * Z.of_nat k) (mem c)) c).
  assert (exec (Ld r (8 * Z.of_nat k) b :: loads b (S k) rs) c = exec (loads b (S k) rs) c1) as ->.
  { unfold exec. simpl. unfold ea. by rewrite Z.mod_small by lia. }
  assert (rf c1 b = rf c b) as Hb1 by (simpl; by rewrite decide_False).
  destruct (IH (S k) c1) as (H1 & H2 & H3 & H4); rewrite ?Hb1; try done; [lia|].
  cbn zeta. split; [|split; [|by split]].
  - intros [|i] r' Hi; simpl in Hi.
    + injection Hi as <-. rewrite H2 by done. simpl. rewrite decide_True by done. do 2 f_equal. lia.
    + rewrite (H1 i r' Hi), Hb1. do 2 f_equal. lia.
  - intros r' Hr'. apply not_elem_of_cons in Hr' as [Hne Hr']. rewrite H2 by done. simpl.
    by rewrite decide_False.
Qed.

Lemma store_from_app a k vs ws m :
  store_from a k (vs ++ ws) m = store_from a (k + length vs) ws (store_from a k vs m).
Proof.
  revert k m. induction vs as [|v vs IH]; intros k m; simpl; [by rewrite Nat.add_0_r|].
  rewrite IH. f_equal. lia.
Qed.

(** A register file that agrees with a structure's fields is that structure. *)
Lemma frame_of_eq r f : r <$> gpr_order = TrapFrame.to_list f → frame_of r = f.
Proof. destruct f. cbv [gpr_order fmap list_fmap TrapFrame.to_list frame_of]. simpl. by intros [=]; subst. Qed.

Lemma fmap_gpr_words r n a m : (31 ≤ n)%nat →
  (∀ i x, gpr_order !! i = Some x → r x = load64 (a + 8 * Z.of_nat i) m) →
  r <$> gpr_order = take 31 (words n a m).
Proof.
  intros Hn Hr. apply list_eq. intros i. rewrite list_lookup_fmap.
  destruct (decide (i < 31)%nat) as [Hi|Hi].
  - destruct (lookup_lt_is_Some_2 gpr_order i Hi) as [x Hx]. rewrite Hx. simpl.
    rewrite lookup_take_lt, words_lookup by lia. by rewrite (Hr i x Hx).
  - rewrite lookup_take_ge by lia. by rewrite (lookup_ge_None_2 gpr_order) by (simpl; lia).
Qed.

Definition low_gprs : list reg := take 30 gpr_order.

Lemma entry_split :
  trap_vector_entry = [Csrw Mscratch Sp; Addi Sp Sp (-256)] ++ saves Sp 0 low_gprs ++
    [Csrr T0 Mscratch; Sd T0 240 Sp; Mv A0 Sp].
Proof. reflexivity. Qed.

Lemma exit_split : trap_vector_exit = loads Sp 0 low_gprs ++ [Ld Sp 240 Sp; Mret].
Proof. reflexivity. Qed.

Lemma low_gprs_facts : Sp ∉ low_gprs ∧ NoDup low_gprs.
Proof. split; apply (bool_decide_unpack _); vm_compute; exact I. Qed.

(** The state at the call of [trap_handler]. *)
Lemma entry_run c : 256 ≤ rf c Sp < 2 ^ 64 →
  let a := rf c Sp - 256 in
  let c' := exec trap_vector_entry c in
  mem c' = store_from a 0 (rf c <$> gpr_order) (mem c) ∧ rf c' A0 = a ∧ rf c' Sp = a ∧
  (∀ r, r ∉ [A0; T0; Sp] → rf c' r = rf c r) ∧
  cf c' = csr_put Mscratch (rf c Sp) (cf c) ∧ pc c' = pc c ∧ mode c' = mode c.
Proof.
  intros Hsp a. rewrite entry_split, !exec_app. cbn zeta.
  assert (rf c <$> gpr_order = (rf c <$> low_gprs) ++ [rf c Sp]) as -> by reflexivity.
  rewrite store_from_app.
  set (c1 := exec [Csrw Mscratch Sp; Addi Sp Sp (-256)] c).
  assert (rf c1 Sp = a) as Hsp1 by (unfold c1, exec; simpl; rewrite Z.mod_small; unfold a; lia).
  assert (∀ r, r ≠ Sp → rf c1 r = rf c r) as Hr1
    by (intros r Hr; unfold c1, exec; simpl; by rewrite decide_False).
  assert (rf c1 <$> low_gprs = rf c <$> low_gprs) as Hlow.
  { apply list_fmap_ext. intros i x Hx. apply Hr1. intros ->.
    by apply low_gprs_facts, (list_elem_of_lookup_2 _ i). }
  assert (mem c1 = mem c ∧ cf c1 = csr_put Mscratch (rf c Sp) (cf c) ∧ pc c1 = pc c ∧ mode c1 = mode c)
    as (Hm1 & Hc1 & Hp1 & Hd1) by done. clearbody c1.
  rewrite exec_saves, Hsp1, Hlow, Hm1 by (rewrite Hsp1; unfold a; simpl; lia).
  unfold exec. simpl. unfold ea. simpl. rewrite Hsp1, Hc1. rewrite (Z.mod_small (a + 240)) by (unfold a; lia).
  rewrite csr_get_put_eq. split_all. intros r Hr. rewrite !not_elem_of_cons in Hr. rewrite !decide_False by naive_solver.
  apply Hr1. naive_solver.
Qed.

(** The state after [mret]. *)
Lemma exit_run c f : 0 ≤ rf c Sp → rf c Sp + 248 ≤ 2 ^ 64 → frame_in (rf c Sp) (mem c) f →
  let c' := exec trap_vector_exit c in
  frame_of (rf c') = f ∧ mem c' = mem c ∧ pc c' = csr_get Mepc (cf c) ∧
  mode c' = mpp_priv (csr_get Mstatus (cf c)) ∧
  cf c' = csr_put Mstatus (mret_mstatus (csr_get Mstatus (cf c))) (cf c).
Proof.
  intros H0 Hhi Hf. rewrite exit_split, exec_app. cbn zeta.
  destruct low_gprs_facts as [Hsp Hnd].
  destruct (exec_loads Sp 0 low_gprs c H0 ltac:(simpl; lia) Hsp Hnd) as (H1 & H2 & H3 & H4).
  set (c1 := exec (loads Sp 0 low_gprs) c) in *. clearbody c1.
  assert (exec [Ld Sp 240 Sp; Mret] c1 =
    mkCpu (λ r, if decide (Sp = r) then load64 (ea c1 Sp 240) (mem c) else rf c1 r) (mem c)
      (csr_put Mstatus (mret_mstatus (csr_get Mstatus (cf c))) (cf c)) (csr_get Mepc (cf c))
      (mpp_priv (csr_get Mstatus (cf c)))) as -> by (rewrite <- H3, <- H4; reflexivity).
  cbn [rf mem cf pc mode]. split; [|done]. apply frame_of_eq.
  unfold frame_in in Hf. rewrite <- Hf, (fmap_gpr_words _ 31 (rf c Sp) (mem c)); [by rewrite take_ge|done|].
  intros i x Hx. destruct (decide (Sp = x)) as [<-|Hne].
  - assert (i = 30%nat) as ->.
    { do 30 (destruct i as [|i]; [done|]). destruct i; [done|]. simpl in Hx. by destruct i. }
    unfold ea. rewrite H2, Z.mod_small by (done || lia). done.
  - apply H1. unfold low_gprs. rewrite lookup_take_lt; [done|].
    apply lookup_lt_Some in Hx as Hi. simpl in Hi. destruct (decide (i = 30%nat)) as [->|]; [|lia].
    injection Hx as <-. done.
Qed.

(** ** The trap path under the PMP *)

Section checked.
Context (p : PmpRegs).

Lemma exec_checked_app l l' c : exec_checked p (l ++ l') c = exec_checked p l c ≫= exec_checked p l'.
Proof. revert c. induction l as [|i l IH]; intros c; [done|]. simpl. destruct (instr_open p c i); [apply IH|done]. Qed.

(** A run of stores goes through exactly when each address is open. *)
Lemma checked_saves b k rs c :
  0 ≤ rf c b → rf c b + 8 * Z.of_nat (k + length rs) ≤ 2 ^ 64 →
  exec_checked p (saves b k rs) c =
    if forallb (λ i, pmp_check p (mode c) AccW (rf c b + 8 * Z.of_nat i) 8) (seq k (length rs))
    then Some (exec (saves b k rs) c) else None.
Proof.
  revert k c. induction rs as [|r rs IH]; intros k c H0 Hhi; [done|].
  rewrite saves_cons. cbn [exec_checked instr_open length seq forallb]. simpl in Hhi. unfold ea. rewrite Z.mod_small by lia.
  destruct (pmp_check _ _ _ (rf c b + 8 * Z.of_nat k) 8); [|done]. by rewrite IH by (simpl; lia).
Qed.

Lemma checked_loads b k rs c :
  0 ≤ rf c b → rf c b + 8 * Z.of_nat (k + length rs) ≤ 2 ^ 64 → b ∉ rs →
  exec_checked p (loads b k rs) c =
    if forallb (λ i, pmp_check p (mode c) AccR (rf c b + 8 * Z.of_nat i) 8) (seq k (length rs))
    then Some (exec (loads b k rs) c) else None.
Proof.
  revert k c. induction rs as [|r rs IH]; intros k c H0 Hhi Hb; [done|]. apply not_elem_of_cons in Hb as [Hbr Hb].
  rewrite loads_cons. cbn [exec_checked instr_open length seq forallb]. simpl in Hhi. unfold ea at 1. rewrite Z.mod_small by lia.
  destruct (pmp_check _ _ _ (rf c b + 8 * Z.of_nat k) 8); [|done].
  set (c1 := exec1 c (Ld r (8 * Z.of_nat k) b)). change (exec (_ :: ?l) c) with (exec l c1).
  assert (rf c1 b = rf c b) as Hb1 by (simpl; by rewrite decide_False). assert (mode c1 = mode c) as Hm1 by done.
  rewrite IH, Hb1, Hm1 by (rewrite ?Hb1; lia || done). done.
Qed.

Lemma frame_open_split acc a :
  frame_open p acc a =
    forallb (λ i, pmp_check p MMode acc (a + 8 * Z.of_nat i) 8) (seq 0 30) && pmp_check p MMode acc (a + 240) 8.
Proof. unfold frame_open. change (seq 0 31) with (seq 0 30 ++ [30%nat]). rewrite forallb_app. f_equal. exact (andb_true_r _). Qed.

(** The entry code runs to its end exactly when the frame may be stored. *)
Lemma entry_checked c : 256 ≤ rf c Sp < 2 ^ 64 → mode c = MMode →
  exec_checked p trap_vector_entry c =
    if frame_open p AccW (rf c Sp - 256) then Some (exec trap_vector_entry c) else None.
Proof.
  intros Hsp Hm. rewrite frame_open_split, entry_split, !exec_checked_app, !exec_app.
  set (c1 := exec [Csrw Mscratch Sp; Addi Sp Sp (-256)] c). change (exec_checked p [_; _] c) with (Some c1). cbn [mbind option_bind].
  assert (rf c1 Sp = rf c Sp - 256) as Hsp1 by (unfold c1, exec; simpl; rewrite Z.mod_small; lia).
  assert (mode c1 = MMode) as Hm1 by (by rewrite <- Hm). clearbody c1.
  assert (length low_gprs = 30%nat) as Hlen by reflexivity.
  rewrite exec_checked_app, checked_saves, Hsp1, Hm1, Hlen by (rewrite ?Hlen, Hsp1; lia).
  destruct (forallb _ _); [|done]. rewrite exec_saves by (rewrite ?Hlen, Hsp1; lia). cbn [mbind option_bind].
  set (c2 := set_mem _ c1). assert (rf c2 Sp = rf c Sp - 256 ∧ mode c2 = MMode) as [Hsp2 Hm2] by done. clearbody c2.
  unfold exec_checked, instr_open, ea. cbn [mode set_reg exec1 rf].
  rewrite decide_False, Hsp2, Hm2, Z.mod_small by (done || lia). destruct (pmp_check _ _ _ _ _); reflexivity.
Qed.

(** The exit code, exactly when it may be loaded. *)
Lemma exit_checked c : 0 ≤ rf c Sp → rf c Sp + 248 ≤ 2 ^ 64 → mode c = MMode →
  exec_checked p trap_vector_exit c =
    if frame_open p AccR (rf c Sp) then Some (exec trap_vector_exit c) else None.
Proof.
  intros H0 Hhi Hm. rewrite frame_open_split, exit_split, exec_checked_app, exec_app.
  destruct low_gprs_facts as [Hsp Hnd]. assert (length low_gprs = 30%nat) as Hlen by reflexivity.
  rewrite checked_loads, Hm, Hlen by (rewrite ?Hlen; done || lia). destruct (forallb _ _); [|done]. cbn [mbind option_bind].
  destruct (exec_loads Sp 0 low_gprs c H0 ltac:(rewrite Hlen; lia) Hsp Hnd) as (_ & H2 & _).
  assert (mode (exec (loads Sp 0 low_gprs) c) = MMode) as Hm1 by (rewrite <- Hm; reflexivity).
  set (c1 := exec _ c) in *. clearbody c1. unfold exec_checked, instr_open, ea.
  rewrite H2, Hm1, Z.mod_small by (done || lia). destruct (pmp_check _ _ _ _ _); reflexivity.
Qed.
End checked.

(** ** The context switch *)

Definition regs_lo : list reg := take 9 gpr_order.
Definition regs_hi : list reg := drop 10 gpr_order.

Lemma switch_split :
  do_context_switch_asm = saves A0 0 gpr_order ++
    [Ld T0 248 A1; Csrw Mepc T0; Ld T0 256 A1; Csrw Mstatus T0] ++
    loads A1 0 regs_lo ++ loads A1 10 regs_hi ++ [Ld A1 72 A1; Mret].
Proof. reflexivity. Qed.

Lemma regs_lohi_facts : A1 ∉ regs_lo ∧ NoDup regs_lo ∧ A1 ∉ regs_hi ∧ NoDup regs_hi ∧
  Forall (λ r, r ∉ regs_hi) regs_lo.
Proof. split_and!; apply (bool_decide_unpack _); vm_compute; exact I. Qed.

(** The second half: everything is loaded from the context at [a1]. *)
Lemma switch_loads c new :
  rf c A1 = new → 0 ≤ new → new + 264 ≤ 2 ^ 64 →
  let c' := exec ([Ld T0 248 A1; Csrw Mepc T0; Ld T0 256 A1; Csrw Mstatus T0] ++
    loads A1 0 regs_lo ++ loads A1 10 regs_hi ++ [Ld A1 72 A1; Mret]) c in
  let w i := load64 (new + 8 * Z.of_nat i) (mem c) in
  rf c' <$> gpr_order = w <$> seq 0 31 ∧ mem c' = mem c ∧ pc c' = w 31%nat ∧
  mode c' = mpp_priv (w 32%nat) ∧
  cf c' = csr_put Mstatus (mret_mstatus (w 32%nat)) (csr_put Mepc (w 31%nat) (cf c)).
Proof.
  intros Hnew H0 Hhi. rewrite !exec_app. cbn zeta. set (w i := load64 _ (mem c)).
  set (c1 := exec [Ld T0 248 A1; Csrw Mepc T0; Ld T0 256 A1; Csrw Mstatus T0] c).
  assert (rf c1 A1 = new ∧ mem c1 = mem c ∧ cf c1 = csr_put Mstatus (w 32%nat) (csr_put Mepc (w 31%nat) (cf c)))
    as (Ha1 & Hm1 & Hc1).
  { unfold c1, exec, w. simpl. unfold ea. simpl. rewrite Hnew, !Z.mod_small by lia. done. }
  clearbody c1. destruct regs_lohi_facts as (Hlo & Hndlo & Hhi' & Hndhi & Hsep).
  destruct (exec_loads A1 0 regs_lo c1) as (H1 & H2 & H3 & H4); rewrite ?Ha1; try done; [simpl; lia|].
  set (c2 := exec (loads A1 0 regs_lo) c1) in *. clearbody c2.
  assert (rf c2 A1 = new) as Ha2 by (by rewrite H2).
  destruct (exec_loads A1 10 regs_hi c2) as (K1 & K2 & K3 & K4); rewrite ?Ha2; try done; [simpl; lia|].
  set (c3 := exec (loads A1 10 regs_hi) c2) in *. clearbody c3.
  assert (rf c3 A1 = new) as Ha3 by (by rewrite K2). rewrite Ha1 in H1. rewrite Ha2 in K1.
  assert (exec [Ld A1 72 A1; Mret] c3 =
    mkCpu (λ r, if decide (A1 = r) then w 9%nat else rf c3 r) (mem c)
      (csr_put Mstatus (mret_mstatus (w 32%nat)) (csr_put Mepc (w 31%nat) (cf c))) (w 31%nat)
      (mpp_priv (w 32%nat))) as ->.
  { unfold exec. cbn [foldl exec1 set_reg rf mem cf pc mode]. unfold ea. rewrite Ha3, Z.mod_small by lia.
    rewrite K3, K4, H3, H4, Hm1, Hc1, csr_get_put_eq, (csr_get_put_ne Mepc Mstatus), csr_get_put_eq, csr_put_put by done.
    done. }
  cbn [rf mem cf pc mode]. split; [|done]. rewrite H3, Hm1 in K1. rewrite Hm1 in H1.
  assert (gpr_order = regs_lo ++ [A1] ++ regs_hi) as -> by reflexivity.
  assert (seq 0 31 = seq 0 9 ++ [9%nat] ++ seq 10 21) as -> by reflexivity. rewrite !fmap_app. f_equal; [|f_equal].
  - apply (list_eq_same_length _ _ 9); [done..|]. intros i x y Hi. rewrite !list_lookup_fmap, lookup_seq_lt by done.
    intros (r & Hr & ->)%fmap_Some [= <-]. apply list_elem_of_lookup_2 in Hr as Hin.
    rewrite decide_False by (intros <-; done). rewrite K2 by exact (proj1 (Forall_forall _ _) Hsep r Hin). by apply H1.
  - apply (list_eq_same_length _ _ 21); [done..|]. intros i x y Hi. rewrite !list_lookup_fmap, lookup_seq_lt by done.
    intros (r & Hr & ->)%fmap_Some [= <-]. apply list_elem_of_lookup_2 in Hr as Hin.
    rewrite decide_False by (intros <-; done). by apply K1.
Qed.

(** The words of a context are a frame followed by the two CSRs. *)
Lemma context_words a m ctx : context_in a m ctx →
  (λ i, load64 (a + 8 * Z.of_nat i) m) <$> seq 0 31 =
    TrapFrame.to_list (copy_ctx_to_frame ctx (frame_of (λ _, 0))) ∧
  load64 (a + 8 * Z.of_nat 31) m = TaskContext.mepc ctx ∧
  load64 (a + 8 * Z.of_nat 32) m = TaskContext.mstatus ctx.
Proof.
  intros Hc. unfold context_in in Hc.
  assert (∀ i, words 33 a m !! i = TaskContext.to_list ctx !! i) as Hi by (intros i; by rewrite Hc).
  split.
  - change (take 31 (words 33 a m) = take 31 (TaskContext.to_list ctx)). by rewrite Hc.
  - pose proof (Hi 31%nat) as H31. pose proof (Hi 32%nat) as H32.
    rewrite words_lookup in H31, H32 by lia. simpl in H31, H32. by simplify_eq.
Qed.

(** The words of [*old]: the registers stored over the two CSRs. *)
Lemma words_saved a (r : reg → Z) me ms m :
  Forall u64 (r <$> gpr_order) → u64 me → u64 ms →
  words 33 a (store_from a 0 (r <$> gpr_order) (store64 (a + 256) ms (store64 (a + 248) me m))) =
    (r <$> gpr_order) ++ [me; ms].
Proof.
  intros Hr Hme Hms. set (m0 := store64 (a + 256) ms _). set (m1 := store_from _ _ _ _).
  change (words 33 a m1) with (words 31 a m1 ++ [load64 (a + 248) m1; load64 (a + 256) m1]).
  f_equal; [change 31%nat with (length (r <$> gpr_order)); by apply words_store_from|].
  unfold m1. rewrite !load_store_from_out by (rewrite length_fmap; simpl; lia). unfold m0.
  rewrite load_store_same by done. f_equal.
  rewrite (load64_ext (a + 248) _ (store64 (a + 248) me m)); [by apply load_store_same|].
  intros x Hx. apply store64_out. lia.
Qed.

(** ** Properties *)

(** The trap path is exact.  Let the handler run between the two halves of
    [trap_vector], returning with its stack pointer (as the calling convention
    demands) and having turned the frame it was given into [g] of it.  Then the
    frame it was given holds the 31 registers at the trap, the stack pointer
    included; after [mret] the registers are those of the new frame,
    execution continues at [mepc] in the mode of [mstatus.MPP], and the entry
    code writes no memory but the 248 bytes below the interrupted stack pointer
    less 256.  With [g] the identity, trapping is invisible to the task. *)
Lemma trap_vector_exact (c : cpu) (handler : cpu → cpu) (g : TrapFrame.t → TrapFrame.t) :
  256 ≤ rf c Sp < 2 ^ 64 → (∀ r, u64 (rf c r)) →
  let c1 := exec trap_vector_entry c in
  let a := rf c1 A0 in
  rf (handler c1) Sp = rf c1 Sp →
  (∀ f, frame_in a (mem c1) f → frame_in a (mem (handler c1)) (g f)) →
  let c' := exec trap_vector_exit (handler c1) in
  a = rf c Sp - 256 ∧ frame_in a (mem c1) (frame_of (rf c)) ∧ frame_of (rf c') = g (frame_of (rf c)) ∧
  pc c' = csr_get Mepc (cf (handler c1)) ∧ mode c' = mpp_priv (csr_get Mstatus (cf (handler c1))) ∧
  mem c' = mem (handler c1) ∧ ∀ x, x < a ∨ a + 248 ≤ x → mem c1 x = mem c x.
Proof.
  intros Hsp Hu c1 a Hhs Hg c'. destruct (entry_run c Hsp) as (Hm & Ha & Hs & _). fold c1 in Hm, Ha, Hs.
  clearbody c1. fold a in Ha. assert (frame_in a (mem c1) (frame_of (rf c))) as Hf.
  { unfold frame_in. rewrite frame_of_list, Ha, Hm. change 31%nat with (length (rf c <$> gpr_order)). apply words_store_from.
    by apply Forall_fmap, Forall_true. }
  assert (rf (handler c1) Sp = a) as Hsp' by (by rewrite Hhs, Hs).
  destruct (exit_run (handler c1) (g (frame_of (rf c)))) as (H1 & H2 & H3 & H4 & _).
  { rewrite Hsp', Ha. lia. }
  { rewrite Hsp', Ha. lia. }
  { rewrite Hsp'. by apply Hg. }
  fold c' in H1, H2, H3, H4. clearbody c'. split_all.
  intros x Hx. rewrite Hm. apply store_from_out. rewrite length_fmap. simpl. lia.
Qed.

(** C31: the context switch.  With the two contexts in disjoint memory,
    [context_switch old new] leaves in [*old] the registers of the call, [a0]
    and [a1] holding the two pointers, with [mepc] and [mstatus]; it ends with
    every register as in [*new], running at the [mepc] and in the mode of
    [*new]; [*new] itself and all memory outside [*old] are unchanged. *)
Theorem context_switch_correct old new c ctx :
  0 ≤ old → old + 264 ≤ 2 ^ 64 → 0 ≤ new → new + 264 ≤ 2 ^ 64 →
  old + 264 ≤ new ∨ new + 264 ≤ old → (∀ r, u64 (rf c r)) →
  u64 (csr_get Mepc (cf c)) → u64 (csr_get Mstatus (cf c)) → context_in new (mem c) ctx →
  let c' := context_switch old new c in
  frame_of (rf c') = copy_ctx_to_frame ctx (frame_of (rf c)) ∧
  pc c' = TaskContext.mepc ctx ∧ mode c' = mpp_priv (TaskContext.mstatus ctx) ∧
  csr_get Mstatus (cf c') = mret_mstatus (TaskContext.mstatus ctx) ∧
  context_in old (mem c')
    (set_ctx_csrs (csr_get Mepc (cf c)) (csr_get Mstatus (cf c))
       (copy_frame_to_ctx (frame_of (rf (set_reg A1 new (set_reg A0 old c)))) ctx)) ∧
  (∀ x, x < old ∨ old + 264 ≤ x → mem c' x = mem c x).
Proof.
  intros Ho Ho' Hn Hn' Hdis Hu Hme Hms Hctx. unfold context_switch. cbn zeta.
  set (me := csr_get Mepc (cf c)) in *. set (ms := csr_get Mstatus (cf c)) in *.
  set (m0 := store64 (old + 256) ms _). set (c1 := set_reg A1 new (set_reg A0 old (set_mem m0 c))).
  assert (rf c1 = rf (set_reg A1 new (set_reg A0 old c))) as Hrf by reflexivity.
  rewrite switch_split, exec_app, exec_saves; [|done|simpl; lia]. change (rf c1 A0) with old.
  set (m1 := store_from old 0 (rf c1 <$> gpr_order) (mem c1)).
  assert (∀ x, x < old ∨ old + 264 ≤ x → m1 x = mem c x) as Hout.
  { intros x Hx. unfold m1. rewrite store_from_out by (rewrite length_fmap; simpl; lia).
    simpl. unfold m0. rewrite !store64_out by lia. done. }
  assert (∀ i, (i < 33)%nat → load64 (new + 8 * Z.of_nat i) m1 = load64 (new + 8 * Z.of_nat i) (mem c)) as Hnew.
  { intros i Hi. apply load64_ext. intros x Hx. apply Hout. lia. }
  destruct (switch_loads (set_mem m1 c1) new) as (H1 & H2 & H3 & H4 & H5); [done..|].
  set (c' := exec _ (set_mem m1 c1)) in *. clearbody c'. cbn [mem set_mem] in *.
  destruct (context_words new (mem c) ctx Hctx) as (Hw & Hw31 & Hw32).
  rewrite Hnew, Hw31 in H3 by lia. rewrite Hnew, Hw32 in H4, H5 by lia. split_all.
  - apply frame_of_eq. rewrite H1. transitivity ((λ i, load64 (new + 8 * Z.of_nat i) (mem c)) <$> seq 0 31);
      [|by rewrite Hw; destruct ctx].
    apply list_fmap_ext. intros i x Hx. apply lookup_seq in Hx as [-> Hi]. apply Hnew. lia.
  - rewrite H5. apply csr_get_put_eq.
  - rewrite H2. unfold context_in. rewrite context_extends_frame, <- Hrf, frame_of_list.
    unfold m1. change (mem c1) with m0. unfold m0. rewrite words_saved; [done| |done|done].
    apply Forall_fmap, Forall_true. intros r. simpl. repeat case_decide; [split; lia..|apply Hu].
  - intros x Hx. rewrite H2. by apply Hout.
Qed.

(** ** Witnesses *)

Module asm_sample.
Definition start : cpu :=
  mkCpu (λ r, if decide (r = Sp) then 0x80020000 else 5) (λ _, 0)
    (mkCsrFile 0x80 0x80 0x80004010 8 0 0x80000020 0) 0x80004010 UMode.

Definition zero_context : TaskContext.t := set_ctx_csrs 0 0 (TaskContext.new_umode 0 0).

Lemma context_switch_correct_witness :
  let c' := context_switch 0x1000 0x2000 start in
  frame_of (rf c') = copy_ctx_to_frame zero_context (frame_of (rf start)) ∧ pc c' = 0 ∧ mode c' = UMode.
Proof.
  destruct (context_switch_correct 0x1000 0x2000 start zero_context) as (Hf & Hp & Hm & _);
    [lia..| |split; vm_compute; congruence|split; vm_compute; congruence|vm_compute; reflexivity|].
  - intros r. simpl. case_decide; split; vm_compute; congruence.
  - split; [exact Hf|]. split; [exact Hp|exact Hm].
Defined.
End asm_sample.
