(* ===== verification/Boot.v ===== *)
(** Boot: [crates/kernel/src/main.rs].

    [kmain] and its helpers in the order of the source.  [kmain] does not return;
    the model's result is the state in which it enters its final [wfi] loop.  The
    theorem shows that on any image that links, any behaviour of the devices that
    lets the console make progress, and both build profiles, boot gets there, and
    what the machine then looks like. *)

From S2P Require Import Prelude Config Machine Serial PmpHw Linker Pmp PmpAccess Allocator Sync.
From S2P Require Import Timer Registers Policy Task Kernel Scheduler SchedulerProps TaskSpec.
From S2P Require Import Trap Asm.

Local Open Scope Z_scope.

#[local] Arguments csr_get : simpl never.
#[local] Arguments csr_put : simpl never.

(** ** Before [kmain] *)

Definition store8 (a v : Z) (m : memory) : memory := λ x, if x =? a then v else m x.

(** The loop of [clear_bss]; [None] when [fuel] does not suffice. *)
Fixpoint clear_bss_loop (fuel : nat) (ptr endp : Z) (m : memory) : option memory :=
  if ptr <? endp then
    match fuel with
    | O => None
    | S f => clear_bss_loop f (ptr + 1) endp (store8 ptr 0 m)
    end
  else Some m.

Section bss.
Context `{I : Image}.

(** One iteration per byte of [.bss]. *)
Definition clear_bss (m : memory) : option memory :=
  clear_bss_loop (Z.to_nat (_ebss - _sbss)) _sbss _ebss m.

(** Where [_start] sends a hart: hart 0 to [kmain] on the kernel stack and with
    cleared [.bss], the others to the parking loop. *)
Inductive start_outcome := Parked | Enter_kmain (sp : Z) (m : memory).

Definition _start (mhartid : Z) (m : memory) : option start_outcome :=
  if mhartid =? 0 then m' ← clear_bss m; Some (Enter_kmain _stack_top m') else Some Parked.
End bss.

(** ** [kmain] *)

Section kmain.
Context `{E : Env} `{B : SerialBackend} `{I : Image}.

Definition print_banner : M Kernel unit :=
  on_hw s_init;;
  on_hw (println [Lit "CyptOS v0.1.0"]);;
  on_hw (println [Lit "RV64 bare-metal microkernel"]);;
  on_hw (println [Lit "----------------------------"]).

(** [vec![1u8, 2, 3]]: one allocation, freed at the end of the block. *)
Definition init_heap : M Kernel unit :=
  on_alloc (bump_init _sheap _eheap);;
  on_hw (puts_str ("[alloc] Heap initialized" +:+ nl));;
  match from_size_align 3 1 with
  | None => panic "capacity overflow"
  | Some layout =>
    v ← on_alloc (alloc layout);
    if v =? 0 then panic "memory allocation of 3 bytes failed" else
    on_hw (println [Lit "[alloc] Test alloc ok, len="; Dec 3]);;
    on_alloc (dealloc v layout)
  end.

(** The three lines that announce a task. *)
Definition announce (what : string) (t : TaskId) : M Kernel unit :=
  on_hw (puts_str what);;
  on_hw (s_put_dec (tid t));;
  on_hw (puts_str nl).

Definition spawn_idle_task : M Kernel unit :=
  idle_id ← spawn (machine idle_task_entry_addr);
  announce "[sched] idle task created: " idle_id.

Definition spawn_echo_task (user_text_base : Z) : M Kernel unit :=
  task0_id ← spawn (user user_echo_task_addr user_text_base 0x1000 [(UART_BASE, 0x1000)]);
  announce "[sched] task created: " task0_id.

Definition spawn_violation_task (user_text_base : Z) : M Kernel unit :=
  task1_id ← spawn (user user_violation_task_addr user_text_base 0x1000 []);
  announce "[sched] task created: " task1_id.

(** The last message is printed with interrupts enabled: [said] is what has been
    printed of it when the first interrupt is taken. *)
Definition start_scheduler_saying (said : string) : M Kernel unit :=
  Scheduler.init;;
  on_hw enable_interrupts;;
  on_hw (puts_str said).

Definition started_message : string := "[kernel] Scheduler started — idle task handles wfi" +:+ nl.

Definition start_scheduler : M Kernel unit := start_scheduler_saying started_message.

Definition kmain_saying (said : string) : M Kernel unit :=
  print_banner;;
  init_heap;;
  trap_init;;
  on_hw Pmp.init;;
  on_hw timer_init;;
  spawn_idle_task;;
  let user_text_base := _user_text_start in
  spawn_echo_task user_text_base;;
  spawn_violation_task user_text_base;;
  start_scheduler_saying said.

(** [kmain] up to its final loop, when no interrupt comes before. *)
Definition kmain : M Kernel unit := kmain_saying started_message.

(** The panic handler: the location of the [PanicInfo] is the file and the line
    of the [panic!].  It ends in a [wfi] loop. *)
Definition panic_handler {A} (location : option (string * Z)) : M Kernel A :=
  on_hw (println [Lit (nl +:+ "!!! KERNEL PANIC !!!")]);;
  match location with
  | Some (file, line) => on_hw (println [Lit "at "; Lit file; Lit ":"; Dec line])
  | None => mret tt
  end;;
  spin.
End kmain.

(** ** [.bss] *)

Lemma clear_bss_loop_spec fuel ptr endp m :
  endp - ptr ≤ Z.of_nat fuel →
  ∃ m', clear_bss_loop fuel ptr endp m = Some m' ∧
    ∀ x, m' x = if (ptr <=? x) && (x <? endp) then 0 else m x.
Proof.
  revert ptr m. induction fuel as [|f IH]; intros ptr m Hf; simpl.
  - rewrite (proj2 (Z.ltb_ge ptr endp)) by lia. exists m. split; [done|]. intros x.
    destruct (Z.leb_spec ptr x), (Z.ltb_spec x endp); try done; lia.
  - destruct (Z.ltb_spec ptr endp) as [Hlt|Hge].
    + destruct (IH (ptr + 1) (store8 ptr 0 m)) as (m' & Hrun & Hm); [lia|].
      exists m'. split; [done|]. intros x. rewrite Hm. unfold store8.
      destruct (Z.leb_spec (ptr + 1) x), (Z.ltb_spec x endp), (Z.eqb_spec x ptr), (Z.leb_spec ptr x); try done; lia.
    + exists m. split; [done|]. intros x.
      destruct (Z.leb_spec ptr x), (Z.ltb_spec x endp); try done; lia.
Qed.

(** ** Console steps *)

(** [k'] is [k] after console output only. *)
Definition console `{B : SerialBackend} (k k' : Kernel) : Prop :=
  ∃ h' out, k' = hw_upd h' k ∧ prints out (k_hw k) h'.

Section console.
Context `{E : Env} `{B : SerialBackend} `{L : !SerialLaws B}.

Lemma console_ready k k' : console k k' → s_ready (k_hw k').
Proof. intros (h' & out & -> & Hp). apply Hp. Qed.

Lemma console_refl k : s_ready (k_hw k) → console k k.
Proof. intros Hr. exists (k_hw k), []. split; [by destruct k|by apply prints_refl]. Qed.

Lemma console_trans k1 k2 k3 : console k1 k2 → console k2 k3 → console k1 k3.
Proof.
  intros (h2 & o2 & -> & H2) (h3 & o3 & -> & H3). exists h3, (o2 ++ o3). split; [done|].
  by eapply prints_trans.
Qed.

(** The bind rule for a step that only prints. *)
Lemma wp_console {A} (m : M Kernel unit) (f : unit → M Kernel A) Q k :
  wp m (λ _, console k) k → (∀ k', console k k' → wp (f tt) Q k') → wp (m ≫= f) Q k.
Proof. intros Hm Hf. apply wp_bind. eapply wp_mono; [done|]. intros [] k' Hk'. by apply Hf. Qed.

Lemma println_console ps k : s_ready (k_hw k) → wp (on_hw (println ps)) (λ _, console k) k.
Proof.
  intros Hr. apply wp_on_hw. eapply wp_mono; [by apply println_prints|]. intros [] h' Hp. by eexists h', _.
Qed.

(** A panic halts the kernel with its message on the console and nothing else
    changed: no task runs again. *)
Lemma panic_handler_halts {A} location k :
  s_ready (k_hw k) → ∃ k', panic_handler (A := A) location k = Spin k' ∧ console k k'.
Proof.
  intros Hr. unfold panic_handler.
  destruct (wp_elim _ _ _ (println_console [Lit (nl +:+ "!!! KERNEL PANIC !!!")] k Hr))
    as ([] & k1 & Hk1 & Hc1).
  erewrite bind_Ok by exact Hk1. destruct location as [[file line]|]; [|by exists k1].
  destruct (wp_elim _ _ _ (println_console [Lit "at "; Lit file; Lit ":"; Dec line] k1
    (console_ready _ _ Hc1))) as ([] & k2 & Hk2 & Hc2).
  erewrite bind_Ok by exact Hk2. exists k2. split; [done|]. by eapply console_trans.
Qed.

Lemma puts_console s k : s_ready (k_hw k) → wp (on_hw (puts_str s)) (λ _, console k) k.
Proof.
  intros Hr. apply wp_on_hw. eapply wp_mono; [by apply puts_law|]. intros [] h' Hp. by eexists h', _.
Qed.

Lemma announce_console what t k : u64 (tid t) → s_ready (k_hw k) → wp (announce what t) (λ _, console k) k.
Proof.
  intros Hu Hr. eapply wp_mono; [by apply announce_run|]. intros [] k' (h' & Hp & ->). by eexists h', _.
Qed.

Lemma banner_console k : wp print_banner (λ _, console k) k.
Proof.
  unfold print_banner. apply wp_console.
  { apply wp_on_hw. eapply wp_mono; [apply init_law|]. intros [] h' Hp. by exists h', []. }
  intros k1 H1. apply wp_console; [by apply println_console, (console_ready k)|].
  intros k2 H2. apply wp_console; [by apply println_console, (console_ready k1)|].
  intros k3 H3. eapply wp_mono; [by apply println_console, (console_ready k2)|].
  intros [] k4 H4. eapply console_trans; [done|]. eapply console_trans; [done|]. by eapply console_trans.
Qed.
End console.

(** ** The heap *)

Section heap.
Context `{E : Env} `{B : SerialBackend} `{L : !SerialLaws B} `{I : Image} `{IO : !ImageOk I}.

Lemma heap_layout : 0x80000000 < _sheap ∧ _eheap = _sheap + 0x1000000 ∧ _eheap ≤ 0x88000000 ∧ _sheap mod 4096 = 0.
Proof.
  pose proof text_layout as Ht. pose proof data_layout as Hd. rewrite _stext_val in Ht.
  unfold KERNEL_STACK_SIZE, KERNEL_HEAP_SIZE in *. lia.
Qed.

(** The allocator after [init_heap]: three bytes are gone for good. *)
Definition boot_heap : BumpAllocator := mkBump _sheap _eheap (_sheap + 3).

Lemma boot_heap_wf : bump_wf boot_heap.
Proof. pose proof heap_layout. constructor; simpl; lia. Qed.

Lemma init_heap_spec k : s_ready (k_hw k) →
  wp init_heap (λ _ k', console (set_alloc boot_heap k) k') k.
Proof.
  intros Hr. pose proof heap_layout as Hh. unfold init_heap. apply wp_bind. eapply wp_intro; [reflexivity|].
  apply wp_console; [by apply puts_console|]. intros k1 H1.
  assert (k_alloc k1 = mkBump _sheap _eheap _sheap) as Ha by (by destruct H1 as (h' & out & -> & _)).
  change (from_size_align 3 1) with (Some (mkLayout 3 1)).
  assert (alloc (mkLayout 3 1) (k_alloc k1) = Ok _sheap boot_heap) as Hal.
  { rewrite Ha, alloc_spec; [|by apply (from_size_align_ok 3 1)|constructor; simpl; lia]. cbn [l_align l_size next].
    assert (round_up _sheap 1 = _sheap) as -> by (unfold round_up; rewrite Z.div_1_r; lia).
    rewrite (proj2 (Z.ltb_ge _ _)) by (simpl; lia). done. }
  apply wp_bind. eapply wp_intro; [unfold on_alloc; rewrite Hal; reflexivity|].
  rewrite (proj2 (Z.eqb_neq _sheap 0)) by lia.
  assert (s_ready (k_hw (set_alloc boot_heap k1))) as Hr1 by (by apply (console_ready _ k1) in H1).
  apply wp_console; [by apply println_console|]. intros k2 H2. eapply wp_intro; [reflexivity|].
  destruct H1 as (h1 & o1 & -> & Hp1), H2 as (h2 & o2 & -> & Hp2). exists h2, (o1 ++ o2).
  split; [done|]. by eapply prints_trans.
Qed.
End heap.

(** ** Spawning at boot *)

Section spawning.
Context `{E : Env} `{B : SerialBackend} `{L : !SerialLaws B}.

Lemma region_valid_pow2 b f n : 3 ≤ n → b mod 2 ^ n = 0 → region_valid (mkPmpRegion b (2 ^ n) f) = true.
Proof.
  intros Hn Hb. assert (2 ^ 3 ≤ 2 ^ n) by (apply Z.pow_le_mono_r; lia).
  unfold region_valid. cbn [size base]. rewrite !andb_true_iff, Z.leb_le, Z.eqb_eq. split; [split; [lia|]|].
  - apply is_power_of_two_spec. exists n. split; [lia|done].
  - replace (2 ^ n - 1) with (Z.ones n) by (rewrite Z.ones_equiv; lia). by rewrite Z.land_ones by lia.
Qed.

(** A task is spawned and announced. *)
Lemma spawn_step self what h s e x st n i p :
  stack_at (mkBump s e x) = p → sched_wf st → bump_wf (mkBump s e x) → e ≤ 2 ^ 56 → spec_in_range self →
  p + TASK_STACK_SIZE ≤ e → requests_ok (spec_requests self p) = true → free_slot st = Some i → s_ready h →
  let st' := added i (spawned self i p) st in
  let a' := mkBump s e (p + TASK_STACK_SIZE) in
  wp (t ← spawn self; announce what t) (λ _ k', ∃ h' out,
    k' = mkKernel h' a' st' n ∧ prints out h h' ∧ sched_wf st' ∧ bump_wf a') (mkKernel h (mkBump s e x) st n).
Proof.
  intros <- Hwf Ha He Hr Hge Hok Hf Hs st' a'.
  destruct (spawn_success self (mkKernel h (mkBump s e x) st n) i Hwf Ha He Hr Hge Hok Hf) as (Hrun & Hwf' & Ha').
  apply wp_bind. eapply wp_intro; [exact Hrun|]. destruct (free_slot_Some _ _ Hf) as [Hi _].
  eapply wp_mono; [apply announce_console; [by apply small_index|done]|].
  intros [] k' (h' & out & -> & Hp). by exists h', out.
Qed.

(** An aligned bump pointer is the next stack. *)
Lemma stack_at_aligned s e p : p mod TASK_STACK_SIZE = 0 → stack_at (mkBump s e p) = p.
Proof.
  intros Hp. unfold stack_at. simpl. unfold TASK_STACK_SIZE, TASK_STACK_ALIGN in *.
  destruct (round_up_spec p 8192) as [Hr Hm]; [lia|].
  pose proof (Z.div_mod p 8192). pose proof (Z.div_mod (round_up p 8192) 8192). lia.
Qed.

Context `{I : Image} `{IO : !ImageOk I}.

Definition boot_stack : Z := stack_at boot_heap.

Lemma boot_stack_spec : _sheap + 3 ≤ boot_stack < _sheap + 3 + 8192 ∧ boot_stack mod 8192 = 0.
Proof. exact (round_up_spec (_sheap + 3) 8192 ltac:(lia)). Qed.

Definition echo_spec : TaskSpec := user user_echo_task_addr _user_text_start 0x1000 [(UART_BASE, 0x1000)].
Definition violation_spec : TaskSpec := user user_violation_task_addr _user_text_start 0x1000 [].

Lemma user_spec_ok entry mmio p :
  mmio = [] ∨ mmio = [(UART_BASE, 0x1000)] → p mod 8192 = 0 →
  let self := user entry _user_text_start 0x1000 mmio in
  spec_in_range self ∧ requests_ok (spec_requests self p) = true.
Proof.
  intros Hm Hp. pose proof text_layout as Ht. pose proof data_layout as Hd. rewrite _stext_val in Ht.
  unfold KERNEL_STACK_SIZE, KERNEL_HEAP_SIZE in *.
  assert (in_range (mkPmpRegion _user_text_start 0x1000 0)) as Hr by (unfold in_range; simpl; lia).
  assert (region_valid (mkPmpRegion _user_text_start 0x1000 flags.RX) = true) as Hv1
    by (apply (region_valid_pow2 _ _ 12); [lia|apply Ht]).
  assert (region_valid (mkPmpRegion p TASK_STACK_SIZE flags.RW) = true) as Hv2
    by (apply (region_valid_pow2 _ _ 13); [lia|exact Hp]).
  destruct Hm as [-> | ->]; (split; [split; [exact Hr|]|]).
  - constructor.
  - unfold requests_ok. simpl. by rewrite Hv1, Hv2.
  - constructor; [|constructor]. unfold in_range, UART_BASE. simpl. lia.
  - unfold requests_ok. simpl. rewrite Hv1, Hv2. done.
Qed.

(** The task table after boot: stacks one above the other from [boot_stack]. *)
Definition boot_table : SchedulerState :=
  let p := boot_stack in
  mkSched None
    [Some (set_state Ready (spawned (machine idle_task_entry_addr) 0 p));
     Some (set_state Ready (spawned echo_spec 1 (p + 8192)));
     Some (set_state Ready (spawned violation_spec 2 (p + 16384))); None].

(** The three tasks are spawned into the empty table. *)
Lemma spawn_all_spec h n :
  s_ready h →
  wp (spawn_idle_task;; spawn_echo_task _user_text_start;; spawn_violation_task _user_text_start)
    (λ _ k', ∃ h' out st, k' = mkKernel h' (mkBump _sheap _eheap (boot_stack + 24576)) st n ∧
       prints out h h' ∧ sched_wf st ∧ bump_wf (k_alloc k') ∧ promoted st = boot_table)
    (mkKernel h boot_heap SCHEDULER n).
Proof.
  intros Hr. pose proof heap_layout as Hh. pose proof boot_stack_spec as [Hp Hpm].
  assert (boot_stack + 8192 = boot_stack + 1 * 8192) as E1 by lia.
  assert (boot_stack + 8192 + 8192 = boot_stack + 2 * 8192) as E2 by lia.
  assert ((boot_stack + 8192) mod 8192 = 0) as Hal1 by (rewrite E1; by rewrite Z_mod_plus_full).
  assert ((boot_stack + 8192 + 8192) mod 8192 = 0) as Hal2 by (rewrite E2; by rewrite Z_mod_plus_full).
  apply wp_bind. eapply wp_mono.
  { apply (spawn_step _ _ _ _ _ _ _ _ 0 boot_stack); try done; [apply SCHEDULER_wf|apply boot_heap_wf|lia|].
    unfold TASK_STACK_SIZE. lia. }
  intros [] ? (h1 & o1 & -> & Hp1 & Hwf1 & Ha1).
  destruct (user_spec_ok user_echo_task_addr [(UART_BASE, 0x1000)] (boot_stack + 8192)) as [Hr1 Hq1]; [by right|done|].
  apply wp_bind. eapply wp_mono.
  { apply (spawn_step echo_spec _ _ _ _ _ _ _ 1 (boot_stack + 8192)); try done; [by apply stack_at_aligned|lia| |apply Hp1].
    unfold TASK_STACK_SIZE. lia. }
  intros [] ? (h2 & o2 & -> & Hp2 & Hwf2 & Ha2).
  destruct (user_spec_ok user_violation_task_addr [] (boot_stack + 8192 + 8192)) as [Hr2 Hq2]; [by left|done|].
  eapply wp_mono.
  { apply (spawn_step violation_spec _ _ _ _ _ _ _ 2 (boot_stack + 8192 + 8192)); try done;
      [by apply stack_at_aligned|lia| |apply Hp2].
    unfold TASK_STACK_SIZE. lia. }
  intros [] ? (h3 & o3 & -> & Hp3 & Hwf3 & Ha3).
  assert (boot_stack + 8192 + 8192 + TASK_STACK_SIZE = boot_stack + 24576) as Hend by (unfold TASK_STACK_SIZE; lia).
  rewrite Hend in Ha3 |- *. eexists h3, _, _. split; [reflexivity|].
  split; [eapply prints_trans; [done|]; by eapply prints_trans|]. split; [exact Hwf3|]. split; [exact Ha3|].
  replace (boot_stack + 8192 + 8192) with (boot_stack + 16384) by lia. reflexivity.
Qed.
End spawning.

(** ** The boot sequence *)

Lemma wp_seq3 {S A} (m1 m2 m3 : M S unit) (m4 : M S A) Q s :
  wp ((m1;; m2;; m3);; m4) Q s → wp (m1;; m2;; m3;; m4) Q s.
Proof.
  unfold wp, mbind, M_bind. destruct (m1 s) as [[] s1|e s1|s1]; [|done..].
  destruct (m2 s1) as [[] s2|e s2|s2]; [|done..]. by destruct (m3 s2) as [[] s3|e s3|s3].
Qed.

(** The CSRs when [kmain] enters its final loop: the trap vector installed, the
    timer interrupt and interrupts globally enabled. *)
Definition boot_csrs `{I : Image} (c : CsrFile) : CsrFile :=
  let c1 := csr_put Mtvec trap_vector_addr c in
  let c2 := csr_put Mie (Z.lor (csr_get Mie c1) mie.MTIE) c1 in
  csr_put Mstatus (Z.lor (csr_get Mstatus c2) mstatus.MIE) c2.

Section boot.
Context `{E : Env} `{B : SerialBackend} `{L : !SerialLaws B} `{I : Image} `{IO : !ImageOk I} `{CK : !ClockOk E}.

Lemma kmain_saying_spec said k :
  pmp_wf (pmp (k_hw k)) → (∀ i, cfg_locked (cfg_at (pmp (k_hw k)) i) = false) → k_sched k = SCHEDULER →
  wp (kmain_saying said) (λ _ k', ∃ now, k_sched k' = boot_table ∧ kernel_ok k' ∧ k_ticks k' = k_ticks k ∧
    k_alloc k' = mkBump _sheap _eheap (boot_stack + 24576) ∧ bump_wf (k_alloc k') ∧
    pmp (k_hw k') = kernel_regs ∧ csrs (k_hw k') = boot_csrs (csrs (k_hw k)) ∧
    off_uart (trace (k_hw k')) =
      [Wr64 (CLINT_BASE + MTIMECMP_OFFSET) (now + 100000); Rd64 (CLINT_BASE + MTIME_OFFSET) now;
       Wr64 (CLINT_BASE + MTIMECMP_OFFSET) u64_max] ++ off_uart (trace (k_hw k))) k.
Proof.
  destruct k as [h al st n]. cbn [k_hw k_sched k_ticks]. intros Hpw Hpl ->. unfold kmain_saying.
  apply wp_console; [apply banner_console|]. intros ? (h1 & o1 & -> & Hp1).
  apply wp_bind. eapply wp_mono; [apply init_heap_spec, Hp1|].
  intros [] ? (h2 & o2 & -> & Hp2). cbn [hw_upd Kernel_HasHw set_alloc k_hw k_alloc k_sched k_ticks] in *.
  apply wp_bind. unfold trap_init. apply wp_bind. eapply wp_intro; [reflexivity|].
  cbn [hw_upd hw_of Kernel_HasHw k_hw k_alloc k_sched k_ticks]. set (h3 := hw_set_csrs _ h2).
  eapply wp_mono; [apply println_console; by apply (ready_frame h2); [|apply Hp2]|].
  intros [] ? (h4 & o4 & -> & Hp4). cbn [hw_upd Kernel_HasHw k_hw k_alloc k_sched k_ticks] in *.
  assert (pmp h4 = pmp h) as Hp4'
    by (transitivity (pmp h3); [apply Hp4|]; transitivity (pmp h1); [apply Hp2|apply Hp1]).
  apply wp_bind, wp_on_hw. cbn [k_hw].
  eapply wp_mono; [apply init_spec; rewrite ?Hp4'; [done|done|apply Hp4]|].
  intros [] h5 (Hk5 & Hc5 & Hr5 & Hb5 & _). cbn [hw_upd Kernel_HasHw k_alloc k_sched k_ticks].
  apply wp_bind, wp_on_hw. cbn [k_hw].
  eapply wp_mono; [apply timer_init_spec; [apply clock_ok|done]|].
  intros [] h6 (Hk6 & Hc6 & Hr6 & Hb6). cbn [hw_upd Kernel_HasHw k_alloc k_sched k_ticks].
  cbn zeta. apply wp_seq3, wp_bind. eapply wp_mono; [by apply spawn_all_spec|].
  intros [] ? (h7 & o7 & st7 & -> & Hp7 & Hwf7 & Ha7 & Hst7).
  unfold start_scheduler_saying. apply wp_bind. eapply wp_intro; [by apply init_run|]. cbn [k_sched].
  rewrite Hst7. apply wp_bind. eapply wp_intro; [reflexivity|].
  cbn [hw_upd hw_of Kernel_HasHw set_sched k_hw k_alloc k_sched k_ticks]. set (h8 := hw_set_csrs _ h7).
  eapply wp_mono; [apply puts_console; by apply (ready_frame h7); [|apply Hp7]|].
  intros [] ? (h9 & o9 & -> & Hp9). cbn [hw_upd Kernel_HasHw k_hw k_alloc k_sched k_ticks] in *.
  assert (pmp h9 = kernel_regs) as Hpmp
    by (transitivity (pmp h8); [apply Hp9|]; transitivity (pmp h6); [apply Hp7|by rewrite Hk6]).
  eexists. split; [done|]. split; [split|split_all].
  - cbn. rewrite <- Hst7. by apply promoted_wf.
  - split; cbn; [|apply Hp9]. rewrite Hpmp. apply kernel_regs_ready.
  - rewrite (prints_csrs _ _ _ Hp9). unfold h8. cbn [csrs hw_set_csrs].
    rewrite (prints_csrs _ _ _ Hp7), Hc6, Hc5, (prints_csrs _ _ _ Hp4). unfold h3. cbn [csrs hw_set_csrs].
    rewrite (prints_csrs _ _ _ Hp2), (prints_csrs _ _ _ Hp1). reflexivity.
  - rewrite (prints_bus _ _ _ Hp9). unfold h8. cbn [trace hw_set_csrs].
    rewrite (prints_bus _ _ _ Hp7), Hb6, Hb5, (prints_bus _ _ _ Hp4). unfold h3. cbn [trace hw_set_csrs].
    by rewrite (prints_bus _ _ _ Hp2), (prints_bus _ _ _ Hp1).
Qed.
End boot.

(** ** Properties *)

(** C36: before the kernel's Rust code runs, hart 0 clears [.bss]: the loop ends,
    the bytes from [_sbss] to [_ebss] are zero, no other byte has changed, and
    [kmain] is entered on the kernel stack; every other hart is parked. *)
Theorem start_clears_bss `{I : Image} mhartid m :
  if mhartid =? 0 then
    ∃ m', _start mhartid m = Some (Enter_kmain _stack_top m') ∧
      ∀ x, m' x = if (_sbss <=? x) && (x <? _ebss) then 0 else m x
  else _start mhartid m = Some Parked.
Proof.
  unfold _start. destruct (mhartid =? 0); [|done].
  destruct (clear_bss_loop_spec (Z.to_nat (_ebss - _sbss)) _sbss _ebss m) as (m' & Hrun & Hm); [lia|].
  exists m'. unfold clear_bss. rewrite Hrun. done.
Qed.

(** C14: boot.  From a reset machine (no PMP entry locked, empty task table) and
    for any linkable image, [kmain] reaches its final loop with a well-formed
    kernel: idle, the echo task and the violation task are ready in slots 0, 1
    and 2, with distinct 8 KiB stacks inside the heap, the user tasks in user
    mode with their regions; the kernel's PMP entries are locked in place, the
    trap vector is installed, the timer armed, interrupts enabled. *)
Theorem boot_succeeds `{E : Env} `{B : SerialBackend} `{L : !SerialLaws B} `{I : Image} `{IO : !ImageOk I}
    `{CK : !ClockOk E} k :
  pmp_wf (pmp (k_hw k)) → (∀ i, cfg_locked (cfg_at (pmp (k_hw k)) i) = false) → k_sched k = SCHEDULER →
  ∃ k' p, kmain k = Ok tt k' ∧ kernel_ok k' ∧ current (k_sched k') = None ∧
    _sheap < p ∧ p mod 8192 = 0 ∧ p + 3 * 8192 ≤ _eheap ∧
    task_of (k_sched k') 0 = Some (set_state Ready (mmode_task 0 idle_task_entry_addr (p + 8192))) ∧
    task_of (k_sched k') 1 = Some (set_state Ready (user_task 1 user_echo_task_addr (p + 8192 + 8192)
      (laid_out (user_requests _user_text_start 0x1000 (p + 8192) [(UART_BASE, 0x1000)])))) ∧
    task_of (k_sched k') 2 = Some (set_state Ready (user_task 2 user_violation_task_addr (p + 16384 + 8192)
      (laid_out (user_requests _user_text_start 0x1000 (p + 16384) [])))) ∧
    task_of (k_sched k') 3 = None ∧
    pmp (k_hw k') = kernel_regs ∧ csrs (k_hw k') = boot_csrs (csrs (k_hw k)) ∧
    (∃ now, mtimecmp_of (trace (k_hw k')) = Some (now + 100000)).
Proof.
  intros Hpw Hpl Hst.
  destruct (wp_elim _ _ _ (kmain_saying_spec started_message k Hpw Hpl Hst)) as ([] & k' & Hrun & now & Hs & Hk & _ & _ & _ & Hp & Hc & Ht).
  pose proof heap_layout as Hh. pose proof boot_stack_spec as [Hb Hm].
  exists k', boot_stack. rewrite Hs. split; [done|]. split; [done|]. split; [done|]. split; [lia|].
  split; [done|]. split; [lia|]. do 4 (split; [reflexivity|]). split; [done|]. split; [done|].
  exists now. rewrite <- mtimecmp_off_uart, Ht. reflexivity.
Qed.

(** A kernel at reset: the statics have their initial values. *)
Definition ALLOCATOR : BumpAllocator := bump_new.

Definition reset_kernel : Kernel := mkKernel hw_reset ALLOCATOR SCHEDULER TICK_COUNT.

Lemma boot_succeeds_witness :
  let E := quiet_board true in
  let B := uart16550_backend (E := E) in
  let I := sample_image in
  ∃ k' p, kmain (E := E) (B := B) (I := I) reset_kernel = Ok tt k' ∧ kernel_ok (B := B) (I := I) k' ∧
    current (k_sched k') = None ∧ _sheap (I := I) < p ∧ p mod 8192 = 0 ∧ p + 3 * 8192 ≤ _eheap (I := I) ∧
    task_of (k_sched k') 3 = None ∧ pmp (k_hw k') = kernel_regs (I := I).
Proof.
  intros E B I.
  destruct (boot_succeeds (E := E) (B := B) (I := I) (CK := trap_sample.clock) reset_kernel)
    as (k' & p & H1 & H2 & H3 & H4 & H5 & H6 & _ & _ & _ & H7 & H8 & _).
  - apply zero_regs_wf.
  - intros i. destruct (Nat.lt_ge_cases i 16) as [Hi|Hi].
    + unfold cfg_at, reset_kernel, hw_reset, k_hw, pmp, pmpcfg. by rewrite lookup_replicate_2.
    + by rewrite cfg_at_ge by (apply zero_regs_wf || done).
  - reflexivity.
  - exists k', p. exact (conj H1 (conj H2 (conj H3 (conj H4 (conj H5 (conj H6 (conj H7 H8))))))).
Defined.
