(* ===== verification/System.v ===== *)
(** The running system: the processor, its traps and the kernel together.

    A state is the kernel with the registers, program counter and privilege mode
    of whatever is executing.  Steps are: the current code runs (any change of
    its registers and program counter), or a trap is taken, which is the
    hardware's trap entry, [trap_handler] on the saved registers, and [mret].
    [trap_vector_exact] (file Asm) is what makes the frame the registers.

    The model is of tasks that leave the kernel's data and the devices to the
    kernel, and of traps whose frame is stored in ordinary memory that nothing
    here depends on.  The CSRs are out of reach of user mode, but kernel data and
    UART are not ([protection_exact]), and neither is the place of the frame
    checked ([trap_frame_stores]).  File Resident has the machine in which both
    are in memory and proves it to refine this one under explicit conditions;
    file Guarded states what follows for that machine.

    The invariant: every task returns to the privilege mode it was created with,
    idle never dies, and a task that is current is running. *)

From S2P Require Import Prelude Config Machine Serial PmpHw Linker Pmp PmpAccess Sync Timer.
From S2P Require Import Registers Policy Task Kernel Scheduler SchedulerProps Trap Asm Boot.

Local Open Scope Z_scope.

#[local] Arguments csr_get : simpl never.
#[local] Arguments csr_put : simpl never.

(** ** Hardware trap entry *)

Definition mode_code (m : priv) : Z := match m with PmpHw.UMode => 0 | PmpHw.MMode => 3 end.

(** MPIE becomes MIE, MIE becomes 0, MPP becomes the interrupted mode. *)
Definition trap_mstatus (m : priv) (v : Z) : Z :=
  let v1 := if Z.testbit v 3 then Z.lor v (Z.shiftl 1 7) else Z.ldiff v (Z.shiftl 1 7) in
  let v2 := Z.ldiff (Z.ldiff v1 (Z.shiftl 1 3)) (Z.shiftl 3 11) in
  Z.lor v2 (Z.shiftl (mode_code m) 11).

Definition trap_csrs (m : priv) (pc cause tval : Z) (c : CsrFile) : CsrFile :=
  csr_put Mtval tval (csr_put Mcause cause (csr_put Mepc pc
    (csr_put Mstatus (trap_mstatus m (csr_get Mstatus c)) c))).

(** ** States and steps *)

Record Sys := mkSys { s_k : Kernel; s_gpr : TrapFrame.t; s_pc : Z; s_mode : priv }.

(** The kernel on entry to the handler: [trap_vector] has used [mscratch] for the
    interrupted stack pointer. *)
Definition trapped_kernel (s : Sys) (cause tval : Z) : Kernel :=
  hw_upd (hw_set_csrs (csr_put Mscratch (TrapFrame.sp (s_gpr s))
    (trap_csrs (s_mode s) (s_pc s) cause tval (csrs (k_hw (s_k s))))) (k_hw (s_k s))) (s_k s).

(** [mret] with the frame [frame] restored. *)
Definition returned (k : Kernel) (frame : TrapFrame.t) : Sys :=
  let m := csr_get Mstatus (csrs (k_hw k)) in
  mkSys (hw_upd (hw_set_csrs (csr_put Mstatus (mret_mstatus m) (csrs (k_hw k))) (k_hw k)) k)
    frame (csr_get Mepc (csrs (k_hw k))) (mpp_priv m).

(** Interrupts are taken in user mode, or when enabled; exceptions come from
    user code: the machine-mode code that runs outside the handler is two [wfi]
    loops. *)
Definition may_trap (s : Sys) (cause : Z) : Prop :=
  u64 cause ∧
  (if 2 ^ 63 <=? cause then s_mode s = PmpHw.UMode ∨ mie_bit (csr_get Mstatus (csrs (k_hw (s_k s)))) = true
   else s_mode s = PmpHw.UMode).

Inductive sys_step `{E : Env} `{B : SerialBackend} : Sys → Sys → Prop :=
| step_run k gpr pc m gpr' pc' :
    0 ≤ pc' < 2 ^ 64 - 4 → sys_step (mkSys k gpr pc m) (mkSys k gpr' pc' m)
| step_trap s cause tval frame' k' :
    may_trap s cause → trap_handler (s_gpr s) (trapped_kernel s cause tval) = Ok frame' k' →
    0 ≤ csr_get Mepc (csrs (k_hw k')) < 2 ^ 64 - 4 →
    sys_step s (returned k' frame').

(** ** The bits of [mstatus] *)

Lemma mpp_of_trap m v : mpp_of (trap_mstatus m v) = mode_code m.
Proof.
  unfold mpp_of, trap_mstatus. change 3 with (Z.ones 2) at 3. set (v1 := if Z.testbit v 3 then _ else _).
  bits i Hi. rewrite Z.land_spec, Z.shiftr_spec, Z.lor_spec, !Z.ldiff_spec by lia.
  rewrite !Z.shiftl_spec by lia. replace (i + 11 - 11) with i by lia.
  change 3 with (Z.ones 2). rewrite !Z.testbit_ones_nonneg by lia.
  destruct (Z.ltb_spec i 2) as [Hlt|Hge].
  - by rewrite !andb_false_r, andb_true_r.
  - rewrite andb_false_r. destruct m; simpl; [by rewrite Z.testbit_0_l|].
    symmetry. change 3 with (Z.ones 2). rewrite Z.testbit_ones_nonneg by lia. by apply Z.ltb_ge.
Qed.

Lemma mpp_priv_code m v : mpp_of v = mode_code m → mpp_priv v = m.
Proof. unfold mpp_priv, mpp_of. intros ->. by destruct m. Qed.

(** ** What a handled trap does *)

(** What a trap does to the registers before the scheduler runs: nothing. *)
Definition same_regs (h h1 : Hw) : Prop := csrs h1 = csrs h ∧ pmp h1 = pmp h.

(** The three kinds of effect a trap that returns can have: only the timer
    interrupt touches the bus outside the console, only an exception kills. *)
Inductive trap_effect `{I : Image} `{B : SerialBackend} (frame : TrapFrame.t) (k : Kernel) :
    TrapFrame.t → Kernel → Prop :=
| te_switch k1 frame' k' :
    csr_get Mcause (csrs (k_hw k)) = 2 ^ 63 + interrupt_code MachineTimer → armed (k_hw k) (k_hw k1) →
    k_sched k1 = k_sched k → same_regs (k_hw k) (k_hw k1) → scheduled frame k1 frame' k' →
    trap_effect frame k frame' k'
| te_kill k1 frame' k' :
    csr_get Mcause (csrs (k_hw k)) < 2 ^ 63 → mpp_of (csr_get Mstatus (csrs (k_hw k))) = 0 →
    off_uart (trace (k_hw k1)) = off_uart (trace (k_hw k)) →
    k_sched k1 = killed (k_sched k) → same_regs (k_hw k) (k_hw k1) → scheduled frame k1 frame' k' →
    trap_effect frame k frame' k'
| te_return frame' k' :
    k_sched k' = k_sched k → (∀ r, r ≠ Mepc → csr_get r (csrs (k_hw k')) = csr_get r (csrs (k_hw k))) →
    pmp (k_hw k') = pmp (k_hw k) → off_uart (trace (k_hw k')) = off_uart (trace (k_hw k)) →
    trap_effect frame k frame' k'.

Section effects.
Context `{E : Env} `{B : SerialBackend} `{L : !SerialLaws B} `{I : Image} `{CK : !ClockOk E}.

(** An [outcome] read as a postcondition of the runs that return. *)
Lemma println_effect ps (frame : TrapFrame.t) k frame' k' :
  hw_ready (k_hw k) → (on_hw (println ps);; mret frame) k = Ok frame' k' → trap_effect frame k frame' k'.
Proof.
  intros Hr Hrun. destruct (on_hw_println ps k Hr) as (h1 & Hp & Hpr & _).
  erewrite bind_Ok in Hrun by exact Hp. injection Hrun as <- <-. destruct (prints_undisturbed _ _ _ Hpr) as [Hc Hp' Hb]. apply te_return; try done.
  simpl. by rewrite Hc.
Qed.

Lemma skip_effect ps mepc (frame : TrapFrame.t) k frame' k' :
  hw_ready (k_hw k) → 0 ≤ mepc < 2 ^ 64 - 4 →
  (on_hw (println ps);; skip_instruction mepc;; mret frame) k = Ok frame' k' → trap_effect frame k frame' k'.
Proof.
  intros Hr Hm Hrun. destruct (print_skip_run ps mepc frame k Hr Hm) as (h1 & Hp & [_ Hp' Hb _ _]).
  rewrite Hp in Hrun. injection Hrun as <- <-. apply te_return; try done.
  intros r Hn. simpl. by rewrite csr_get_put_ne.
Qed.

Lemma fault_effect name mepc mtval frame k frame' k' :
  kernel_ok k → csr_get Mcause (csrs (k_hw k)) < 2 ^ 63 →
  handle_access_fault name mepc mtval frame k = Ok frame' k' → trap_effect frame k frame' k'.
Proof.
  intros Hk Hca Hrun. pose proof (access_fault_run name mepc mtval frame k Hk) as Hf.
  destruct (Z.eqb_spec (mpp_of (csr_get Mstatus (csrs (k_hw k)))) 0) as [Hm|]; [|destruct Hf; congruence].
  destruct Hf as (h1 & Heq & [Hc1 Hp1 Hb1] & Hr1). rewrite Heq in Hrun.
  destruct (kill_current_ok frame (mkKernel h1 (k_alloc k) (k_sched k) (k_ticks k)))
    as (f2 & k2 & h2 & Hrun2 & _ & [Hc2 Hp2 Hb2] & Hs); [split; [apply Hk|done]|].
  cbn [k_hw] in Hc2, Hp2, Hb2. simpl in Hrun. rewrite Hrun2 in Hrun. injection Hrun as <- <-.
  eapply te_kill; [done|done| | | |exact Hs]; [cbn; congruence|done|]. split; cbn; congruence.
Qed.

Lemma panic_no_return {A} name mepc mtval k (a : A) k' :
  hw_ready (k_hw k) → panic_exception name mepc mtval k ≠ Ok a k'.
Proof. intros Hr Hrun. destruct (panic_exception_run (A := A) name mepc mtval k Hr) as [k1 Hp]. congruence. Qed.

Lemma exception_effect cause mepc mtval frame k frame' k' :
  kernel_ok k → csr_get Mcause (csrs (k_hw k)) < 2 ^ 63 → 0 ≤ cause → 0 ≤ mepc < 2 ^ 64 - 4 →
  handle_exception cause mepc mtval frame k = Ok frame' k' → trap_effect frame k frame' k'.
Proof.
  intros Hk Hca H0 Hm Hrun. pose proof (ko_hw _ Hk) as Hr.
  destruct (decide (cause ∈ [0; 1; 2; 3; 4; 5; 6; 7; 8; 9; 11; 12; 13; 15])) as [Hin|Hnin].
  - rewrite !elem_of_cons in Hin. destruct_or! Hin; subst; try by apply elem_of_nil in Hin.
    all: unfold handle_exception in Hrun.
    all: first [ by eapply fault_effect | by eapply skip_effect
               | exfalso; by eapply panic_no_return | idtac ].
    destruct (syscall_spec frame k Hk) as (v & h1 & out & Hs & Hp & _).
    erewrite bind_Ok in Hrun by exact Hs. erewrite bind_Ok in Hrun by (by apply skip_instruction_run).
    injection Hrun as <- <-. destruct (prints_undisturbed _ _ _ Hp) as [Hc Hp' Hb]. apply te_return; try done.
    intros r Hn. simpl. by rewrite csr_get_put_ne, Hc.
  - rewrite unknown_handler in Hrun by done.
    edestruct on_hw_println as (h1 & Hp & _); [exact Hr|]. by erewrite bind_Ok in Hrun by exact Hp.
Qed.

Lemma interrupt_effect cause frame k frame' k' :
  kernel_ok k → csr_get Mcause (csrs (k_hw k)) = 2 ^ 63 + cause →
  handle_interrupt cause frame k = Ok frame' k' → trap_effect frame k frame' k'.
Proof.
  intros Hk Hca Hrun. pose proof (ko_hw _ Hk) as Hr. destruct (Z.eqb_spec cause 7) as [->|H7].
  - destruct (tick_spec frame k Hk) as (f2 & k2 & h1 & Hrun2 & _ & Hc1 & Hp1 & Ha & Hs).
    rewrite Hrun2 in Hrun. injection Hrun as <- <-. by eapply te_switch; [| | | |exact Hs].
  - unfold handle_interrupt in Hrun. rewrite (proj2 (Z.eqb_neq _ _) H7) in Hrun.
    destruct (cause =? 11); [by eapply println_effect|].
    destruct (cause =? 3); by eapply println_effect.
Qed.

Lemma trap_handler_effect frame k frame' k' :
  kernel_ok k → u64 (csr_get Mcause (csrs (k_hw k))) → 0 ≤ csr_get Mepc (csrs (k_hw k)) < 2 ^ 64 - 4 →
  trap_handler frame k = Ok frame' k' → trap_effect frame k frame' k' ∧ kernel_ok k'.
Proof.
  intros Hk Hu Hm Hrun. split.
  - rewrite trap_handler_run in Hrun by done. destruct (Z.leb_spec (2 ^ 63) (csr_get Mcause (csrs (k_hw k)))).
    + eapply interrupt_effect; [done| |exact Hrun]. lia.
    + eapply exception_effect; [done|done|apply Hu|done|exact Hrun].
  - rewrite trap_handler_run in Hrun by done. destruct (2 ^ 63 <=? _).
    + pose proof (interrupt_outcome (csr_get Mcause (csrs (k_hw k)) - 2 ^ 63) frame k Hk) as Ho.
      rewrite Hrun in Ho. apply Ho.
    + pose proof (exception_outcome _ _ (csr_get Mtval (csrs (k_hw k))) frame k Hk (proj1 Hu) Hm) as Ho.
      rewrite Hrun in Ho. apply Ho.
Qed.
End effects.

(** ** The invariant *)

(** Slot 0 is the machine-mode idle task; the others are user tasks. *)
Definition task_mode (i : nat) : priv :=
  if (i =? IDLE_TASK_INDEX)%nat then PmpHw.MMode else PmpHw.UMode.

(** A saved context returns to the mode of its slot, at a sensible address. *)
Definition ctx_fine (i : nat) (c : TaskContext.t) : Prop :=
  mpp_of (TaskContext.mstatus c) = mode_code (task_mode i) ∧ 0 ≤ TaskContext.mepc c < 2 ^ 64 - 4.

Record sys_inv `{I : Image} `{B : SerialBackend} (s : Sys) : Prop := {
  si_kernel : kernel_ok (s_k s);
  si_pc : 0 ≤ s_pc s < 2 ^ 64 - 4;
  si_mode : s_mode s =
    match current (k_sched (s_k s)) with Some i => task_mode i | None => PmpHw.MMode end;
  si_saved : ∀ i t, task_of (k_sched (s_k s)) i = Some t → current (k_sched (s_k s)) ≠ Some i →
    ctx_fine i (context t);
  si_idle : runnable (k_sched (s_k s)) IDLE_TASK_INDEX = true;
  si_running : ∀ i, current (k_sched (s_k s)) = Some i →
    ∃ t, task_of (k_sched (s_k s)) i = Some t ∧ state t = Running;
}.

(** The same of every logical context, seen from inside the handler. *)
Definition ctx_modes (frame : TrapFrame.t) (k : Kernel) : Prop :=
  ∀ i c, context_of frame k i = Some c → ctx_fine i c.

Section invariant.
Context `{E : Env} `{B : SerialBackend} `{L : !SerialLaws B} `{I : Image} `{CK : !ClockOk E}.

Lemma trapped_ok s cause tval : sys_inv s → kernel_ok (trapped_kernel s cause tval).
Proof. intros [[Hwf Hhw] _ _ _ _ _]. split; [exact Hwf|]. by apply hw_ready_csrs. Qed.

Lemma trapped_csrs s cause tval :
  let c := csrs (k_hw (trapped_kernel s cause tval)) in
  csr_get Mcause c = cause ∧ csr_get Mepc c = s_pc s ∧ csr_get Mtval c = tval ∧
  csr_get Mstatus c = trap_mstatus (s_mode s) (csr_get Mstatus (csrs (k_hw (s_k s)))).
Proof.
  cbn. unfold trap_csrs. repeat split;
    repeat (rewrite csr_get_put_ne by done); apply csr_get_put_eq.
Qed.

(** A handled trap has one of the three effects on the trapped kernel. *)
Lemma handled_effect s cause tval frame' k' :
  sys_inv s → u64 cause → trap_handler (s_gpr s) (trapped_kernel s cause tval) = Ok frame' k' →
  trap_effect (s_gpr s) (trapped_kernel s cause tval) frame' k' ∧ kernel_ok k'.
Proof.
  intros Hs Hu Hrun. destruct (trapped_csrs s cause tval) as (Hca & Hme & _). cbn zeta in *.
  apply trap_handler_effect; [by apply trapped_ok|by rewrite Hca|by rewrite Hme; apply Hs|done].
Qed.

Lemma trapped_modes s cause tval : sys_inv s → ctx_modes (s_gpr s) (trapped_kernel s cause tval).
Proof.
  intros Hs i c. unfold context_of. destruct (trapped_csrs s cause tval) as (_ & Hme & _ & Hms).
  cbn [k_sched trapped_kernel hw_upd Kernel_HasHw] in *.
  destruct (task_of (k_sched (s_k s)) i) as [t|] eqn:Ht; [|done]. simpl.
  case_decide as Hc; intros [= <-].
  - unfold ctx_fine. simpl. cbn in Hms, Hme. rewrite Hms, Hme, mpp_of_trap, (si_mode _ Hs), Hc.
    split; [done|apply Hs].
  - by apply (si_saved _ Hs).
Qed.

(** Returning from a handler that leaves the modes of the contexts right. *)
Lemma returned_inv k frame :
  kernel_ok k → 0 ≤ csr_get Mepc (csrs (k_hw k)) < 2 ^ 64 - 4 → ctx_modes frame k →
  (current (k_sched k) = None → mpp_of (csr_get Mstatus (csrs (k_hw k))) = 3) →
  runnable (k_sched k) IDLE_TASK_INDEX = true →
  (∀ i, current (k_sched k) = Some i → ∃ t, task_of (k_sched k) i = Some t ∧ state t = Running) →
  sys_inv (returned k frame).
Proof.
  intros Hk Hpc Hm Hnone Hidle Hrun. constructor; simpl; try done.
  - split; [apply Hk|]. apply hw_ready_csrs, Hk.
  - apply mpp_priv_code. destruct (current (k_sched k)) as [i|] eqn:Hc; [|by apply Hnone].
    destruct (Hrun i eq_refl) as (t & Ht & _).
    specialize (Hm i). unfold context_of in Hm. rewrite Ht in Hm. simpl in Hm.
    rewrite decide_True in Hm by done. apply (Hm _ eq_refl).
  - intros i t Ht Hc. specialize (Hm i). unfold context_of in Hm. rewrite Ht in Hm. simpl in Hm.
    rewrite decide_False in Hm by done. by apply Hm.
Qed.

(** A switch, when idle can run. *)
Lemma scheduled_inv frame k frame' k' :
  sched_wf (k_sched k) → ctx_modes frame k → runnable (k_sched k) IDLE_TASK_INDEX = true →
  scheduled frame k frame' k' → kernel_ok k' → sys_inv (returned k' frame').
Proof.
  intros Hwf Hm Hidle Hs Hk'.
  assert (∃ i, select_next_ready MAX_TASKS (current (k_sched k)) (runnable (k_sched k)) = Some i) as [i Hsel].
  { pose proof (select_choice MAX_TASKS ltac:(done) (runnable (k_sched k)) (current (k_sched k))) as Hc.
    destruct (select_next_ready _ _ _) as [i|]; [eauto|]. inversion Hc as [| |Hno].
    rewrite Hno in Hidle; [done|]. unfold IDLE_TASK_INDEX, MAX_TASKS. lia. }
  assert (current (k_sched k') = Some i) as Hcur by (by rewrite (scheduled_current _ _ _ _ Hwf Hs), Hsel).
  assert (ctx_modes frame' k') as Hm'
    by (intros j c Hc; rewrite (scheduled_contexts _ _ _ _ j Hwf Hs) in Hc; by apply Hm).
  apply returned_inv; try done.
  - destruct (sw_current _ (ko_sched _ Hk') i Hcur) as (t & Ht & _).
    specialize (Hm' i). unfold context_of in Hm'. rewrite Ht in Hm'. simpl in Hm'.
    rewrite decide_True in Hm' by done. apply (Hm' _ eq_refl).
  - by rewrite Hcur.
  - by rewrite (scheduled_sched _ _ _ _ Hs), resched_runnable.
  - rewrite Hcur. intros j [= <-]. unfold scheduled in Hs. rewrite next_of_saved, Hsel in Hs by done.
    destruct Hs as (t & Ht & _ & _ & -> & _). rewrite task_of_dispatched, decide_True, Ht by done. by eexists.
Qed.

(** A handled trap: a switch takes the program counter from a saved context, so
    only a trap that stays in the task needs it to be checked. *)
Lemma handled_inv s cause tval frame' k' :
  sys_inv s → u64 cause → trap_handler (s_gpr s) (trapped_kernel s cause tval) = Ok frame' k' →
  (current (k_sched k') = current (k_sched (s_k s)) → 0 ≤ csr_get Mepc (csrs (k_hw k')) < 2 ^ 64 - 4) →
  sys_inv (returned k' frame').
Proof.
  intros Hs Hu Hrun Hpc. pose proof (trapped_ok s cause tval Hs) as Hk. pose proof (trapped_modes s cause tval Hs) as Hm.
  destruct (trapped_csrs s cause tval) as (_ & _ & _ & Hms). cbn zeta in *.
  destruct (handled_effect s cause tval frame' k' Hs Hu Hrun) as [He Hk'].
  set (k := trapped_kernel s cause tval) in *. assert (k_sched k = k_sched (s_k s)) as Hsc by done.
  assert (runnable (k_sched k) IDLE_TASK_INDEX = true) as Hidle by (rewrite Hsc; apply Hs).
  clearbody k. destruct He as [k1 frame' k' _ _ Hs1 [Hc1 _] Hsch|k1 frame' k' _ Hmpp _ Hs1 [Hc1 _] Hsch|frame' k' Hs1 Hcs1 _ _].
  - eapply scheduled_inv; [| | |exact Hsch|done]; rewrite ?Hs1; [apply Hk| |done].
    intros i c Hc. rewrite (context_of_ext _ k1 k i) in Hc by done. by apply Hm.
  - rewrite Hms, mpp_of_trap, (si_mode _ Hs), <- Hsc in Hmpp.
    assert (current (k_sched k) ≠ Some IDLE_TASK_INDEX) as Hni by (intros Hc; by rewrite Hc in Hmpp).
    eapply scheduled_inv; [| | |exact Hsch|done]; rewrite ?Hs1; [apply killed_wf, Hk| |].
    + intros i c Hc. apply (Hm i c). rewrite <- Hc. unfold context_of.
      rewrite Hs1, task_of_killed, current_killed, Hc1. case_decide; [|done].
      by destruct (task_of (k_sched k) i).
    + unfold runnable in *. by rewrite task_of_killed, decide_False.
  - pose proof (Hcs1 Mstatus ltac:(done)) as Hms1. rewrite Hs1, Hsc in Hpc. specialize (Hpc eq_refl). apply returned_inv; rewrite ?Hs1; try done.
    + intros i c Hc. unfold context_of in Hc. rewrite Hs1, Hms1 in Hc.
      destruct (task_of (k_sched k) i) as [t|] eqn:Ht; [|done]. simpl in Hc. specialize (Hm i).
      unfold context_of in Hm. rewrite Ht in Hm. simpl in Hm.
      case_decide; injection Hc as <-; [|by apply Hm]. split; [apply (Hm _ eq_refl)|done].
    + intros Hn. rewrite Hms1, Hms, mpp_of_trap, (si_mode _ Hs), <- Hsc, Hn. done.
    + rewrite Hsc. apply Hs.
Qed.

Lemma sys_step_inv s s' : sys_inv s → sys_step s s' → sys_inv s'.
Proof.
  intros Hs Hstep. destruct Hstep as [k gpr pc m gpr' pc' Hpc|s cause tval frame' k' [Hu Hmay] Hrun Hpc].
  - destruct Hs as [H1 _ H3 H4 H5 H6]. by constructor.
  - by eapply handled_inv.
Qed.

(** The timer interrupt switches. *)
Lemma timer_run s tval :
  let k := trapped_kernel s (2 ^ 63 + 7) tval in
  sys_inv s → ∃ frame' k' h1, trap_handler (s_gpr s) k = Ok frame' k' ∧ kernel_ok k' ∧
    same_regs (k_hw k) h1 ∧ armed (k_hw k) h1 ∧
    scheduled (s_gpr s) (mkKernel h1 (k_alloc k) (k_sched k) ((k_ticks k + 1) mod 2 ^ 64)) frame' k'.
Proof.
  intros k Hs. pose proof (trapped_ok s (2 ^ 63 + 7) tval Hs) as Hk. fold k in Hk.
  destruct (trapped_csrs s (2 ^ 63 + 7) tval) as (Hca & _). cbn zeta in Hca. fold k in Hca. clearbody k.
  destruct (tick_spec (s_gpr s) k Hk) as (f2 & k2 & h1 & Hrun & Hk' & Hc1 & Hp1 & Ha & Hsch).
  exists f2, k2, h1. split_all. rewrite trap_handler_run, Hca by (rewrite Hca; done). exact Hrun.
Qed.

Lemma timer_inv s tval frame' k' :
  sys_inv s → trap_handler (s_gpr s) (trapped_kernel s (2 ^ 63 + 7) tval) = Ok frame' k' →
  sys_inv (returned k' frame').
Proof.
  intros Hs Hrun. pose proof (trapped_modes s (2 ^ 63 + 7) tval Hs) as Hm.
  destruct (timer_run s tval Hs) as (f2 & k2 & h1 & Hrun2 & Hk' & [Hc1 _] & _ & Hsch). cbn zeta in *.
  rewrite Hrun2 in Hrun. injection Hrun as <- <-.
  eapply scheduled_inv; [| | |exact Hsch|done]; [apply Hs| |apply Hs].
  intros i c Hc. erewrite context_of_ext in Hc by done. by apply Hm.
Qed.
End invariant.

(** ** The registers of a task *)

(** The 31 registers and the program counter of task [i]: the processor's while
    it is current, the saved ones otherwise. *)
Definition regs_of (c : TaskContext.t) : list Z * Z := (take 31 (TaskContext.to_list c), TaskContext.mepc c).

Definition sys_regs (s : Sys) (i : nat) : option (list Z * Z) :=
  t ← task_of (k_sched (s_k s)) i;
  Some (if decide (current (k_sched (s_k s)) = Some i) then (TrapFrame.to_list (s_gpr s), s_pc s)
        else regs_of (context t)).

Section registers.
Context `{E : Env} `{B : SerialBackend} `{L : !SerialLaws B} `{I : Image} `{CK : !ClockOk E}.

Lemma sys_regs_trapped s cause tval i :
  sys_regs s i = regs_of <$> context_of (s_gpr s) (trapped_kernel s cause tval) i.
Proof.
  unfold sys_regs, context_of. destruct (trapped_csrs s cause tval) as (_ & Hme & _). cbn zeta in Hme.
  rewrite Hme. change (k_sched (trapped_kernel s cause tval)) with (k_sched (s_k s)).
  destruct (task_of (k_sched (s_k s)) i) as [t|]; [|done]. simpl. by case_decide.
Qed.

Lemma sys_regs_returned k frame i : sys_regs (returned k frame) i = regs_of <$> context_of frame k i.
Proof.
  unfold sys_regs, context_of, returned. simpl.
  destruct (task_of (k_sched k) i) as [t|]; [|done]. simpl. by case_decide.
Qed.

(** A step changes the registers of the current task only. *)
Lemma sys_step_regs s s' i :
  sys_inv s → sys_step s s' → current (k_sched (s_k s)) ≠ Some i → sys_regs s' i = sys_regs s i.
Proof.
  intros Hs Hstep Hi. destruct Hstep as [k gpr pc m gpr' pc' Hpc|s cause tval frame' k' [Hu Hmay] Hrun Hpc].
  { unfold sys_regs. simpl in *. destruct (task_of (k_sched k) i); [|done]. simpl. by rewrite !decide_False. }
  rewrite sys_regs_returned, (sys_regs_trapped s cause tval). f_equal.
  pose proof (trapped_ok s cause tval Hs) as Hk.
  destruct (handled_effect s cause tval frame' k' Hs Hu Hrun) as [He _].
  set (k := trapped_kernel s cause tval) in *.
  assert (current (k_sched k) ≠ Some i) as Hi' by done. clearbody k.
  destruct He as [k1 frame' k' _ _ Hs1 [Hc1 _] Hsch|k1 frame' k' _ Hmpp _ Hs1 [Hc1 _] Hsch|frame' k' Hs1 Hcs1 _ _].
  - rewrite (scheduled_contexts _ _ _ _ i ltac:(rewrite Hs1; apply Hk) Hsch). by apply context_of_ext.
  - rewrite (scheduled_contexts _ _ _ _ i ltac:(rewrite Hs1; apply killed_wf, Hk) Hsch).
    unfold context_of. rewrite Hs1, task_of_killed, current_killed, decide_False by done.
    destruct (task_of (k_sched k) i); [|done]. simpl. by rewrite !decide_False.
  - unfold context_of. rewrite Hs1. destruct (task_of (k_sched k) i); [|done]. simpl. by rewrite !decide_False.
Qed.

Lemma sys_regs_current s i : sys_inv s → current (k_sched (s_k s)) = Some i →
  sys_regs s i = Some (TrapFrame.to_list (s_gpr s), s_pc s).
Proof.
  intros Hs Hc. destruct (si_running _ Hs i Hc) as (t & Ht & _). unfold sys_regs. rewrite Ht. simpl.
  by rewrite decide_True.
Qed.

(** The timer interrupt changes the registers of no task. *)
Lemma timer_step_regs s tval frame' k' i :
  sys_inv s → trap_handler (s_gpr s) (trapped_kernel s (2 ^ 63 + 7) tval) = Ok frame' k' →
  sys_regs (returned k' frame') i = sys_regs s i.
Proof.
  intros Hs Hrun. rewrite sys_regs_returned, (sys_regs_trapped s (2 ^ 63 + 7) tval). f_equal.
  destruct (timer_run s tval Hs) as (f2 & k2 & h1 & Hrun2 & _ & [Hc1 _] & _ & Hsch). cbn zeta in *.
  rewrite Hrun2 in Hrun. injection Hrun as <- <-.
  set (k1 := mkKernel h1 _ _ _) in Hsch. assert (sched_wf (k_sched k1)) as Hwf by apply Hs.
  rewrite (scheduled_contexts _ _ _ _ i Hwf Hsch). by apply context_of_ext.
Qed.
End registers.

(** ** Reachability from boot *)

(** The system when [kmain] has entered its final loop, or earlier, when it has
    enabled interrupts and printed a part of its last message: from there on an
    interrupt can come.  (The polls for a byte that is not yet sent are left
    out.) *)
Definition booted `{E : Env} `{B : SerialBackend} `{I : Image} (k0 : Kernel) (s : Sys) : Prop :=
  pmp_wf (pmp (k_hw k0)) ∧ (∀ i, cfg_locked (cfg_at (pmp (k_hw k0)) i) = false) ∧ k_sched k0 = SCHEDULER ∧
  (∃ said rest, started_message = said +:+ rest ∧ kmain_saying said k0 = Ok tt (s_k s)) ∧
  s_mode s = PmpHw.MMode ∧ 0 ≤ s_pc s < 2 ^ 64 - 4.

Lemma kmain_booted `{E : Env} `{B : SerialBackend} `{I : Image} k0 s :
  pmp_wf (pmp (k_hw k0)) → (∀ i, cfg_locked (cfg_at (pmp (k_hw k0)) i) = false) → k_sched k0 = SCHEDULER →
  kmain k0 = Ok tt (s_k s) → s_mode s = PmpHw.MMode → 0 ≤ s_pc s < 2 ^ 64 - 4 → booted k0 s.
Proof.
  intros H1 H2 H3 H4 H5 H6. split; [done|]. split; [done|]. split; [done|]. split; [|done].
  exists started_message, EmptyString. split; [reflexivity|exact H4].
Qed.

Lemma boot_table_modes `{I : Image} `{IO : !ImageOk I} i t :
  task_of boot_table i = Some t → ctx_fine i (context t).
Proof.
  pose proof entries_range as (H0 & H1 & H2).
  do 3 (destruct i as [|i]; [intros [= <-]; by split|]). by destruct i.
Qed.

Section reach.
Context `{E : Env} `{B : SerialBackend} `{L : !SerialLaws B} `{I : Image} `{IO : !ImageOk I} `{CK : !ClockOk E}.

(** What [kmain] has established. *)
Lemma booted_facts k0 s : booted k0 s →
  k_sched (s_k s) = boot_table ∧ kernel_ok (s_k s) ∧ pmp (k_hw (s_k s)) = kernel_regs ∧
  csrs (k_hw (s_k s)) = boot_csrs (csrs (k_hw k0)) ∧
  ∃ now, off_uart (trace (k_hw (s_k s))) =
    [Wr64 (CLINT_BASE + MTIMECMP_OFFSET) (now + 100000); Rd64 (CLINT_BASE + MTIME_OFFSET) now;
     Wr64 (CLINT_BASE + MTIMECMP_OFFSET) u64_max] ++ off_uart (trace (k_hw k0)).
Proof.
  intros (Hpw & Hpl & Hst & (said & rest & _ & Hrun) & _).
  destruct (wp_elim _ _ _ (kmain_saying_spec said k0 Hpw Hpl Hst)) as ([] & k' & Hrun' & now & Hs & Hk & _ & _ & _ & Hp & Hc & Hb).
  rewrite Hrun in Hrun'. injection Hrun' as <-. eauto 6.
Qed.

Lemma booted_inv k0 s : booted k0 s → sys_inv s.
Proof.
  intros Hb. destruct (booted_facts k0 s Hb) as (Hs & Hk & _). destruct Hb as (_ & _ & _ & _ & Hm & Hpc).
  constructor; try done; rewrite ?Hs; try done.
  intros i t Ht _. by apply boot_table_modes.
Qed.

(** An invariant of the steps, relative to that of the system, is one of runs. *)
Lemma steps_keep (P : Sys → Prop) s s' :
  (∀ a b, sys_inv a → P a → sys_step a b → P b) → sys_inv s → P s → rtc sys_step s s' → sys_inv s' ∧ P s'.
Proof. intros Hst Hs Hp Hr. induction Hr; [done|]. eauto using sys_step_inv. Qed.

Lemma steps_inv s s' : sys_inv s → rtc sys_step s s' → sys_inv s'.
Proof. intros Hs Hr. by apply (steps_keep (λ _, True) s s'). Qed.

(** An interrupt other than the timer's prints a line and leaves all registers. *)
Lemma other_interrupt_run s cause tval :
  sys_inv s → 2 ^ 63 ≤ cause < 2 ^ 64 → cause ≠ 2 ^ 63 + 7 →
  let k := trapped_kernel s cause tval in
  ∃ h1, trap_handler (s_gpr s) k = Ok (s_gpr s) (hw_upd h1 k) ∧ csrs h1 = csrs (k_hw k).
Proof.
  intros Hs Hc Hne k. pose proof (ko_hw _ (trapped_ok s cause tval Hs)) as Hr. fold k in Hr.
  destruct (trapped_csrs s cause tval) as (Hca & _). cbn zeta in Hca. fold k in Hca.
  rewrite trap_handler_run, Hca, (proj2 (Z.leb_le _ _)) by (rewrite ?Hca; try split; lia). clearbody k.
  assert (∀ ps, ∃ h1, (on_hw (println ps);; mret (s_gpr s)) k = Ok (s_gpr s) (hw_upd h1 k) ∧ csrs h1 = csrs (k_hw k)) as Hln.
  { intros ps. destruct (on_hw_println ps k Hr) as (h1 & Hp & Hpr & _). exists h1.
    erewrite bind_Ok by exact Hp. split; [done|apply Hpr]. }
  unfold handle_interrupt. rewrite (proj2 (Z.eqb_neq _ _)) by lia.
  destruct (_ =? 11); [|destruct (_ =? 3)]; apply Hln.
Qed.

(** An interrupt taken in a state of the invariant is handled. *)
Lemma interrupt_handled s cause tval : sys_inv s → 2 ^ 63 ≤ cause < 2 ^ 64 →
  ∃ frame' k', trap_handler (s_gpr s) (trapped_kernel s cause tval) = Ok frame' k' ∧
    0 ≤ csr_get Mepc (csrs (k_hw k')) < 2 ^ 64 - 4.
Proof.
  intros Hs Hc. destruct (decide (cause = 2 ^ 63 + 7)) as [->|Hne].
  - destruct (timer_run s tval Hs) as (f & k' & _ & Hrun & _). exists f, k'. split; [exact Hrun|].
    exact (si_pc _ (timer_inv s tval f k' Hs Hrun)).
  - destruct (other_interrupt_run s cause tval Hs Hc Hne) as (h1 & Hrun & Hcs). do 2 eexists. split; [exact Hrun|].
    destruct (trapped_csrs s cause tval) as (_ & Hme & _). cbn zeta in Hme.
    cbn [hw_upd Kernel_HasHw k_hw]. rewrite Hcs, Hme. apply Hs.
Qed.
End reach.

(** ** Properties *)

(** C2: preemption is invisible.  Let a task be interrupted by the timer in any
    reachable state, and let the system then run for as long as it likes without
    that task being the current one.  Its 31 registers and program counter are
    still those of the moment of the interrupt, and when it becomes current
    again they are the processor's. *)
Theorem preemption_transparent `{E : Env} `{B : SerialBackend} `{L : !SerialLaws B} `{I : Image}
    `{IO : !ImageOk I} `{CK : !ClockOk E} k0 s0 s tval frame' k' s' i :
  booted k0 s0 → rtc sys_step s0 s → current (k_sched (s_k s)) = Some i →
  may_trap s (2 ^ 63 + interrupt_code MachineTimer) →
  trap_handler (s_gpr s) (trapped_kernel s (2 ^ 63 + interrupt_code MachineTimer) tval) = Ok frame' k' →
  rtc (λ a b, sys_step a b ∧ current (k_sched (s_k a)) ≠ Some i) (returned k' frame') s' →
  sys_regs s' i = Some (TrapFrame.to_list (s_gpr s), s_pc s).
Proof.
  intros Hb Hr Hc Hmay Hrun Hr'. pose proof (steps_inv s0 s (booted_inv k0 s0 Hb) Hr) as Hs.
  rewrite <- (sys_regs_current s i Hs Hc), <- (timer_step_regs s tval frame' k' i Hs Hrun).
  assert (sys_inv (returned k' frame')) as Hs1 by (by eapply timer_inv).
  clear -Hs1 Hr' CK L. induction Hr' as [|a b c [Hstep Hna] _ IH]; [done|].
  rewrite IH by (by eapply sys_step_inv). by apply sys_step_regs.
Qed.

(** The first dispatch.  The first timer interrupt after boot starts the echo
    task: user mode, at its entry point, on the top of its own stack, with every
    other register zero, and the bootstrap registers are saved in no task. *)
Lemma first_dispatch `{E : Env} `{B : SerialBackend} `{L : !SerialLaws B} `{I : Image}
    `{IO : !ImageOk I} `{CK : !ClockOk E} k0 s0 tval :
  booted k0 s0 →
  ∃ frame' k' sp, trap_handler (s_gpr s0) (trapped_kernel s0 (2 ^ 63 + interrupt_code MachineTimer) tval)
      = Ok frame' k' ∧
    let s1 := returned k' frame' in
    s_mode s1 = PmpHw.UMode ∧ s_pc s1 = user_echo_task_addr ∧ current (k_sched (s_k s1)) = Some 1%nat ∧
    TrapFrame.to_list (s_gpr s1) = replicate 30 0 ++ [sp] ∧ _sheap < sp ≤ _eheap ∧
    ∀ i, sys_regs s1 i = sys_regs s0 i.
Proof.
  intros Hb. pose proof (booted_inv k0 s0 Hb) as Hs. destruct (booted_facts k0 s0 Hb) as (Htab & _).
  set (cause := 2 ^ 63 + interrupt_code MachineTimer).
  pose proof (trapped_ok s0 cause tval Hs) as Hk. destruct (trapped_csrs s0 cause tval) as (Hca & _). cbn zeta in *.
  destruct (tick_spec (s_gpr s0) (trapped_kernel s0 cause tval) Hk) as (frame' & k' & h1 & Hrun2 & Hk' & Hc1 & _ & _ & Hsch).
  assert (trap_handler (s_gpr s0) (trapped_kernel s0 cause tval) = Ok frame' k') as Hth
    by (rewrite trap_handler_run, Hca by (rewrite Hca; done); exact Hrun2).
  exists frame', k', (boot_stack + 16384). split; [exact Hth|]. cbn zeta.
  assert (∀ i, sys_regs (returned k' frame') i = sys_regs s0 i) as Hregs by (intros i; by eapply timer_step_regs).
  unfold scheduled in Hsch. cbn [k_sched k_hw] in Hsch.
  change (k_sched (trapped_kernel s0 cause tval)) with (k_sched (s_k s0)) in Hsch. rewrite Htab in Hsch.
  destruct Hsch as (t & [= <-] & -> & Hsw & Hsc & _). destruct Hsw as [Hcs _ _ _ _].
  pose proof heap_layout. pose proof boot_stack_spec as [Hbs _].
  split_all; cbn [s_mode s_pc s_gpr s_k returned k_sched hw_upd Kernel_HasHw].
  - rewrite Hcs, csr_get_put_eq. reflexivity.
  - rewrite Hcs, csr_get_put_ne, csr_get_put_eq by done. reflexivity.
  - by rewrite Hsc.
  - cbn. replace (boot_stack + 8192 + TASK_STACK_SIZE) with (boot_stack + 16384) by (unfold TASK_STACK_SIZE; lia). done.
  - lia.
  - lia.
Qed.

(** C35: an illegal instruction in a user task halts the system.  In every
    reachable state with a user task current, that task's executing an illegal
    instruction (or making a misaligned access, causes 0, 4 and 6) ends in a
    kernel panic; only access faults are confined to the task. *)
Theorem illegal_instruction_panics `{E : Env} `{B : SerialBackend} `{L : !SerialLaws B} `{I : Image}
    `{IO : !ImageOk I} `{CK : !ClockOk E} k0 s0 s e tval :
  booted k0 s0 → rtc sys_step s0 s → s_mode s = PmpHw.UMode →
  e ∈ [InstructionMisaligned; IllegalInstruction; LoadMisaligned; StoreMisaligned] →
  may_trap s (exception_code e) ∧
  ∃ msg k', trap_handler (s_gpr s) (trapped_kernel s (exception_code e) tval) = Panic msg k'.
Proof.
  intros Hb Hr Hm He. pose proof (steps_inv s0 s (booted_inv k0 s0 Hb) Hr) as Hs.
  pose proof (trapped_ok s (exception_code e) tval Hs) as Hk.
  destruct (trapped_csrs s (exception_code e) tval) as (Hca & _). cbn zeta in *.
  rewrite !elem_of_cons, elem_of_nil in He.
  split; [destruct_or! He; subst; split; done|].
  rewrite trap_handler_run, Hca by (rewrite Hca; destruct_or! He; subst; done).
  destruct_or! He; subst; try done; eexists; apply panic_exception_run, Hk.
Qed.

(** ** Witnesses *)

Module system_sample.
#[local] Instance env : Env := quiet_board true.
#[local] Existing Instance sample_image.
#[local] Existing Instance trap_sample.clock.

Definition after {A} (r : Res Kernel A) : Kernel :=
  match r with Ok _ k => k | Panic _ k => k | Spin k => k end.

(** Boot, the first tick and the second one, on the sample board. *)
Definition s0 : Sys := mkSys (after (kmain reset_kernel)) sample.frame 0x80000400 PmpHw.MMode.

Definition tick (s : Sys) : Sys :=
  match trap_handler (s_gpr s) (trapped_kernel s (2 ^ 63 + 7) 0) with
  | Ok f k => returned k f
  | _ => s
  end.

Lemma s0_kmain : kmain reset_kernel = Ok tt (s_k s0).
Proof.
  assert (∃ k, kmain reset_kernel = Ok tt k) as [k Hk] by (eexists; vm_compute; reflexivity).
  unfold s0. cbn [s_k]. by rewrite Hk.
Qed.

Lemma reset_unlocked i : cfg_locked (cfg_at (pmp (k_hw reset_kernel)) i) = false.
Proof.
  destruct (Nat.lt_ge_cases i 16) as [Hi|Hi].
  - unfold cfg_at, reset_kernel, hw_reset, k_hw, pmp, pmpcfg. by rewrite lookup_replicate_2.
  - by rewrite cfg_at_ge by (apply zero_regs_wf || done).
Qed.

Lemma s0_booted : booted reset_kernel s0.
Proof. apply kmain_booted; [apply zero_regs_wf|exact reset_unlocked|done|exact s0_kmain|done|by split]. Qed.

Lemma tick_step : sys_step s0 (tick s0).
Proof.
  unfold tick. destruct (trap_handler (s_gpr s0) (trapped_kernel s0 (2 ^ 63 + 7) 0)) as [f k|e k|k] eqn:Hrun.
  - eapply step_trap; [|exact Hrun|].
    + split; [split; vm_compute; congruence|]. right. vm_compute. reflexivity.
    + assert (k = after (trap_handler (s_gpr s0) (trapped_kernel s0 (2 ^ 63 + 7) 0))) as -> by (by rewrite Hrun).
      split; vm_compute; congruence.
  - exfalso. revert Hrun. vm_compute. congruence.
  - exfalso. revert Hrun. vm_compute. congruence.
Qed.

Lemma illegal_instruction_panics_witness :
  may_trap (tick s0) 2 ∧
  ∃ msg k', trap_handler (s_gpr (tick s0)) (trapped_kernel (tick s0) 2 0) = Panic msg k'.
Proof.
  apply (illegal_instruction_panics reset_kernel s0 (tick s0) IllegalInstruction 0 s0_booted);
    [apply rtc_once, tick_step|vm_compute; reflexivity|right; left].
Defined.

(** The echo task is interrupted right after it was started, and not current
    after the switch. *)
Lemma preemption_transparent_witness :
  sys_regs (tick (tick s0)) 1 = Some (TrapFrame.to_list (s_gpr (tick s0)), s_pc (tick s0)).
Proof.
  unfold tick at 1.
  destruct (trap_handler (s_gpr (tick s0)) (trapped_kernel (tick s0) (2 ^ 63 + 7) 0)) as [f k|e k|k] eqn:Hrun;
    [|exfalso; revert Hrun; vm_compute; congruence..].
  apply (preemption_transparent reset_kernel s0 (tick s0) 0 f k (returned k f) 1 s0_booted);
    [apply rtc_once, tick_step|vm_compute; reflexivity| |exact Hrun|apply rtc_refl].
  split; [split; vm_compute; congruence|]. left. vm_compute. reflexivity.
Defined.
End system_sample.
