(* ===== verification/Progress.v ===== *)
(** Progress of tasks in the whole system.

    [sys_step] (System.v) is a step of the machine: any code of the current task,
    or a trap handled by [trap_handler] ([crates/kernel/src/trap.rs]).  Each one
    is a transition of the scheduler's state machine ([sched_step]), which lets
    the facts about the task table be read on runs of the machine: a ready task
    is served within three timer interrupts, and a dead one never again. *)

From S2P Require Import Prelude Config Machine Serial PmpHw Linker Pmp PmpAccess Sync Timer Allocator Registers Policy.
From S2P Require Import Task Kernel Scheduler SchedulerProps TaskSpec Trap Asm Boot System.

Local Open Scope Z_scope.

#[local] Arguments csr_get : simpl never.
#[local] Arguments csr_put : simpl never.

(** ** Runs *)

Section runs.
Context `{E : Env} `{B : SerialBackend}.

(** A timer interrupt, taken and handled. *)
Definition timer_step (s s' : Sys) : Prop :=
  let cause := 2 ^ 63 + interrupt_code MachineTimer in
  ∃ tval frame' k', may_trap s cause ∧
    trap_handler (s_gpr s) (trapped_kernel s cause tval) = Ok frame' k' ∧ s' = returned k' frame'.

(** [run n s l]: the system goes from [s] through the states [l]; [n] timer
    interrupts are counted on the way. *)
Inductive run : nat → Sys → list Sys → Prop :=
| run_nil s : run 0 s []
| run_other n s s1 l : sys_step s s1 → run n s1 l → run n s (s1 :: l)
| run_tick n s s1 l : timer_step s s1 → run n s1 l → run (S n) s (s1 :: l).
End runs.

(** ** The task table along a run *)

Section table.
Context `{E : Env} `{B : SerialBackend} `{L : !SerialLaws B} `{I : Image} `{CK : !ClockOk E}.

(** What a step does to the task table: nothing, a dispatch, or a kill with the
    dispatch that follows it. *)
Inductive table_step (st : SchedulerState) : SchedulerState → Prop :=
| ts_same : table_step st st
| ts_switch frame mepc mstatus : table_step st (resched frame mepc mstatus st)
| ts_kill frame mepc mstatus : table_step st (resched frame mepc mstatus (killed st)).

Lemma sys_step_table s s' :
  sys_inv s → sys_step s s' → table_step (k_sched (s_k s)) (k_sched (s_k s')).
Proof.
  intros Hs Hstep. destruct Hstep as [k gpr pc m gpr' pc' Hpc|s cause tval frame' k' [Hu Hmay] Hrun Hpc];
    [apply ts_same|].
  destruct (handled_effect s cause tval frame' k' Hs Hu Hrun) as [He _].
  change (k_sched (s_k (returned k' frame'))) with (k_sched k').
  destruct He as [k1 frame' k' _ _ Hs1 _ Hsch|k1 frame' k' _ _ _ Hs1 _ Hsch|frame' k' Hs1 _ _ _].
  - rewrite (scheduled_sched _ _ _ _ Hsch), Hs1. apply ts_switch.
  - rewrite (scheduled_sched _ _ _ _ Hsch), Hs1. apply ts_kill.
  - rewrite Hs1. apply ts_same.
Qed.

Lemma sys_step_sched s s' :
  sys_inv s → sys_step s s' → sched_any (k_sched (s_k s)) (k_sched (s_k s')).
Proof. intros Hs Hstep. destruct (sys_step_table _ _ Hs Hstep); eexists; constructor. Qed.

Lemma timer_step_inv s s' : sys_inv s → timer_step s s' → sys_inv s'.
Proof. intros Hs (tval & f & k' & _ & Hrun & ->). by eapply timer_inv. Qed.

(** The timer interrupt is a dispatch. *)
Lemma timer_step_table s s' :
  sys_inv s → timer_step s s' →
  ∃ frame mepc mstatus, k_sched (s_k s') = resched frame mepc mstatus (k_sched (s_k s)).
Proof.
  intros Hs (tval & frame' & k' & _ & Hrun & ->).
  destruct (timer_run s tval Hs) as (f2 & k2 & h1 & Hrun2 & _ & _ & _ & Hsch). cbn zeta in *.
  change (2 ^ 63 + interrupt_code MachineTimer) with (2 ^ 63 + 7) in Hrun.
  rewrite Hrun2 in Hrun. injection Hrun as <- <-. simpl. rewrite (scheduled_sched _ _ _ _ Hsch). by do 3 eexists.
Qed.

Lemma timer_step_sched s s' :
  sys_inv s → timer_step s s' → sched_step (k_sched (s_k s)) true (k_sched (s_k s')).
Proof.
  intros Hs Hst. destruct (timer_step_table _ _ Hs Hst) as (f & me & ms & ->). apply ss_schedule.
Qed.

(** A run long enough for the tasks ahead of [i] serves [i]. *)
Lemma run_serves i n s l :
  sys_inv s → waiting i (k_sched (s_k s)) → run n s l → (ahead i (k_sched (s_k s)) < n)%nat →
  ∃ s1, s1 ∈ l ∧ current (k_sched (s_k s1)) = Some i.
Proof.
  intros Hs Hw Hrun. revert Hs Hw. induction Hrun as [s|n s s1 l Hst _ IH|n s s1 l Hst _ IH]; intros Hs Hw Hn; [lia| |].
  - destruct (sys_step_sched _ _ Hs Hst) as [d Hd].
    destruct (sched_step_waiting _ _ _ i (ko_sched _ (si_kernel _ Hs)) Hw Hd) as [Hc|[Hw1 Ha]];
      [exists s1; by split; [left|]|].
    destruct IH as (s2 & Hin & Hc); [by eapply sys_step_inv|done|lia|]. exists s2. by split; [right|].
  - pose proof (timer_step_sched _ _ Hs Hst) as Hd.
    destruct (sched_step_waiting _ _ _ i (ko_sched _ (si_kernel _ Hs)) Hw Hd) as [Hc|[Hw1 Ha]];
      [exists s1; by split; [left|]|].
    destruct IH as (s2 & Hin & Hc); [by eapply timer_step_inv|done|lia|]. exists s2. by split; [right|].
Qed.

Lemma ahead_lt i s : sys_inv s → waiting i (k_sched (s_k s)) → (ahead i (k_sched (s_k s)) < MAX_TASKS - 1)%nat.
Proof.
  intros Hs [(t & Ht & _) Hi0]. unfold ahead. apply (rr_ahead_lt MAX_TASKS); [done|by apply rr_start_lt| |done].
  rewrite <- (sw_len _ (ko_sched _ (si_kernel _ Hs))). by eapply task_of_lt.
Qed.

Lemma steps_buried s s' i t :
  sys_inv s → rtc sys_step s s' → buried i t (k_sched (s_k s)) → buried i t (k_sched (s_k s')).
Proof.
  intros Hs Hr. revert Hs. induction Hr as [|s s1 s2 Hst _ IH]; intros Hs Hb; [done|].
  destruct (sys_step_sched _ _ Hs Hst) as [d Hd].
  apply IH; [by eapply sys_step_inv|]. by eapply sched_step_buried.
Qed.
End table.

(** ** Properties *)

(** C9: no starvation.  Take a ready task other than idle in any state reachable
    after boot, and let the machine run on from there in any way: the current
    tasks compute, make system calls, fault and are killed, and timer interrupts
    arrive.  By the third timer interrupt the task has been current. *)
Theorem no_starvation `{E : Env} `{B : SerialBackend} `{L : !SerialLaws B} `{I : Image}
    `{IO : !ImageOk I} `{CK : !ClockOk E} k0 s0 s i n l :
  booted k0 s0 → rtc sys_step s0 s → waiting i (k_sched (s_k s)) → run n s l → (3 ≤ n)%nat →
  ∃ s1, s1 ∈ l ∧ current (k_sched (s_k s1)) = Some i.
Proof.
  intros Hb Hr Hw Hrun Hn. pose proof (steps_inv s0 s (booted_inv k0 s0 Hb) Hr) as Hs.
  eapply run_serves; [done|done|exact Hrun|]. pose proof (ahead_lt i s Hs Hw). unfold MAX_TASKS in *. lia.
Qed.

(** ** Witnesses *)

(** A tick taken at once, and the check by evaluation that it is a step. *)
Section evaluation.
Context `{E : Env} `{B : SerialBackend}.

Definition ticked (s : Sys) : Sys :=
  match trap_handler (s_gpr s) (trapped_kernel s (2 ^ 63 + 7) 0) with
  | Ok f k => returned k f
  | _ => s
  end.

Definition ticked_fine (s : Sys) : bool :=
  match s_mode s with PmpHw.UMode => true | PmpHw.MMode => mie_bit (csr_get Mstatus (csrs (k_hw (s_k s)))) end &&
  match trap_handler (s_gpr s) (trapped_kernel s (2 ^ 63 + 7) 0) with Ok _ _ => true | _ => false end.

Lemma ticked_step s : ticked_fine s = true → timer_step s (ticked s).
Proof.
  unfold ticked_fine, ticked, timer_step. rewrite andb_true_iff. intros [Hm Hh].
  change (2 ^ 63 + interrupt_code MachineTimer) with (2 ^ 63 + 7).
  destruct (trap_handler _ _) as [f k|e k|k] eqn:Hrun; try done. exists 0, f, k.
  split; [split; [by split|]|done].
  change (2 ^ 63 <=? 2 ^ 63 + 7) with true. cbn iota. destruct (s_mode s); [by left|by right].
Qed.

Lemma ticked_sys_step s : ticked_fine s = true → 0 ≤ s_pc (ticked s) < 2 ^ 64 - 4 → sys_step s (ticked s).
Proof.
  intros Hf Hp. destruct (ticked_step s Hf) as (tval & f & k & Hmay & Hrun & Heq). rewrite Heq in Hp |- *.
  by eapply step_trap.
Qed.

(** The state after [kmain], when it returns; the registers do not matter. *)
Definition boot_state `{I : Image} : Sys :=
  mkSys (system_sample.after (kmain reset_kernel)) sample.frame 0x80000400 PmpHw.MMode.

Lemma boot_state_booted `{I : Image} :
  match kmain reset_kernel with Ok _ _ => true | _ => false end = true → booted reset_kernel boot_state.
Proof.
  intros Hk. apply kmain_booted; [apply zero_regs_wf|exact system_sample.reset_unlocked|done| |done|by split].
  unfold boot_state. cbn [s_k]. by destruct (kmain reset_kernel) as [[] k|e k|k].
Qed.
End evaluation.

Module progress_sample.
#[local] Instance env : Env := quiet_board true.
#[local] Existing Instance sample_image.
#[local] Existing Instance trap_sample.clock.
Import system_sample.

(** A tick of the sample board, checked by evaluation. *)
Lemma tick_fine_step s : ticked_fine s = true → timer_step s (tick s).
Proof. exact (ticked_step s). Qed.

(** The violation task is ready after boot and current after the second tick. *)
Lemma no_starvation_witness :
  let l := [tick s0; tick (tick s0); tick (tick (tick s0))] in
  run 3 s0 l ∧ ∃ s1, s1 ∈ l ∧ current (k_sched (s_k s1)) = Some 2%nat.
Proof.
  intros l. assert (run 3 s0 l) as Hrun.
  { repeat (apply run_tick; [apply tick_fine_step; vm_compute; reflexivity|]). apply run_nil. }
  split; [exact Hrun|]. apply (no_starvation reset_kernel s0 s0 2 3 l s0_booted); [apply rtc_refl| |exact Hrun|lia].
  split; [|done]. eexists. split; vm_compute; reflexivity.
Defined.
End progress_sample.
