(* ===== verification/Secrecy.v ===== *)
(** What the trap handler does with the registers of a suspended task: nothing.

    While a task is not current, its registers are in the task table of
    [sched/scheduler.rs].  Here they are replaced by others, and the handler of
    [trap.rs] is shown to run as before: it takes the same branch, prints the
    same, makes the same accesses, chooses the same task and leaves the same
    state, but for the registers replaced.  So the kernel's code does not pass
    the registers of a task on to another task, a device or the console.  (What a
    task can read itself is another matter: the PMP settings let user mode load
    the task table, see file Isolation.)  This is proved for the monadic code
    itself, with a calculus of computations that commute with the replacement. *)

From S2P Require Import Prelude Config Machine Serial PmpHw Linker Pmp PmpAccess Sync Timer Allocator Registers Policy.
From S2P Require Import Task Kernel Scheduler SchedulerProps TaskSpec Trap Asm Boot System Progress.

Local Open Scope Z_scope.

#[local] Arguments csr_get : simpl never.
#[local] Arguments csr_put : simpl never.

(** ** Replacing a saved context *)

(** The kernel with [new] as the saved context of task [i]. *)
Definition recontext (i : nat) (new : TaskContext.t) (k : Kernel) : Kernel :=
  set_sched (upd_context (λ _, new) i (k_sched k)) k.

Definition map_res {A} (f : Kernel → Kernel) (r : Res Kernel A) : Res Kernel A :=
  match r with Ok a k => Ok a (f k) | Panic e k => Panic e (f k) | Spin k => Spin (f k) end.

(** The kernel with the CSRs that [schedule] loads for the context [c]. *)
Definition resumed_csrs (c : TaskContext.t) (k : Kernel) : Kernel :=
  hw_upd (hw_set_csrs (csr_put Mstatus (TaskContext.mstatus c) (csr_put Mepc (TaskContext.mepc c)
    (csrs (k_hw k)))) (k_hw k)) k.

(** A result with other registers for [i], which are in the table and, when [i]
    is the task resumed, in the frame and two CSRs. *)
Definition hidden (i : nat) (new : TaskContext.t) (r : Res Kernel TrapFrame.t) : Res Kernel TrapFrame.t :=
  match r with
  | Ok f k =>
    if decide (current (k_sched k) = Some i) then
      Ok (copy_ctx_to_frame new f) (resumed_csrs new (recontext i new k))
    else Ok f (recontext i new k)
  | Panic e k => Panic e (recontext i new k)
  | Spin k => Spin (recontext i new k)
  end.

(** Updates of different positions of a list commute. *)
Lemma alter_insert_comm {A} (f : A → A) i j x (l : list A) :
  i ≠ j → alter f i (<[j := x]> l) = <[j := x]> (alter f i l).
Proof.
  revert i j. induction l as [|y l IH]; intros [|i] [|j] Hij; try done. cbn. f_equal. apply IH. lia.
Qed.

(** ** Computations that do not look *)

Section calculus.
Context (i : nat) (new : TaskContext.t).

(** [m] commutes with the replacement, when [i] is not current, and does not make it
    current. *)
Definition blind {A} (m : M Kernel A) : Prop := ∀ k,
  current (k_sched k) ≠ Some i →
  m (recontext i new k) = map_res (recontext i new) (m k) ∧ ∀ a k', m k = Ok a k' → current (k_sched k') ≠ Some i.

(** The same for a computation that may end with [i] current. *)
Definition discreet (m : M Kernel TrapFrame.t) : Prop := ∀ k,
  current (k_sched k) ≠ Some i → m (recontext i new k) = hidden i new (m k).

Lemma blind_bind {A C} (m : M Kernel A) (f : A → M Kernel C) :
  blind m → (∀ a, blind (f a)) → blind (m ≫= f).
Proof.
  intros Hm Hf k Hk. destruct (Hm k Hk) as [He Hc]. unfold mbind, M_bind. rewrite He.
  destruct (m k) as [a k1|e k1|k1]; simpl; [apply Hf; by eapply Hc|done|done].
Qed.

Lemma discreet_bind {A} (m : M Kernel A) (f : A → M Kernel TrapFrame.t) :
  blind m → (∀ a, discreet (f a)) → discreet (m ≫= f).
Proof.
  intros Hm Hf k Hk. destruct (Hm k Hk) as [He Hc]. unfold mbind, M_bind. rewrite He.
  destruct (m k) as [a k1|e k1|k1]; simpl; [apply Hf; by eapply Hc|done|done].
Qed.

Lemma blind_discreet (m : M Kernel TrapFrame.t) : blind m → discreet m.
Proof.
  intros Hm k Hk. destruct (Hm k Hk) as [-> Hc]. destruct (m k) as [f k1|e k1|k1]; [|done..].
  simpl. by rewrite decide_False by (by eapply Hc).
Qed.

Lemma blind_ret {A} (a : A) : blind (mret a).
Proof. intros k Hk. split; [done|]. by intros ? ? [= <- <-]. Qed.

Lemma blind_panic {A} msg : blind (A := A) (panic msg).
Proof. by intros k Hk. Qed.

Lemma blind_gets {A} (f : Kernel → A) : (∀ k, f (recontext i new k) = f k) → blind (gets f).
Proof. intros Hf k Hk. unfold gets. rewrite Hf. split; [done|]. by intros ? ? [= <- <-]. Qed.

(** Computations on the hardware do not see the table. *)
Lemma on_hw_recontext {A} (m : M Hw A) k : on_hw m (recontext i new k) = map_res (recontext i new) (on_hw m k).
Proof.
  unfold on_hw, lift. change (hw_of (recontext i new k)) with (hw_of k). by destruct (m (hw_of k)).
Qed.

Lemma on_hw_sched {A} (m : M Hw A) k a k' : on_hw m k = Ok a k' → k_sched k' = k_sched k.
Proof. unfold on_hw, lift. destruct (m (hw_of k)); intros [=]; by subst. Qed.

Lemma blind_on_hw {A} (m : M Hw A) : blind (on_hw m).
Proof. intros k Hk. split; [apply on_hw_recontext|]. intros a k' Hr. by rewrite (on_hw_sched m k a k' Hr). Qed.

Lemma blind_tick : blind increment_tick.
Proof. intros k Hk. split; [done|]. by intros ? ? [= <- <-]. Qed.

Lemma blind_checked `{E : Env} w op v : blind (checked w op v).
Proof. unfold checked. repeat case_match; [apply blind_ret|apply blind_panic|apply blind_ret]. Qed.

(** What depends on the current task needs to be blind only when that is not [i]. *)
Lemma blind_current {A} (F : option nat → M Kernel A) :
  (∀ cur, cur ≠ Some i → blind (F cur)) → blind (cur ← gets (λ k, current (k_sched k)); F cur).
Proof. intros HF k Hk. by apply (HF _ Hk k). Qed.

Lemma blind_task_at j : j ≠ i → blind (task_at j).
Proof.
  intros Hj k Hk. unfold task_at, mbind, M_bind, gets. cbn [k_sched recontext set_sched upd_context upd_task tasks].
  rewrite list_lookup_alter_ne by done. destruct (tasks (k_sched k) !! j); split; try done. by intros ? ? [= <- <-].
Qed.

Lemma blind_store_task j slot : j ≠ i → blind (store_task j slot).
Proof.
  intros Hj. apply blind_bind; [by apply blind_task_at|]. intros _ k Hk. split; [|by intros ? ? [= <- <-]].
  unfold modify. simpl. do 2 f_equal. unfold recontext, upd_context, upd_task, set_sched. cbn [k_sched current tasks]. do 2 f_equal.
  symmetry. apply alter_insert_comm. done.
Qed.
End calculus.

Create HintDb secrecy.
#[export] Hint Resolve blind_bind discreet_bind blind_ret blind_panic blind_on_hw blind_tick blind_checked : secrecy.
#[export] Hint Resolve blind_task_at blind_store_task : secrecy.

(** ** The scheduler *)

Section scheduler.
Context `{E : Env} `{B : SerialBackend} (i : nat) (new : TaskContext.t).

(** Readiness is public. *)
Lemma is_ready_recontext st : ∀ j, is_ready (tasks (upd_context (λ _, new) i st)) j = is_ready (tasks st) j.
Proof.
  intros j. unfold is_ready, upd_context, upd_task. cbn [tasks]. destruct (decide (i = j)) as [->|Hne].
  - rewrite list_lookup_alter, decide_True by done. by destruct (tasks st !! j) as [[]|].
  - by rewrite list_lookup_alter_ne.
Qed.

(** The choice without the registers of [i]. *)
Definition hide_target (o : option (nat * list PmpRegion * TaskContext.t)) :
    option (nat * list PmpRegion * TaskContext.t) :=
  (λ '(n, rs, c), (n, rs, if decide (n = i) then new else c)) <$> o.

(** A computation of the choice: what it does to the other kernel, and when [i]
    becomes current. *)
Definition chooses (m : M Kernel (option (nat * list PmpRegion * TaskContext.t))) : Prop := ∀ k,
  current (k_sched k) ≠ Some i →
  match m k with
  | Ok o k1 => m (recontext i new k) = Ok (hide_target o) (recontext i new k1) ∧
      (current (k_sched k1) = Some i → ∃ rs c, o = Some (i, rs, c)) ∧
      match o with Some (n, _, _) => current (k_sched k1) = Some n | None => True end
  | r => m (recontext i new k) = map_res (recontext i new) r
  end.

Lemma chooses_bind {A} (m : M Kernel A) f : blind i new m → (∀ a, chooses (f a)) → chooses (m ≫= f).
Proof.
  intros Hm Hf k Hk. destruct (Hm k Hk) as [He Hc]. unfold mbind, M_bind. rewrite He.
  destruct (m k) as [a k1|e k1|k1]; simpl; [apply Hf; by eapply Hc|done|done].
Qed.

(** Choosing [n]: it is marked running and becomes current. *)
Definition take_slot (n : nat) : M Kernel (option (nat * list PmpRegion * TaskContext.t)) :=
  slot ← task_at n;
  match slot with
  | Some task => store_task n (Some (set_state Running task))
  | None => mret tt
  end;;
  set_current (Some n);;
  slot ← task_at n;
  mret ((λ task, (n, regions (pmp_config task), context task)) <$> slot).

Lemma take_slot_run n k :
  take_slot n k =
    match tasks (k_sched k) !! n with
    | Some (Some t) => Ok (Some (n, regions (pmp_config t), context t))
        (set_sched (mkSched (Some n) (<[n := Some (set_state Running t)]> (tasks (k_sched k)))) k)
    | Some None => Ok None (set_sched (mkSched (Some n) (tasks (k_sched k))) k)
    | None => Panic "index out of bounds" k
    end.
Proof.
  unfold take_slot, store_task, task_at, set_current, mbind, M_bind, gets, modify.
  destruct (tasks (k_sched k) !! n) as [[t|]|] eqn:Ht; simpl; rewrite ?Ht; simpl; try done.
  - by rewrite list_lookup_insert, decide_True by (split; [done|by eapply lookup_lt_Some]).
Qed.

Lemma running_recontext (ts : list (option Task)) t : ts !! i = Some (Some t) →
  <[i := Some (set_state Running (set_context new t))]> (alter (fmap (set_context new)) i ts) =
  alter (fmap (set_context new)) i (<[i := Some (set_state Running t)]> ts).
Proof.
  intros Ht. apply list_eq. intros j.
  rewrite !list_lookup_insert, !list_lookup_alter, length_alter, !list_lookup_insert.
  destruct (decide (i = j)) as [->|Hne]; [|by rewrite !decide_False by naive_solver].
  by rewrite !decide_True by (split; [done|by eapply lookup_lt_Some]).
Qed.

Lemma take_slot_chooses n k t :
  tasks (k_sched k) !! n = Some (Some t) →
  ∃ k1, take_slot n k = Ok (Some (n, regions (pmp_config t), context t)) k1 ∧ current (k_sched k1) = Some n ∧
    take_slot n (recontext i new k) = Ok (hide_target (Some (n, regions (pmp_config t), context t))) (recontext i new k1).
Proof.
  intros Ht. rewrite !take_slot_run, Ht. eexists. split; [done|]. split; [done|].
  unfold recontext. cbn [k_sched set_sched upd_context upd_task tasks current k_hw k_alloc k_ticks].
  unfold hide_target. cbn [fmap option_fmap option_map]. destruct (decide (n = i)) as [->|Hne].
  - rewrite list_lookup_alter, decide_True, Ht by done. cbn [fmap option_fmap option_map].
    unfold upd_context, upd_task. cbn [current tasks]. cbn beta.
    exact (f_equal (λ ts, Ok _ (set_sched (mkSched (Some i) ts) k)) (running_recontext _ t Ht)).
  - rewrite list_lookup_alter_ne, Ht by done. unfold upd_context, upd_task. cbn [current tasks].
    by rewrite alter_insert_comm.
Qed.

Lemma chooses_current F :
  (∀ cur, cur ≠ Some i → chooses (F cur)) → chooses (cur ← gets (λ k, current (k_sched k)); F cur).
Proof. intros HF k Hk. by apply (HF _ Hk k). Qed.

(** The choice itself. *)
Definition choose (cur : option nat) : M Kernel (option (nat * list PmpRegion * TaskContext.t)) :=
  ts ← gets (λ k, tasks (k_sched k));
  match select_next_ready MAX_TASKS cur (is_ready ts) with Some n => take_slot n | None => mret None end.

Lemma choose_run cur k :
  choose cur k =
    match select_next_ready MAX_TASKS cur (is_ready (tasks (k_sched k))) with
    | Some n => take_slot n k
    | None => Ok None k
    end.
Proof. unfold choose. erewrite bind_Ok by reflexivity. by destruct (select_next_ready _ _ _). Qed.

Lemma choose_chooses cur : chooses (choose cur).
Proof.
  intros k Hk. rewrite !choose_run.
  change (tasks (k_sched (recontext i new k))) with (tasks (upd_context (λ _, new) i (k_sched k))).
  rewrite (select_ext MAX_TASKS cur _ _ (is_ready_recontext (k_sched k))).
  destruct (select_next_ready MAX_TASKS cur (is_ready (tasks (k_sched k)))) as [n|] eqn:Hsel; [|done].
  apply (select_is_ready MAX_TASKS) in Hsel; [|done]. unfold is_ready in Hsel.
  destruct (tasks (k_sched k) !! n) as [[t|]|] eqn:Ht; [|done..].
  destruct (take_slot_chooses n k t Ht) as (k1 & H1 & Hc & H2).
  rewrite H1. split; [done|]. split; [|done]. rewrite Hc. intros [= ->]. eauto.
Qed.

Lemma pick_chooses frame mepc mstatus : chooses (pick frame mepc mstatus).
Proof.
  apply chooses_current. intros cur Hcur. apply chooses_bind.
  { destruct cur as [c|]; [|apply blind_ret]. assert (c ≠ i) by congruence.
    apply blind_bind; [by apply blind_task_at|]. intros [t|]; auto with secrecy. }
  intros _. exact (choose_chooses cur).
Qed.

(** The critical section around it. *)
Lemma with_lock_chooses m : chooses m → chooses (with_lock m).
Proof.
  intros Hm k Hk. rewrite !with_lock_run.
  change (with_mstatus (Z.ldiff (get_mstatus (recontext i new k)) (Z.shiftl 1 3)) (recontext i new k))
    with (recontext i new (with_mstatus (Z.ldiff (get_mstatus k) (Z.shiftl 1 3)) k)).
  specialize (Hm (with_mstatus (Z.ldiff (get_mstatus k) (Z.shiftl 1 3)) k) Hk).
  change (get_mstatus (recontext i new k)) with (get_mstatus k).
  destruct (m _) as [o k1|e k1|k1]; [|by rewrite Hm..]. destruct Hm as (-> & Hc & Ho).
  by destruct (mie_bit (get_mstatus k)).
Qed.

Lemma blind_with_lock {A} (m : M Kernel A) : blind i new m → blind i new (with_lock m).
Proof.
  intros Hm. unfold with_lock. apply blind_bind; [apply blind_on_hw|]. intros ms.
  apply blind_bind; [apply blind_on_hw|]. intros _. apply blind_bind; [done|]. intros r.
  apply blind_bind; [destruct (_ =? _); [apply blind_ret|apply blind_on_hw]|]. intros _. apply blind_ret.
Qed.
(** What [schedule] does with the choice. *)
Definition resume (n : nat) (rs : list PmpRegion) (c : TaskContext.t) (frame : TrapFrame.t) : M Kernel TrapFrame.t :=
  on_hw (puts_str "[sched] switching to task ");;
  on_hw (s_put_dec (Z.of_nat n));;
  on_hw (puts_str nl);;
  on_hw (load_task_config rs);;
  let frame := copy_ctx_to_frame c frame in
  on_hw (mepc.write (TaskContext.mepc c));;
  on_hw (mstatus.write (TaskContext.mstatus c));;
  mret frame.

(** A step on the hardware before two computations that differ in the context. *)
Lemma hw_hidden {A} (m : M Hw A) (f g : A → M Kernel TrapFrame.t) k :
  (∀ a k1, k_sched k1 = k_sched k → f a (recontext i new k1) = hidden i new (g a k1)) →
  (on_hw m ≫= f) (recontext i new k) = hidden i new ((on_hw m ≫= g) k).
Proof.
  intros Hfg. unfold mbind, M_bind. rewrite on_hw_recontext.
  destruct (on_hw m k) as [a k1|e k1|k1] eqn:Hm; [|done..]. apply Hfg. by eapply on_hw_sched.
Qed.

Lemma copy_ctx_twice c c' f : copy_ctx_to_frame c (copy_ctx_to_frame c' f) = copy_ctx_to_frame c f.
Proof. done. Qed.

Lemma resume_tail c frame k :
  (on_hw (mepc.write (TaskContext.mepc c));; on_hw (mstatus.write (TaskContext.mstatus c));;
   mret (copy_ctx_to_frame c frame)) k = Ok (copy_ctx_to_frame c frame) (resumed_csrs c k).
Proof. reflexivity. Qed.

Lemma resumed_csrs_twice c c' k : resumed_csrs c (recontext i new (resumed_csrs c' k)) = resumed_csrs c (recontext i new k).
Proof. by destruct k as [[[]] ? ? ?]. Qed.

Lemma resume_hidden n rs c frame k : current (k_sched k) = Some n →
  resume n rs (if decide (n = i) then new else c) frame (recontext i new k) = hidden i new (resume n rs c frame k).
Proof.
  intros Hc. unfold resume. do 4 (apply hw_hidden; intros [] ?k Hs; rewrite <- Hs in Hc; clear Hs).
  cbn zeta. rewrite !resume_tail. unfold hidden.
  assert (∀ k, k_sched (resumed_csrs c k) = k_sched k) as Hs by done. rewrite Hs, Hc.
  destruct (decide (n = i)) as [->|Hne].
  - rewrite decide_True by done. by rewrite copy_ctx_twice, resumed_csrs_twice.
  - rewrite decide_False by congruence. done.
Qed.

Lemma schedule_discreet frame : discreet i new (schedule frame).
Proof.
  apply discreet_bind; [apply blind_on_hw|]. intros mepc.
  apply discreet_bind; [apply blind_on_hw|]. intros mstatus k Hk.
  pose proof (with_lock_chooses _ (pick_chooses frame mepc mstatus) k Hk) as Hp.
  unfold mbind, M_bind. destruct (with_lock (pick frame mepc mstatus) k) as [o k1|e k1|k1]; [|by rewrite Hp..].
  destruct Hp as (-> & Hc & Ho). destruct o as [[[n rs] c]|]; cbn.
  - exact (resume_hidden n rs c frame k1 Ho).
  - rewrite decide_False; [done|]. intros Hi. destruct (Hc Hi) as (? & ? & ?). done.
Qed.

Lemma kill_mark_blind : blind i new kill_mark.
Proof.
  apply blind_current. intros [c|] Hc; [|apply blind_ret]. assert (c ≠ i) by congruence.
  apply blind_bind; [by apply blind_task_at|]. intros [t|]; auto 8 with secrecy.
Qed.

Lemma kill_current_discreet frame : discreet i new (kill_current frame).
Proof.
  apply discreet_bind; [apply blind_with_lock, kill_mark_blind|]. intros _. apply schedule_discreet.
Qed.
End scheduler.

(** ** The trap handler *)

Section handler.
Context `{E : Env} `{B : SerialBackend} (i : nat) (new : TaskContext.t).

Lemma skip_blind mepc : blind i new (skip_instruction mepc).
Proof. unfold skip_instruction, write_mepc, add_u64. auto with secrecy. Qed.

Lemma panic_exception_blind {A} name mepc mtval : blind i new (panic_exception (A := A) name mepc mtval).
Proof. unfold panic_exception. auto with secrecy. Qed.

Lemma report_blind ps (frame : TrapFrame.t) : blind i new (on_hw (println ps);; mret frame).
Proof. auto with secrecy. Qed.

Lemma report_skip_blind ps mepc (frame : TrapFrame.t) :
  blind i new (on_hw (println ps);; skip_instruction mepc;; mret frame).
Proof. auto using skip_blind with secrecy. Qed.

Lemma access_fault_discreet name mepc mtval frame : discreet i new (handle_access_fault name mepc mtval frame).
Proof.
  apply discreet_bind; [apply blind_on_hw|]. intros mpp. destruct (mpp =? 0).
  - auto using kill_current_discreet with secrecy.
  - apply blind_discreet, panic_exception_blind.
Qed.

Lemma syscall_blind frame : blind i new (handle_syscall frame).
Proof.
  unfold handle_syscall. repeat destruct (_ =? _); auto with secrecy.
Qed.

Lemma interrupt_discreet cause frame : discreet i new (handle_interrupt cause frame).
Proof.
  unfold handle_interrupt. destruct (cause =? 7).
  - apply discreet_bind; [apply blind_tick|]. intros _.
    apply discreet_bind; [by apply blind_gets|]. intros ticks.
    destruct (_ =? _); auto using schedule_discreet with secrecy.
  - destruct (cause =? 11); [|destruct (cause =? 3)]; apply blind_discreet, report_blind.
Qed.

Lemma exception_discreet cause mepc mtval frame :
  0 ≤ cause → discreet i new (handle_exception cause mepc mtval frame).
Proof.
  intros H0.
  destruct (decide (cause ∈ [0; 1; 2; 3; 4; 5; 6; 7; 8; 9; 11; 12; 13; 15])) as [Hin|Hnin].
  - rewrite !elem_of_cons in Hin. destruct_or! Hin; subst; try by apply elem_of_nil in Hin.
    all: first [ apply access_fault_discreet | apply blind_discreet ].
    all: first [ apply panic_exception_blind | apply report_skip_blind | idtac ].
    apply blind_bind; [apply syscall_blind|]. auto using skip_blind with secrecy.
  - apply blind_discreet. rewrite unknown_handler by done. auto with secrecy.
Qed.

Lemma trap_handler_discreet frame : discreet i new (trap_handler frame).
Proof.
  do 3 (apply discreet_bind; [apply blind_on_hw|]; intros ?). cbn zeta.
  destruct (_ =? 1); [apply interrupt_discreet|apply exception_discreet]. apply Z.land_nonneg. by right.
Qed.
End handler.


(** ** Property *)

(** C3: the kernel's code does not pass on the registers of a suspended task.
    Let a trap of any kind be taken while task [i] is not current, and compare it
    with the same trap when any other context [new] is saved for [i].  The
    handler ends the same way, with the same panic message if there is one; it
    has chosen the same task, made the same accesses to the bus and so printed
    the same, and left the same frame, CSRs, PMP settings, allocator, counter and
    table, but that [new] is the context saved for [i] in the end too.  If [i] is
    the task that the handler resumes, the frame, [mepc] and [mstatus] are those
    of [new], and only they differ. *)
Theorem suspended_registers_secret `{E : Env} `{B : SerialBackend} i new frame k :
  current (k_sched k) ≠ Some i →
  let r := trap_handler frame (recontext i new k) in
  match trap_handler frame k with
  | Ok f k' =>
    if decide (current (k_sched k') = Some i) then
      ∃ k2, r = Ok (copy_ctx_to_frame new f) k2 ∧
        k_sched k2 = upd_context (λ _, new) i (k_sched k') ∧ k_alloc k2 = k_alloc k' ∧ k_ticks k2 = k_ticks k' ∧
        trace (k_hw k2) = trace (k_hw k') ∧ pmp (k_hw k2) = pmp (k_hw k') ∧
        csrs (k_hw k2) = csr_put Mstatus (TaskContext.mstatus new) (csr_put Mepc (TaskContext.mepc new) (csrs (k_hw k')))
    else r = Ok f (recontext i new k')
  | Panic e k' => r = Panic e (recontext i new k')
  | Spin k' => r = Spin (recontext i new k')
  end.
Proof.
  intros Hc r. pose proof (trap_handler_discreet i new frame k Hc) as Hd. fold r in Hd. rewrite Hd. clear Hd r.
  unfold hidden. destruct (trap_handler frame k) as [f k'|e k'|k']; [|done..].
  case_decide; [|done]. by eexists.
Qed.

(** ** Witness *)

Module secrecy_sample.
#[local] Instance env : Env := quiet_board true.
#[local] Existing Instance sample_image.
Import system_sample.

(** The tick that starts the echo task, with other registers saved for it: it is
    resumed at the address and with the stack of these. *)
Lemma suspended_registers_secret_witness :
  let new := TaskContext.new_umode 0x80004000 7 in
  ∃ f k', trap_handler sample.frame (recontext 1 new (trapped_kernel s0 (2 ^ 63 + 7) 0)) = Ok f k' ∧
    TrapFrame.sp f = 7 ∧ csr_get Mepc (csrs (k_hw k')) = 0x80004000.
Proof.
  intros new. set (k := trapped_kernel s0 (2 ^ 63 + 7) 0).
  assert (current (k_sched k) ≠ Some 1%nat) as Hc by (vm_compute; congruence).
  pose proof (suspended_registers_secret 1 new sample.frame k Hc) as Hs. cbn zeta in Hs.
  destruct (trap_handler sample.frame k) as [f k'|e k'|k'] eqn:Hrun; [|exfalso; revert Hrun; vm_compute; congruence..].
  assert (current (k_sched k') = Some 1%nat) as Hc'.
  { assert (k' = after (trap_handler sample.frame k)) as -> by (by rewrite Hrun). vm_compute. reflexivity. }
  rewrite decide_True in Hs by exact Hc'. destruct Hs as (k2 & Hr & _ & _ & _ & _ & _ & Hcs).
  exists (copy_ctx_to_frame new f), k2. split; [exact Hr|]. split; [reflexivity|].
  rewrite Hcs, csr_get_put_ne, csr_get_put_eq by discriminate. reflexivity.
Defined.
End secrecy_sample.
