(* ===== verification/Isolation.v ===== *)
(** Memory protection of the running system.

    [PmpAccess] gives the decisions of the PMP after one [load_task_config].
    Here the tasks that [kmain] ([crates/kernel/src/main.rs]) creates and the
    steps of the system are put together: in every state the system reaches, the
    task entries hold the regions of the current task, and the accesses that are
    let through are determined exactly.  The locked kernel entries come first in
    the PMP's order, and every region given to a task lies under one of them, so
    the decision is that of the kernel entries in all states. *)

From S2P Require Import Prelude Config Machine Serial PmpHw Linker Pmp PmpAccess Sync Timer Allocator Registers Policy.
From S2P Require Import Task Kernel Scheduler SchedulerProps TaskSpec Trap Asm Boot System Progress.

Local Open Scope Z_scope.

#[local] Arguments csr_get : simpl never.
#[local] Arguments csr_put : simpl never.

(** ** Specification *)

Definition within (lo hi addr len : Z) : Prop := lo ≤ addr ∧ addr + len ≤ hi.
Definition apart (lo hi addr len : Z) : Prop := addr + len ≤ lo ∨ hi ≤ addr.

(** What user code may do: execute the text, load and store data and UART. *)
Definition user_may `{I : Image} (acc : access) (addr len : Z) : Prop :=
  match acc with
  | AccX => within _stext _user_text_end addr len
  | _ => within _user_text_end _eheap addr len ∨ within UART_BASE (UART_BASE + 0x1000) addr len
  end.

(** What lies outside the image and the UART page. *)
Definition elsewhere `{I : Image} (addr len : Z) : Prop :=
  apart _stext _user_text_end addr len ∧ apart _user_text_end _eheap addr len ∧
  apart UART_BASE (UART_BASE + 0x1000) addr len.

(** ** Regions under the kernel entries *)

(** A zone under the kernel entries: an access that all of these miss misses it. *)
Definition covered `{I : Image} (z : zone) : Prop :=
  within _stext _eheap (z_lo z) (z_hi z - z_lo z) ∨
  within UART_BASE (UART_BASE + 0x1000) (z_lo z) (z_hi z - z_lo z).

Section covered.
Context `{I : Image} `{IO : !ImageOk I}.

Lemma image_order : _stext < _user_text_end ∧ _user_text_end < _eheap ∧ UART_BASE + 0x1000 ≤ _stext.
Proof.
  pose proof text_layout as Ht. pose proof data_layout as Hd. rewrite _stext_val in *.
  unfold KERNEL_STACK_SIZE, KERNEL_HEAP_SIZE, UART_BASE in *. lia.
Qed.

(** Covered zones behind the kernel's decide nothing. *)
Lemma zones_allow_covered zs m acc addr len :
  Forall covered zs → 0 < len →
  zones_allow (kernel_zones ++ zs) m acc addr len = zones_allow kernel_zones m acc addr len.
Proof.
  intros Hz Hlen. pose proof image_order as (H1 & H2 & H3). unfold kernel_zones. cbn [app zones_allow z_lo z_hi z_perm].
  destruct (misses _stext _ _ _) eqn:M1; [|done]. destruct (misses _user_text_end _ _ _) eqn:M2; [|done].
  destruct (misses UART_BASE _ _ _) eqn:M3; [|done].
  rewrite misses_spec in M1, M2, M3. apply zones_allow_all_miss. eapply Forall_impl; [exact Hz|].
  intros z [[? ?]|[? ?]]; lia.
Qed.

(** The decision of the kernel zones, spelled out. *)
Lemma kernel_zones_decide m acc addr len : 0 < len →
  zones_allow kernel_zones m acc addr len = true ↔
  match m with
  | PmpHw.UMode => user_may acc addr len
  | PmpHw.MMode => user_may acc addr len ∨ elsewhere addr len
  end.
Proof.
  intros Hlen. pose proof image_order as (H1 & H2 & H3). unfold UART_BASE in *.
  unfold kernel_zones. cbn [zones_allow z_lo z_hi z_perm]. unfold user_may, elsewhere, within, apart, UART_BASE.
  destruct (misses _stext _ _ _) eqn:M1; [|apply not_true_iff_false in M1];
    [destruct (misses _user_text_end _ _ _) eqn:M2; [|apply not_true_iff_false in M2];
      [destruct (misses (0x10000000) _ _ _) eqn:M3; [|apply not_true_iff_false in M3]|]|].
  all: rewrite ?misses_spec in *; rewrite ?andb_true_iff, ?Z.leb_le.
  all: destruct m, acc; simpl; try (split; intros; (done || lia)).
Qed.
End covered.

(** The regions of the tasks that boot creates are covered. *)
Lemma boot_task_covered `{I : Image} `{IO : !ImageOk I} i t :
  task_of boot_table i = Some t → Forall covered (task_zones (regions (pmp_config t))).
Proof.
  pose proof image_order as (H1 & H2 & H3). pose proof text_layout as (Ht1 & Ht2 & _).
  pose proof heap_layout as Hh. pose proof boot_stack_spec as [Hb _]. pose proof data_layout as (Hd1 & Hd2 & _).
  unfold KERNEL_STACK_SIZE in Hd2.
  assert (∀ lo sz f, within _stext _eheap lo sz → covered (mkZone lo (lo + sz) f)) as Hin.
  { intros lo sz f [? ?]. left. unfold within. simpl. lia. }
  destruct i as [|[|[|[|i]]]]; [intros [= <-]; cbn..|done|done]; [by constructor|..].
  all: repeat apply List.Forall_cons; try apply List.Forall_nil.
  all: try (apply Hin; unfold within, TASK_STACK_SIZE; lia).
  right. unfold within. simpl. lia.
Qed.

(** ** The invariant *)

Record iso_inv `{I : Image} (s : Sys) : Prop := {
  iv_config : ∀ i, pmp_config <$> task_of (k_sched (s_k s)) i = pmp_config <$> task_of boot_table i;
  iv_boot : current (k_sched (s_k s)) = None → pmp (k_hw (s_k s)) = kernel_regs;
  iv_loaded : ∀ i t, current (k_sched (s_k s)) = Some i → task_of (k_sched (s_k s)) i = Some t →
    task_loaded (regions (pmp_config t)) kernel_regs (pmp (k_hw (s_k s)));
}.

(** Scheduling and killing leave the regions of every task alone. *)
Lemma saved_config frame mepc mstatus st i :
  pmp_config <$> task_of (saved frame mepc mstatus st) i = pmp_config <$> task_of st i.
Proof.
  rewrite task_of_saved. case_decide; [|done]. destruct (task_of st i) as [t|]; [|done].
  simpl. unfold save_task. by case_bool_decide.
Qed.

Lemma resched_config frame mepc mstatus st i :
  pmp_config <$> task_of (resched frame mepc mstatus st) i = pmp_config <$> task_of st i.
Proof.
  unfold resched. cbn zeta. rewrite <- (saved_config frame mepc mstatus st i). destruct (next_of _); [|done].
  rewrite task_of_dispatched. case_decide; [|done]. by destruct (task_of _ i).
Qed.

Lemma killed_config st i : pmp_config <$> task_of (killed st) i = pmp_config <$> task_of st i.
Proof. rewrite task_of_killed. case_decide; [|done]. by destruct (task_of st i). Qed.

Lemma table_step_config st st' i :
  table_step st st' → pmp_config <$> task_of st' i = pmp_config <$> task_of st i.
Proof. intros []; by rewrite ?resched_config, ?killed_config. Qed.

(** Only the task entries of the PMP count for the loading of a task. *)
Lemma task_loaded_kernel `{I : Image} rs p p' :
  kernel_entries p → task_loaded rs p p' → task_loaded rs kernel_regs p'.
Proof.
  intros Hk [H1 H2 H3 H4 H5]. constructor; try done.
  - intros i Hi. rewrite H2 by done. by apply Hk.
  - intros i Hi. rewrite H3 by done. by apply Hk.
Qed.

Section invariant.
Context `{E : Env} `{B : SerialBackend} `{L : !SerialLaws B} `{I : Image} `{IO : !ImageOk I} `{CK : !ClockOk E}.

(** A switch loads the task that becomes current. *)
Lemma scheduled_loaded frame k k1 frame' k' :
  kernel_ok k → pmp (k_hw k1) = pmp (k_hw k) → scheduled frame k1 frame' k' →
  (∀ i t, current (k_sched k1) = Some i → task_of (k_sched k1) i = Some t →
     task_loaded (regions (pmp_config t)) kernel_regs (pmp (k_hw k))) →
  (current (k_sched k1) = None → pmp (k_hw k) = kernel_regs) →
  (∀ i t, current (k_sched k') = Some i → task_of (k_sched k') i = Some t →
     task_loaded (regions (pmp_config t)) kernel_regs (pmp (k_hw k'))) ∧
  (current (k_sched k') = None → pmp (k_hw k') = kernel_regs).
Proof.
  intros Hk Hp Hs Hl Hn. unfold scheduled in Hs. set (st := saved _ _ _ _) in Hs.
  destruct (next_of st) as [j|].
  - destruct Hs as (t & Ht & _ & [_ Hld _ _ _] & Hsc & _). rewrite Hsc. cbn [current dispatched upd_task].
    split; [|done]. intros i t' [= <-] Ht'. rewrite task_of_dispatched, decide_True, Ht in Ht' by done.
    injection Ht' as <-. cbn. eapply task_loaded_kernel; [|exact Hld]. rewrite Hp. apply Hk.
  - destruct Hs as [_ ->]. cbn [k_sched k_hw set_sched]. rewrite Hp. unfold st. rewrite current_saved.
    split; [|done]. intros i t Hc Ht. pose proof (saved_config frame (csr_get Mepc (csrs (k_hw k1)))
      (csr_get Mstatus (csrs (k_hw k1))) (k_sched k1) i) as Hcf.
    rewrite Ht in Hcf. destruct (task_of (k_sched k1) i) as [t0|] eqn:Ht0; [|done].
    injection Hcf as Hcf. rewrite Hcf. by apply (Hl i).
Qed.

Lemma iso_step s s' : sys_inv s → iso_inv s → sys_step s s' → iso_inv s'.
Proof.
  intros Hs Hi Hstep. pose proof (sys_step_table _ _ Hs Hstep) as Htab.
  assert (∀ i, pmp_config <$> task_of (k_sched (s_k s')) i = pmp_config <$> task_of boot_table i) as Hcfg
    by (intros i; rewrite (table_step_config _ _ i Htab); apply Hi).
  clear Htab. destruct Hstep as [k gpr pc m gpr' pc' Hpc|s cause tval frame' k' [Hu Hmay] Hrun Hpc].
  { destruct Hi. by constructor. }
  pose proof (trapped_ok s cause tval Hs) as Hk.
  destruct (handled_effect s cause tval frame' k' Hs Hu Hrun) as [He _].
  assert (k_sched (trapped_kernel s cause tval) = k_sched (s_k s)) as Hsc by done.
  assert (pmp (k_hw (trapped_kernel s cause tval)) = pmp (k_hw (s_k s))) as Hpm by done.
  set (k := trapped_kernel s cause tval) in *. clearbody k.
  enough ((∀ i t, current (k_sched k') = Some i → task_of (k_sched k') i = Some t →
     task_loaded (regions (pmp_config t)) kernel_regs (pmp (k_hw k'))) ∧
    (current (k_sched k') = None → pmp (k_hw k') = kernel_regs)) as [H1 H2] by (by constructor).
  destruct Hi as [_ Hb Hl]. rewrite <- Hsc, <- Hpm in Hb, Hl. clear -He Hk Hb Hl.
  destruct He as [k1 frame' k' _ _ Hs1 [_ Hp1] Hsch|k1 frame' k' _ Hmpp _ Hs1 [_ Hp1] Hsch|frame' k' Hs1 _ Hp1 _].
  - eapply scheduled_loaded; [exact Hk|exact Hp1|exact Hsch|by rewrite Hs1|by rewrite Hs1].
  - eapply scheduled_loaded; [exact Hk|exact Hp1|exact Hsch|rewrite Hs1, current_killed..]; [|done].
    intros i t Hc Ht. pose proof (killed_config (k_sched k) i) as Hcf. rewrite Ht in Hcf.
    destruct (task_of (k_sched k) i) as [t0|] eqn:Ht0; [|done]. injection Hcf as ->. by apply (Hl i).
  - by rewrite Hs1, Hp1.
Qed.

Lemma booted_iso k0 s : booted k0 s → iso_inv s.
Proof.
  intros Hb. destruct (booted_facts k0 s Hb) as (Hs & _ & Hp & _). constructor; rewrite ?Hs; done.
Qed.

Lemma steps_iso s s' : sys_inv s → iso_inv s → rtc sys_step s s' → iso_inv s'.
Proof. intros Hs Hi Hr. by apply (steps_keep iso_inv s s' iso_step). Qed.

(** The registers of boot let through what the kernel zones let through. *)
Lemma kernel_regs_zones m acc addr len :
  pmp_check kernel_regs m acc addr len = zones_allow kernel_zones m acc addr len.
Proof.
  rewrite (pmp_check_zones (replicate 16 no_region) kernel_regs kernel_regs).
  - by rewrite app_nil_r.
  - constructor; try done; [apply kernel_regs_wf|..]; intros i Hi; unfold PMP_COUNT in Hi.
    all: do 4 (destruct i as [|i]; [lia|]); do 12 (destruct i as [|i]; [reflexivity|]); lia.
  - intros i Hi. left. unfold PMP_COUNT in Hi. do 16 (destruct i as [|i]; [reflexivity|]). lia.
  - apply kernel_regs_ready.
Qed.

(** In a state of the invariant, the kernel zones decide. *)
Lemma iso_decides s m acc addr len : sys_inv s → iso_inv s → 0 < len →
  pmp_check (pmp (k_hw (s_k s))) m acc addr len = zones_allow kernel_zones m acc addr len.
Proof.
  intros Hs [Hcf Hb Hl] Hlen. destruct (current (k_sched (s_k s))) as [i|] eqn:Hc;
    [|by rewrite Hb, kernel_regs_zones].
  destruct (si_running _ Hs i Hc) as (t & Ht & _). specialize (Hcf i). rewrite Ht in Hcf.
  destruct (task_of boot_table i) as [tb|] eqn:Htb; [|done]. injection Hcf as Hcf.
  rewrite (pmp_check_zones (regions (pmp_config t)) kernel_regs);
    [|by eapply Hl|by eapply tw_regions, (sw_tasks _ (ko_sched _ (si_kernel _ Hs)))|apply kernel_regs_ready].
  apply zones_allow_covered; [|done]. rewrite Hcf. by eapply boot_task_covered.
Qed.
End invariant.

(** ** Property *)

(** C6: what the PMP enforces while the system runs.  In every state reached
    after boot, the task entries of the PMP hold the regions the current task
    was created with, and the accesses that are let through are exactly these:
    user code executes the kernel and user text, loads and stores between the
    end of the text and the end of the heap and in the UART page, and nothing
    else; machine-mode code may do the same and touch whatever lies outside
    the image and the UART page.  The outside world, the CLINT
    with the timer included, is closed to every user task at all times; between
    tasks the answer does not depend on which of them is current. *)
Theorem protection_exact `{E : Env} `{B : SerialBackend} `{L : !SerialLaws B} `{I : Image}
    `{IO : !ImageOk I} `{CK : !ClockOk E} k0 s0 s :
  booted k0 s0 → rtc sys_step s0 s →
  (∀ i, current (k_sched (s_k s)) = Some i → ∃ t, task_of boot_table i = Some t ∧
     task_loaded (regions (pmp_config t)) kernel_regs (pmp (k_hw (s_k s)))) ∧
  ∀ acc addr len, 0 < len →
    (pmp_check (pmp (k_hw (s_k s))) PmpHw.UMode acc addr len = true ↔ user_may acc addr len) ∧
    (pmp_check (pmp (k_hw (s_k s))) PmpHw.MMode acc addr len = true ↔
       user_may acc addr len ∨ elsewhere addr len).
Proof.
  intros Hb Hr. pose proof (booted_inv k0 s0 Hb) as Hs0. pose proof (steps_inv s0 s Hs0 Hr) as Hs.
  pose proof (steps_iso s0 s Hs0 (booted_iso k0 s0 Hb) Hr) as Hi. split.
  - intros i Hc. destruct (si_running _ Hs i Hc) as (t & Ht & _). pose proof (iv_config _ Hi i) as Hcf.
    rewrite Ht in Hcf. destruct (task_of boot_table i) as [tb|]; [|done]. injection Hcf as Hcf.
    exists tb. split; [done|]. rewrite <- Hcf. by apply (iv_loaded _ Hi i).
  - intros acc addr len Hlen. rewrite !(iso_decides s) by done.
    by rewrite (kernel_zones_decide PmpHw.UMode), (kernel_zones_decide PmpHw.MMode).
Qed.

(** ** Witness *)

Module isolation_sample.
#[local] Instance env : Env := quiet_board true.
#[local] Existing Instance sample_image.
#[local] Existing Instance trap_sample.clock.
Import system_sample.

(** The echo task, started by the first tick, cannot reach the timer's compare
    register; machine mode can. *)
Lemma protection_exact_witness :
  s_mode (tick s0) = PmpHw.UMode ∧
  pmp_check (pmp (k_hw (s_k (tick s0)))) PmpHw.UMode AccW (CLINT_BASE + MTIMECMP_OFFSET) 8 ≠ true ∧
  pmp_check (pmp (k_hw (s_k (tick s0)))) PmpHw.MMode AccW (CLINT_BASE + MTIMECMP_OFFSET) 8 = true.
Proof.
  split; [vm_compute; reflexivity|].
  destruct (proj2 (protection_exact reset_kernel s0 (tick s0) s0_booted (rtc_once _ _ tick_step))
    AccW (CLINT_BASE + MTIMECMP_OFFSET) 8 eq_refl) as [Hu Hm].
  split.
  - rewrite Hu. vm_compute. intros [[H _]|[H _]]; by apply H.
  - apply Hm. right. vm_compute. split_all; (left; discriminate) || (right; discriminate).
Defined.
End isolation_sample.
