(* ===== verification/Preemption.v ===== *)
(** Preemption stays alive, and how fast it serves.

    The files [timer.rs], [trap.rs] and [sched/scheduler.rs] together keep the
    timer interrupt possible: the handler runs with interrupts off, every context
    it can resume turns them on again at [mret], [mie] keeps the timer enabled,
    [mtvec] points to [trap_vector], and the comparator holds one interval after
    the last time read.  This file states it as an invariant of the running
    system, and derives a bound in clock ticks on the time a ready task waits.
    File Guarded takes both to the machine with memory. *)

From S2P Require Import Prelude Config Machine Serial PmpHw Linker Pmp PmpAccess Sync Timer Allocator Registers Policy.
From S2P Require Import Task Kernel Scheduler SchedulerProps TaskSpec Trap Asm Boot System Progress.

Local Open Scope Z_scope.

#[local] Arguments csr_get : simpl never.
#[local] Arguments csr_put : simpl never.

(** ** When the hardware takes the timer interrupt *)

(** The timer interrupt is pending when [mtime] has reached [mtimecmp]; it is
    taken when it is enabled in [mie], and interrupts are on or the code is not
    in machine mode. *)
Definition hw_due (h : Hw) (m : priv) (time : Z) : bool :=
  match mtimecmp_of (trace h) with Some c => c <=? time | None => false end &&
  Z.testbit (csr_get Mie (csrs h)) 7 &&
  match m with PmpHw.UMode => true | PmpHw.MMode => mie_bit (csr_get Mstatus (csrs h)) end.

Definition timer_due (s : Sys) (time : Z) : bool := hw_due (k_hw (s_k s)) (s_mode s) time.

(** [now] is the time the driver read last, and the comparator is set from it. *)
Definition armed_at (h : Hw) (now : Z) : Prop :=
  ∃ past, off_uart (trace h) =
    Wr64 (CLINT_BASE + MTIMECMP_OFFSET) (now + 100000) :: Rd64 (CLINT_BASE + MTIME_OFFSET) now :: past.

Lemma armed_at_deadline h now : armed_at h now → mtimecmp_of (trace h) = Some (now + 100000).
Proof. intros [past Hp]. rewrite <- mtimecmp_off_uart, Hp. reflexivity. Qed.

(** An [mstatus] as a handler leaves it: interrupts are off, and [mret] turns
    them on. *)
Definition masked (mstatus : Z) : Prop := mie_bit mstatus = false ∧ Z.testbit mstatus 7 = true.

Definition table_masked (st : SchedulerState) : Prop :=
  ∀ i t, task_of st i = Some t → masked (TaskContext.mstatus (context t)).

Lemma trap_masks m v : mie_bit v = true → masked (trap_mstatus m v).
Proof.
  unfold masked, mie_bit, trap_mstatus. intros ->. rewrite !Z.lor_spec, !Z.ldiff_spec, !Z.lor_spec.
  split; destruct m; cbn; by rewrite ?andb_false_r, ?orb_true_r.
Qed.

Lemma mret_unmasks v : masked v → mie_bit (mret_mstatus v) = true.
Proof.
  unfold masked, mie_bit, mret_mstatus. intros [_ ->]. rewrite !Z.lor_spec, !Z.ldiff_spec, !Z.lor_spec.
  cbn. by rewrite orb_true_r.
Qed.

(** ** The invariant *)

Record alive_inv `{I : Image} (s : Sys) : Prop := {
  al_mie : mie_bit (csr_get Mstatus (csrs (k_hw (s_k s)))) = true;
  al_table : table_masked (k_sched (s_k s));
  al_mtie : Z.testbit (csr_get Mie (csrs (k_hw (s_k s)))) 7 = true;
  al_mtvec : csr_get Mtvec (csrs (k_hw (s_k s))) = trap_vector_addr;
  al_armed : ∃ now, armed_at (k_hw (s_k s)) now;
}.

Lemma killed_masked st : table_masked st → table_masked (killed st).
Proof.
  intros Ht i t. rewrite task_of_killed. case_decide; [|by apply Ht].
  intros (t0 & Ht0 & ->)%fmap_Some. exact (Ht i t0 Ht0).
Qed.

Lemma saved_masked frame mepc mstatus st :
  masked mstatus → table_masked st → table_masked (saved frame mepc mstatus st).
Proof.
  intros Hm Ht i t. rewrite task_of_saved. case_decide; [|by apply Ht].
  intros (t0 & Ht0 & ->)%fmap_Some. unfold save_task. by case_bool_decide.
Qed.

Section invariant.
Context `{E : Env} `{B : SerialBackend} `{L : !SerialLaws B} `{I : Image} `{IO : !ImageOk I} `{CK : !ClockOk E}.

(** The scheduler keeps interrupts masked. *)
Lemma scheduled_masked frame k frame' k' :
  masked (csr_get Mstatus (csrs (k_hw k))) → table_masked (k_sched k) → scheduled frame k frame' k' →
  masked (csr_get Mstatus (csrs (k_hw k'))) ∧ table_masked (k_sched k') ∧
  ∀ r, r ≠ Mepc → r ≠ Mstatus → csr_get r (csrs (k_hw k')) = csr_get r (csrs (k_hw k)).
Proof.
  intros Hm Ht. unfold scheduled. set (st := saved _ _ _ _).
  assert (table_masked st) as Hst by (by apply saved_masked). clearbody st. destruct (next_of st) as [i|].
  - intros (t & Hti & _ & [Hc _ _ _ _] & -> & _). rewrite Hc, csr_get_put_eq. split; [by apply (Hst i)|]. split.
    + intros j u. rewrite task_of_dispatched. case_decide; [|by apply Hst].
      intros (u0 & Hu0 & ->)%fmap_Some. exact (Hst j u0 Hu0).
    + intros r H1 H2. by rewrite !csr_get_put_ne.
  - intros [_ ->]. done.
Qed.

(** What a handled trap keeps, seen from inside the handler. *)
Lemma effect_alive frame k frame' k' :
  masked (csr_get Mstatus (csrs (k_hw k))) → table_masked (k_sched k) → trap_effect frame k frame' k' →
  masked (csr_get Mstatus (csrs (k_hw k'))) ∧ table_masked (k_sched k') ∧
  (∀ r, r ≠ Mepc → r ≠ Mstatus → csr_get r (csrs (k_hw k')) = csr_get r (csrs (k_hw k))) ∧
  (armed (k_hw k) (k_hw k') ∧ csr_get Mcause (csrs (k_hw k)) = 2 ^ 63 + interrupt_code MachineTimer ∨
   off_uart (trace (k_hw k')) = off_uart (trace (k_hw k))).
Proof.
  intros Hm Ht He.
  destruct He as [k1 frame' k' Hca [now Ha] Hs1 [Hc1 _] Hsch|k1 frame' k' _ _ Hb Hs1 [Hc1 _] Hsch|frame' k' Hs1 Hcs1 _ Hb].
  - destruct (scheduled_masked frame k1 frame' k') as (H1 & H2 & H3); [by rewrite Hc1|by rewrite Hs1|done|].
    rewrite Hc1 in H3. split_all. left. split; [|done]. exists now. by rewrite (scheduled_bus _ _ _ _ Hsch).
  - destruct (scheduled_masked frame k1 frame' k') as (H1 & H2 & H3);
      [by rewrite Hc1|by rewrite Hs1; apply killed_masked|done|].
    rewrite Hc1 in H3. split_all. right. by rewrite (scheduled_bus _ _ _ _ Hsch).
  - rewrite Hs1, (Hcs1 Mstatus) by done. do 2 (split; [done|]). split; [intros r Hr _; by apply Hcs1|by right].
Qed.

(** Trap entry leaves [mie] and [mtvec] alone. *)
Lemma trapped_kept s cause tval r : r ∈ [Mie; Mtvec] →
  csr_get r (csrs (k_hw (trapped_kernel s cause tval))) = csr_get r (csrs (k_hw (s_k s))).
Proof.
  rewrite !elem_of_cons, elem_of_nil. intros Hr. cbn. unfold trap_csrs.
  destruct_or! Hr; subst; by rewrite !csr_get_put_ne.
Qed.

(** The handler of a trap taken in a state of the invariant. *)
Lemma handled_alive s cause tval frame' k' :
  let k := trapped_kernel s cause tval in
  sys_inv s → alive_inv s → u64 cause → trap_handler (s_gpr s) k = Ok frame' k' →
  masked (csr_get Mstatus (csrs (k_hw k))) ∧ masked (csr_get Mstatus (csrs (k_hw k'))) ∧
  alive_inv (returned k' frame') ∧
  (armed (k_hw (s_k s)) (k_hw k') ∧ cause = 2 ^ 63 + interrupt_code MachineTimer ∨
   off_uart (trace (k_hw k')) = off_uart (trace (k_hw (s_k s)))).
Proof.
  intros k Hs [Hmie Htab Hmtie Htv [now Ha]] Hu Hrun. pose proof (trapped_ok s cause tval Hs) as Hk.
  destruct (trapped_csrs s cause tval) as (Hca & _ & _ & Hms). cbn zeta in *. fold k in Hk, Hca, Hms.
  assert (masked (csr_get Mstatus (csrs (k_hw k)))) as Hmk by (rewrite Hms; by apply trap_masks).
  destruct (handled_effect s cause tval frame' k' Hs Hu Hrun) as [He _].
  destruct (effect_alive _ _ _ _ Hmk Htab He) as (Hmk' & Htab' & Hcs & Hbus). rewrite Hca in Hbus.
  split; [done|]. split; [done|]. split; [|exact Hbus]. constructor; cbn [s_k returned k_hw k_sched hw_upd Kernel_HasHw csrs hw_set_csrs].
  - rewrite csr_get_put_eq. by apply mret_unmasks.
  - exact Htab'.
  - rewrite csr_get_put_ne, Hcs by done. unfold k. rewrite trapped_kept; [done|by left].
  - rewrite csr_get_put_ne, Hcs by done. unfold k. rewrite trapped_kept; [done|by right; left].
  - destruct Hbus as [[[now' Hb] _]|Hb]; [exists now'; by eexists|]. exists now. destruct Ha as [past Hp].
    exists past. transitivity (off_uart (trace (k_hw (s_k s)))); [exact Hb|exact Hp].
Qed.

Lemma alive_step s s' : sys_inv s → alive_inv s → sys_step s s' → alive_inv s'.
Proof.
  intros Hs Ha Hstep. destruct Hstep as [k gpr pc m gpr' pc' Hpc|s cause tval frame' k' [Hu Hmay] Hrun Hpc].
  - destruct Ha. by constructor.
  - by eapply handled_alive.
Qed.

Lemma boot_table_masked : table_masked boot_table.
Proof. intros [|[|[|[|i]]]] t; [intros [= <-]; done..|done|done]. Qed.

Lemma booted_alive k0 s : booted k0 s → alive_inv s.
Proof.
  intros Hboot. destruct (booted_facts k0 s Hboot) as (Hs & _ & _ & Hc & now & Hb).
  unfold boot_csrs in Hc. cbn zeta in Hc.
  constructor; rewrite ?Hs, ?Hc.
  - rewrite csr_get_put_eq. unfold mie_bit. rewrite Z.lor_spec. apply orb_true_r.
  - apply boot_table_masked.
  - rewrite csr_get_put_ne, csr_get_put_eq, Z.lor_spec by done. apply orb_true_r.
  - by rewrite 2!csr_get_put_ne, csr_get_put_eq by done.
  - exists now. eexists. exact Hb.
Qed.

Lemma steps_alive s s' : sys_inv s → alive_inv s → rtc sys_step s s' → alive_inv s'.
Proof. intros Hs Hi Hr. by apply (steps_keep alive_inv s s' alive_step). Qed.

(** With the invariant, the comparator alone says whether the timer is due. *)
Lemma due_alive s now time : alive_inv s → armed_at (k_hw (s_k s)) now →
  timer_due s time = (now + 100000 <=? time).
Proof.
  intros [Hm _ Hi _ _] Ha. unfold timer_due, hw_due.
  rewrite (armed_at_deadline _ _ Ha), Hi, Hm. destruct (s_mode s); by rewrite !andb_true_r.
Qed.
End invariant.

(** ** Runs in time *)

Section timed.
Context `{E : Env} `{B : SerialBackend}.

(** A step that is not the timer interrupt. *)
Inductive other_step : Sys → Sys → Prop :=
| os_run k gpr pc m gpr' pc' :
    0 ≤ pc' < 2 ^ 64 - 4 → other_step (mkSys k gpr pc m) (mkSys k gpr' pc' m)
| os_trap s cause tval frame' k' :
    cause ≠ 2 ^ 63 + interrupt_code MachineTimer → may_trap s cause →
    trap_handler (s_gpr s) (trapped_kernel s cause tval) = Ok frame' k' →
    0 ≤ csr_get Mepc (csrs (k_hw k')) < 2 ^ 64 - 4 → other_step s (returned k' frame').

(** The step from [h] to [h'] between the times [t] and [t1] reads the clock. *)
Definition reads_clock (h h' : Hw) (t t1 : Z) : Prop :=
  ∀ new now, off_uart (trace h') = new ++ off_uart (trace h) →
    Rd64 (CLINT_BASE + MTIME_OFFSET) now ∈ new → t ≤ now ≤ t1.

(** [timed_run d t s t' l]: from [s] at time [t] to time [t'] through the states
    [l].  A step lasts at most [d]; a due timer interrupt is taken, at once, and
    one that is not due is not. *)
Inductive timed_run (d : Z) : Z → Sys → Z → list Sys → Prop :=
| tr_nil t s : timed_run d t s t []
| tr_other t t1 t' s s1 l :
    t ≤ t1 ≤ t + d → timer_due s t = false → other_step s s1 →
    timed_run d t1 s1 t' l → timed_run d t s t' (s1 :: l)
| tr_tick t t1 t' s s1 l :
    t ≤ t1 ≤ t + d → timer_due s t = true → timer_step s s1 →
    reads_clock (k_hw (s_k s)) (k_hw (s_k s1)) t t1 →
    timed_run d t1 s1 t' l → timed_run d t s t' (s1 :: l).

Lemma other_step_sys s s1 : other_step s s1 → sys_step s s1.
Proof. intros []; [by apply step_run|by eapply step_trap]. Qed.
End timed.

Section response.
Context `{E : Env} `{B : SerialBackend} `{L : !SerialLaws B} `{I : Image} `{IO : !ImageOk I} `{CK : !ClockOk E}.

(** Only the timer interrupt moves the deadline. *)
Lemma other_step_armed s s1 now :
  sys_inv s → alive_inv s → other_step s s1 → armed_at (k_hw (s_k s)) now → armed_at (k_hw (s_k s1)) now.
Proof.
  intros Hs Ha Hst [past Hp]. exists past. rewrite <- Hp. clear Hp past.
  destruct Hst as [k gpr pc m gpr' pc' Hpc|s cause tval frame' k' Hne [Hu Hmay] Hrun Hpc]; [done|].
  destruct (handled_alive s cause tval frame' k' Hs Ha Hu Hrun) as (_ & _ & _ & [[_ ?]|Hb]); [done|exact Hb].
Qed.

Lemma timer_step_armed s s1 t t1 :
  sys_inv s → alive_inv s → timer_step s s1 → reads_clock (k_hw (s_k s)) (k_hw (s_k s1)) t t1 →
  alive_inv s1 ∧ ∃ now, armed_at (k_hw (s_k s1)) now ∧ t ≤ now ≤ t1.
Proof.
  intros Hs Ha (tval & frame' & k' & [Hu _] & Hrun & ->) Hrd.
  destruct (handled_alive s _ tval frame' k' Hs Ha Hu Hrun) as (_ & _ & Ha' & _). split; [exact Ha'|].
  destruct (timer_run s tval Hs) as (f2 & k2 & h1 & Hrun2 & _ & _ & [now Hn] & Hsch). cbn zeta in *.
  change (2 ^ 63 + interrupt_code MachineTimer) with (2 ^ 63 + 7) in Hrun.
  rewrite Hrun2 in Hrun. injection Hrun as <- <-. pose proof (scheduled_bus _ _ _ _ Hsch) as Hb.
  cbn [k_hw] in Hb. rewrite Hn in Hb. exists now. split; [by eexists; exact Hb|].
  apply (Hrd [_; _] now Hb). by right; left.
Qed.

(** The time by which [S k] more ticks are over, at time [t] with the comparator
    at [c] and steps of at most [d]. *)
Definition ticks_over (d t c : Z) (k : nat) : Z :=
  (if t <? c then c + 2 * d else t + d) + Z.of_nat k * (100000 + 2 * d).

(** A run that lasts as long counts the ticks. *)
Lemma timed_ticks d t s t' l now k :
  0 < d → sys_inv s → alive_inv s → armed_at (k_hw (s_k s)) now →
  timed_run d t s t' l → ticks_over d t (now + 100000) k ≤ t' → ∃ n, (k < n)%nat ∧ run n s l.
Proof.
  intros Hd Hs Ha Hnow Hrun. revert now k Hs Ha Hnow. unfold ticks_over.
  induction Hrun as [t s|t t1 t' s s1 l Ht Hdue Hst Hr IH|t t1 t' s s1 l Ht Hdue Hst Hrd Hr IH];
    intros now k Hs Ha Hnow.
  - destruct (Z.ltb_spec t (now + 100000)); nia.
  - rewrite (due_alive s now t Ha Hnow), Z.leb_gt in Hdue. rewrite (proj2 (Z.ltb_lt _ _) Hdue). intros Hk.
    pose proof (other_step_sys _ _ Hst) as Hsys.
    destruct (IH now k) as (n & Hn & Hrn);
      [by eapply sys_step_inv|by eapply alive_step|by eapply other_step_armed| |].
    { destruct (Z.ltb_spec t1 (now + 100000)); lia. }
    exists n. split; [done|]. by eapply run_other.
  - rewrite (due_alive s now t Ha Hnow), Z.leb_le in Hdue. rewrite (proj2 (Z.ltb_ge _ _) Hdue). intros Hk.
    destruct (timer_step_armed s s1 t t1 Hs Ha Hst Hrd) as (Ha1 & now1 & Hn1 & Hle).
    assert (∃ n, (k ≤ n)%nat ∧ run n s1 l) as (n & Hn & Hrn).
    { destruct k as [|k].
      - clear IH Hk. assert (∀ s1, timed_run d t1 s1 t' l → ∃ n, run n s1 l) as Hany.
        { clear. intros s1 Hr. induction Hr as [| ? ? ? ? ? ? ? ? Ho ? [n IH]|? ? ? ? ? ? ? ? Ho ? ? [n IH]];
            [by exists 0%nat; constructor|exists n; by eapply run_other; [apply other_step_sys|]|exists (S n); by eapply run_tick]. }
        destruct (Hany s1 Hr) as [n Hrn]. exists n. split; [lia|done].
      - destruct (IH now1 k) as (n & Hn & Hrn); [by eapply timer_step_inv|done|done| |exists n; split; [lia|done]].
        destruct (Z.ltb_spec t1 (now1 + 100000)); lia. }
    exists (S n). split; [lia|]. by eapply run_tick.
Qed.
End response.

(** ** The system *)

(** The timer stays alive in the system: the comparator, the enable bits and the
    vector, and the mask during handlers. *)
Lemma sys_timer_alive `{E : Env} `{B : SerialBackend} `{L : !SerialLaws B} `{I : Image}
    `{IO : !ImageOk I} `{CK : !ClockOk E} k0 s0 s :
  booted k0 s0 → rtc sys_step s0 s →
  csr_get Mtvec (csrs (k_hw (s_k s))) = trap_vector_addr ∧
  (∃ now, armed_at (k_hw (s_k s)) now ∧ ∀ time, timer_due s time = (now + 100000 <=? time)) ∧
  (∀ cause tval frame' k', u64 cause →
     let k := trapped_kernel s cause tval in
     trap_handler (s_gpr s) k = Ok frame' k' →
     mie_bit (csr_get Mstatus (csrs (k_hw k))) = false ∧ mie_bit (csr_get Mstatus (csrs (k_hw k'))) = false ∧
     mie_bit (csr_get Mstatus (csrs (k_hw (s_k (returned k' frame'))))) = true) ∧
  (∀ tval, ∃ frame' k' now',
     trap_handler (s_gpr s) (trapped_kernel s (2 ^ 63 + interrupt_code MachineTimer) tval) = Ok frame' k' ∧
     armed_at (k_hw k') now').
Proof.
  intros Hb Hr. pose proof (booted_inv k0 s0 Hb) as Hs0. pose proof (steps_inv s0 s Hs0 Hr) as Hs.
  pose proof (steps_alive s0 s Hs0 (booted_alive k0 s0 Hb) Hr) as Ha. split; [apply Ha|]. split; [|split].
  - destruct (al_armed _ Ha) as [now Hn]. exists now. split; [done|]. intros time. by apply due_alive.
  - intros cause tval frame' k' Hu k Hrun.
    destruct (handled_alive s cause tval frame' k' Hs Ha Hu Hrun) as ([H1 _] & [H2 _] & [H3 _ _ _ _] & _). done.
  - intros tval. destruct (timer_run s tval Hs) as (f2 & k2 & h1 & Hrun & _ & _ & [now Hn] & Hsch).
    exists f2, k2, now. split; [exact Hrun|]. eexists. rewrite (scheduled_bus _ _ _ _ Hsch). exact Hn.
Qed.

(** A bound on the waiting time in the system: three tick intervals, each
    stretched by at most two steps. *)
Lemma sys_response_time `{E : Env} `{B : SerialBackend} `{L : !SerialLaws B} `{I : Image}
    `{IO : !ImageOk I} `{CK : !ClockOk E} k0 s0 s i d t t' l :
  booted k0 s0 → rtc sys_step s0 s → waiting i (k_sched (s_k s)) →
  (∀ now, armed_at (k_hw (s_k s)) now → now ≤ t) →
  0 < d → timed_run d t s t' l → t + 3 * (100000 + 2 * d) ≤ t' →
  ∃ s1, s1 ∈ l ∧ current (k_sched (s_k s1)) = Some i.
Proof.
  intros Hb Hr Hw Hpast Hd Hrun Ht'. pose proof (booted_inv k0 s0 Hb) as Hs0. pose proof (steps_inv s0 s Hs0 Hr) as Hs.
  pose proof (steps_alive s0 s Hs0 (booted_alive k0 s0 Hb) Hr) as Ha.
  destruct (al_armed _ Ha) as [now Hn]. specialize (Hpast now Hn).
  destruct (timed_ticks d t s t' l now 2 Hd Hs Ha Hn Hrun) as (n & Hn3 & Hrn).
  { unfold ticks_over. destruct (Z.ltb_spec t (now + 100000)); lia. }
  eapply run_serves; [done|done|exact Hrn|]. pose proof (ahead_lt i s Hs Hw). unfold MAX_TASKS in *. lia.
Qed.
