(* ===== verification/UserTask.v ===== *)
(** The embedded user tasks: [crates/kernel/src/user_task.rs].

    [user_echo_task] and [user_violation_task] run in user mode and reach the
    kernel by traps.  An [ecall] is the trap of file System; the addresses of the
    three [ecall] instructions, which the compiler chooses, are parameters. *)

From S2P Require Import Prelude Config Machine Serial PmpHw Linker Pmp PmpAccess Sync Timer.
From S2P Require Import Registers Policy Task Kernel Scheduler SchedulerProps Trap Asm Boot.
From S2P Require Import System Progress.

Local Open Scope Z_scope.

#[local] Arguments csr_get : simpl never.
#[local] Arguments csr_put : simpl never.

(** ** System calls from the task's side *)

(** The numbers of the task's side, which the assembly spells out. *)
Module user_consts.
Definition SYS_GETC : Z := 0.
Definition SYS_PUTC : Z := 1.
End user_consts.

Lemma user_consts_match : user_consts.SYS_GETC = SYS_GETC ∧ user_consts.SYS_PUTC = SYS_PUTC.
Proof. done. Qed.

Section tasks.
Context `{E : Env} `{B : SerialBackend}.

(** A trap taken by the code that runs, and the return from it. *)
Definition take_trap (cause tval : Z) : M Sys unit := λ s,
  match trap_handler (s_gpr s) (trapped_kernel s cause tval) with
  | Ok frame k => Ok tt (returned k frame)
  | Panic e k => Panic e (mkSys k (s_gpr s) (s_pc s) PmpHw.MMode)
  | Spin k => Spin (mkSys k (s_gpr s) (s_pc s) PmpHw.MMode)
  end.

(** [li a7, num; ecall] at [epc], with [a0] given; the result is [a0]. *)
Definition ecall (epc num a0 : Z) : M Sys Z :=
  modify (λ s, mkSys (s_k s) (TrapFrame.set_a7 num (TrapFrame.set_a0 a0 (s_gpr s))) epc (s_mode s));;
  take_trap (exception_code EcallFromU) 0;;
  gets (λ s, TrapFrame.a0 (s_gpr s)).

(** One round of the loop of [user_echo_task]; the [nop] branch changes nothing.
    The first [ecall] does not set [a0]. *)
Definition echo_round (e1 e2 e3 : Z) : M Sys unit :=
  a0 ← gets (λ s, TrapFrame.a0 (s_gpr s));
  byte ← ecall e1 SYS_GETC a0;
  if byte =? 0xFF then mret tt else
  ecall e2 SYS_PUTC byte;;
  if byte =? 13 then ecall e3 SYS_PUTC 10;; mret tt else mret tt.

(** The load of [user_violation_task], at [epc]: it faults when the PMP refuses
    it. *)
Definition violation_load (epc : Z) : M Sys unit :=
  modify (λ s, mkSys (s_k s) (s_gpr s) epc (s_mode s));;
  s ← get;
  if pmp_check (pmp (k_hw (s_k s))) (s_mode s) AccR 0x80000000 8 then mret tt
  else take_trap (exception_code LoadAccessFault) 0x80000000.
End tasks.

(** ** Lemmas *)

Section lemmas.
Context `{E : Env} `{B : SerialBackend} `{L : !SerialLaws B} `{I : Image} `{CK : !ClockOk E}.

Definition out_of (s : Sys) : list Z := s_out (k_hw (s_k s)).

(** A user task is current and in user mode. *)
Record in_task (i : nat) (s : Sys) : Prop := {
  it_inv : sys_inv s;
  it_current : current (k_sched (s_k s)) = Some i;
  it_user : i ≠ IDLE_TASK_INDEX;
}.

Lemma in_task_mode i s : in_task i s → s_mode s = PmpHw.UMode.
Proof.
  intros [Hs Hc Hi]. rewrite (si_mode _ Hs), Hc. unfold task_mode.
  by rewrite (proj2 (Nat.eqb_neq _ _) Hi).
Qed.

(** An [ecall] executed by a running user task: a step of the system, which
    resumes the task after the instruction with nothing but [a0] changed. *)
Lemma ecall_trap tval i s :
  in_task i s → 0 ≤ s_pc s < 2 ^ 64 - 8 →
  ∃ v k' out, let f := TrapFrame.set_a0 v (s_gpr s) in
    trap_handler (s_gpr s) (trapped_kernel s 8 tval) = Ok f k' ∧ sys_step s (returned k' f) ∧
    in_task i (returned k' f) ∧ s_pc (returned k' f) = s_pc s + 4 ∧ k_sched k' = k_sched (s_k s) ∧
    out_of (returned k' f) = out_of s ++ out ∧
    (TrapFrame.a7 (s_gpr s) = SYS_GETC → out = [] ∧ v = default 0xFF (s_rx (k_hw (s_k s))) ∧ u8 v) ∧
    (TrapFrame.a7 (s_gpr s) ≠ SYS_GETC → v = TrapFrame.a0 (s_gpr s)) ∧
    (TrapFrame.a7 (s_gpr s) = SYS_PUTC → out = [TrapFrame.a0 (s_gpr s) mod 2 ^ 8]).
Proof.
  intros Hi Hpc. pose proof (it_inv _ _ Hi) as Hs. pose proof (in_task_mode _ _ Hi) as Hmode.
  pose proof (trapped_ok s 8 tval Hs) as Hk.
  destruct (trapped_csrs s 8 tval) as (Hca & Hme & _). cbn zeta in *. set (k := trapped_kernel s 8 tval) in *.
  destruct (syscall_spec (s_gpr s) k Hk) as (v & h1 & out & Hrun & Hp & Hr & Hget & Hoth & Hput).
  set (k' := hw_upd (hw_set_csrs (csr_put Mepc (s_pc s + 4) (csrs h1)) h1) k).
  assert (trap_handler (s_gpr s) k = Ok (TrapFrame.set_a0 v (s_gpr s)) k') as Hth.
  { rewrite trap_handler_run, Hca, Hme by (rewrite Hca; done). change (2 ^ 63 <=? 8) with false.
    unfold handle_exception. erewrite bind_Ok by exact Hrun.
    by erewrite bind_Ok by (apply skip_instruction_run; lia). }
  assert (csr_get Mepc (csrs (k_hw k')) = s_pc s + 4) as Hmepc by apply csr_get_put_eq.
  set (f := TrapFrame.set_a0 v (s_gpr s)) in *. exists v, k', out. fold f. split; [exact Hth|].
  assert (sys_step s (returned k' f)) as Hstep.
  { eapply step_trap; [|exact Hth|rewrite Hmepc; lia]. by repeat split. }
  split; [exact Hstep|]. split; [split; [by eapply sys_step_inv|apply Hi|apply Hi]|].
  split; [exact Hmepc|]. split; [done|].
  assert (s_out (k_hw k) = out_of s) as Hout by (by apply out_frame).
  assert (s_rx (k_hw k) = s_rx (k_hw (s_k s))) as Hrx by (by apply rx_frame).
  split; [rewrite <- Hout, <- (prints_out _ _ _ Hp); by apply out_frame|].
  split; [|done]. intros Hn. rewrite <- Hrx. by apply Hget.
Qed.

(** A system call with its registers set: two steps of the system, after which
    the same task runs. *)
Lemma ecall_spec epc num a0 i s :
  in_task i s → 0 ≤ epc < 2 ^ 64 - 8 →
  ∃ v s' out, ecall epc num a0 s = Ok v s' ∧ rtc sys_step s s' ∧ in_task i s' ∧
    out_of s' = out_of s ++ out ∧
    (num = SYS_GETC → out = [] ∧ v = default 0xFF (s_rx (k_hw (s_k s))) ∧ u8 v) ∧
    (num = SYS_PUTC → out = [a0 mod 2 ^ 8]).
Proof.
  intros Hi Hpc. set (gpr := TrapFrame.set_a7 num (TrapFrame.set_a0 a0 (s_gpr s))).
  set (s1 := mkSys (s_k s) gpr epc (s_mode s)).
  assert (sys_step s s1) as Hstep1 by (destruct s; apply step_run; lia).
  assert (in_task i s1) as Hi1 by (split; [eapply sys_step_inv; [apply Hi|done]|apply Hi|apply Hi]).
  destruct (ecall_trap 0 i s1 Hi1 Hpc) as (v & k' & out & Hth & Hstep2 & Hi2 & _ & _ & Hout & Hget & _ & Hput).
  exists v, (returned k' (TrapFrame.set_a0 v gpr)), out. split.
  { unfold ecall. erewrite bind_Ok by reflexivity. fold gpr s1.
    assert (take_trap (exception_code EcallFromU) 0 s1 = Ok tt (returned k' (TrapFrame.set_a0 v gpr))) as Ht
      by (unfold take_trap; change (exception_code EcallFromU) with 8; by rewrite Hth).
    by erewrite bind_Ok by exact Ht. }
  split; [eapply rtc_l; [done|]; by apply rtc_once|]. by split_all.
Qed.

(** The kernel's PMP entries alone stop user-mode reads of the text. *)
Lemma text_read_denied `{IO : !ImageOk I} p acc addr len :
  kernel_entries p → acc ≠ AccX → addr < _user_text_end → _stext < addr + len →
  pmp_check p PmpHw.UMode acc addr len = false.
Proof.
  intros Hk Hacc Hlo Hhi. pose proof text_layout. unfold pmp_check. rewrite pmp_scan_zones.
  change (seq 0 PMP_COUNT) with (seq 0 4 ++ seq 4 (PMP_COUNT - 4)).
  rewrite omap_app, kernel_entry_zones by done. apply zones_allow_overlap.
  - apply not_true_iff_false. rewrite misses_spec. simpl. lia.
  - by destruct acc.
Qed.

(** After a kill the policy never returns to the killed task while idle can run. *)
Lemma dead_not_selected st i :
  current st = Some i → i ≠ IDLE_TASK_INDEX → runnable st IDLE_TASK_INDEX = true →
  match select_next_ready MAX_TASKS (Some i) (runnable (killed st)) with Some j => Some j | None => Some i end
    ≠ Some i.
Proof.
  intros Hc Hi Hidle.
  assert (runnable (killed st) i = false) as Hd.
  { unfold runnable. rewrite task_of_killed, decide_True by done. by destruct (task_of st i). }
  assert (runnable (killed st) IDLE_TASK_INDEX = true) as Hidle'.
  { unfold runnable in *. rewrite task_of_killed, decide_False by congruence. done. }
  pose proof (select_choice MAX_TASKS ltac:(done) (runnable (killed st)) (Some i)) as Hch.
  destruct (select_next_ready _ _ _) as [j|] eqn:Hsel.
  - apply (select_is_ready MAX_TASKS) in Hsel; [|done]. intros [= ->]. congruence.
  - inversion Hch as [| |Hno]. rewrite Hno in Hidle'; [done|]. unfold IDLE_TASK_INDEX, MAX_TASKS. lia.
Qed.
End lemmas.

(** ** Properties *)

(** The bytes a round of the echo task sends for what the receiver offers. *)
Definition echo_of (rx : option Z) : list Z :=
  match rx with
  | None => []
  | Some b => if b =? 0xFF then [] else if b =? 13 then [13; 10] else [b]
  end.

(** A round that no interrupt cuts: a sequence of steps of the system, after which
    the task is still current and the console has received the echo of what the
    receiver offered. *)
Lemma echo_round_spec `{E : Env} `{B : SerialBackend} `{L : !SerialLaws B} `{I : Image}
    `{CK : !ClockOk E} e1 e2 e3 i s :
  0 ≤ e1 < 2 ^ 64 - 8 → 0 ≤ e2 < 2 ^ 64 - 8 → 0 ≤ e3 < 2 ^ 64 - 8 → in_task i s →
  ∃ s', echo_round e1 e2 e3 s = Ok tt s' ∧ rtc sys_step s s' ∧ in_task i s' ∧
    out_of s' = out_of s ++ echo_of (s_rx (k_hw (s_k s))).
Proof.
  intros H1 H2 H3 Hs. unfold echo_round. erewrite bind_Ok by reflexivity.
  destruct (ecall_spec e1 SYS_GETC (TrapFrame.a0 (s_gpr s)) i s Hs H1)
    as (v & s1 & o1 & Hr1 & Hst1 & Hs1 & Ho1 & Hget & _).
  destruct (Hget eq_refl) as (-> & Hv & Hu). rewrite app_nil_r in Ho1. erewrite bind_Ok by exact Hr1.
  assert (echo_of (s_rx (k_hw (s_k s))) =
    if v =? 0xFF then [] else if v =? 13 then [13; 10] else [v]) as ->.
  { rewrite Hv. by destruct (s_rx (k_hw (s_k s))). }
  destruct (v =? 0xFF); [exists s1; by rewrite app_nil_r|].
  destruct (ecall_spec e2 SYS_PUTC v i s1 Hs1 H2) as (v2 & s2 & o2 & Hr2 & Hst2 & Hs2 & Ho2 & _ & Hput).
  rewrite (Hput eq_refl), Z.mod_small, Ho1 in Ho2 by exact Hu. erewrite bind_Ok by exact Hr2.
  destruct (Z.eqb_spec v 13) as [->|].
  - destruct (ecall_spec e3 SYS_PUTC 10 i s2 Hs2 H3) as (v3 & s3 & o3 & Hr3 & Hst3 & Hs3 & Ho3 & _ & Hput3).
    rewrite (Hput3 eq_refl), Ho2, <- app_assoc in Ho3. erewrite bind_Ok by exact Hr3.
    exists s3. split_all. etransitivity; [done|]. by etransitivity.
  - exists s2. split_all. by etransitivity.
Qed.

(** The load faults, and the fault is a step of the system that buries the task. *)
Lemma violation_run `{E : Env} `{B : SerialBackend} `{L : !SerialLaws B} `{I : Image}
    `{IO : !ImageOk I} `{CK : !ClockOk E} epc i s :
  in_task i s → 0 ≤ epc < 2 ^ 64 - 4 →
  ∃ s' t, violation_load epc s = Ok tt s' ∧
    sys_step (mkSys (s_k s) (s_gpr s) epc (s_mode s)) s' ∧ sys_inv s' ∧
    (∀ j, j ≠ i → runnable (k_sched (s_k s')) j = runnable (k_sched (s_k s)) j) ∧ buried i t (k_sched (s_k s')).
Proof.
  intros Hi Hpc. pose proof (it_inv _ _ Hi) as Hs. pose proof (in_task_mode _ _ Hi) as Hmode.
  set (s1 := mkSys (s_k s) (s_gpr s) epc (s_mode s)).
  assert (sys_inv s1) as Hs1 by (eapply sys_step_inv; [done|]; destruct s; by apply step_run).
  assert (pmp_check (pmp (k_hw (s_k s1))) (s_mode s1) AccR 0x80000000 8 = false) as Hdeny.
  { simpl. rewrite Hmode. pose proof text_layout as Ht. rewrite _stext_val in Ht.
    apply text_read_denied; [apply (hr_pmp _ (ko_hw _ (si_kernel _ Hs)))|done|lia|rewrite _stext_val; lia]. }
  pose proof (trapped_ok s1 5 0x80000000 Hs1) as Hk.
  destruct (trapped_csrs s1 5 0x80000000) as (Hca & _ & _ & Hms). cbn zeta in *.
  set (k := trapped_kernel s1 5 0x80000000) in *.
  pose proof (user_fault_run (s_gpr s1) k LoadAccessFault "Load access fault" i Hk eq_refl Hca (it_current _ _ Hi)) as Hf.
  rewrite Hms, mpp_of_trap in Hf. change (s_mode s1) with (s_mode s) in Hf. rewrite Hmode in Hf.
  destruct Hf as (frame' & k' & t & Hrun & Hk' & Ht & Hd & Hrn & _ & Hcur).
  assert (buried i t (k_sched k')) as Hb.
  { split; [done|]. split; [done|]. rewrite Hcur. change (k_sched k) with (k_sched (s_k s)) in *.
    eapply dead_not_selected; [apply Hi|apply Hi|apply Hs]. }
  assert (sys_inv (returned k' frame')) as Hs'.
  { eapply (handled_inv s1 5 0x80000000); [done|done|exact Hrun|]. intros Heq. destruct Hb as (_ & _ & Hn).
    rewrite Heq in Hn. destruct Hn. apply Hi. }
  exists (returned k' frame'), t. split_all.
  - unfold violation_load. erewrite bind_Ok by reflexivity. fold s1. erewrite bind_Ok by reflexivity.
    rewrite Hdeny. unfold take_trap. change (trapped_kernel s1 (exception_code LoadAccessFault) 0x80000000) with k.
    by rewrite Hrun.
  - eapply step_trap; [|exact Hrun|apply Hs']. by repeat split.
Qed.

(** C23: the violation task is stopped.  In any state in which it is current, its
    load from 0x8000_0000 is refused by the PMP, whatever regions are loaded;
    the fault kills the task and leaves the kernel running another one, every
    other task being as runnable as before.  The dead task is never current again
    and its record never changes, whatever the system does later. *)
Theorem violation_contained `{E : Env} `{B : SerialBackend} `{L : !SerialLaws B} `{I : Image}
    `{IO : !ImageOk I} `{CK : !ClockOk E} epc i s :
  in_task i s → 0 ≤ epc < 2 ^ 64 - 4 →
  ∃ s' t, violation_load epc s = Ok tt s' ∧ sys_inv s' ∧
    (∀ j, j ≠ i → runnable (k_sched (s_k s')) j = runnable (k_sched (s_k s)) j) ∧
    ∀ s'', rtc sys_step s' s'' → buried i t (k_sched (s_k s'')).
Proof.
  intros Hi Hpc. destruct (violation_run epc i s Hi Hpc) as (s' & t & Hrun & _ & Hs' & Hrn & Hb).
  exists s', t. split_all. intros s'' Hr. by eapply steps_buried.
Qed.

(** ** Witnesses *)

Module user_sample.
#[local] Instance env : Env := quiet_board true.
#[local] Existing Instance sample_image.
#[local] Existing Instance trap_sample.clock.

(** The echo task right after its first dispatch. *)
Lemma echo_in_task : in_task 1 (system_sample.tick system_sample.s0).
Proof.
  split; [|vm_compute; reflexivity|done].
  eapply sys_step_inv; [eapply booted_inv, system_sample.s0_booted|apply system_sample.tick_step].
Qed.

Lemma violation_contained_witness :
  let s := system_sample.tick system_sample.s0 in
  ∃ s' t, violation_load 0x80004048 s = Ok tt s' ∧ sys_inv s' ∧
    (∀ j, j ≠ 1%nat → runnable (k_sched (s_k s')) j = runnable (k_sched (s_k s)) j) ∧
    ∀ s'', rtc sys_step s' s'' → buried 1 t (k_sched (s_k s'')).
Proof.
  apply (violation_contained 0x80004048 1 (system_sample.tick system_sample.s0)); [apply echo_in_task|lia].
Defined.
End user_sample.
