(* ===== verification/Scenario.v ===== *)
(** From boot to the death of the violation task.

    The scheduler is abstracted to what decides its choices: the current task and
    the state of each slot.  Every step of the system is a step of this small
    machine, which can be evaluated, so the fate of the boot's three tasks
    ([crates/kernel/src/main.rs]) is computed for every image and every board. *)

From S2P Require Import Prelude Config Machine Serial PmpHw Linker Pmp PmpAccess Sync Timer Allocator Registers Policy.
From S2P Require Import Task Kernel Scheduler SchedulerProps TaskSpec Trap Asm Boot System Progress UserTask.

Local Open Scope Z_scope.

(** ** The abstract scheduler *)

Record Slots := mkSlots { cur : option nat; states : list (option TaskState) }.

Definition view (st : SchedulerState) : Slots := 
  mkSlots (current st) ((λ slot : option Task, state <$> slot) <$> tasks st).

Definition set_slot (f : TaskState → TaskState) (i : option nat) (v : Slots) : Slots :=
  match i with Some i => mkSlots (cur v) (alter (fmap f) i (states v)) | None => v end.

Definition yield (s : TaskState) : TaskState := if bool_decide (s = Running) then Ready else s.

(** The interrupted task yields, the policy chooses among the ready ones. *)
Definition a_schedule (v : Slots) : Slots :=
  let v := set_slot yield (cur v) v in
  match select_next_ready MAX_TASKS (cur v) (λ i, bool_decide (states v !! i = Some (Some Ready))) with
  | Some i => mkSlots (Some i) (states (set_slot (λ _, Running) (Some i) v))
  | None => v
  end.

Definition a_kill (v : Slots) : Slots := a_schedule (set_slot (λ _, Dead) (cur v) v).

Inductive a_step (v : Slots) : Slots → Prop :=
| as_same : a_step v v
| as_switch : a_step v (a_schedule v)
| as_kill : a_step v (a_kill v).

(** ** The abstraction *)

Lemma view_upd f g i st : (∀ t, state (f t) = g (state t)) →
  view (upd_task f i st) = set_slot g (Some i) (view st).
Proof.
  intros Hf. unfold view, upd_task, set_slot. simpl. f_equal. apply list_fmap_alter.
  apply Forall_true. intros [t|]; simpl; [by rewrite Hf|done].
Qed.

Lemma save_task_state frame mepc mstatus t : state (save_task frame mepc mstatus t) = yield (state t).
Proof. unfold save_task, yield. cbn. by case_bool_decide. Qed.

Lemma view_saved frame mepc mstatus st :
  view (saved frame mepc mstatus st) = set_slot yield (current st) (view st).
Proof.
  unfold saved. destruct (current st) as [c|]; [|done]. apply view_upd. intros. apply save_task_state.
Qed.

Lemma view_ready st i : is_ready (tasks st) i = bool_decide (states (view st) !! i = Some (Some Ready)).
Proof.
  unfold is_ready. simpl. rewrite list_lookup_fmap. destruct (tasks st !! i) as [[t|]|]; simpl; [|done..].
  apply bool_decide_ext. split; [by intros ->|by intros [= ->]].
Qed.

Lemma view_resched frame mepc mstatus st : view (resched frame mepc mstatus st) = a_schedule (view st).
Proof.
  unfold resched, a_schedule. change (cur (view st)) with (current st). rewrite <- (view_saved frame mepc mstatus st). set (st1 := saved _ _ _ _).
  assert (next_of st1 = select_next_ready MAX_TASKS (cur (view st1))
    (λ i, bool_decide (states (view st1) !! i = Some (Some Ready)))) as -> by (apply select_ext, view_ready).
  destruct (select_next_ready _ _ _) as [i|]; [|done]. unfold dispatched.
  rewrite <- (view_upd (set_state Running) (λ _, Running)) by done. done.
Qed.

Lemma view_killed st : view (killed st) = set_slot (λ _, Dead) (cur (view st)) (view st).
Proof. unfold killed. simpl. destruct (current st); [|done]. by apply view_upd. Qed.

Lemma buried_slot i t st : buried i t st → states (view st) !! i = Some (Some Dead).
Proof.
  intros (Ht & Hd & _). apply task_of_lookup in Ht. simpl. rewrite list_lookup_fmap, Ht. simpl. by rewrite Hd.
Qed.

Section steps.
Context `{E : Env} `{B : SerialBackend} `{L : !SerialLaws B} `{I : Image} `{CK : !ClockOk E}.

Definition s_view (s : Sys) : Slots := view (k_sched (s_k s)).

Lemma sys_step_view s s' : sys_inv s → sys_step s s' → a_step (s_view s) (s_view s').
Proof.
  intros Hs Hst. unfold s_view. destruct (sys_step_table _ _ Hs Hst); rewrite ?view_resched, ?view_killed; constructor.
Qed.

Lemma timer_step_view s s' : sys_inv s → timer_step s s' → s_view s' = a_schedule (s_view s).
Proof.
  intros Hs Hst. unfold s_view. destruct (timer_step_table _ _ Hs Hst) as (f & me & ms & ->). apply view_resched.
Qed.

Lemma booted_view `{IO : !ImageOk I} k0 s :
  booted k0 s → s_view s = mkSlots None [Some Ready; Some Ready; Some Ready; None].
Proof.
  intros Hb. destruct (booted_facts k0 s Hb) as (Hs & _). unfold s_view. by rewrite Hs.
Qed.

(** While the echo task keeps the processor after its first dispatch, the table
    does not change. *)
Definition echo_running : Slots := mkSlots (Some 1%nat) [Some Ready; Some Running; Some Ready; None].

Lemma echo_keeps s s' :
  sys_inv s → s_view s = echo_running →
  rtc (λ a b, sys_step a b ∧ current (k_sched (s_k b)) = Some 1%nat) s s' → sys_inv s' ∧ s_view s' = echo_running.
Proof.
  intros Hs Hv Hr. revert Hs Hv. induction Hr as [|s s1 s2 [Hst Hc] _ IH]; intros Hs Hv; [done|].
  pose proof (sys_step_view _ _ Hs Hst) as Ha. rewrite Hv in Ha.
  apply IH; [by eapply sys_step_inv|].
  assert (cur (s_view s1) = Some 1%nat) as Hcur by done.
  revert Ha Hcur. generalize (s_view s1) as v. intros v [] Hcur; [done|by vm_compute in Hcur..].
Qed.
End steps.

(** ** Property *)

(** C25: from boot to the kill, for every image and every board.  The first timer
    interrupt starts the echo task; let it compute and make system calls for as
    long as it keeps the processor.  The next timer interrupt starts the violation
    task; its load faults, the task is killed, and the echo task goes on with the
    registers and at the instruction where it was interrupted.  From then on the
    slots are ready, running, dead and free, and the dead task never runs. *)
Theorem boot_to_kill `{E : Env} `{B : SerialBackend} `{L : !SerialLaws B} `{I : Image}
    `{IO : !ImageOk I} `{CK : !ClockOk E} k0 s0 s1 s1' s2 epc :
  booted k0 s0 → timer_step s0 s1 →
  rtc (λ a b, sys_step a b ∧ current (k_sched (s_k b)) = Some 1%nat) s1 s1' →
  timer_step s1' s2 → 0 ≤ epc < 2 ^ 64 - 4 →
  current (k_sched (s_k s1)) = Some 1%nat ∧ current (k_sched (s_k s2)) = Some 2%nat ∧
  ∃ s3 t, violation_load epc s2 = Ok tt s3 ∧
    s_view s3 = mkSlots (Some 1%nat) [Some Ready; Some Running; Some Dead; None] ∧
    TrapFrame.to_list (s_gpr s3) = TrapFrame.to_list (s_gpr s1') ∧ s_pc s3 = s_pc s1' ∧
    ∀ s4, rtc sys_step s3 s4 → buried 2 t (k_sched (s_k s4)).
Proof.
  intros Hb Ht1 Hr Ht2 Hpc. pose proof (booted_inv k0 s0 Hb) as Hs0.
  pose proof (timer_step_view _ _ Hs0 Ht1) as Hv1. rewrite (booted_view k0 s0 Hb) in Hv1.
  pose proof (timer_step_inv _ _ Hs0 Ht1) as Hs1.
  destruct (echo_keeps s1 s1' Hs1 Hv1 Hr) as [Hs1' Hv1'].
  pose proof (timer_step_view _ _ Hs1' Ht2) as Hv2. rewrite Hv1' in Hv2.
  pose proof (timer_step_inv _ _ Hs1' Ht2) as Hs2.
  assert (current (k_sched (s_k s1)) = Some 1%nat) as Hc1 by (change (cur (s_view s1) = Some 1%nat); by rewrite Hv1).
  assert (current (k_sched (s_k s1')) = Some 1%nat) as Hc1' by (change (cur (s_view s1') = Some 1%nat); by rewrite Hv1').
  assert (current (k_sched (s_k s2)) = Some 2%nat) as Hc2 by (change (cur (s_view s2) = Some 2%nat); by rewrite Hv2).
  split; [done|]. split; [done|].
  destruct (violation_run epc 2 s2) as (s3 & t & Hrun & Hst & Hs3 & _ & Hbur); [by split|done|].
  set (s2' := mkSys _ _ epc _) in Hst.
  assert (sys_step s2 s2') as Hst0 by (unfold s2'; destruct s2; by apply step_run).
  pose proof (sys_step_inv _ _ Hs2 Hst0) as Hs2'. exists s3, t.
  assert (s_view s3 = mkSlots (Some 1%nat) [Some Ready; Some Running; Some Dead; None]) as Hv3.
  { pose proof (sys_step_view _ _ Hs2' Hst) as Ha. change (s_view s2') with (s_view s2) in Ha. rewrite Hv2 in Ha.
    pose proof (buried_slot _ _ _ Hbur) as Hd. fold (s_view s3) in Hd.
    revert Ha Hd. generalize (s_view s3) as v. intros v [] Hd; [by vm_compute in Hd..|by vm_compute]. }
  assert (sys_regs s3 1 = sys_regs s1' 1) as Hregs.
  { rewrite (sys_step_regs s2' s3 1), (sys_step_regs s2 s2' 1); try done; [|simpl; congruence..].
    destruct Ht2 as (tval & f & k' & _ & Hrun2 & ->). by apply (timer_step_regs s1' tval). }
  assert (current (k_sched (s_k s3)) = Some 1%nat) as Hc3 by (change (cur (s_view s3) = Some 1%nat); by rewrite Hv3).
  rewrite (sys_regs_current s3 1), (sys_regs_current s1' 1) in Hregs by done.
  apply (inj Some) in Hregs. pose proof (f_equal fst Hregs) as Hg. pose proof (f_equal snd Hregs) as Hp.
  do 2 (split; [done|]). split; [exact Hg|]. split; [exact Hp|]. intros s4 Hr4. exact (steps_buried s3 s4 2 t Hs3 Hr4 Hbur).
Qed.

(** ** Witness *)

Module scenario_sample.
#[local] Instance env : Env := quiet_board true.
#[local] Existing Instance sample_image.
#[local] Existing Instance trap_sample.clock.
Import system_sample progress_sample.

Lemma boot_to_kill_witness :
  ∃ s3 t, violation_load 0x80004048 (tick (tick s0)) = Ok tt s3 ∧
    s_view s3 = mkSlots (Some 1%nat) [Some Ready; Some Running; Some Dead; None] ∧
    s_pc s3 = s_pc (tick s0) ∧ ∀ s4, rtc sys_step s3 s4 → buried 2 t (k_sched (s_k s4)).
Proof.
  assert (timer_step s0 (tick s0)) as T1 by (apply tick_fine_step; vm_compute; reflexivity).
  assert (timer_step (tick s0) (tick (tick s0))) as T2 by (apply tick_fine_step; vm_compute; reflexivity).
  pose proof (boot_to_kill reset_kernel s0 (tick s0) (tick s0) (tick (tick s0)) 0x80004048 s0_booted T1
    (rtc_refl _ _) T2 ltac:(lia)) as (_ & _ & s3 & t & H1 & H2 & _ & H3 & H4).
  exists s3, t. exact (conj H1 (conj H2 (conj H3 H4))).
Defined.
End scenario_sample.
