(* ===== verification/Loops.v ===== *)
(** The programs that never return, as interaction trees.

    The idle task ([idle_task_entry], main.rs), the parking loop of [_start], the
    tail of [start_scheduler], the loop of the panic handler, and the two user
    tasks (user_task.rs).  A tree gives the instructions of a program that the
    rest of the machine sees: [wfi], [ecall] and the load of the violation task.
    [prog_step] runs a tree on the system of System.v. *)

From S2P Require Import Prelude Config Machine Serial PmpHw Linker Pmp PmpAccess Sync Timer.
From S2P Require Import Registers Policy Task Kernel Scheduler SchedulerProps TaskSpec Trap Asm Boot.
From S2P Require Import System Progress UserTask.
From Stdlib Require Import Eqdep.
From ITree Require Import Core.ITreeDefinition.

Local Open Scope Z_scope.

#[local] Arguments csr_get : simpl never.
#[local] Arguments csr_put : simpl never.

(** ** Programs *)

(** The [wfi] loops of the sources: the end of [_start], the end of
    [start_scheduler], the end of the panic handler, the idle task. *)
Variant place := ParkingLoop | SchedulerLoop | PanicLoop | IdleLoop.

(** [Wfi p]: the instruction of the loop [p].  [Ecall num a0]: [a7] and, when
    given, [a0] are set; the answer is [a0]. *)
Variant taskE : Type → Type :=
| Wfi (p : place) : taskE unit
| Ecall (num : Z) (a0 : option Z) : taskE Z
| Load (addr : Z) : taskE Z.

Definition prog : Type := itree taskE Empty_set.

(** [loop { asm!("wfi") }], and [2: wfi; j 2b]. *)
Definition wfi_loop (p : place) : prog := ITree.forever (ITree.trigger (Wfi p)).

Definition idle_task_entry : prog := wfi_loop IdleLoop.

(** One turn of the loop of [user_echo_task]. *)
Definition echo_body : itree taskE unit :=
  ITree.bind (ITree.trigger (Ecall SYS_GETC None)) (λ byte,
  if byte =? 0xFF then Ret tt else
  ITree.bind (ITree.trigger (Ecall SYS_PUTC (Some byte))) (λ _,
  if byte =? 13 then ITree.bind (ITree.trigger (Ecall SYS_PUTC (Some 10))) (λ _, Ret tt)
  else Ret tt)).

Definition user_echo_task : prog := ITree.forever echo_body.

Definition user_violation_task : prog :=
  ITree.bind (ITree.trigger (Load 0x80000000)) (λ _, ITree.spin).

(** What a hart does after [_start]: the secondary harts park, hart 0 runs
    [kmain], which ends in the loop of [start_scheduler] or, after a panic, in
    that of the panic handler ([panic_handler] ends in [spin], which is that
    loop).  A busy-wait that is never satisfied is a silent loop. *)
Definition hart_program `{E : Env} `{B : SerialBackend} `{I : Image}
    (location : option (string * Z)) (mhartid : Z) (m : memory) (k : Kernel) : prog :=
  match _start mhartid m with
  | Some Parked => wfi_loop ParkingLoop
  | Some (Enter_kmain _ _) =>
    match kmain k with
    | Ok _ _ => wfi_loop SchedulerLoop
    | Panic _ k' =>
      match panic_handler (A := unit) location k' with
      | Spin _ => wfi_loop PanicLoop
      | _ => ITree.spin
      end
    | Spin _ => ITree.spin
    end
  | None => ITree.spin
  end.

(** ** Running a program on the system *)

Section running.
Context `{E : Env} `{B : SerialBackend}.

(** The instruction at [epc]; a refused load is the end of the program. *)
Inductive prog_step : prog * Sys → prog * Sys → Prop :=
| ps_tau t t' s : observe t = TauF t' → prog_step (t, s) (t', s)
| ps_wfi t p k s : observe t = VisF (Wfi p) k → prog_step (t, s) (k tt, s)
| ps_ecall t num a0 k s epc v s' :
    observe t = VisF (Ecall num a0) k → 0 ≤ epc < 2 ^ 64 - 8 →
    ecall epc num (default (TrapFrame.a0 (s_gpr s)) a0) s = Ok v s' →
    prog_step (t, s) (k v, s')
| ps_load t addr k s v :
    observe t = VisF (Load addr) k → pmp_check (pmp (k_hw (s_k s))) (s_mode s) AccR addr 8 = true →
    prog_step (t, s) (k v, s).

(** The states that a number of rounds polls, and what it reads there. *)
Fixpoint polled (e1 e2 e3 : Z) (n : nat) (s : Sys) : list (option Z) :=
  match n with
  | O => []
  | S n =>
    s_rx (k_hw (s_k s)) ::
    match echo_round e1 e2 e3 s with Ok _ s' => polled e1 e2 e3 n s' | _ => [] end
  end.
End running.

(** The system calls of a program, with any answers. *)
Inductive calls : prog → list (Z * option Z * Z) → Prop :=
| calls_nil t : calls t []
| calls_tau t t' l : observe t = TauF t' → calls t' l → calls t l
| calls_wfi t p k l : observe t = VisF (Wfi p) k → calls (k tt) l → calls t l
| calls_load t addr k v l : observe t = VisF (Load addr) k → calls (k v) l → calls t l
| calls_ecall t num a0 k v l :
    observe t = VisF (Ecall num a0) k → calls (k v) l → calls t ((num, a0, v) :: l).

(** The protocol of the echo task: [GETC]; for a byte that is not 0xFF, [PUTC] of
    that byte; after a carriage return, [PUTC] of a line feed. *)
Inductive phase := Polling | Echoing (byte : Z) | Feeding.

Definition phase_ok (p : phase) (num : Z) (a0 : option Z) : Prop :=
  match p with
  | Polling => num = SYS_GETC ∧ a0 = None
  | Echoing byte => num = SYS_PUTC ∧ a0 = Some byte
  | Feeding => num = SYS_PUTC ∧ a0 = Some 10
  end.

Definition phase_next (p : phase) (answer : Z) : phase :=
  match p with
  | Polling => if answer =? 0xFF then Polling else Echoing answer
  | Echoing byte => if byte =? 13 then Feeding else Polling
  | Feeding => Polling
  end.

Fixpoint follows (p : phase) (l : list (Z * option Z * Z)) : Prop :=
  match l with
  | [] => True
  | (num, a0, v) :: l => phase_ok p num a0 ∧ follows (phase_next p v) l
  end.

(** ** The echo task, phase by phase *)

Definition feed_tail : itree taskE unit :=
  ITree.bind (ITree.trigger (Ecall SYS_PUTC (Some 10))) (λ _, Ret tt).

Definition again (t : itree taskE unit) : prog := ITree.bind t (λ _, Tau user_echo_task).

(** The tree of the task in each phase. *)
Definition echo_tree (p : phase) : prog :=
  match p with
  | Polling => user_echo_task
  | Echoing byte =>
    again (ITree.bind (ITree.trigger (Ecall SYS_PUTC (Some byte))) (λ _, if byte =? 13 then feed_tail else Ret tt))
  | Feeding => again feed_tail
  end.

(** [t] is the task in phase [p], up to the silent step that closes a turn. *)
Definition in_phase (t : prog) (p : phase) : Prop :=
  observe t = observe (echo_tree p) ∨ p = Polling ∧ observe t = TauF user_echo_task.

(** What a sequence does first depends on what its first part does first. *)
Lemma observe_subst {E R S} (t : itree E R) (k : R → itree E S) :
  observe (ITree.subst k t) =
  match observe t with
  | RetF r => observe (k r)
  | TauF t' => TauF (ITree.subst k t')
  | VisF e h => VisF e (λ x, ITree.subst k (h x))
  end.
Proof.
  change (observe (ITree.subst k t)) with (observe
    match observe t with
    | RetF r => k r
    | TauF t' => Tau (ITree.subst k t')
    | VisF e h => Vis e (λ x, ITree.subst k (h x))
    end). by destruct (observe t).
Qed.

Lemma echo_tree_shape p :
  ∃ num a0 k, observe (echo_tree p) = VisF (Ecall num a0) k ∧ phase_ok p num a0 ∧
    ∀ v, in_phase (k v) (phase_next p v).
Proof.
  destruct p as [|byte|]; do 3 eexists; (split; [cbn; reflexivity|]); (split; [done|]); intros v; unfold in_phase;
    [rewrite !observe_subst; cbn..|by right].
  - destruct (v =? 0xFF); [by right|by left].
  - destruct (byte =? 13); [by left|by right].
Qed.

Lemma calls_follow t l : calls t l → ∀ p, in_phase t p → follows p l.
Proof.
  induction 1 as [t|t t' l Ho _ IH|t q k l Ho _ IH|t addr k v l Ho _ IH|t num a0 k v l Ho _ IH]; intros p Hp; [done|..];
    destruct (echo_tree_shape p) as (num' & a0' & k' & Hs & Hok & Hk); destruct Hp as [Hp|[-> Hp]];
    rewrite Ho in Hp; rewrite ?Hs in Hp; try done.
  - injection Hp as ->. apply IH. by left.
  - injection Hp as -> -> Hkk. apply inj_pair2 in Hkk as ->.
    split; [done|]. apply IH, Hk.
Qed.

Lemma phase_ok_fun p num a0 num' a0' :
  phase_ok p num a0 → phase_ok p num' a0' → num = num' ∧ a0 = a0'.
Proof. by destruct p; intros [-> ->] [-> ->]. Qed.

Section echo.
Context `{E : Env} `{B : SerialBackend} `{L : !SerialLaws B} `{I : Image} `{CK : !ClockOk E}.

(** A system call moves the program to its next phase. *)
Lemma phase_step p num a0 epc t s v s' :
  in_phase t p → phase_ok p num a0 → 0 ≤ epc < 2 ^ 64 - 8 →
  ecall epc num (default (TrapFrame.a0 (s_gpr s)) a0) s = Ok v s' →
  ∃ t', rtc prog_step (t, s) (t', s') ∧ in_phase t' (phase_next p v).
Proof.
  intros Hp Hok He Hrun. destruct (echo_tree_shape p) as (num' & a0' & k & Hs & Hok' & Hk).
  destruct (phase_ok_fun p num' a0' num a0 Hok' Hok) as [-> ->].
  exists (k v). split; [|apply Hk]. destruct Hp as [Hp|[-> Hp]].
  - apply rtc_once. eapply ps_ecall; [by rewrite Hp|done|done].
  - eapply rtc_l; [by apply ps_tau|]. apply rtc_once. by eapply ps_ecall.
Qed.

(** A round of UserTask.v is a turn of the loop. *)
Lemma round_turn e1 e2 e3 t s s' :
  0 ≤ e1 < 2 ^ 64 - 8 → 0 ≤ e2 < 2 ^ 64 - 8 → 0 ≤ e3 < 2 ^ 64 - 8 →
  in_phase t Polling → echo_round e1 e2 e3 s = Ok tt s' →
  ∃ t', rtc prog_step (t, s) (t', s') ∧ in_phase t' Polling.
Proof.
  intros H1 H2 H3 Hp. unfold echo_round. erewrite bind_Ok by reflexivity.
  unfold mbind at 1, M_bind at 1. destruct (ecall e1 _ _ s) as [v s1|e s1|s1] eqn:Hr1; [|done..].
  destruct (phase_step Polling SYS_GETC None e1 t s v s1) as (t1 & Hs1 & Hp1); [done..|]. simpl in Hp1.
  destruct (v =? 0xFF); [intros [= <-]; by exists t1|].
  unfold mbind at 1, M_bind at 1. destruct (ecall e2 _ _ s1) as [v2 s2|e s2|s2] eqn:Hr2; [|done..].
  destruct (phase_step (Echoing v) SYS_PUTC (Some v) e2 t1 s1 v2 s2) as (t2 & Hs2 & Hp2); [done..|]. simpl in Hp2.
  destruct (v =? 13); [|intros [= <-]; exists t2; by split; [etransitivity|]].
  unfold mbind at 1, M_bind at 1. destruct (ecall e3 _ _ s2) as [v3 s3|e s3|s3] eqn:Hr3; [|done..].
  destruct (phase_step Feeding SYS_PUTC (Some 10) e3 t2 s2 v3 s3) as (t3 & Hs3 & Hp3); [done..|].
  intros [= <-]. exists t3. split; [|done]. etransitivity; [done|]. by etransitivity.
Qed.
End echo.

(** ** The loops of the kernel *)

(** A program that does nothing but the [wfi] of one loop, for ever. *)
Definition only_wfi (p : place) (t : prog) : Prop := t = wfi_loop p ∨ observe t = TauF (wfi_loop p).

Lemma wfi_loop_shape p : ∃ k, observe (wfi_loop p) = VisF (Wfi p) k ∧ ∀ v, only_wfi p (k v).
Proof. eexists. split; [cbn; reflexivity|]. intros v. right. reflexivity. Qed.

Section loops.
Context `{E : Env} `{B : SerialBackend}.

Lemma only_wfi_steps p t s c :
  only_wfi p t → rtc prog_step (t, s) c → only_wfi p c.1 ∧ ∃ c', prog_step c c'.
Proof.
  destruct (wfi_loop_shape p) as (k0 & Hs & Hk0).
  intros Ht Hr. remember (t, s) as c0 eqn:Hc. revert t s Ht Hc.
  induction Hr as [c|c c1 c2 Hstep _ IH]; intros t s Ht ->.
  - split_all. destruct Ht as [->|Ht]; eexists; [by eapply ps_wfi|by apply ps_tau].
  - inversion Hstep as [? ? ? Ho|? ? ? ? Ho|? ? ? ? ? ? ? ? Ho|? ? ? ? ? Ho]; subst;
      (destruct Ht as [->|Ht]; [rewrite Hs in Ho|rewrite Ht in Ho]); try done.
    + injection Ho as <-. eapply IH; [|done]. by left.
    + injection Ho as <- Hk. apply inj_pair2 in Hk as <-. by eapply IH.
Qed.
End loops.

(** ** The bootstrap context *)

Section bootstrap.
Context `{E : Env} `{B : SerialBackend} `{L : !SerialLaws B} `{I : Image} `{IO : !ImageOk I} `{CK : !ClockOk E}.

Lemma resched_current_kept frame mepc mstatus st :
  current st ≠ None → current (resched frame mepc mstatus st) ≠ None.
Proof. unfold resched. cbn zeta. destruct (next_of _); [done|]. by rewrite current_saved. Qed.

(** Once a task is current, one always is. *)
Lemma steps_current s s' :
  sys_inv s → current (k_sched (s_k s)) ≠ None → rtc sys_step s s' → current (k_sched (s_k s')) ≠ None.
Proof.
  intros Hs Hc Hr. apply (steps_keep (λ s, current (k_sched (s_k s)) ≠ None) s s'); [|done|done|done].
  intros a b Ha Hca Hst. destruct (sys_step_table _ _ Ha Hst); [done|by apply resched_current_kept|].
  apply resched_current_kept. by rewrite current_killed.
Qed.

Lemma hart_boots location m k :
  pmp_wf (pmp (k_hw k)) → (∀ i, cfg_locked (cfg_at (pmp (k_hw k)) i) = false) → k_sched k = SCHEDULER →
  hart_program location 0 m k = wfi_loop SchedulerLoop.
Proof.
  intros Hpw Hpl Hst. unfold hart_program, _start, clear_bss. cbn [Z.eqb].
  destruct (clear_bss_loop_spec (Z.to_nat (_ebss - _sbss)) _sbss _ebss m) as (m' & Hrun & _); [lia|]. rewrite Hrun.
  cbn [mbind option_bind]. unfold kmain.
  by destruct (wp_elim _ _ _ (kmain_saying_spec started_message k Hpw Hpl Hst)) as ([] & k' & -> & _).
Qed.

Lemma hart_panics location m k e k' :
  kmain k = Panic e k' → s_ready (k_hw k') → hart_program location 0 m k = wfi_loop PanicLoop.
Proof.
  intros Hk Hr. unfold hart_program, _start, clear_bss. cbn [Z.eqb].
  destruct (clear_bss_loop_spec (Z.to_nat (_ebss - _sbss)) _sbss _ebss m) as (m' & Hrun & _); [lia|]. rewrite Hrun.
  cbn [mbind option_bind]. rewrite Hk. by destruct (panic_handler_halts (A := unit) location k' Hr) as (k2 & -> & _).
Qed.
End bootstrap.

(** ** Properties *)

(** C24: the echo task, as the infinite loop it is.  Whatever the kernel answers,
    and so under any preemption between its system calls, the calls follow the
    protocol: poll; echo a byte other than 0xFF; add a line feed to a carriage
    return.  And when it has the processor, any number [n] of turns is a run of
    the system, after which the task is at the head of its loop, still current,
    and the console has received exactly the echo of the [n] polls. *)
Theorem echo_task_echoes `{E : Env} `{B : SerialBackend} `{L : !SerialLaws B} `{I : Image}
    `{CK : !ClockOk E} e1 e2 e3 i s n :
  0 ≤ e1 < 2 ^ 64 - 8 → 0 ≤ e2 < 2 ^ 64 - 8 → 0 ≤ e3 < 2 ^ 64 - 8 → in_task i s →
  (∀ l, calls user_echo_task l → follows Polling l) ∧
  ∃ t s', rtc prog_step (user_echo_task, s) (t, s') ∧ in_phase t Polling ∧ rtc sys_step s s' ∧ in_task i s' ∧
    out_of s' = out_of s ++ concat (echo_of <$> polled e1 e2 e3 n s).
Proof.
  intros H1 H2 H3 Hi. split; [intros l Hl; eapply calls_follow; [done|by left]|].
  assert (in_phase user_echo_task Polling) as Ht by by left. revert Ht. generalize user_echo_task as t.
  revert s Hi. induction n as [|n IH]; intros s Hi t Ht.
  - exists t, s. split_all. by rewrite app_nil_r.
  - destruct (echo_round_spec e1 e2 e3 i s H1 H2 H3 Hi) as (s1 & Hrun & Hst & Hi1 & Hout).
    destruct (round_turn e1 e2 e3 t s s1 H1 H2 H3 Ht Hrun) as (t1 & Hps & Ht1).
    destruct (IH s1 Hi1 t1 Ht1) as (t2 & s2 & Hps2 & Ht2 & Hst2 & Hi2 & Hout2).
    exists t2, s2. split_all; [by etransitivity|by etransitivity|].
    cbn [polled]. rewrite Hrun, fmap_cons, Hout2, Hout. cbn [concat]. by rewrite <- app_assoc.
Qed.

(** C37: where the harts wait.  From reset and for any linkable image, hart 0
    passes through the whole of [kmain] and waits in the loop at the end of
    [start_scheduler], every other hart in the parking loop of [_start]; were
    [kmain] to panic, hart 0 would wait in the loop of the panic handler.  A hart
    in one of these loops, or in the idle task, executes the [wfi] of that loop
    again and again and never returns from it.  Interrupts take hart 0 out of
    the loop of [start_scheduler]: once a task has been current, the
    bootstrap code never is again. *)
Theorem harts_wait `{E : Env} `{B : SerialBackend} `{L : !SerialLaws B} `{I : Image} `{IO : !ImageOk I}
    `{CK : !ClockOk E} location mhartid m k :
  pmp_wf (pmp (k_hw k)) → (∀ i, cfg_locked (cfg_at (pmp (k_hw k)) i) = false) → k_sched k = SCHEDULER →
  hart_program location mhartid m k = wfi_loop (if mhartid =? 0 then SchedulerLoop else ParkingLoop) ∧
  (∀ k1 e k2, kmain k1 = Panic e k2 → s_ready (k_hw k2) → hart_program location 0 m k1 = wfi_loop PanicLoop) ∧
  (∀ p s c, rtc prog_step (wfi_loop p, s) c → only_wfi p c.1 ∧ ∃ c', prog_step c c') ∧
  (∀ s0 s s', booted k s0 → rtc sys_step s0 s → current (k_sched (s_k s)) ≠ None → rtc sys_step s s' →
     current (k_sched (s_k s')) ≠ None).
Proof.
  intros Hpw Hpl Hst. split; [|split; [|split]].
  - destruct (Z.eqb_spec mhartid 0) as [->|Hne]; [by apply hart_boots|].
    unfold hart_program, _start. by rewrite (proj2 (Z.eqb_neq _ _) Hne).
  - intros k1 e k2. apply hart_panics.
  - intros p s c. apply only_wfi_steps. by left.
  - intros s0 s s' Hb Hr Hc. apply steps_current; [|done]. by eapply steps_inv; [eapply booted_inv|].
Qed.

(** ** Witnesses *)

Module loops_sample.
#[local] Instance env : Env := quiet_board true.
#[local] Existing Instance sample_image.
#[local] Existing Instance trap_sample.clock.
Import system_sample.

Lemma echo_task_echoes_witness :
  ∃ t s', rtc prog_step (user_echo_task, tick s0) (t, s') ∧ in_phase t Polling ∧
    rtc sys_step (tick s0) s' ∧ in_task 1 s' ∧
    out_of s' = out_of (tick s0) ++ concat (echo_of <$> polled 0x80004004 0x80004010 0x80004020 3 (tick s0)).
Proof.
  refine (proj2 (echo_task_echoes 0x80004004 0x80004010 0x80004020 1 (tick s0) 3 _ _ _ user_sample.echo_in_task)); lia.
Defined.

(** Harts 0 and 1 of the sample image. *)
Lemma harts_wait_witness :
  hart_program None 0 (λ _, 0) reset_kernel = wfi_loop SchedulerLoop ∧
  hart_program None 1 (λ _, 0) reset_kernel = wfi_loop ParkingLoop.
Proof.
  pose proof s0_booted as (Hpw & Hpl & _). split.
  - exact (proj1 (harts_wait None 0 (λ _, 0) reset_kernel Hpw Hpl eq_refl)).
  - exact (proj1 (harts_wait None 1 (λ _, 0) reset_kernel Hpw Hpl eq_refl)).
Defined.
End loops_sample.
