(* ===== verification/Echo.v ===== *)
(** The echo task under preemption.

    Loops.v has the echo task of [crates/kernel/src/user_task.rs] as a program and
    runs it while it keeps the processor.  Here it shares the machine: between
    any two of its instructions interrupts arrive, the other tasks compute,
    trap and die, and it waits for its turn.  What the task knows is in its
    registers: the position in its loop is its program counter, the byte it has
    read is in a register, and both are saved and restored by the kernel like
    everything else.  The instructions the compiler makes of the function are a
    parameter ([Class EchoCode], [Class EchoCodeOk]).  A log records what the task
    polled and what the console received from it, and the theorem says that it
    loses, repeats and reorders nothing. *)

From S2P Require Import Prelude Config Machine Serial PmpHw Linker Pmp PmpAccess Sync Timer Allocator.
From S2P Require Import Registers Policy Task Kernel Scheduler SchedulerProps TaskSpec Trap Asm Boot.
From S2P Require Import System Progress UserTask Loops.
From Stdlib Require Import Eqdep.
From ITree Require Import Core.ITreeDefinition.

Local Open Scope Z_scope.

#[local] Arguments csr_get : simpl never.
#[local] Arguments csr_put : simpl never.

(** ** The compiled function *)

(** The machine code of [user_echo_task]: where its [ecall]s are, what its other
    instructions do to the registers and the program counter, and in which states
    of these the rest of the program is a given tree. *)
Class EchoCode := {
  ecall_at : Z → bool;
  code_run : TrapFrame.t → Z → TrapFrame.t → Z → Prop;
  code_at : prog → TrapFrame.t → Z → Prop;
}.

(** Silent steps of a program. *)
Definition taus : prog → prog → Prop := rtc (λ t t', observe t = TauF t').

(** What the compiler promises: the function starts at its symbol with the
    registers of a fresh context; the other instructions compute; an [ecall] asks
    for the next system call of the program in [a7] and [a0] and, as the operands
    of the [asm!] blocks say, goes on behind the instruction provided that at most
    [a0] has changed, and not even [a0] where it is an input.  The code keeps what
    it needs in registers. *)
Class EchoCodeOk `(I : Image) (C : EchoCode) : Prop := {
  ec_entry : ∀ g sp, TrapFrame.to_list g = replicate 30 0 ++ [sp] → code_at user_echo_task g user_echo_task_addr;
  ec_pc : ∀ t g pc, code_at t g pc → 0 ≤ pc < 2 ^ 64 - 8;
  ec_live : ∀ t g pc, code_at t g pc → ecall_at pc = false → ∃ g' pc', code_run g pc g' pc';
  ec_run : ∀ t g pc g' pc', code_at t g pc → ecall_at pc = false → code_run g pc g' pc' →
    ∃ t', taus t t' ∧ code_at t' g' pc';
  ec_ecall : ∀ t g pc, code_at t g pc → ecall_at pc = true →
    ∃ t' num a0 k, taus t t' ∧ observe t' = VisF (Ecall num a0) k ∧ TrapFrame.a7 g = num ∧
      (∀ v, a0 = Some v → TrapFrame.a0 g = v) ∧
      ∀ v, (∀ w, a0 = Some w → v = w) → code_at (k v) (TrapFrame.set_a0 v g) (pc + 4);
}.

(** ** The system with the code of the echo task *)

(** The slot [kmain] gives the echo task. *)
Definition echo_slot : nat := 1.

(** What the receiver offered at each poll, and the bytes sent. *)
Record Log := mkLog { polls : list (option Z); sent : list Z }.

Definition logged (num : Z) (rx : option Z) (out : list Z) (g : Log) : Log :=
  mkLog (if num =? SYS_GETC then polls g ++ [rx] else polls g) (sent g ++ out).

Section steps.
Context `{E : Env} `{B : SerialBackend} `{C : EchoCode}.

(** The steps: another task or the bootstrap code is current and makes a step of
    the system; an interrupt, of the timer or another one, comes to whatever runs;
    the echo task is current and executes an instruction of its code, or its
    [ecall], which is a trap like any other. *)
Inductive echo_step : Sys * Log → Sys * Log → Prop :=
| es_other s s' g :
    current (k_sched (s_k s)) ≠ Some echo_slot → sys_step s s' → echo_step (s, g) (s', g)
| es_irq s cause tval f k' g :
    2 ^ 63 ≤ cause → may_trap s cause → trap_handler (s_gpr s) (trapped_kernel s cause tval) = Ok f k' →
    0 ≤ csr_get Mepc (csrs (k_hw k')) < 2 ^ 64 - 4 →
    echo_step (s, g) (returned k' f, g)
| es_run s gpr' pc' g :
    current (k_sched (s_k s)) = Some echo_slot → ecall_at (s_pc s) = false → code_run (s_gpr s) (s_pc s) gpr' pc' →
    echo_step (s, g) (mkSys (s_k s) gpr' pc' (s_mode s), g)
| es_call s tval f k' out g :
    current (k_sched (s_k s)) = Some echo_slot → ecall_at (s_pc s) = true →
    trap_handler (s_gpr s) (trapped_kernel s (exception_code EcallFromU) tval) = Ok f k' →
    out_of (returned k' f) = out_of s ++ out →
    echo_step (s, g) (returned k' f, logged (TrapFrame.a7 (s_gpr s)) (s_rx (k_hw (s_k s))) out g).
End steps.

(** What the task still owes for its last poll. *)
Definition owed (p : phase) : list Z :=
  match p with
  | Polling => []
  | Echoing byte => if byte =? 13 then [13; 10] else [byte]
  | Feeding => [10]
  end.

(** The registers of the task, wherever they are kept, are those of its code in
    phase [p] of the program. *)
Definition at_phase `{C : EchoCode} (p : phase) (s : Sys) : Prop :=
  ∃ t g pc, sys_regs s echo_slot = Some (TrapFrame.to_list g, pc) ∧ code_at t g pc ∧ in_phase t p.

(** ** The invariant *)

Record echo_inv `{I : Image} `{B : SerialBackend} `{C : EchoCode} (p : phase) (d : Sys * Log) : Prop := {
  ei_sys : sys_inv d.1;
  ei_alive : runnable (k_sched (s_k d.1)) echo_slot = true;
  ei_phase : at_phase p d.1;
  ei_byte : match p with Echoing byte => u8 byte ∧ byte ≠ 0xFF | _ => True end;
  ei_log : sent d.2 ++ owed p = concat (echo_of <$> polls d.2);
}.

Lemma to_list_inj f g : TrapFrame.to_list f = TrapFrame.to_list g → f = g.
Proof. destruct f, g. intros [= ?]. by subst. Qed.

Section echo.
Context `{E : Env} `{B : SerialBackend} `{L : !SerialLaws B} `{I : Image} `{IO : !ImageOk I} `{CK : !ClockOk E}.

(** A step of the others leaves the echo task runnable. *)
Lemma others_keep s s' : sys_inv s → sys_step s s' → current (k_sched (s_k s)) ≠ Some echo_slot →
  runnable (k_sched (s_k s')) echo_slot = runnable (k_sched (s_k s)) echo_slot.
Proof.
  intros Hs Hst Hc. destruct (sys_step_table _ _ Hs Hst); [done|by rewrite resched_runnable|].
  rewrite resched_runnable. unfold runnable. by rewrite task_of_killed, decide_False.
Qed.

(** And so does an interrupt: it kills nobody. *)
Lemma irq_keeps s cause tval f k' :
  sys_inv s → 2 ^ 63 ≤ cause → u64 cause → trap_handler (s_gpr s) (trapped_kernel s cause tval) = Ok f k' →
  runnable (k_sched k') echo_slot = runnable (k_sched (s_k s)) echo_slot.
Proof.
  intros Hs Hc Hu Hrun. destruct (handled_effect s cause tval f k' Hs Hu Hrun) as [He _].
  destruct (trapped_csrs s cause tval) as (Hca & _). cbn zeta in Hca.
  change (k_sched (s_k s)) with (k_sched (trapped_kernel s cause tval)).
  destruct He as [k1 f k' _ _ Hs1 _ Hsch|k1 f k' Hlt _ _ _ _ _|f k' Hs1 _ _ _]; [|lia|by rewrite Hs1].
  by rewrite (scheduled_sched _ _ _ _ Hsch), resched_runnable, Hs1.
Qed.

(** No interrupt changes the registers of a task, the interrupted one included. *)
Lemma irq_regs s cause tval f k' i :
  sys_inv s → 2 ^ 63 ≤ cause → u64 cause → trap_handler (s_gpr s) (trapped_kernel s cause tval) = Ok f k' →
  sys_regs (returned k' f) i = sys_regs s i.
Proof.
  intros Hs Hc Hu Hrun. destruct (decide (cause = 2 ^ 63 + 7)) as [->|Hne]; [by eapply timer_step_regs|].
  rewrite sys_regs_returned, (sys_regs_trapped s cause tval). f_equal.
  destruct (other_interrupt_run s cause tval Hs) as (h1 & Hrun2 & Hcs); [split; [done|apply Hu]|done|].
  cbn zeta in *. rewrite Hrun2 in Hrun. injection Hrun as <- <-. by apply context_of_ext.
Qed.

(** The log across a call that follows the protocol. *)
Lemma logged_owed p num a0 v rx out g :
  phase_ok p num a0 → match p with Echoing byte => u8 byte ∧ byte ≠ 0xFF | _ => True end →
  sent g ++ owed p = concat (echo_of <$> polls g) →
  (num = SYS_GETC → out = [] ∧ v = default 0xFF rx ∧ u8 v) →
  (num = SYS_PUTC → ∀ byte, a0 = Some byte → out = [byte mod 2 ^ 8]) →
  match phase_next p v with Echoing byte => u8 byte ∧ byte ≠ 0xFF | _ => True end ∧
  sent (logged num rx out g) ++ owed (phase_next p v) = concat (echo_of <$> polls (logged num rx out g)).
Proof.
  intros Hok Hbyte Hg Hget Hput. destruct g as [ps bs]. unfold logged. cbn [polls sent] in *.
  destruct p as [|byte|]; destruct Hok as [-> ->]; cbn [phase_next owed] in *.
  - destruct (Hget eq_refl) as (-> & -> & Hv). rewrite app_nil_r in Hg. cbn [Z.eqb SYS_GETC].
    rewrite fmap_app, concat_app, <- Hg, app_nil_r. unfold echo_of.
    destruct rx as [b|]; simpl; [|split; [done|simpl; by rewrite ?app_nil_r]].
    destruct (Z.eqb_spec b 0xFF) as [->|Hne]; simpl; [split; [done|by rewrite ?app_nil_r]|]. split; [done|].
    cbn [owed]. by rewrite app_nil_r.
  - rewrite (Hput eq_refl byte eq_refl). destruct Hbyte as [Hu _]. rewrite Z.mod_small by exact Hu.
    change (SYS_PUTC =? SYS_GETC) with false. cbn iota. rewrite <- Hg.
    destruct (Z.eqb_spec byte 13) as [->|]; cbn [owed]; split; try done; by rewrite <- app_assoc.
  - rewrite (Hput eq_refl 10 eq_refl). change (SYS_PUTC =? SYS_GETC) with false. cbn iota. rewrite <- Hg.
    split; [done|]. by rewrite app_nil_r.
Qed.

Lemma in_phase_call t p num a0 k :
  in_phase t p → observe t = VisF (Ecall num a0) k → phase_ok p num a0 ∧ ∀ v, in_phase (k v) (phase_next p v).
Proof.
  intros Hp Ho. destruct (echo_tree_shape p) as (num' & a0' & k' & Hs & Hok & Hk).
  destruct Hp as [Hp|[-> Hp]]; rewrite Ho in Hp; [|done]. rewrite Hs in Hp.
  injection Hp as -> -> Hkk. apply inj_pair2 in Hkk as ->. done.
Qed.

Lemma in_phase_taus t p t' : taus t t' → in_phase t p → in_phase t' p.
Proof.
  intros Hr. induction Hr as [t|t t1 t2 Ho _ IH]; [done|]. intros Hp. apply IH. destruct (echo_tree_shape p) as (num & a0 & k & Hs & _).
  destruct Hp as [Hp|[-> Hp]]; rewrite Ho in Hp; [by rewrite Hs in Hp|]. injection Hp as ->. by left.
Qed.


Context `{C : EchoCode} `{CO : !EchoCodeOk I C}.

(** The code executed while the task is current. *)
Lemma at_phase_current p s : sys_inv s → current (k_sched (s_k s)) = Some echo_slot → at_phase p s →
  ∃ t, code_at t (s_gpr s) (s_pc s) ∧ in_phase t p.
Proof.
  intros Hs Hc (t & g & pc & Hr & Ht & Hp). rewrite (sys_regs_current s echo_slot Hs Hc) in Hr.
  apply (inj Some), pair_equal_spec in Hr as [Hg <-]. apply to_list_inj in Hg as <-. by exists t.
Qed.

Lemma at_phase_now p s t : sys_inv s → current (k_sched (s_k s)) = Some echo_slot →
  code_at t (s_gpr s) (s_pc s) → in_phase t p → at_phase p s.
Proof. intros Hs Hc Ht Hp. exists t, (s_gpr s), (s_pc s). split; [by apply sys_regs_current|done]. Qed.

(** An instruction of the task. *)
Lemma echo_run_inv p s gpr' pc' g :
  echo_inv p (s, g) → current (k_sched (s_k s)) = Some echo_slot → ecall_at (s_pc s) = false →
  code_run (s_gpr s) (s_pc s) gpr' pc' → echo_inv p (mkSys (s_k s) gpr' pc' (s_mode s), g).
Proof.
  intros [Hs Ha Hp Hb Hg] Hc Hn Hrun. cbn [fst snd] in *.
  destruct (at_phase_current p s Hs Hc Hp) as (t & Ht & Htp). destruct (ec_run _ _ _ _ _ Ht Hn Hrun) as (t' & Htt & Ht').
  assert (sys_inv (mkSys (s_k s) gpr' pc' (s_mode s))) as Hs'.
  { eapply sys_step_inv; [exact Hs|]. destruct s. apply step_run. pose proof (ec_pc _ _ _ Ht'). cbn in *. lia. }
  constructor; cbn [fst snd]; try done. eapply at_phase_now; [done|done|exact Ht'|]. by eapply in_phase_taus.
Qed.

(** A system call of the task. *)
Lemma echo_call_inv p s tval f k' out g :
  echo_inv p (s, g) → current (k_sched (s_k s)) = Some echo_slot → ecall_at (s_pc s) = true →
  trap_handler (s_gpr s) (trapped_kernel s 8 tval) = Ok f k' → out_of (returned k' f) = out_of s ++ out →
  ∃ p', echo_inv p' (returned k' f, logged (TrapFrame.a7 (s_gpr s)) (s_rx (k_hw (s_k s))) out g).
Proof.
  intros [Hs Ha Hp Hb Hg] Hc He Hrun Hout. cbn [fst snd] in *. assert (in_task echo_slot s) as Hin by (by split).
  destruct (at_phase_current p s Hs Hc Hp) as (t & Ht & Htp). pose proof (ec_pc _ _ _ Ht) as Hpc.
  destruct (ec_ecall _ _ _ Ht He) as (t' & num & a0 & k & Htt & Ho & Hnum & Ha0 & Hk).
  destruct (ecall_trap tval echo_slot s Hin Hpc) as (v & k2 & out2 & Hrun2 & _ & Hin2 & Hpc2 & Hsc & Hout2 & Hget & Hoth & Hput).
  cbn zeta in *. rewrite Hrun2 in Hrun. injection Hrun as <- <-. rewrite Hout2 in Hout. apply app_inv_head in Hout as <-.
  destruct (in_phase_call t' p num a0 k (in_phase_taus _ _ _ Htt Htp) Ho) as [Hok Hph]. rewrite Hnum in *.
  destruct (logged_owed p num a0 v (s_rx (k_hw (s_k s))) out2 g Hok Hb Hg Hget) as [Hb' Hg'].
  { intros Hn byte Hby. by rewrite (Hput Hn), (Ha0 byte Hby). }
  exists (phase_next p v). constructor; cbn [fst snd]; [apply Hin2| | |done|done].
  - change (k_sched (s_k (returned k2 _))) with (k_sched k2). by rewrite Hsc.
  - apply at_phase_now with (t := k v); [apply Hin2|apply Hin2| |apply Hph]. rewrite Hpc2. apply Hk.
    intros w ->. rewrite Hoth; [by apply Ha0|]. by destruct p; destruct Hok as [-> ?].
Qed.

Lemma echo_step_inv p d d' : echo_inv p d → echo_step d d' → ∃ p', echo_inv p' d'.
Proof.
  intros Hd Hst. destruct Hst as [s s' g Hc Hst|s cause tval f k' g Hge [Hu Hmay] Hrun Hpc|s gpr' pc' g Hc Hn Hrun|s tval f k' out g Hc He Hrun Hout].
  - exists p. destruct Hd as [Hs Ha (t & gp & pc & Hr & Hp) Hb Hg]. cbn [fst snd] in *.
    constructor; cbn [fst snd]; try done; [by eapply sys_step_inv|by rewrite (others_keep s s')|].
    exists t, gp, pc. by rewrite (sys_step_regs s s' echo_slot).
  - exists p. destruct Hd as [Hs Ha (t & gp & pc & Hr & Hp) Hb Hg]. cbn [fst snd] in *.
    assert (sys_step s (returned k' f)) as Hst by (by eapply step_trap).
    constructor; cbn [fst snd]; try done; [by eapply sys_step_inv| |].
    + change (k_sched (s_k (returned k' f))) with (k_sched k'). by rewrite (irq_keeps s cause tval f k').
    + exists t, gp, pc. by rewrite (irq_regs s cause tval f k').
  - exists p. by apply echo_run_inv.
  - by eapply echo_call_inv.
Qed.

Lemma echo_steps_inv p d d' : echo_inv p d → rtc echo_step d d' → ∃ p', echo_inv p' d'.
Proof.
  intros Hp Hr. revert p Hp. induction Hr as [d|d d1 d2 Hst _ IH]; intros p Hp; [eauto|].
  destruct (echo_step_inv p d d1 Hp Hst) as [p1 Hp1]. eauto.
Qed.

(** When it is the task's turn, it can go on. *)
Lemma echo_progress p d : echo_inv p d → current (k_sched (s_k d.1)) = Some echo_slot → ∃ d', echo_step d d'.
Proof.
  destruct d as [s g]. intros [Hs Ha Hp _ _] Hc. cbn [fst snd] in *.
  destruct (at_phase_current p s Hs Hc Hp) as (t & Ht & _). destruct (ecall_at (s_pc s)) eqn:He.
  - assert (in_task echo_slot s) as Hin by (by split).
    destruct (ecall_trap 0 echo_slot s Hin (ec_pc _ _ _ Ht)) as (v & k' & out & Hrun & _ & _ & _ & _ & Hout & _).
    eexists. by eapply es_call.
  - destruct (ec_live _ _ _ Ht He) as (g' & pc' & Hrun). eexists. by eapply es_run.
Qed.

(** At boot the task is at its entry. *)
Lemma booted_echo k0 s0 : booted k0 s0 → echo_inv Polling (s0, mkLog [] []).
Proof.
  intros Hb. destruct (booted_facts k0 s0 Hb) as (Htab & _). constructor; cbn [fst snd]; try done.
  - by eapply booted_inv.
  - by rewrite Htab.
  - set (c := TaskContext.new_umode user_echo_task_addr (boot_stack + 8192 + TASK_STACK_SIZE)).
    exists user_echo_task, (copy_ctx_to_frame c (frame_of (λ _, 0))), user_echo_task_addr.
    split; [unfold sys_regs; rewrite Htab; reflexivity|]. split; [|by left].
    eapply (ec_entry _ (boot_stack + 8192 + TASK_STACK_SIZE)). reflexivity.
Qed.
End echo.

(** ** Property *)

(** C18: the echo task is exact under preemption.  Compile the function by any
    compiler that keeps its promises, start at boot, let interrupts come between
    any two instructions and let the other tasks make any steps of the system
    model.  In every state that is reached the registers of the task, in the
    processor or in its saved context, are those of its code at some point of its
    program, and the bytes the console has received from it are exactly the echo
    of what the receiver offered at its polls, in order, each once, with a line
    feed after a carriage return, but for what the task still owes for the last
    one; the task is alive, and whenever it is current it can go on. *)
Theorem echo_exact `{E : Env} `{B : SerialBackend} `{L : !SerialLaws B} `{I : Image}
    `{IO : !ImageOk I} `{CK : !ClockOk E} `{C : EchoCode} `{CO : !EchoCodeOk I C} k0 s0 s g :
  booted k0 s0 → rtc echo_step (s0, mkLog [] []) (s, g) →
  ∃ p, at_phase p s ∧ sent g ++ owed p = concat (echo_of <$> polls g) ∧
    runnable (k_sched (s_k s)) echo_slot = true ∧
    (current (k_sched (s_k s)) = Some echo_slot → ∃ d', echo_step (s, g) d').
Proof.
  intros Hb Hr. destruct (echo_steps_inv Polling _ _ (booted_echo k0 s0 Hb) Hr) as [p Hp].
  exists p. split; [apply Hp|]. split; [apply Hp|]. split; [apply Hp|]. exact (echo_progress p (s, g) Hp).
Qed.

(** ** Witness *)

Module echo_sample.
(** A board on which the receiver always offers the letter A. *)
#[local] Instance env : Env :=
  {| mmio_in := λ _ a, if a =? UART_BASE + uart16550.LSR then 0x61 else if a =? UART_BASE then 65 else 0;
     spin_fuel := 1; debug_build := true |}.
#[local] Existing Instance sample_image.

#[local] Instance live : UartLive (E := env).
Proof. intros n. exists 0%nat. split; [simpl; lia|done]. Qed.

#[local] Instance clock : ClockOk env.
Proof. by intros n. Qed.

(** The function in twelve instructions: the byte stays in [a0], which the kernel
    does not change when it prints. *)
Definition set_t0 (v : Z) (g : TrapFrame.t) : TrapFrame.t :=
  copy_ctx_to_frame (TaskContext.mk (TrapFrame.ra g) v (TrapFrame.t1 g) (TrapFrame.t2 g) (TrapFrame.t3 g)
    (TrapFrame.t4 g) (TrapFrame.t5 g) (TrapFrame.t6 g) (TrapFrame.a0 g) (TrapFrame.a1 g) (TrapFrame.a2 g)
    (TrapFrame.a3 g) (TrapFrame.a4 g) (TrapFrame.a5 g) (TrapFrame.a6 g) (TrapFrame.a7 g) (TrapFrame.s0 g)
    (TrapFrame.s1 g) (TrapFrame.s2 g) (TrapFrame.s3 g) (TrapFrame.s4 g) (TrapFrame.s5 g) (TrapFrame.s6 g)
    (TrapFrame.s7 g) (TrapFrame.s8 g) (TrapFrame.s9 g) (TrapFrame.s10 g) (TrapFrame.s11 g) (TrapFrame.gp g)
    (TrapFrame.tp g) (TrapFrame.sp g) 0 0) g.

(** 0 li a7, 0; 4 ecall; 8 li t0, 255; 12 beq a0, t0, 0; 16 li a7, 1; 20 ecall;
    24 li t0, 13; 28 bne a0, t0, 0; 32 li a7, 1; 36 li a0, 10; 40 ecall; 44 j 0. *)
Definition instr_at (o : Z) (g : TrapFrame.t) : TrapFrame.t * Z :=
  match o with
  | 0 => (TrapFrame.set_a7 0 g, 4)
  | 8 => (set_t0 255 g, 12)
  | 12 => (g, if TrapFrame.a0 g =? TrapFrame.t0 g then 0 else 16)
  | 16 => (TrapFrame.set_a7 1 g, 20)
  | 24 => (set_t0 13 g, 28)
  | 28 => (g, if TrapFrame.a0 g =? TrapFrame.t0 g then 32 else 0)
  | 32 => (TrapFrame.set_a7 1 g, 36)
  | 36 => (TrapFrame.set_a0 10 g, 40)
  | 44 => (g, 0)
  | _ => (g, o)
  end.

(** The registers in which phase [p] is at offset [o]. *)
Definition offset_of (o : Z) (p : phase) (g : TrapFrame.t) : Prop :=
  match o with
  | 0 | 44 => p = Polling
  | 4 => p = Polling ∧ TrapFrame.a7 g = 0
  | 8 => p = phase_next Polling (TrapFrame.a0 g)
  | 12 => p = phase_next Polling (TrapFrame.a0 g) ∧ TrapFrame.t0 g = 255
  | 16 => p = Echoing (TrapFrame.a0 g)
  | 20 => p = Echoing (TrapFrame.a0 g) ∧ TrapFrame.a7 g = 1
  | 24 => p = phase_next (Echoing (TrapFrame.a0 g)) 0
  | 28 => p = phase_next (Echoing (TrapFrame.a0 g)) 0 ∧ TrapFrame.t0 g = 13
  | 32 => p = Feeding
  | 36 => p = Feeding ∧ TrapFrame.a7 g = 1
  | 40 => p = Feeding ∧ TrapFrame.a7 g = 1 ∧ TrapFrame.a0 g = 10
  | _ => False
  end.

Definition base : Z := user_echo_task_addr.

#[local] Instance code : EchoCode := {|
  ecall_at pc := bool_decide (pc - base ∈ [4; 20; 40]);
  code_run g pc g' pc' := g' = (instr_at (pc - base) g).1 ∧ pc' = base + (instr_at (pc - base) g).2;
  code_at t g pc := ∃ p, in_phase t p ∧ offset_of (pc - base) p g;
|}.

Lemma offset_in o p g : offset_of o p g → o ∈ [0; 4; 8; 12; 16; 20; 24; 28; 32; 36; 40; 44].
Proof.
  intros Ho. destruct (decide (o ∈ [0; 4; 8; 12; 16; 20; 24; 28; 32; 36; 40; 44])) as [|Hn]; [done|exfalso].
  rewrite !not_elem_of_cons in Hn. destruct o as [|q|q]; [naive_solver| |done].
  do 6 (try destruct q as [q|q|]); first [exact Ho|naive_solver].
Qed.

Lemma in_phase_ask t p : in_phase t p →
  ∃ t' num a0 k, taus t t' ∧ observe t' = VisF (Ecall num a0) k ∧ phase_ok p num a0 ∧
    ∀ v, in_phase (k v) (phase_next p v).
Proof.
  intros Hp. destruct (echo_tree_shape p) as (num & a0 & k & Hs & Hok & Hk). destruct Hp as [Hp|[-> Hp]].
  - exists t, num, a0, k. split; [apply rtc_refl|]. by rewrite Hp.
  - exists user_echo_task, num, a0, k. split; [by apply rtc_once|done].
Qed.

Lemma code_computes o p g : offset_of o p g → o ∉ [4; 20; 40] → offset_of (instr_at o g).2 p (instr_at o g).1.
Proof.
  intros Ho Hn. pose proof (offset_in o p g Ho) as Hin. rewrite !elem_of_cons, elem_of_nil in Hin.
  destruct_or! Hin; subst; try (by destruct Hn; rewrite !elem_of_cons; tauto); cbn in *; try done.
  - destruct Ho as [-> ->]. by destruct (Z.eqb_spec (TrapFrame.a0 g) 255).
  - destruct Ho as [-> ->]. by destruct (Z.eqb_spec (TrapFrame.a0 g) 13).
  - by destruct Ho.
Qed.

#[local] Instance code_ok : EchoCodeOk sample_image code.
Proof.
  split; cbn [code_at code_run ecall_at code].
  - intros g sp Hg. exists Polling. split; [by left|]. change (user_echo_task_addr) with base. by rewrite Z.sub_diag.
  - intros t g pc (p & _ & Ho). apply offset_in in Ho. rewrite !elem_of_cons, elem_of_nil in Ho.
    assert (0 ≤ base < 2 ^ 63) by (split; vm_compute; congruence). destruct_or! Ho; lia.
  - intros t g pc _ _. by do 2 eexists.
  - intros t g pc g' pc' (p & Hp & Ho) Hn [-> ->]. exists t. split; [apply rtc_refl|]. exists p. split; [done|].
    replace (base + _ - base) with (instr_at (pc - base) g).2 by lia. apply code_computes; [done|].
    by apply bool_decide_eq_false in Hn.
  - intros t g pc (p & Hp & Ho) He. apply bool_decide_eq_true in He.
    destruct (in_phase_ask t p Hp) as (t' & num & a0 & k & Ht & Hs & Hok & Hk). exists t', num, a0, k.
    split; [done|]. split; [done|]. replace (pc + 4 - base) with (pc - base + 4) by lia.
    rewrite !elem_of_cons, elem_of_nil in He. destruct_or! He; rewrite He in *; cbn in Ho; try done.
    + destruct Ho as [-> ->], Hok as [-> ->]. split; [done|]. split; [done|]. intros v _.
      eexists. split; [apply Hk|]. done.
    + destruct Ho as [-> ->], Hok as [-> ->]. split; [done|]. split; [by intros v [= <-]|]. intros v Hv.
      eexists. split; [apply Hk|]. by rewrite (Hv _ eq_refl).
    + destruct Ho as (-> & -> & Ha), Hok as [-> ->]. split; [done|]. split; [by intros v [= <-]|]. intros v Hv.
      eexists. split; [apply Hk|]. done.
Qed.

(** Boot; the first tick, which starts the task; [li a7, 0]; the poll; and a tick
    that preempts the task before it has printed. *)
Definition s0 : Sys := boot_state.
Definition s1 : Sys := ticked s0.
Definition s2 : Sys := mkSys (s_k s1) (TrapFrame.set_a7 0 (s_gpr s1)) (base + 4) (s_mode s1).
Definition s3 : Sys :=
  match trap_handler (s_gpr s2) (trapped_kernel s2 8 0) with Ok f k => returned k f | _ => s2 end.
Definition s4 : Sys := ticked s3.

Lemma receiving_booted : booted reset_kernel s0.
Proof. apply boot_state_booted. vm_compute. reflexivity. Qed.

Lemma tick_echo s g : ticked_fine s = true → 0 ≤ s_pc (ticked s) < 2 ^ 64 - 4 → echo_step (s, g) (ticked s, g).
Proof.
  intros Hf Hpc. destruct (ticked_step s Hf) as (tval & f & k & Hmay & Hrun & Heq). rewrite Heq in Hpc |- *.
  by eapply es_irq; [|exact Hmay|exact Hrun|exact Hpc].
Qed.

Lemma poll_step : echo_step (s2, mkLog [] []) (s3, mkLog [Some 65] []).
Proof.
  assert (mkLog [Some 65] [] = logged (TrapFrame.a7 (s_gpr s2)) (s_rx (k_hw (s_k s2))) [] (mkLog [] [])) as ->
    by (vm_compute; reflexivity).
  destruct (trap_handler (s_gpr s2) (trapped_kernel s2 8 0)) as [f k|e k|k] eqn:Hrun;
    [|exfalso; revert Hrun; vm_compute; congruence..].
  assert (s3 = returned k f) as Heq by (unfold s3; rewrite Hrun; reflexivity). rewrite Heq.
  eapply (es_call s2 0); [vm_compute; reflexivity|vm_compute; reflexivity|exact Hrun|].
  rewrite <- Heq. vm_compute. reflexivity.
Qed.

Lemma poll_run : rtc echo_step (s0, mkLog [] []) (s4, mkLog [Some 65] []).
Proof.
  apply (rtc_l _ _ (s1, mkLog [] [])); [apply tick_echo; [vm_compute; reflexivity|split; vm_compute; congruence]|].
  apply (rtc_l _ _ (s2, mkLog [] [])).
  { apply (es_run s1 (TrapFrame.set_a7 0 (s_gpr s1)) (base + 4)); [vm_compute; reflexivity..|].
    split; vm_compute; reflexivity. }
  apply (rtc_l _ _ (s3, mkLog [Some 65] [])); [exact poll_step|].
  apply rtc_once, tick_echo; [vm_compute; reflexivity|split; vm_compute; congruence].
Qed.

(** After the poll the task owes the letter, and it is not current. *)
Lemma echo_exact_witness :
  ∃ p, at_phase p s4 ∧ owed p = [65] ∧ current (k_sched (s_k s4)) = Some 2%nat.
Proof.
  destruct (echo_exact reset_kernel s0 s4 (mkLog [Some 65] []) receiving_booted poll_run) as (p & Hp & Hg & _).
  exists p. split; [exact Hp|]. split; [exact Hg|]. vm_compute. reflexivity.
Defined.
End echo_sample.
