(* ===== verification/Harness.v ===== *)
(** The test harness: [cyptos-test/src/lib.rs], lines 39 to 144.

    A test is a function with its [type_name]; a failing test panics.  The runner
    is written against the class [Target]: output and exits of the target it is
    built for.  There are two: riscv64, where the harness writes the transmit
    register without polling and reports the verdict through QEMU's test finisher
    at 0x10_0000, and the host, with [eprint!] and [std::process::exit].
    Bare-metal, the crate under test passes a panic to [test_panic_handler], which
    exists for that target only. *)

From S2P Require Import Prelude Config Machine Serial.

Local Open Scope Z_scope.

(** ** The target *)

(** What the harness takes from the target it is built for ([cfg(target_arch)]):
    output and the two exits.  [said] and [ended] give the state after them. *)
Class Target (St : Type) := {
  print_str : list Z → M St unit;
  exit_success : ∀ {A}, M St A;
  exit_failure : ∀ {A}, M St A;
  said : list Z → St → St;
  ended : bool → St → St;
}.

Class TargetLaws `(T : Target St) : Prop := {
  print_str_run : ∀ s h, print_str s h = Ok tt (said s h);
  said_said : ∀ a b h, said b (said a h) = said (a ++ b) h;
  said_nil : ∀ h, said [] h = h;
  exit_success_run : ∀ A h, exit_success (A := A) h = Spin (ended true h);
  exit_failure_run : ∀ A h, exit_failure (A := A) h = Spin (ended false h);
}.

(** riscv64 under QEMU: the transmit register and the test finisher.  Both exits
    end in a loop the finisher takes the machine out of. *)
Module riscv64.
Definition FINISHER : Z := 0x100000.
Definition FINISHER_PASS : Z := 0x5555.
Definition FINISHER_FAIL : Z := Z.lor (Z.shiftl 1 16) 0x3333.

Definition print_str (s : list Z) : M Hw unit :=
  for_each s tt (λ _ b, write_volatile_u8 0x10000000 b).

Definition exit_success {A} : M Hw A := write_volatile_u32 FINISHER FINISHER_PASS;; spin.
Definition exit_failure {A} : M Hw A := write_volatile_u32 FINISHER FINISHER_FAIL;; spin.

(** What is on the bus after [out] has been sent, and after the verdict. *)
Definition say (out : list Z) (h : Hw) : Hw :=
  mkHw (csrs h) (pmp h) (nreads h) (rev (Wr8 UART_BASE <$> out) ++ trace h).

Definition finish (pass : bool) (h : Hw) : Hw :=
  mkHw (csrs h) (pmp h) (nreads h)
    (Wr32 FINISHER (if pass then FINISHER_PASS else FINISHER_FAIL) :: trace h).
End riscv64.

#[export] Instance riscv64_target : Target Hw := {
  print_str := riscv64.print_str;
  exit_success := @riscv64.exit_success; exit_failure := @riscv64.exit_failure;
  said := riscv64.say; ended := riscv64.finish;
}.

(** The host: standard error and [std::process::exit]. *)
Record Process := mkProcess { stderr : list Z; exit_code : option Z }.

Module host.
Definition print_str (s : list Z) : M Process unit :=
  modify (λ p, mkProcess (stderr p ++ s) (exit_code p)).

Definition exit (code : Z) {A} : M Process A := modify (λ p, mkProcess (stderr p) (Some code));; spin.
Definition exit_success {A} : M Process A := exit 0.
Definition exit_failure {A} : M Process A := exit 1.
End host.

#[export] Instance host_target : Target Process := {
  print_str := host.print_str;
  exit_success := @host.exit_success; exit_failure := @host.exit_failure;
  said s p := mkProcess (stderr p ++ s) (exit_code p);
  ended pass p := mkProcess (stderr p) (Some (if pass then 0 else 1));
}.

(** ** Tests and the runner *)

Record Test (St : Type) := mkTest { type_name : string; call : M St unit }.
Arguments mkTest {St}.
Arguments type_name {St}.
Arguments call {St}.

Section harness.
Context `{T : Target St}.

(** [while i > 0 { i -= 1; print_str(&buf[i..i + 1]) }]. *)
Fixpoint print_digits (buf : list Z) (i : nat) : M St unit :=
  match i with
  | O => mret tt
  | S j =>
    match buf !! j with
    | Some c => print_str [c];; print_digits buf j
    | None => panic "index out of bounds"
    end
  end.

Definition print_dec (n : Z) : M St unit :=
  if n =? 0 then print_str (bytes_of_string "0") else
  '(buf, i) ← uart16550.fill 21 (λ n, 48 + n mod 10) (λ n, n / 10) n (replicate 20 0) 0;
  print_digits buf i.

(** [Testable::run]. *)
Definition run (t : Test St) : M St unit :=
  print_str (bytes_of_string "test ");;
  print_str (bytes_of_string (type_name t));;
  print_str (bytes_of_string " ... ");;
  call t;;
  print_str (bytes_of_string ("[ok]" +:+ nl)).

Definition runner (tests : list (Test St)) : M St unit :=
  print_str (bytes_of_string (nl +:+ "running "));;
  print_dec (Z.of_nat (length tests));;
  (if (length tests =? 1)%nat then print_str (bytes_of_string (" test" +:+ nl))
   else print_str (bytes_of_string (" tests" +:+ nl)));;
  for_each tests tt (λ _ t, run t);;
  print_str (bytes_of_string (nl +:+ "test result: ok. "));;
  print_dec (Z.of_nat (length tests));;
  print_str (bytes_of_string (" passed; 0 failed" +:+ nl +:+ nl));;
  exit_success.

(** The location is that of the [PanicInfo]: file and line. *)
Definition test_panic_handler {A} (location : option (string * Z)) : M St A :=
  print_str (bytes_of_string ("[FAILED]" +:+ nl +:+ nl));;
  match location with
  | Some (file, line) =>
    print_str (bytes_of_string "  panicked at ");;
    print_str (bytes_of_string file);;
    print_str (bytes_of_string ":");;
    print_dec line;;
    print_str (bytes_of_string nl)
  | None => mret tt
  end;;
  exit_failure.
End harness.

(** A bare-metal test binary: the runner, with panics sent to the handler.  On the
    host a panic leaves the runner. *)
Definition run_tests (location : option (string * Z)) (tests : list (Test Hw)) : M Hw unit := λ h,
  match runner tests h with
  | Panic _ h' => test_panic_handler location h'
  | r => r
  end.

(** ** The report *)

(** A unit test of pure code: it touches no hardware, and passes or panics. *)
Definition unit_test {St} (name : string) (passes : bool) : Test St :=
  mkTest name (if passes then mret tt else panic "assertion failed").

Definition heading (name : string) : list Z := bytes_of_string ("test " +:+ name +:+ " ... ").

Definition failed_at (location : option (string * Z)) : list Z :=
  bytes_of_string ("[FAILED]" +:+ nl +:+ nl) ++
  match location with
  | Some (file, line) =>
    bytes_of_string ("  panicked at " +:+ file +:+ ":") ++ dec_bytes line ++ bytes_of_string nl
  | None => []
  end.

(** The lines of the tests, up to and including the first that fails. *)
Fixpoint lines (location : option (string * Z)) (ts : list (string * bool)) : list Z :=
  match ts with
  | [] => []
  | (name, true) :: ts' => heading name ++ bytes_of_string ("[ok]" +:+ nl) ++ lines location ts'
  | (name, false) :: _ => heading name ++ failed_at location
  end.

Definition all_pass (ts : list (string * bool)) : bool := forallb snd ts.

Definition report (location : option (string * Z)) (ts : list (string * bool)) : list Z :=
  let n := dec_bytes (Z.of_nat (length ts)) in
  bytes_of_string (nl +:+ "running ") ++ n ++
  bytes_of_string ((if (length ts =? 1)%nat then " test" else " tests") +:+ nl) ++
  lines location ts ++
  (if all_pass ts then
     bytes_of_string (nl +:+ "test result: ok. ") ++ n ++
     bytes_of_string (" passed; 0 failed" +:+ nl +:+ nl)
   else []).

(** ** Lemmas *)

Lemma bytes_app a b : bytes_of_string (a +:+ b) = bytes_of_string a ++ bytes_of_string b.
Proof.
  unfold bytes_of_string. induction a as [|c a IH]; [done|]. csimpl in *. by rewrite IH.
Qed.

Definition location_ok (location : option (string * Z)) : Prop :=
  match location with Some (_, line) => u64 line | None => True end.

(** ** The targets keep their promises *)

#[export] Instance riscv64_laws : TargetLaws riscv64_target.
Proof.
  assert (∀ a b h, riscv64.say b (riscv64.say a h) = riscv64.say (a ++ b) h) as Hss.
  { intros a b h. unfold riscv64.say. simpl. by rewrite fmap_app, rev_app_distr, <- app_assoc. }
  constructor; simpl; try done; [|by intros []].
  intros s. induction s as [|c s IH]; intros h; [by destruct h|].
  unfold riscv64.print_str. cbn [for_each]. erewrite bind_Ok by reflexivity.
  etrans; [apply IH|]. f_equal. change (c :: s) with ([c] ++ s). by rewrite <- Hss.
Qed.

#[export] Instance host_laws : TargetLaws host_target.
Proof.
  constructor; simpl; try done.
  - intros a b [o e]. simpl. by rewrite app_assoc.
  - intros [o e]. simpl. by rewrite app_nil_r.
Qed.

Section lemmas.
Context `{T : Target St} `{TL : !TargetLaws T}.

Lemma print_digits_run buf i (h : St) :
  (i ≤ length buf)%nat → print_digits buf i h = Ok tt (said (rev (take i buf)) h).
Proof.
  revert h. induction i as [|i IH]; intros h Hi; [by rewrite said_nil|].
  cbn [print_digits]. destruct (lookup_lt_is_Some_2 buf i) as [c Hc]; [lia|].
  rewrite Hc, (take_S_r _ _ _ Hc), rev_app_distr, <- said_said.
  erewrite bind_Ok by apply print_str_run. by rewrite IH by lia.
Qed.

Lemma fill_digits_run fuel digit next conv b n (h : St) :
  1 < b → (∀ m, 0 < m → digit m = conv (m mod b) ∧ next m = m / b) → 0 ≤ n < b ^ Z.of_nat fuel →
  ('(buf, i) ← uart16550.fill (S fuel) digit next n (replicate fuel 0) 0; print_digits buf i) h =
    Ok tt (said (conv <$> rev (digits_rev b fuel n)) h).
Proof.
  intros Hb Hdig Hn.
  edestruct (wp_elim _ _ _ (uart16550_proofs.fill_spec fuel digit next conv b n (replicate fuel 0) 0 h
    Hb Hdig Hn ltac:(by rewrite length_replicate))) as ([buf i] & h' & Hrun & -> & Hi & Ht).
  erewrite bind_Ok by exact Hrun. csimpl in *.
  rewrite uart16550_proofs.rev_fmap, <- Ht. apply print_digits_run.
  apply (f_equal length) in Ht. rewrite length_take, Hi, length_fmap in *. lia.
Qed.

Lemma print_dec_run n h : u64 n → print_dec n h = Ok tt (said (dec_bytes n) h).
Proof.
  intros [Hn0 Hn]. unfold print_dec, dec_bytes. destruct (n =? 0); [apply print_str_run|].
  apply (fill_digits_run 20); [done|done|].
  change (10 ^ Z.of_nat 20) with 100000000000000000000. lia.
Qed.

(** Sequencing: what is printed first comes first. *)
Lemma print_str_then {A} s (m : M St A) h : (print_str s;; m) h = m (said s h).
Proof. by erewrite bind_Ok by apply print_str_run. Qed.

Lemma print_dec_then {A} n (m : M St A) (h : St) :
  u64 n → (print_dec n;; m) h = m (said (dec_bytes n) h).
Proof. intros Hn. by erewrite bind_Ok by by apply print_dec_run. Qed.

Lemma run_unit_test name passes (h : St) :
  run (unit_test name passes) h =
    if passes then Ok tt (said (heading name ++ bytes_of_string ("[ok]" +:+ nl)) h)
    else Panic "assertion failed" (said (heading name) h).
Proof.
  unfold run, heading. rewrite !print_str_then, !said_said, <- !bytes_app.
  destruct passes; [|done]. erewrite bind_Ok by reflexivity. rewrite print_str_run, said_said.
  by rewrite !bytes_app, <- !app_assoc.
Qed.

Lemma test_panic_handler_run {A} location (h : St) :
  location_ok location →
  test_panic_handler (A := A) location h = Spin (ended false (said (failed_at location) h)).
Proof.
  intros Hl. unfold test_panic_handler, failed_at. rewrite print_str_then.
  destruct location as [[file line]|]; [|erewrite bind_Ok by reflexivity; by rewrite exit_failure_run, app_nil_r].
  erewrite bind_Ok.
  2:{ rewrite !print_str_then, print_dec_then by done. apply print_str_run. }
  rewrite exit_failure_run. by rewrite !said_said, !bytes_app, <- !app_assoc.
Qed.

Lemma counted_run n (h : St) :
  (if (n =? 1)%nat then print_str (bytes_of_string (" test" +:+ nl))
   else print_str (bytes_of_string (" tests" +:+ nl))) h =
  Ok tt (said (bytes_of_string ((if (n =? 1)%nat then " test" else " tests") +:+ nl)) h).
Proof. destruct (n =? 1)%nat; apply print_str_run. Qed.

(** The loop over the tests: it stops at the first that fails. *)
Lemma tests_run location ts (h : St) :
  ∃ h', for_each ((λ t, unit_test t.1 t.2) <$> ts) tt (λ _ t, run t) h =
      (if all_pass ts then Ok tt h' else Panic "assertion failed" h') ∧
    said (lines location ts) h = (if all_pass ts then h' else said (failed_at location) h').
Proof.
  revert h. induction ts as [|[name passes] ts IH]; intros h.
  - exists h. by rewrite said_nil.
  - csimpl. destruct passes; simpl.
    + destruct (IH (said (heading name ++ bytes_of_string ("[ok]" +:+ nl)) h)) as (h' & Hrun & Hs).
      exists h'. erewrite bind_Ok by apply (run_unit_test name true). rewrite Hrun. split; [done|].
      by rewrite <- Hs, said_said, <- app_assoc.
    + exists (said (heading name) h). erewrite bind_Panic by apply (run_unit_test name false).
      split; [done|]. by rewrite said_said.
Qed.


(** The whole run: a verdict, or the panic of the first failing test. *)
Lemma runner_run location ts (h : St) :
  Z.of_nat (length ts) < 2 ^ 64 →
  let r := runner ((λ t, unit_test t.1 t.2) <$> ts) h in
  if all_pass ts then r = Spin (ended true (said (report location ts) h))
  else ∃ h', r = Panic "assertion failed" h' ∧ said (report location ts) h = said (failed_at location) h'.
Proof.
  intros Hn. assert (u64 (Z.of_nat (length ts))) as Hw by (split; lia).
  unfold runner. rewrite length_fmap, print_str_then, print_dec_then by done.
  erewrite bind_Ok by apply counted_run. rewrite !said_said.
  set (intro := bytes_of_string (nl +:+ "running ") ++ _ ++ _).
  destruct (tests_run location ts (said intro h)) as (h' & Hrun & Hs).
  assert (report location ts = (intro ++ lines location ts) ++ if all_pass ts then
    bytes_of_string (nl +:+ "test result: ok. ") ++ dec_bytes (Z.of_nat (length ts)) ++
    bytes_of_string (" passed; 0 failed" +:+ nl +:+ nl) else []) as ->
    by (unfold report, intro; by rewrite <- !app_assoc).
  rewrite <- !said_said, Hs. destruct (all_pass ts).
  - erewrite bind_Ok by exact Hrun.
    rewrite print_str_then, print_dec_then, print_str_then, exit_success_run, !said_said by done. done.
  - exists h'. erewrite bind_Panic by exact Hrun. by rewrite said_nil.
Qed.
End lemmas.

(** ** The property of the harness *)

(** C39: the verdict of the harness, for any suite of unit tests.  Bare-metal, a
    run ends at the finisher, with the pass code exactly when every test passes;
    the console has received the report and nothing else: the number of tests,
    the tests in order up to the first failure with the location of the panic, or
    all of them and the count of those passed.  On the host the same report goes
    to standard error and the process exits with 0 when all pass; otherwise the
    panic leaves the runner before the location would be printed. *)
Theorem runner_verdict location ts h p :
  location_ok location → Z.of_nat (length ts) < 2 ^ 64 →
  run_tests location ((λ t, unit_test t.1 t.2) <$> ts) h =
    Spin (riscv64.finish (all_pass ts) (riscv64.say (report location ts) h)) ∧
  let r := runner (T := host_target) ((λ t, unit_test t.1 t.2) <$> ts) p in
  if all_pass ts then r = Spin (mkProcess (stderr p ++ report location ts) (Some 0))
  else ∃ p', r = Panic "assertion failed" p' ∧ exit_code p' = exit_code p ∧
    stderr p ++ report location ts = stderr p' ++ failed_at location.
Proof.
  intros Hl Hn. pose proof (runner_run location ts h Hn) as Hb. pose proof (runner_run location ts p Hn) as Hh.
  cbn zeta in *. unfold run_tests. destruct (all_pass ts).
  - by rewrite Hb.
  - destruct Hb as (h' & -> & Hs). split.
    + rewrite test_panic_handler_run by done. simpl in *. by rewrite Hs.
    + destruct Hh as (p' & Hr & Hs'). exists p'. split; [done|]. simpl in Hs'. by injection Hs' as -> ->.
Qed.

Lemma runner_verdict_witness :
  ∃ h', run_tests (Some ("tests.rs"%string, 12))
      ((λ t, unit_test t.1 t.2) <$> [("a"%string, true); ("b"%string, false); ("c"%string, true)]) hw_reset
      = Spin h' ∧ head (trace h') = Some (Wr32 0x100000 0x13333).
Proof.
  eexists. split.
  - apply (runner_verdict (Some ("tests.rs"%string, 12))
      [("a"%string, true); ("b"%string, false); ("c"%string, true)] hw_reset (mkProcess [] None));
      [split; vm_compute; congruence|reflexivity].
  - reflexivity.
Defined.
