(* ===== verification/HostTests.v ===== *)
(** The host unit tests: [cyptos-test/src/lib.rs], lines 146 to 318, and the tests
    of [sched/policy.rs].

    The kernel crate does not build on the host, so the first group tests copies
    of kernel code: [napot_addr], the [repr(C)] structure [TaskContext] and the
    enumeration [TaskState].  The attribute macro of [cyptos-test-macros] is here
    too.  The tests say something about the kernel only as
    far as the copies agree with it; that is what is proved here, besides that
    the suite passes. *)

From S2P Require Import Prelude Config Machine Serial PmpHw Linker Pmp PmpAccess Registers Policy Task Asm.

Local Open Scope Z_scope.

(** ** Tests *)

Section assertions.
Context {S : Type}.

Definition assert_eq {A} `{EqDecision A} (l r : A) : M S unit :=
  rassert (bool_decide (l = r)) "assertion `left == right` failed".
End assertions.

(** A test of the host harness: it passes when it returns or, under
    [#[should_panic]], when it panics. *)
Record HostTest := mkHostTest { test_name : string; should_panic : bool; test_body : M unit unit }.

Definition passes (t : HostTest) : bool :=
  match test_body t tt with
  | Ok _ _ => negb (should_panic t)
  | Panic _ _ => should_panic t
  | Spin _ => false
  end.

(** ** [mod pmp_tests] *)

Module pmp_tests.
Section tests.
Context `{E : Env}.

Definition napot_addr {S} (base size : Z) : M S Z :=
  rassert (is_power_of_two size && (8 <=? size)) "assertion failed: size.is_power_of_two() && size >= 8";;
  half ← sub_u64 (size / 2) 1;
  sum ← add_u64 base half;
  mret (Z.shiftr sum 2).

(** [(base + (size / 2 - 1)) >> 2], the expression of the expected values. *)
Definition expected (base size : Z) : M unit Z :=
  half ← sub_u64 (size / 2) 1;
  sum ← add_u64 base half;
  mret (Z.shiftr sum 2).

Definition test_napot_addr_basic : M unit unit :=
  expected ← expected 0x80200000 0x10000;
  a ← napot_addr 0x80200000 0x10000;
  assert_eq a expected.

Definition test_napot_addr_8byte : M unit unit :=
  sum ← add_u64 0x1000 3;
  let expected := Z.shiftr sum 2 in
  a ← napot_addr 0x1000 8;
  assert_eq a expected.

Definition test_napot_addr_aligned : M unit unit :=
  let base := 0x1000 in
  let size := 0x1000 in
  expected ← expected base size;
  a ← napot_addr base size;
  assert_eq a expected.

Definition test_napot_addr_large_region : M unit unit :=
  let base := 0x80000000 in
  let size := 0x01000000 in
  expected ← expected base size;
  a ← napot_addr base size;
  assert_eq a expected.

Definition test_napot_addr_non_power_of_two_panics : M unit unit :=
  napot_addr 0x1000 12;; mret tt.

Definition test_napot_addr_too_small_panics : M unit unit :=
  napot_addr 0x1000 4;; mret tt.

Definition test_napot_addr_one_megabyte : M unit unit :=
  let base := 0x40000000 in
  let size := 0x100000 in
  expected ← expected base size;
  a ← napot_addr base size;
  assert_eq a expected.

Definition suite : list HostTest := [
  mkHostTest "test_napot_addr_basic" false test_napot_addr_basic;
  mkHostTest "test_napot_addr_8byte" false test_napot_addr_8byte;
  mkHostTest "test_napot_addr_aligned" false test_napot_addr_aligned;
  mkHostTest "test_napot_addr_large_region" false test_napot_addr_large_region;
  mkHostTest "test_napot_addr_non_power_of_two_panics" true test_napot_addr_non_power_of_two_panics;
  mkHostTest "test_napot_addr_too_small_panics" true test_napot_addr_too_small_panics;
  mkHostTest "test_napot_addr_one_megabyte" false test_napot_addr_one_megabyte].
End tests.
End pmp_tests.

(** ** The layout of [repr(C)] structures *)

(** A scalar type: its size, which is also its alignment. *)
Definition scalar : Type := Z.
Definition u64_scalar : scalar := 8.

(** Fields in order, each at the next multiple of its alignment. *)
Fixpoint place (off : Z) (fields : list (string * scalar)) : list (string * Z) :=
  match fields with
  | [] => []
  | (name, sz) :: rest => let at_ := align_up off sz in (name, at_) :: place (at_ + sz) rest
  end.

Definition offset_of (fields : list (string * scalar)) (name : string) : option Z :=
  match list_find (λ p, p.1 = name) (place 0 fields) with
  | Some (_, (_, off)) => Some off
  | None => None
  end.

(** The end of the last field, rounded up to the largest alignment. *)
Definition size_of (fields : list (string * scalar)) : Z :=
  let last := match rev (combine (place 0 fields) fields) with
              | ((_, off), (_, sz)) :: _ => off + sz
              | [] => 0
              end in
  align_up last (foldr Z.max 1 (snd <$> fields)).

(** ** [mod task_tests] *)

Module task_tests.
(** The copy of [TaskContext]: thirty-three [u64] fields. *)
Definition TaskContext : list (string * scalar) := (λ name, (name, u64_scalar)) <$>
  ["ra"; "t0"; "t1"; "t2"; "t3"; "t4"; "t5"; "t6"; "a0"; "a1"; "a2"; "a3"; "a4"; "a5"; "a6"; "a7";
   "s0"; "s1"; "s2"; "s3"; "s4"; "s5"; "s6"; "s7"; "s8"; "s9"; "s10"; "s11"; "gp"; "tp"; "sp";
   "mepc"; "mstatus"].

Inductive TaskState := Created | Ready | Running | Dead.

#[export] Instance TaskState_eq_dec : EqDecision TaskState.
Proof. solve_decision. Defined.

Definition test_task_context_size : M unit unit := assert_eq (size_of TaskContext) 264.
Definition test_task_context_mepc_offset : M unit unit := assert_eq (offset_of TaskContext "mepc") (Some 248).
Definition test_task_context_mstatus_offset : M unit unit := assert_eq (offset_of TaskContext "mstatus") (Some 256).
Definition test_task_context_sp_offset : M unit unit := assert_eq (offset_of TaskContext "sp") (Some 240).
Definition test_task_context_ra_offset : M unit unit := assert_eq (offset_of TaskContext "ra") (Some 0).

(** [let mut state = a; assert_eq!(state, a); state = b; assert_eq!(state, b)]. *)
Definition state_test (a b : TaskState) : M unit unit :=
  let state := a in
  assert_eq state a;;
  let state := b in
  assert_eq state b.

Definition test_task_state_created_to_ready : M unit unit := state_test Created Ready.
Definition test_task_state_ready_to_running : M unit unit := state_test Ready Running.
Definition test_task_state_running_to_dead : M unit unit := state_test Running Dead.
Definition test_task_state_running_to_ready : M unit unit := state_test Running Ready.

Definition suite : list HostTest := [
  mkHostTest "test_task_context_size" false test_task_context_size;
  mkHostTest "test_task_context_mepc_offset" false test_task_context_mepc_offset;
  mkHostTest "test_task_context_mstatus_offset" false test_task_context_mstatus_offset;
  mkHostTest "test_task_context_sp_offset" false test_task_context_sp_offset;
  mkHostTest "test_task_context_ra_offset" false test_task_context_ra_offset;
  mkHostTest "test_task_state_created_to_ready" false test_task_state_created_to_ready;
  mkHostTest "test_task_state_ready_to_running" false test_task_state_ready_to_running;
  mkHostTest "test_task_state_running_to_dead" false test_task_state_running_to_dead;
  mkHostTest "test_task_state_running_to_ready" false test_task_state_running_to_ready].
End task_tests.

(** ** [mod tests] of the policy *)

Module policy_tests.
(** [|idx| ready[idx]]; the policy asks for slots of the table only. *)
Definition slots (ready : list bool) (idx : nat) : bool := default false (ready !! idx).

Definition bootstrap_dispatches_first_normal_task : M unit unit :=
  let current := None in
  let ready := [true; true; false; false] in
  assert_eq current (None : option nat);;
  assert_eq (select_next_ready 4 current (slots ready)) (Some 1%nat).

Definition bootstrap_uses_idle_only_as_fallback : M unit unit :=
  let ready := [true; false; false; false] in
  assert_eq (select_next_ready 4 None (slots ready)) (Some IDLE_TASK_INDEX).

Definition idle_is_skipped_during_normal_round_robin : M unit unit :=
  let ready := [true; true; false; true] in
  assert_eq (select_next_ready 4 (Some 3%nat) (slots ready)) (Some 1%nat).

Definition idle_is_selected_only_as_fallback : M unit unit :=
  let ready := [true; false; false; false] in
  assert_eq (select_next_ready 4 (Some 2%nat) (slots ready)) (Some IDLE_TASK_INDEX).

Definition no_ready_task_returns_none : M unit unit :=
  assert_eq (select_next_ready 4 (Some 1%nat) (λ _, false)) None.

Definition suite : list HostTest := [
  mkHostTest "bootstrap_dispatches_first_normal_task" false bootstrap_dispatches_first_normal_task;
  mkHostTest "bootstrap_uses_idle_only_as_fallback" false bootstrap_uses_idle_only_as_fallback;
  mkHostTest "idle_is_skipped_during_normal_round_robin" false idle_is_skipped_during_normal_round_robin;
  mkHostTest "idle_is_selected_only_as_fallback" false idle_is_selected_only_as_fallback;
  mkHostTest "no_ready_task_returns_none" false no_ready_task_returns_none].
End policy_tests.

(** ** [#[cyptos_test]] *)

(** The attribute macro of [cyptos-test-macros/src/lib.rs]: two conditional
    attributes before the function. *)
Module macros.
Inductive attribute :=
| test | test_case | other (name : string)
| cfg_attr (on_riscv64 : bool) (a : attribute).

(** On the attributes of the function; the function itself is passed on. *)
Definition cyptos_test (input : list attribute) : list attribute :=
  cfg_attr false test :: cfg_attr true test_case :: input.

(** What the compiler makes of the attributes for a target. *)
Definition configured (riscv64 : bool) (a : attribute) : option attribute :=
  match a with
  | cfg_attr on a => if Bool.eqb on riscv64 then Some a else None
  | a => Some a
  end.

(** A test function becomes a test of the host, or one of the bare-metal runner. *)
Lemma cyptos_test_attrs riscv64 input :
  omap (configured riscv64) (cyptos_test input) =
    (if riscv64 then test_case else test) :: omap (configured riscv64) input.
Proof. by destruct riscv64. Qed.
End macros.

(** ** Copies and originals *)

(** [const _: () = assert!(size_of::<TrapFrame>() == 248)] of trap.rs. *)
Definition TrapFrame_layout : list (string * scalar) := (λ name, (name, u64_scalar)) <$>
  ["ra"; "t0"; "t1"; "t2"; "t3"; "t4"; "t5"; "t6"; "a0"; "a1"; "a2"; "a3"; "a4"; "a5"; "a6"; "a7";
   "s0"; "s1"; "s2"; "s3"; "s4"; "s5"; "s6"; "s7"; "s8"; "s9"; "s10"; "s11"; "gp"; "tp"; "sp"].
Definition assert_trap_frame_size : bool := size_of TrapFrame_layout =? 248.

(** The kernel's structure, field by field under the names of the copy. *)
Definition context_fields : list (string * (TaskContext.t → Z)) := [
  ("ra", TaskContext.ra); ("t0", TaskContext.t0); ("t1", TaskContext.t1); ("t2", TaskContext.t2);
  ("t3", TaskContext.t3); ("t4", TaskContext.t4); ("t5", TaskContext.t5); ("t6", TaskContext.t6);
  ("a0", TaskContext.a0); ("a1", TaskContext.a1); ("a2", TaskContext.a2); ("a3", TaskContext.a3);
  ("a4", TaskContext.a4); ("a5", TaskContext.a5); ("a6", TaskContext.a6); ("a7", TaskContext.a7);
  ("s0", TaskContext.s0); ("s1", TaskContext.s1); ("s2", TaskContext.s2); ("s3", TaskContext.s3);
  ("s4", TaskContext.s4); ("s5", TaskContext.s5); ("s6", TaskContext.s6); ("s7", TaskContext.s7);
  ("s8", TaskContext.s8); ("s9", TaskContext.s9); ("s10", TaskContext.s10); ("s11", TaskContext.s11);
  ("gp", TaskContext.gp); ("tp", TaskContext.tp); ("sp", TaskContext.sp);
  ("mepc", TaskContext.mepc); ("mstatus", TaskContext.mstatus)].

(** Equal results; panics may differ in their message. *)
Definition same_result {S A} (r1 r2 : Res S A) : Prop :=
  match r1, r2 with
  | Ok a s, Ok b s' => a = b ∧ s = s'
  | Panic _ s, Panic _ s' => s = s'
  | Spin s, Spin s' => s = s'
  | _, _ => False
  end.

(** A word of a context in memory, by its position. *)
Lemma context_word a m c i v :
  context_in a m c → TaskContext.to_list c !! i = Some v → load64 (a + 8 * Z.of_nat i) m = v.
Proof.
  unfold context_in, words. intros <-. rewrite list_lookup_fmap.
  intros (j & Hj & ->)%fmap_Some. apply lookup_seq in Hj as [-> _]. done.
Qed.

(** The offsets of the copy are those at which the assembly of [trap.rs] keeps a
    context. *)
Lemma layout_agrees a m c name f :
  context_in a m c → (name, f) ∈ context_fields →
  ∃ off, offset_of task_tests.TaskContext name = Some off ∧ load64 (a + off) m = f c.
Proof.
  intros Hc Hin. apply list_elem_of_lookup in Hin as [i Hi].
  assert (i < 33)%nat as Hlt by (apply lookup_lt_Some in Hi; exact Hi).
  exists (8 * Z.of_nat i). split.
  - do 33 (destruct i as [|i]; [by injection Hi as <- _; vm_compute|]). lia.
  - apply (context_word a m c i); [done|]. do 33 (destruct i as [|i]; [by injection Hi as _ <-|]). lia.
Qed.

Lemma same_result_refl {S A} (r : Res S A) : same_result r r.
Proof. by destruct r. Qed.

Section napot.
Context `{E : Env}.

Lemma napot_copy b sz fl (h : Hw) :
  debug_build = true ∨ is_power_of_two sz && (8 <=? sz) = true →
  same_result (pmp_tests.napot_addr b sz h) (napot_addr (mkPmpRegion b sz fl) h).
Proof.
  unfold pmp_tests.napot_addr, napot_addr, debug_assert. cbn [size base].
  destruct (is_power_of_two sz && (8 <=? sz)); intros H.
  - destruct debug_build; apply same_result_refl.
  - destruct H as [->|]; done.
Qed.

Lemma checked_release w op v (h : Hw) : debug_build = false → ∃ a, checked w op v h = Ok a h.
Proof. intros Hd. unfold checked. rewrite Hd. destruct (_ && _); by eexists. Qed.

Lemma napot_release r (h : Hw) : debug_build = false → ∃ a, napot_addr r h = Ok a h.
Proof.
  intros Hd. unfold napot_addr, debug_assert. rewrite Hd. erewrite bind_Ok by reflexivity.
  destruct (checked_release 64 "subtract" (size r / 2 - 1) h Hd) as [x Hx]. erewrite bind_Ok by exact Hx.
  destruct (checked_release 64 "add" (base r + x) h Hd) as [y Hy]. erewrite bind_Ok by exact Hy.
  by eexists.
Qed.
End napot.

(** ** Properties *)

(** C38: the host tests are about the kernel.  In both build profiles every test
    passes.  The tested copy of [napot_addr] computes what the kernel's computes:
    always in a dev build, and for every size it accepts in a release build,
    where the kernel's own check is compiled out and any size is encoded.  The
    tested layout of [TaskContext] is the one in which the assembly keeps a
    context in memory: each field is found at its offset; the compile-time
    assertion on the size of the trap frame holds. *)
Theorem host_tests_faithful `{E : Env} :
  assert_trap_frame_size = true ∧
  forallb passes (pmp_tests.suite ++ task_tests.suite ++ policy_tests.suite) = true ∧
  (∀ b sz fl (h : Hw), debug_build = true ∨ is_power_of_two sz && (8 <=? sz) = true →
     same_result (pmp_tests.napot_addr b sz h) (napot_addr (mkPmpRegion b sz fl) h)) ∧
  (debug_build = false → ∀ b sz fl (h : Hw), ∃ a, napot_addr (mkPmpRegion b sz fl) h = Ok a h) ∧
  (∀ a m c name f, context_in a m c → (name, f) ∈ context_fields →
     ∃ off, offset_of task_tests.TaskContext name = Some off ∧ load64 (a + off) m = f c).
Proof.
  do 2 (split; [vm_compute; reflexivity|]). split; [apply napot_copy|].
  split; [intros Hd b sz fl h; by apply napot_release|apply layout_agrees].
Qed.
