(* ===== verification/Widths.v ===== *)
(** Machine widths: every integer of the model fits the Rust type it stands for.

    The sources use [u64], [usize], [u8] and fixed-size arrays; the model uses
    [Z] and lists.  [Class Typed] gives the states whose integers fit and whose
    arrays have their length, and [keeps V m] says that the computation [m] never
    leaves these states, however it ends (value, panic or endless poll), and
    returns a value in [V].  The rules, one per construct of the monad, are in
    the hint database [widths]; the operations of the kernel follow from them. *)

From S2P Require Import Prelude Config Machine Serial PmpHw Linker Pmp PmpAccess Sync Timer.
From S2P Require Import Allocator Registers Policy Task Kernel Scheduler SchedulerProps TaskSpec.
From S2P Require Import Trap Boot.

Local Open Scope Z_scope.

#[local] Arguments csr_get : simpl never.
#[local] Arguments csr_put : simpl never.

(** The rules of the calculus. *)
Create HintDb widths.

(** ** Typed states and computations *)

Class Typed (S : Type) := typed : S → Prop.

Definition keeps {S A} `{T : Typed S} (V : A → Prop) (m : M S A) : Prop := ∀ s, typed s →
  match m s with Ok a s' => V a ∧ typed s' | Panic _ s' | Spin s' => typed s' end.

(** A value with nothing to check. *)
Definition any {A} (_ : A) : Prop := True.

Section rules.
Context {S : Type} `{T : Typed S}.

Lemma keeps_ret {A} (V : A → Prop) a : V a → keeps V (mret a).
Proof. intros Ha s Hs. by split. Qed.

Lemma keeps_bind {A B} (V : A → Prop) (V' : B → Prop) m (k : A → M S B) :
  keeps V m → (∀ a, V a → keeps V' (k a)) → keeps V' (m ≫= k).
Proof.
  intros Hm Hk s Hs. specialize (Hm s Hs). unfold mbind, M_bind.
  destruct (m s) as [a s'|e s'|s']; [|done..]. destruct Hm as [Ha Hs']. by apply Hk.
Qed.

Lemma keeps_mono {A} (V V' : A → Prop) m : keeps V m → (∀ a, V a → V' a) → keeps V' m.
Proof.
  intros Hm HV s Hs. specialize (Hm s Hs). destruct (m s); naive_solver.
Qed.

Lemma keeps_any {A} (V : A → Prop) m : keeps V m → keeps any m.
Proof. intros Hm. by eapply keeps_mono. Qed.

Lemma keeps_panic {A} (V : A → Prop) msg : keeps V (panic msg).
Proof. by intros s Hs. Qed.

Lemma keeps_spin {A} (V : A → Prop) : keeps V spin.
Proof. by intros s Hs. Qed.

Lemma keeps_gets {A} (V : A → Prop) (f : S → A) : (∀ s, typed s → V (f s)) → keeps V (gets f).
Proof. intros Hf s Hs. split; [by apply Hf|done]. Qed.

Lemma keeps_modify V (f : S → S) : (∀ s, typed s → typed (f s)) → V tt → keeps V (modify f).
Proof. intros Hf HV s Hs. split; [done|by apply Hf]. Qed.

Lemma keeps_rassert V b msg : V tt → keeps V (rassert b msg).
Proof. intros HV. destruct b; [by apply keeps_ret|apply keeps_panic]. Qed.

Lemma keeps_for_each {A B} (V : A → Prop) (P : B → Prop) l acc (body : A → B → M S A) :
  V acc → Forall P l → (∀ a x, V a → P x → keeps V (body a x)) → keeps V (for_each l acc body).
Proof.
  intros Hacc Hl Hbody. revert acc Hacc. induction Hl as [|x l Hx Hl IH]; intros acc Hacc; simpl.
  - by apply keeps_ret.
  - eapply keeps_bind; [by apply Hbody|]. auto.
Qed.

Context `{E : Env}.

Lemma keeps_checked w op v : 0 ≤ w → keeps (in_width w) (checked w op v).
Proof.
  intros Hw. unfold checked.
  destruct (Z.leb_spec 0 v), (Z.ltb_spec v (2 ^ w)); simpl; [by apply keeps_ret|..];
    (destruct debug_build; [apply keeps_panic|by apply keeps_ret, in_width_mod]).
Qed.

Lemma keeps_add_u64 a b : keeps u64 (add_u64 a b).
Proof. by apply keeps_checked. Qed.
Lemma keeps_sub_u64 a b : keeps u64 (sub_u64 a b).
Proof. by apply keeps_checked. Qed.
Lemma keeps_mul_u64 a b : keeps u64 (mul_u64 a b).
Proof. by apply keeps_checked. Qed.

Lemma keeps_debug_assert b msg : keeps any (debug_assert b msg).
Proof. unfold debug_assert. destruct debug_build; [by apply keeps_rassert|by apply keeps_ret]. Qed.
End rules.

#[export] Hint Resolve keeps_panic keeps_spin keeps_add_u64 keeps_sub_u64 keeps_mul_u64
  keeps_debug_assert : widths.
#[export] Hint Resolve in_width_mod : widths.
#[export] Hint Extern 1 (any _) => exact I : widths.
#[export] Hint Extern 5 (in_width _ _) => (split; vm_compute; congruence) : widths.

(** One rule of the monad at a time: a computation with a known law is closed by
    the database, a branch is split. *)
Ltac keeps_step :=
  lazymatch goal with
  | |- keeps _ (if ?b then _ else _) => destruct b
  | |- keeps _ (match ?x with Some _ => _ | None => _ end) => destruct x
  | |- keeps _ (mret _) => apply keeps_ret
  | |- keeps _ (let '(_, _) := ?x in _) => destruct x
  | |- keeps _ (mbind _ _) => eapply keeps_bind; [solve [eauto with widths]|intros ? ?]
  | |- keeps any _ => first [solve [eauto with widths]|eapply keeps_any; solve [eauto with widths]]
  | |- keeps _ _ => solve [eauto with widths]
  end.
Ltac keeps_auto := repeat keeps_step; eauto with widths.

(** ** The hardware *)

Definition event_typed (e : mmio_event) : Prop :=
  match e with
  | Rd8 a v | Wr8 a v => u64 a ∧ u8 v
  | Wr32 a v => u64 a ∧ in_width 32 v
  | Rd64 a v | Wr64 a v => u64 a ∧ u64 v
  end.

Record hw_typed (h : Hw) : Prop := {
  ht_csrs : ∀ c, u64 (csr_get c (csrs h));
  ht_pmp : pmp_wf (pmp h);
  ht_addrs : Forall (in_width 54) (pmpaddr (pmp h));
  ht_trace : Forall event_typed (trace h);
}.

#[export] Instance Typed_Hw : Typed Hw := hw_typed.

Lemma hw_typed_csr c v h : u64 v → hw_typed h → hw_typed (hw_set_csrs (csr_put c v (csrs h)) h).
Proof.
  intros Hv [Hc ? ? ?]. constructor; try done. intros c'. cbn [csrs hw_set_csrs].
  destruct (decide (c' = c)) as [->|Hne]; [by rewrite csr_get_put_eq|by rewrite csr_get_put_ne].
Qed.

Lemma hw_typed_pmp p h : pmp_wf p → Forall (in_width 54) (pmpaddr p) → hw_typed h → hw_typed (hw_set_pmp p h).
Proof. intros ? ? [? ? ? ?]. by constructor. Qed.

Lemma hw_typed_event e n h :
  event_typed e → hw_typed h → hw_typed (mkHw (csrs h) (pmp h) n (e :: trace h)).
Proof. intros ? [? ? ? ?]. constructor; try done. by constructor. Qed.

Lemma keeps_csr_read c : keeps u64 (csr_read c).
Proof. apply keeps_gets. intros h Hh. apply Hh. Qed.

Lemma keeps_csr_write c v : u64 v → keeps any (csr_write c v).
Proof. intros Hv. apply keeps_modify; [|done]. intros h. by apply hw_typed_csr. Qed.

Lemma keeps_csr_set_bits c v : u64 v → keeps any (csr_set_bits c v).
Proof.
  intros Hv. apply keeps_modify; [|done]. intros h Hh. apply hw_typed_csr; [|done].
  apply in_width_lor; [done|apply Hh|done].
Qed.

Lemma keeps_csr_clear_bits c v : keeps any (csr_clear_bits c v).
Proof.
  apply keeps_modify; [|done]. intros h Hh. apply hw_typed_csr; [|done].
  apply in_width_ldiff; [done|apply Hh].
Qed.

#[export] Hint Resolve keeps_csr_read keeps_csr_write keeps_csr_set_bits keeps_csr_clear_bits : widths.

Section mmio_laws.
Context `{E : Env}.

Lemma keeps_read_u8 a : u64 a → keeps u8 (read_volatile_u8 a).
Proof.
  intros Ha h Hh. split; [by apply in_width_mod|]. apply hw_typed_event; [|done].
  split; [done|by apply in_width_mod].
Qed.

Lemma keeps_read_u64 a : u64 a → keeps u64 (read_volatile_u64 a).
Proof.
  intros Ha h Hh. split; [by apply in_width_mod|]. apply hw_typed_event; [|done].
  split; [done|by apply in_width_mod].
Qed.

Lemma keeps_write_u8 a v : u64 a → u8 v → keeps any (write_volatile_u8 a v).
Proof. intros ? ?. apply keeps_modify; [|done]. intros h. by apply hw_typed_event. Qed.

Lemma keeps_write_u64 a v : u64 a → u64 v → keeps any (write_volatile_u64 a v).
Proof. intros ? ?. apply keeps_modify; [|done]. intros h. by apply hw_typed_event. Qed.
End mmio_laws.

#[export] Hint Resolve keeps_read_u8 keeps_read_u64 keeps_write_u8 keeps_write_u64 : widths.

(** ** The console *)

Lemma bytes_of_string_u8 s : Forall u8 (bytes_of_string s).
Proof.
  apply Forall_fmap, Forall_true. intros a. pose proof (Ascii.N_ascii_bounded a). split; simpl; lia.
Qed.

Lemma hex_char_u8 d : 0 ≤ d < 16 → u8 (hex_char d).
Proof. unfold hex_char. intros. case_bool; split; simpl; lia. Qed.

Lemma dec_bytes_u8 n : Forall u8 (dec_bytes n).
Proof.
  unfold dec_bytes. destruct (n =? 0); [repeat constructor; vm_compute; congruence|].
  apply Forall_fmap, Forall_rev. eapply Forall_impl; [by apply digits_rev_range|].
  intros d Hd. split; simpl in *; lia.
Qed.

Lemma hex_bytes_u8 n : Forall u8 (hex_bytes n).
Proof.
  unfold hex_bytes. destruct (n =? 0); [repeat constructor; vm_compute; congruence|].
  apply Forall_fmap, Forall_rev. eapply Forall_impl; [by apply digits_rev_range|].
  intros d Hd. by apply hex_char_u8.
Qed.

Lemma render_u8 p : Forall u8 (render p).
Proof.
  destruct p; [apply bytes_of_string_u8|apply dec_bytes_u8|].
  unfold render. apply Forall_app. split; [apply bytes_of_string_u8|apply hex_bytes_u8].
Qed.

#[export] Hint Resolve bytes_of_string_u8 dec_bytes_u8 hex_bytes_u8 render_u8 : widths.

(** What a backend promises about widths. *)
Class SerialTyped (B : SerialBackend) : Prop := {
  keeps_s_init : keeps any s_init;
  keeps_s_putc : ∀ c, u8 c → keeps any (s_putc c);
  keeps_s_puts : ∀ s, Forall u8 s → keeps any (s_puts s);
  keeps_s_put_dec : ∀ n, u64 n → keeps any (s_put_dec n);
  keeps_s_put_hex : ∀ n, u64 n → keeps any (s_put_hex n);
  keeps_s_getc : keeps u8 s_getc;
  keeps_s_try_getc : keeps (λ o, ∀ c, o = Some c → u8 c) s_try_getc;
}.
#[export] Hint Resolve keeps_s_init keeps_s_putc keeps_s_puts keeps_s_put_dec keeps_s_put_hex
  keeps_s_getc keeps_s_try_getc : widths.

Section uart.
Context `{E : Env}.
Import uart16550.

Lemma keeps_wait_lsr fuel mask : keeps any (wait_lsr fuel mask).
Proof. induction fuel as [|f IH]; simpl; keeps_auto. Qed.

Lemma keeps_putc c : u8 c → keeps any (putc c).
Proof. intros. unfold putc. eapply keeps_bind; [apply keeps_wait_lsr|intros]. keeps_auto. Qed.

Lemma keeps_puts s : Forall u8 s → keeps any (puts s).
Proof.
  induction 1 as [|c s Hc Hs IH]; simpl; [by apply keeps_ret|].
  eapply keeps_bind with any; [destruct (c =? 10); [|by apply keeps_ret]|intros];
    [apply keeps_putc; split; vm_compute; congruence|].
  eapply keeps_bind; [by apply keeps_putc|]. auto.
Qed.

(** The digit loops: the buffer holds bytes. *)
Lemma keeps_fill fuel digit next n buf idx :
  (∀ m, u8 (digit m)) → Forall u8 buf → keeps (λ r, Forall u8 r.1) (fill fuel digit next n buf idx).
Proof.
  intros Hd. revert n buf idx. induction fuel as [|f IH]; intros n buf idx Hb; simpl; [keeps_auto|].
  destruct (0 <? n); [|by apply keeps_ret]. destruct (idx <? length buf)%nat; [|keeps_auto].
  apply IH. by apply Forall_insert.
Qed.

Lemma keeps_drain buf idx : Forall u8 buf → keeps any (drain buf idx).
Proof.
  intros Hb. induction idx as [|i IH]; simpl; [by apply keeps_ret|].
  destruct (buf !! i) as [c|] eqn:Hc; [|keeps_auto].
  eapply keeps_bind; [apply keeps_putc; by eapply Forall_lookup_1|]. auto.
Qed.

Lemma zeros_u8 n : Forall u8 (replicate n 0).
Proof. apply Forall_replicate. split; vm_compute; congruence. Qed.

Lemma keeps_digits fuel digit next n len :
  (∀ m, u8 (digit m)) →
  keeps any ('(buf, idx) ← fill fuel digit next n (replicate len 0) 0; drain buf idx).
Proof.
  intros Hd. eapply keeps_bind; [apply keeps_fill; [done|apply zeros_u8]|].
  intros [buf idx] Hb. by apply keeps_drain.
Qed.

#[export] Instance uart16550_typed : SerialTyped uart16550_backend.
Proof.
  constructor; cbn [s_init s_putc s_puts s_put_dec s_put_hex s_getc s_try_getc uart16550_backend].
  - unfold init. keeps_auto.
  - apply keeps_putc.
  - apply keeps_puts.
  - intros n Hn. unfold put_dec.
    destruct (n =? 0); [apply keeps_putc; split; vm_compute; congruence|].
    apply keeps_digits. intros m. pose proof (Z.mod_pos_bound m 10). split; simpl; lia.
  - intros n Hn. unfold put_hex.
    eapply keeps_bind; [apply keeps_puts, bytes_of_string_u8|intros].
    destruct (n =? 0); [apply keeps_putc; split; vm_compute; congruence|].
    apply keeps_digits. intros m. apply hex_char_u8. change 15 with (Z.ones 4).
    rewrite Z.land_ones by lia. apply Z.mod_pos_bound. lia.
  - unfold getc. eapply keeps_bind; [apply keeps_wait_lsr|intros]. keeps_auto.
  - unfold try_getc. keeps_step. destruct (_ =? 0); [by apply keeps_ret|]. keeps_step.
    apply keeps_ret. by intros c [= <-].
Qed.
End uart.

Section print_laws.
Context `{B : SerialBackend} `{ST : !SerialTyped B}.

Lemma keeps_fmt_write ps : keeps any (fmt_write ps).
Proof.
  induction ps as [|p ps IH]; simpl; [by apply keeps_ret|].
  eapply keeps_bind with any; [unfold write_str; keeps_auto|]. intros [] _; [done|by apply keeps_ret].
Qed.

Lemma keeps_println ps : keeps any (println ps).
Proof.
  unfold println, print, write_fmt. eapply keeps_bind; [apply keeps_fmt_write|]. intros ok _. keeps_auto.
Qed.

Lemma keeps_puts_str s : keeps any (puts_str s).
Proof. apply keeps_s_puts, bytes_of_string_u8. Qed.
End print_laws.

#[export] Hint Resolve keeps_println keeps_puts_str : widths.

(** ** The PMP driver *)

Record region_typed (r : PmpRegion) : Prop := {
  rt_base : u64 (base r);
  rt_size : u64 (size r);
  rt_flags : u8 (rflags r);
}.

Lemma no_region_typed : region_typed no_region.
Proof. constructor; split; vm_compute; congruence. Qed.

Lemma pmpcfg_csrw_addr first v p : pmpaddr (pmpcfg_csrw first v p) = pmpaddr p.
Proof. done. Qed.

Lemma keeps_write_cfg first v : keeps any (upd_pmp (pmpcfg_csrw first v)).
Proof.
  apply keeps_modify; [|done]. intros h Hh. apply hw_typed_pmp; [|apply Hh|done].
  apply pmpcfg_csrw_wf, Hh.
Qed.

Lemma keeps_write_pmpaddr idx v : 0 ≤ v → keeps any (write_pmpaddr idx v).
Proof.
  intros Hv. unfold write_pmpaddr. destruct (idx <? 16)%nat; [|apply keeps_panic].
  apply keeps_modify; [|done]. intros h Hh. apply hw_typed_pmp; [apply pmpaddr_csrw_wf, Hh| |done].
  unfold pmpaddr_csrw. destruct (addr_locked _ _); [apply Hh|]. apply Forall_insert; [apply Hh|].
  rewrite Z.land_ones by done. by apply in_width_mod.
Qed.

Lemma keeps_read_cfg (f : list Z → list Z) :
  (∀ l, Forall u8 l → length l = PMP_COUNT → Forall u8 (f l) ∧ length (f l) = 8%nat) →
  keeps u64 (gets (λ h, pack (f (pmpcfg (pmp h))))).
Proof.
  intros Hf. apply keeps_gets. intros h Hh. destruct (ht_pmp _ Hh) as [Hl _ Hb].
  destruct (Hf _ Hb Hl) as [Hb' Hl']. pose proof (pack_width _ Hb') as Hp. by rewrite Hl' in Hp.
Qed.

Lemma keeps_read_pmpcfg0 : keeps u64 read_pmpcfg0.
Proof.
  apply keeps_read_cfg. intros l Hl Hn. split; [by apply Forall_take|]. by rewrite length_take, Hn.
Qed.

Lemma keeps_read_pmpcfg2 : keeps u64 read_pmpcfg2.
Proof.
  apply keeps_read_cfg. intros l Hl Hn. split; [by apply Forall_drop|]. by rewrite length_drop, Hn.
Qed.

#[export] Hint Resolve keeps_write_cfg keeps_write_pmpaddr keeps_read_pmpcfg0 keeps_read_pmpcfg2 : widths.

Section pmp_laws.
Context `{E : Env}.

Lemma keeps_napot_addr {S} `{T : Typed S} r : keeps u64 (napot_addr (St := S) r).
Proof.
  unfold napot_addr. do 3 keeps_step. apply keeps_ret. apply in_width_shiftr; [done|done|].
  by match goal with H : in_width 64 ?x |- in_width 64 ?x => exact H end.
Qed.
#[local] Hint Resolve keeps_napot_addr : widths.

Lemma keeps_load_entry rs acc idx : keeps any (load_entry rs acc idx).
Proof.
  unfold load_entry. destruct acc as [c0 c2]. set (region := match rs !! idx with Some r => r | None => _ end).
  destruct (size region =? 0).
  - eapply keeps_bind; [by apply keeps_write_pmpaddr|intros]. by apply keeps_ret.
  - eapply keeps_bind; [apply keeps_napot_addr|]. intros a [Ha _].
    eapply keeps_bind; [by apply keeps_write_pmpaddr|intros].
    destruct (idx <? 8)%nat; by apply keeps_ret.
Qed.

Lemma keeps_load_task_config rs : keeps any (load_task_config rs).
Proof.
  unfold load_task_config. do 3 keeps_step.
  eapply keeps_bind; [apply keeps_for_each with (V := any) (P := any); [done|by apply Forall_true|]|intros].
  - intros. apply keeps_load_entry.
  - keeps_step. apply keeps_write_cfg.
Qed.

Lemma keeps_set_pmpcfg idx cfg : keeps any (set_pmpcfg idx cfg).
Proof. unfold set_pmpcfg. destruct (idx <? 8)%nat; keeps_step; apply keeps_write_cfg. Qed.

Lemma keeps_clear_all : keeps any clear_all.
Proof.
  unfold clear_all. do 2 keeps_step. apply keeps_for_each with (V := any) (P := any); [done|by apply Forall_true|].
  intros. by apply keeps_write_pmpaddr.
Qed.
#[local] Hint Resolve keeps_set_pmpcfg keeps_clear_all : widths.

Context `{B : SerialBackend} `{ST : !SerialTyped B}.

Lemma keeps_configure_region idx r : keeps any (configure_region idx r).
Proof.
  unfold configure_region. destruct (_ <=? _)%nat; [by apply keeps_ret|].
  destruct (_ || _); [keeps_step; by apply keeps_ret|].
  destruct (negb _); [keeps_step; by apply keeps_ret|].
  eapply keeps_bind; [apply keeps_napot_addr|]. intros a [Ha _].
  eapply keeps_bind; [by apply keeps_write_pmpaddr|intros]. keeps_step. by apply keeps_ret.
Qed.

Lemma keeps_dump_config : keeps any dump_config.
Proof. unfold dump_config. keeps_auto. Qed.

Context `{I : Image} `{IO : !ImageOk I}.

Lemma keeps_init_entry i r : 0 ≤ base r → keeps any (init_entry i r).
Proof.
  intros Hr. unfold init_entry. destruct (_ =? flags.A_TOR).
  - eapply keeps_bind; [by apply keeps_write_pmpaddr, Z.shiftr_nonneg|intros]. keeps_auto.
  - destruct (0 <? size r); [eapply keeps_bind; [apply keeps_configure_region|intros]; by apply keeps_ret|].
    destruct (_ && _); [by apply keeps_write_pmpaddr, Z.shiftr_nonneg|by apply keeps_ret].
Qed.

Lemma symbols_nonneg : 0 ≤ _stext ∧ 0 ≤ _user_text_end ∧ 0 ≤ _eheap.
Proof.
  pose proof text_layout. pose proof data_layout. rewrite _stext_val in *.
  unfold KERNEL_STACK_SIZE, KERNEL_HEAP_SIZE in *. lia.
Qed.

Lemma keeps_pmp_init : keeps any Pmp.init.
Proof.
  unfold Pmp.init. keeps_step. destruct symbols_nonneg as (H1 & H2 & H3).
  eapply keeps_bind; [apply keeps_for_each with (V := any) (P := λ ir, 0 ≤ base ir.2)|intros]; [done| | |keeps_auto].
  - cbn [zip zip_with seq kernel_entry_regions]. by repeat (apply Forall_cons; split).
  - intros _ ir _ Hir. by apply keeps_init_entry.
Qed.
End pmp_laws.

#[export] Hint Resolve keeps_load_task_config keeps_configure_region keeps_clear_all keeps_pmp_init
  keeps_dump_config : widths.

(** ** The timer *)

Section timer_laws.
Context `{E : Env}.

Lemma keeps_us_to_ticks us : keeps u64 (us_to_ticks us).
Proof.
  unfold us_to_ticks. keeps_step. apply keeps_ret.
  match goal with H : in_width 64 ?a |- _ => destruct H as [H0 H1] end.
  split; [by apply Z.div_pos|]. eapply Z.le_lt_trans; [by apply Z.div_le_upper_bound with (q := a); lia|done].
Qed.
#[local] Hint Resolve keeps_us_to_ticks : widths.

Lemma keeps_set_timer_us us : keeps any (set_timer_us us).
Proof.
  unfold set_timer_us, read_mtime, write_mtimecmp. do 3 keeps_step.
  apply keeps_write_u64; [split; vm_compute; congruence|done].
Qed.

Context `{B : SerialBackend} `{ST : !SerialTyped B}.

Lemma keeps_timer_init : keeps any timer_init.
Proof.
  unfold timer_init, clear_timer, write_mtimecmp, enable_timer_interrupt, mie.enable_timer.
  do 2 keeps_step. eapply keeps_bind; [apply keeps_set_timer_us|intros]. keeps_auto.
Qed.
End timer_laws.

#[export] Hint Resolve keeps_set_timer_us keeps_timer_init : widths.

(** ** The allocator *)

Record alloc_typed (a : BumpAllocator) : Prop := {
  at_start : u64 (heap_start a);
  at_end : u64 (heap_end a);
  at_next : u64 (next a);
}.

#[export] Instance Typed_BumpAllocator : Typed BumpAllocator := alloc_typed.

Section alloc_laws.
Context `{E : Env}.

Lemma keeps_bump l c : 0 ≤ l_align l → keeps (λ r, u64 r.1 ∧ u64 r.2) (bump l c).
Proof.
  intros Hl. unfold bump. do 4 keeps_step. apply keeps_ret. split; [|done].
  simpl. apply in_width_land; [done|done|]. unfold not_usize. apply Z.lxor_nonneg.
  split; intros; [|by vm_compute].
  by match goal with H : in_width 64 ?m |- 0 ≤ ?m => apply H end.
Qed.

Lemma keeps_alloc_round l endp c :
  0 ≤ l_align l → keeps (λ r, ∀ p, r = Some p → u64 p) (alloc_round l endp c).
Proof.
  intros Hl. eapply keeps_bind; [by apply keeps_bump|]. intros [al nn] [H1 H2]. simpl in *.
  destruct (endp <? nn); [apply keeps_ret; intros p [= <-]; split; vm_compute; congruence|].
  eapply keeps_bind with any.
  - intros a Ha. unfold compare_exchange. destruct (_ =? c); [|done]. split; [done|].
    constructor; [apply Ha|apply Ha|done].
  - intros [] _; apply keeps_ret; [by intros p [= <-]|done].
Qed.

Lemma keeps_alloc l : 0 ≤ l_align l → keeps u64 (alloc l).
Proof.
  intros Hl. unfold alloc. eapply keeps_bind; [by apply (keeps_gets u64); intros a Ha; apply Ha|intros endp _].
  cbn [alloc_loop]. eapply keeps_bind; [by apply (keeps_gets u64); intros a Ha; apply Ha|intros c _].
  eapply keeps_bind; [by apply keeps_alloc_round|]. intros [p|] Hp; [by apply keeps_ret, Hp|apply keeps_spin].
Qed.

Lemma keeps_bump_init s e : u64 s → u64 e → keeps any (bump_init s e).
Proof. intros ? ?. apply keeps_modify; [|done]. intros a _. by constructor. Qed.
End alloc_laws.

(** ** The kernel *)

Definition frame_typed (f : TrapFrame.t) : Prop := Forall u64 (TrapFrame.to_list f).
Definition context_typed (c : TaskContext.t) : Prop := Forall u64 (TaskContext.to_list c).

(** The types of the fields of [Task]; [regions] is [[PmpRegion; 16]]. *)
Record task_typed (t : Task) : Prop := {
  tt_id : u8 (tid (id t));
  tt_context : context_typed (context t);
  tt_count : length (regions (pmp_config t)) = PMP_COUNT;
  tt_regions : Forall region_typed (regions (pmp_config t));
  tt_bottom : u64 (stack_bottom t);
  tt_top : u64 (stack_top t);
  tt_entry : u64 (entry_point t);
}.

Definition slot_typed (o : option Task) : Prop := ∀ t, o = Some t → task_typed t.

Record kernel_typed (k : Kernel) : Prop := {
  kt_hw : hw_typed (k_hw k);
  kt_alloc : alloc_typed (k_alloc k);
  kt_count : length (tasks (k_sched k)) = MAX_TASKS;
  kt_tasks : Forall slot_typed (tasks (k_sched k));
  kt_current : ∀ c, current (k_sched k) = Some c → (c < MAX_TASKS)%nat;
  kt_ticks : u64 (k_ticks k);
}.

#[export] Instance Typed_Kernel : Typed Kernel := kernel_typed.

Lemma keeps_on_hw {A} (V : A → Prop) m : keeps V m → keeps V (on_hw m).
Proof.
  intros Hm k [Hh ? ? ? ? ?]. specialize (Hm (k_hw k) Hh). unfold on_hw, lift. cbn [hw_of Kernel_HasHw].
  destruct (m (k_hw k)) as [a h|e h|h]; [destruct Hm as [Ha Hh']; split; [done|]|..]; by constructor.
Qed.

Lemma keeps_on_alloc {A} (V : A → Prop) m : keeps V m → keeps V (on_alloc m).
Proof.
  intros Hm k [? Ha ? ? ? ?]. specialize (Hm (k_alloc k) Ha). unfold on_alloc.
  destruct (m (k_alloc k)) as [a s|e s|s]; [destruct Hm as [Hv Hs]; split; [done|]|..]; by constructor.
Qed.

Lemma keeps_with_lock {R} (V : R → Prop) (f : M Kernel R) : keeps V f → keeps V (with_lock f).
Proof.
  intros Hf. unfold with_lock. eapply keeps_bind; [apply (keeps_on_hw u64), keeps_csr_read|intros ms _].
  eapply keeps_bind; [apply (keeps_on_hw any), keeps_csr_clear_bits|intros _ _].
  eapply keeps_bind; [done|]. intros r Hr.
  eapply keeps_bind with any; [destruct (_ =? 0); [by apply keeps_ret|]|intros _ _; by apply keeps_ret].
  apply (keeps_on_hw any), keeps_csr_set_bits. split; vm_compute; congruence.
Qed.

Lemma keeps_task_at i : keeps slot_typed (task_at i).
Proof.
  unfold task_at. eapply keeps_bind.
  - apply (keeps_gets (Forall slot_typed)). intros k Hk. apply Hk.
  - intros ts Hts. destruct (ts !! i) as [slot|] eqn:Hi; [|apply keeps_panic].
    apply keeps_ret. by eapply Forall_lookup_1.
Qed.

Lemma keeps_store_task i slot : slot_typed slot → keeps any (store_task i slot).
Proof.
  intros Hs. unfold store_task. eapply keeps_bind; [apply keeps_task_at|intros _ _].
  apply keeps_modify; [|done]. intros k [? ? Hc Ht ? ?].
  constructor; cbn; [done|done|by rewrite length_insert| |done|done]. by apply Forall_insert.
Qed.

#[export] Hint Resolve keeps_on_hw keeps_on_alloc keeps_with_lock keeps_task_at keeps_store_task : widths.

(** Field updates of a task. *)
Lemma task_typed_state s t : task_typed t → task_typed (set_state s t).
Proof. intros [? ? ? ? ? ? ?]. by constructor. Qed.

Lemma task_typed_context c t : context_typed c → task_typed t → task_typed (set_context c t).
Proof. intros ? [? ? ? ? ? ? ?]. by constructor. Qed.

Lemma slot_typed_Some t : task_typed t → slot_typed (Some t).
Proof. by intros Ht t' [= <-]. Qed.

Lemma context_typed_saved f c mepc mstatus :
  frame_typed f → u64 mepc → u64 mstatus → context_typed (set_ctx_csrs mepc mstatus (copy_frame_to_ctx f c)).
Proof.
  intros Hf He Hm. unfold context_typed. rewrite context_extends_frame.
  apply Forall_app. split; [done|]. by auto.
Qed.

Lemma context_typed_split c f :
  context_typed c →
  frame_typed (copy_ctx_to_frame c f) ∧ u64 (TaskContext.mepc c) ∧ u64 (TaskContext.mstatus c).
Proof.
  unfold context_typed. change (TaskContext.to_list c) with
    (TrapFrame.to_list (copy_ctx_to_frame c f) ++ [TaskContext.mepc c; TaskContext.mstatus c]).
  rewrite Forall_app, !Forall_cons. by intros (? & ? & ? & _).
Qed.

Lemma task_typed_saved f mepc mstatus t :
  frame_typed f → u64 mepc → u64 mstatus → task_typed t → task_typed (save_task f mepc mstatus t).
Proof.
  intros. unfold save_task. set (t' := set_context _ t).
  assert (task_typed t') by (apply task_typed_context; [by apply context_typed_saved|done]).
  destruct (bool_decide _); [by apply task_typed_state|done].
Qed.

#[export] Hint Resolve task_typed_state task_typed_context slot_typed_Some task_typed_saved : widths.

Section kernel_laws.
Context `{E : Env} `{B : SerialBackend} `{ST : !SerialTyped B}.

Lemma keeps_current : keeps (λ o, ∀ c, o = Some c → (c < MAX_TASKS)%nat) (gets (λ k, current (k_sched k))).
Proof. apply keeps_gets. intros k Hk. apply Hk. Qed.

Lemma keeps_set_current c : (c < MAX_TASKS)%nat → keeps any (set_current (Some c)).
Proof.
  intros Hc. apply keeps_modify; [|done]. intros k [? ? ? ? ? ?]. constructor; try done.
  by intros c' [= <-].
Qed.

Lemma small_u64 i : (i < MAX_TASKS)%nat → u64 (Z.of_nat i).
Proof. unfold MAX_TASKS. split; lia. Qed.
#[local] Hint Resolve small_u64 : widths.

(** What [schedule] extracts from the table. *)
Definition target_typed (o : option (nat * list PmpRegion * TaskContext.t)) : Prop :=
  ∀ i rs c, o = Some (i, rs, c) → u64 (Z.of_nat i) ∧ context_typed c.

Lemma keeps_pick f mepc mstatus :
  frame_typed f → u64 mepc → u64 mstatus → keeps target_typed (pick f mepc mstatus).
Proof.
  intros Hf He Hm. unfold pick. eapply keeps_bind; [apply keeps_current|]. intros cur Hcur.
  eapply keeps_bind with any.
  { destruct cur as [c|]; [|by apply keeps_ret]. eapply keeps_bind; [apply keeps_task_at|].
    intros [t|] Ht; [|by apply keeps_ret]. auto 7 with widths. }
  intros _ _. eapply keeps_bind.
  { apply (keeps_gets (λ ts, length ts = MAX_TASKS)). intros k Hk. apply Hk. }
  intros ts Hts. destruct (select_next_ready _ _ _) as [i|] eqn:Hsel; [|by apply keeps_ret].
  assert (i < MAX_TASKS)%nat as Hi.
  { apply (select_is_ready MAX_TASKS) in Hsel; [|done]. unfold is_ready in Hsel. rewrite <- Hts.
    destruct (ts !! i) eqn:Hl; [by eapply lookup_lt_Some|done]. }
  eapply keeps_bind; [apply keeps_task_at|]. intros slot Hslot.
  eapply keeps_bind with any; [destruct slot as [t|]; [auto 6 with widths|by apply keeps_ret]|intros _ _].
  eapply keeps_bind; [by apply keeps_set_current|intros _ _].
  eapply keeps_bind; [apply keeps_task_at|]. intros slot' Hslot'. apply keeps_ret.
  destruct slot' as [t|]; [|done]. intros j rs c [= <- <- <-].
  split; [by apply small_u64|by apply Hslot'].
Qed.

Lemma keeps_schedule f : frame_typed f → keeps frame_typed (schedule f).
Proof.
  intros Hf. unfold schedule.
  eapply keeps_bind; [apply (keeps_on_hw u64), keeps_csr_read|intros mepc He].
  eapply keeps_bind; [apply (keeps_on_hw u64), keeps_csr_read|intros mstatus Hm].
  eapply keeps_bind; [by apply keeps_with_lock, keeps_pick|].
  intros [[[i rs] c]|] Ht; [|by apply keeps_ret].
  destruct (Ht i rs c eq_refl) as [Hi Hc]. destruct (context_typed_split c f Hc) as (Hf' & He' & Hm').
  unfold mepc.write, mstatus.write.
  do 6 (eapply keeps_bind; [apply (keeps_on_hw any); auto with widths|intros _ _]).
  by apply keeps_ret.
Qed.

Lemma keeps_kill_mark : keeps any kill_mark.
Proof.
  unfold kill_mark. eapply keeps_bind; [apply keeps_current|]. intros [c|] Hc; [|by apply keeps_ret].
  eapply keeps_bind; [apply keeps_task_at|]. intros [t|] Ht; [|by apply keeps_ret].
  assert (c < MAX_TASKS)%nat by auto. keeps_auto.
Qed.

Lemma keeps_kill_current f : frame_typed f → keeps frame_typed (kill_current f).
Proof.
  intros Hf. unfold kill_current. eapply keeps_bind; [apply keeps_with_lock, keeps_kill_mark|intros _ _].
  by apply keeps_schedule.
Qed.

Lemma keeps_sched_init : keeps any Scheduler.init.
Proof.
  apply keeps_with_lock, keeps_for_each with (V := any) (P := any); [done|by apply Forall_true|].
  intros _ i _ _. eapply keeps_bind; [apply keeps_task_at|]. intros [t|] Ht; [|by apply keeps_ret].
  destruct (bool_decide _); [auto 6 with widths|by apply keeps_ret].
Qed.

(** ** Traps *)

Lemma frame_typed_set_a0 v f : u64 v → frame_typed f → frame_typed (TrapFrame.set_a0 v f).
Proof.
  intros Hv Hf. unfold frame_typed.
  change (TrapFrame.to_list _) with (<[8%nat := v]> (TrapFrame.to_list f)). by apply Forall_insert.
Qed.

Lemma keeps_panic_exception {A} (V : A → Prop) name mepc mtval : keeps V (panic_exception name mepc mtval).
Proof.
  unfold panic_exception. eapply keeps_bind; [apply (keeps_on_hw any), keeps_println|intros _ _].
  apply keeps_panic.
Qed.

(** A handler branch that prints a line and returns the frame. *)
Lemma keeps_report ps f : frame_typed f → keeps frame_typed (on_hw (println ps);; mret f).
Proof.
  intros Hf. eapply keeps_bind; [apply (keeps_on_hw any), keeps_println|intros _ _]. by apply keeps_ret.
Qed.

Lemma keeps_skip mepc f : frame_typed f → keeps frame_typed (skip_instruction mepc;; mret f).
Proof.
  intros Hf. eapply keeps_bind with any; [|intros _ _; by apply keeps_ret].
  unfold skip_instruction. eapply keeps_bind; [apply keeps_add_u64|]. intros n Hn.
  by apply (keeps_on_hw any), keeps_csr_write.
Qed.

Lemma keeps_report_skip ps mepc f :
  frame_typed f → keeps frame_typed (on_hw (println ps);; skip_instruction mepc;; mret f).
Proof.
  intros Hf. eapply keeps_bind; [apply (keeps_on_hw any), keeps_println|intros _ _]. by apply keeps_skip.
Qed.

Lemma keeps_handle_interrupt cause f : frame_typed f → keeps frame_typed (handle_interrupt cause f).
Proof.
  intros Hf. unfold handle_interrupt.
  destruct (cause =? 7); [|destruct (cause =? 11); [|destruct (cause =? 3)]; by apply keeps_report].
  eapply keeps_bind with any.
  { intros k [? ? ? ? ? Ht]. split; [done|]. constructor; try done. by apply in_width_mod. }
  intros _ _. eapply keeps_bind with any; [by apply keeps_gets|]. intros n _.
  eapply keeps_bind with any; [destruct (_ =? 0); [|by apply keeps_ret]|intros _ _].
  { apply (keeps_on_hw any), keeps_println. }
  eapply keeps_bind; [apply (keeps_on_hw any), keeps_set_timer_us|intros _ _]. by apply keeps_schedule.
Qed.

Lemma keeps_access_fault name mepc mtval f :
  frame_typed f → keeps frame_typed (handle_access_fault name mepc mtval f).
Proof.
  intros Hf. unfold handle_access_fault. eapply keeps_bind with any.
  { apply keeps_on_hw. unfold mstatus.read_mpp, mstatus.read. keeps_auto. }
  intros mpp _. destruct (mpp =? 0); [|apply keeps_panic_exception].
  eapply keeps_bind; [apply (keeps_on_hw any), keeps_println|intros _ _]. by apply keeps_kill_current.
Qed.

Lemma keeps_syscall f : frame_typed f → keeps frame_typed (handle_syscall f).
Proof.
  intros Hf. unfold handle_syscall. destruct (_ =? SYS_GETC); [|destruct (_ =? SYS_PUTC)].
  - eapply keeps_bind; [apply keeps_on_hw, keeps_s_try_getc|]. intros o Ho. apply keeps_ret.
    apply frame_typed_set_a0; [|done]. destruct o as [c|]; [|split; vm_compute; congruence].
    eapply in_width_mono; [|by apply Ho]. lia.
  - eapply keeps_bind; [apply (keeps_on_hw any), keeps_s_putc; by apply in_width_mod|intros _ _].
    by apply keeps_ret.
  - destruct (_ =? SYS_LEGACY_POC); by apply keeps_report.
Qed.

Lemma keeps_exception cause mepc mtval f :
  0 ≤ cause → frame_typed f → keeps frame_typed (handle_exception cause mepc mtval f).
Proof.
  intros H0 Hf. destruct (decide (cause ∈ [0; 1; 2; 3; 4; 5; 6; 7; 8; 9; 11; 12; 13; 15])) as [Hin|Hnin].
  - rewrite !elem_of_cons in Hin. destruct_or! Hin; subst; try by apply elem_of_nil in Hin.
    all: unfold handle_exception;
      first [apply keeps_panic_exception|by apply keeps_access_fault|by apply keeps_report_skip|idtac].
    eapply keeps_bind; [by apply keeps_syscall|]. intros f' Hf'. by apply keeps_skip.
  - rewrite unknown_handler by done.
    eapply keeps_bind; [apply (keeps_on_hw any), keeps_println|intros _ _]. apply keeps_panic.
Qed.

Lemma keeps_trap_handler f : frame_typed f → keeps frame_typed (trap_handler f).
Proof.
  intros Hf. unfold trap_handler.
  eapply keeps_bind; [apply (keeps_on_hw u64), keeps_csr_read|intros c Hc].
  eapply keeps_bind; [apply (keeps_on_hw u64), keeps_csr_read|intros e He].
  eapply keeps_bind; [apply (keeps_on_hw u64), keeps_csr_read|intros v Hv].
  destruct (_ =? 1); [by apply keeps_handle_interrupt|]. apply keeps_exception; [|done].
  apply Z.land_nonneg. by left; destruct Hc.
Qed.
End kernel_laws.

(** ** Spawning and boot *)

Record builder_typed (b : PmpConfigBuilder) : Prop := {
  bt_count : length (b_regions b) = PMP_COUNT;
  bt_regions : Forall region_typed (b_regions b);
}.

Definition config_typed (c : PmpConfig) : Prop :=
  length (regions c) = PMP_COUNT ∧ Forall region_typed (regions c).

(** The [u64] arguments of [TaskSpec]'s constructors. *)
Definition spec_typed (self : TaskSpec) : Prop :=
  u64 (entry self) ∧
  match mode self with
  | MMode => True
  | UMode code_base code_size mmio =>
    u64 code_base ∧ u64 code_size ∧ Forall (λ bs, u64 bs.1 ∧ u64 bs.2) mmio
  end.

Section boot_laws.
Context `{E : Env}.

Lemma no_regions_typed : Forall region_typed (replicate PMP_COUNT no_region).
Proof. apply Forall_replicate, no_region_typed. Qed.

Lemma keeps_b_region b base size flags :
  builder_typed b → u64 base → u64 size → u8 flags →
  keeps builder_typed (b_region (St := Kernel) b base size flags).
Proof.
  intros [Hc Hr] Hb Hs Hf. unfold b_region.
  do 2 (eapply keeps_bind; [by apply (keeps_rassert any)|intros _ _]).
  eapply keeps_bind; [apply keeps_sub_u64|intros m _].
  eapply keeps_bind; [by apply (keeps_rassert any)|intros _ _]. apply keeps_ret.
  constructor; cbn; [by rewrite length_insert|by apply Forall_insert].
Qed.

Lemma keeps_user_pmp code_base code_size stack_bottom mmio :
  u64 code_base → u64 code_size → u64 stack_bottom → Forall (λ bs, u64 bs.1 ∧ u64 bs.2) mmio →
  keeps config_typed (user_pmp code_base code_size stack_bottom mmio).
Proof.
  intros Hb Hs Ht Hm. unfold user_pmp.
  assert (u8 flags.RX ∧ u8 flags.RW) as [Hrx Hrw] by (repeat split; vm_compute; congruence).
  eapply keeps_bind; [apply keeps_b_region; [|done..]|intros b1 H1].
  { constructor; [done|apply no_regions_typed]. }
  eapply keeps_bind; [apply keeps_b_region; [done|done| |done]; split; vm_compute; congruence|intros b2 H2].
  eapply keeps_bind.
  - eapply (keeps_for_each builder_typed); [done|exact Hm|]. intros b [ba sz] Hb' [? ?]. by apply keeps_b_region.
  - intros b3 [? ?]. by apply keeps_ret.
Qed.

Lemma keeps_alloc_task_stack : keeps (λ r, u64 r.1 ∧ u64 r.2) alloc_task_stack.
Proof.
  unfold alloc_task_stack. change (from_size_align _ _) with (Some (mkLayout 8192 8192)).
  eapply keeps_bind; [by apply keeps_on_alloc, keeps_alloc|]. intros a Ha.
  destruct (a =? 0); [apply keeps_panic|]. eapply keeps_bind; [apply keeps_add_u64|]. intros t Ht.
  by apply keeps_ret.
Qed.

Lemma context_typed_new f c e t :
  f ∈ [TaskContext.new_umode; TaskContext.new_mmode] → c = f e t → u64 e → u64 t → context_typed c.
Proof.
  intros Hf -> He Ht. rewrite !elem_of_cons in Hf.
  assert (u64 0 ∧ u64 (Z.shiftl 1 7) ∧ u64 (Z.lor (Z.shiftl 3 11) (Z.shiftl 1 7))) as (H0 & Hu & Hm)
    by (repeat split; vm_compute; congruence).
  unfold context_typed, TaskContext.to_list.
  destruct_or! Hf; [subst; repeat (apply Forall_cons; split; [done|]); constructor..|by apply elem_of_nil in Hf].
Qed.

Lemma keeps_Task_new i e t :
  u8 (tid i) → u64 e → u64 t → keeps task_typed (Task_new (St := Kernel) i e t).
Proof.
  intros Hi He Ht. unfold Task_new. eapply keeps_bind; [apply keeps_sub_u64|]. intros b Hb.
  apply keeps_ret. constructor; cbn; try done; [|apply no_regions_typed].
  eapply context_typed_new with (f := TaskContext.new_umode); [left|done..].
Qed.

Lemma keeps_create_in mk slots :
  (∀ i, keeps task_typed (mk i)) → keeps (λ t, u8 (tid t)) (create_in mk slots).
Proof.
  intros Hmk. induction slots as [|i slots IH]; simpl; [apply keeps_panic|].
  eapply keeps_bind; [apply keeps_task_at|]. intros [t|] _; [done|].
  eapply keeps_bind; [apply Hmk|]. intros t Ht.
  eapply keeps_bind; [by apply keeps_store_task, slot_typed_Some|intros _ _].
  by apply keeps_ret, in_width_mod.
Qed.

Lemma copy_regions_typed rs dst :
  Forall region_typed rs → Forall region_typed dst → length dst = PMP_COUNT →
  Forall region_typed (copy_regions rs dst) ∧ length (copy_regions rs dst) = PMP_COUNT.
Proof.
  intros Hrs. unfold copy_regions. generalize (seq 0 (length rs)) as idx. intros idx.
  assert (Forall (λ ir : nat * PmpRegion, region_typed ir.2) (take 16 (zip idx rs))) as Hz.
  { apply Forall_take. revert idx. induction Hrs as [|r rs Hr _ IH]; intros [|i idx]; simpl; auto. }
  revert dst. induction Hz as [|[i r] l Hr _ IH]; intros dst Hd Hl; simpl; [done|].
  apply IH; [by apply Forall_insert|by rewrite length_insert].
Qed.

Lemma keeps_spawn self : spec_typed self → keeps (λ t, u8 (tid t)) (spawn self).
Proof.
  intros [He Hm]. unfold spawn. eapply keeps_bind; [apply keeps_alloc_task_stack|]. intros [b t] [Hb Ht].
  assert (∀ i, u8 (tid (mkTaskId (Z.of_nat i mod 2 ^ 8)))) as Hid by (intros i; by apply in_width_mod).
  cbn [fst snd] in *. destruct (TaskSpec.mode self) as [|cb cs mmio].
  - apply keeps_with_lock, keeps_create_in. intros i. eapply keeps_bind; [by apply keeps_Task_new|].
    intros tk Htk. apply keeps_ret, task_typed_context; [|done].
    eapply context_typed_new with (f := TaskContext.new_mmode); [right; left|done..].
  - destruct Hm as (? & ? & ?). eapply keeps_bind; [by apply keeps_user_pmp|]. intros c [Hc Hr].
    apply keeps_with_lock, keeps_create_in. intros i. eapply keeps_bind; [by apply keeps_Task_new|].
    intros tk [? ? Hc' Hr' ? ? ?]. apply keeps_ret.
    destruct (copy_regions_typed (regions c) (regions (pmp_config tk)) Hr Hr' Hc'). by constructor.
Qed.

Context `{B : SerialBackend} `{ST : !SerialTyped B} `{I : Image} `{IO : !ImageOk I}.

(** Spawn a task and say so. *)
Lemma keeps_spawn_announce self what : spec_typed self → keeps any (t ← spawn self; announce what t).
Proof.
  intros Hs. eapply keeps_bind; [by apply keeps_spawn|]. intros t Ht.
  assert (u64 (tid t)) by (apply (in_width_mono 8); [lia|exact Ht]). unfold announce. keeps_auto.
Qed.

(** Addresses of the image fit. *)
Lemma symbol_u64 a : _stext ≤ a ≤ _eheap → u64 a.
Proof. pose proof data_layout as (_ & _ & _ & He & _). rewrite _stext_val. split; lia. Qed.

Lemma keeps_init_heap : keeps any init_heap.
Proof.
  pose proof text_layout. pose proof data_layout. unfold KERNEL_STACK_SIZE, KERNEL_HEAP_SIZE in *.
  unfold init_heap. eapply keeps_bind; [apply (keeps_on_alloc any), keeps_bump_init; apply symbol_u64; lia|intros _ _].
  keeps_step. change (from_size_align 3 1) with (Some (mkLayout 3 1)). cbn beta iota.
  eapply keeps_bind; [by apply keeps_on_alloc, keeps_alloc|]. intros v Hv.
  destruct (v =? 0); [apply keeps_panic|]. keeps_step.
  apply (keeps_on_alloc any). by apply keeps_ret.
Qed.

Lemma keeps_kmain : keeps any kmain.
Proof.
  pose proof text_layout as Ht. pose proof data_layout as Hd. pose proof trap_vector_in. pose proof idle_in.
  pose proof echo_in. pose proof violation_in. unfold KERNEL_STACK_SIZE, KERNEL_HEAP_SIZE in *.
  assert (∀ off, 0 ≤ off < text_size → u64 (_stext + off)) as Htext.
  { intros. apply symbol_u64. destruct (align_up_spec _etext 4096) as [? _]; [lia|].
    unfold _user_text_start, _etext in *. lia. }
  assert (∀ off, 0 ≤ off < user_text_size → u64 (_user_text_start + off)) as Huser.
  { intros. apply symbol_u64. destruct (align_up_spec (_user_text_start + user_text_size) 4096) as [? _]; [lia|].
    unfold _user_text_end in *. lia. }
  unfold kmain. eapply keeps_bind with any; [unfold print_banner; keeps_auto|intros _ _].
  eapply keeps_bind; [apply keeps_init_heap|intros _ _].
  eapply keeps_bind with any; [unfold trap_init, mtvec.write; keeps_auto; by apply Htext|intros _ _].
  do 2 (eapply keeps_bind with any; [apply keeps_on_hw; auto with widths|intros _ _]).
  eapply keeps_bind; [by apply keeps_spawn_announce; split; [apply Htext|]|intros _ _].
  eapply keeps_bind; [apply keeps_spawn_announce|intros _ _].
  { split; [by apply Huser|]. cbn. split; [apply symbol_u64; lia|].
    split; [split; vm_compute; congruence|]. repeat constructor; vm_compute; congruence. }
  eapply keeps_bind; [apply keeps_spawn_announce|intros _ _].
  { split; [by apply Huser|]. cbn. split; [apply symbol_u64; lia|].
    split; [split; vm_compute; congruence|constructor]. }
  unfold start_scheduler. eapply keeps_bind; [apply keeps_sched_init|intros _ _].
  unfold enable_interrupts, mstatus.set_bits. keeps_auto.
Qed.
End boot_laws.

(** ** Property *)

(** C20: widths are kept.  If every register, saved context, PMP region, tick
    counter, allocator pointer and bus access fits its Rust type, and the arrays
    have their length, then so they do after [kmain] and after every trap,
    whatever its cause, whatever the devices answer, in both build profiles, and
    also when the code panics or waits for ever. *)
Theorem widths_kept `{E : Env} `{B : SerialBackend} `{ST : !SerialTyped B} `{I : Image}
    `{IO : !ImageOk I} k frame :
  kernel_typed k → frame_typed frame →
  match kmain k with Ok _ k' | Panic _ k' | Spin k' => kernel_typed k' end ∧
  match trap_handler frame k with
  | Ok frame' k' => frame_typed frame' ∧ kernel_typed k'
  | Panic _ k' | Spin k' => kernel_typed k'
  end.
Proof.
  intros Hk Hf. split; [|by apply (keeps_trap_handler frame)].
  pose proof (keeps_kmain k Hk) as Hm. by destruct (kmain k); [destruct Hm|..].
Qed.

(** ** Witness *)

Module widths_sample.
#[local] Instance env : Env := quiet_board true.
#[local] Existing Instance sample_image.

Lemma reset_typed : kernel_typed reset_kernel.
Proof.
  assert (u64 0) as H0 by (split; vm_compute; congruence).
  constructor; [|by constructor|done|by apply Forall_replicate|done|done].
  constructor; [by intros []|apply zero_regs_wf| |constructor].
  apply Forall_replicate. split; vm_compute; congruence.
Qed.

Lemma widths_kept_witness :
  match kmain reset_kernel with Ok _ k' | Panic _ k' | Spin k' => kernel_typed k' end ∧
  match trap_handler sample.frame reset_kernel with
  | Ok frame' k' => frame_typed frame' ∧ kernel_typed k'
  | Panic _ k' | Spin k' => kernel_typed k'
  end.
Proof.
  apply (widths_kept reset_kernel sample.frame reset_typed).
  unfold frame_typed, TrapFrame.to_list.
  repeat (apply Forall_cons; split; [split; vm_compute; congruence|]). constructor.
Defined.
End widths_sample.
