(* ===== verification/Placement.v ===== *)
(** The kernel's statics in memory.

    [SCHEDULER] ([crates/kernel/src/sched/scheduler.rs]), [ALLOCATOR]
    ([crates/kernel/src/main.rs]) and [TICK_COUNT]
    ([crates/kernel/src/timer.rs]) are statics of the data sections.  Where in
    these sections, in which order of fields and with which encoding of [Option]
    is for the compiler to choose, since only [TaskContext] is [repr(C)].  [Class
    Placement] is such a choice and [Class PlacementOk] what the language
    promises of it: a value is determined by the bytes of the statics, every
    value of the types can be stored there, and the saved context of a task is a
    place of its own with the [repr(C)] layout.  [word_placement] is one choice,
    a doubleword per field. *)

From S2P Require Import Prelude Config Machine PmpHw Linker Pmp Allocator Registers Task Kernel.
From S2P Require Import Serial Trap Scheduler SchedulerProps Asm Widths.

Local Open Scope Z_scope.

(** ** The statics *)

Record Statics := mkStatics {
  st_alloc : BumpAllocator;
  st_sched : SchedulerState;
  st_ticks : Z;
}.

Definition statics_of (k : Kernel) : Statics := mkStatics (k_alloc k) (k_sched k) (k_ticks k).

Definition with_statics (h : Hw) (s : Statics) : Kernel := mkKernel h (st_alloc s) (st_sched s) (st_ticks s).

(** Another context for the task in slot [j]. *)
Definition put_context (j : nat) (c : TaskContext.t) (s : Statics) : Statics :=
  mkStatics (st_alloc s) (upd_context (λ _, c) j (st_sched s)) (st_ticks s).

(** The types of the sources. *)
Record statics_typed (s : Statics) : Prop := {
  sty_alloc : alloc_typed (st_alloc s);
  sty_count : length (tasks (st_sched s)) = MAX_TASKS;
  sty_tasks : Forall slot_typed (tasks (st_sched s));
  sty_current : ∀ c, current (st_sched s) = Some c → (c < MAX_TASKS)%nat;
  sty_ticks : u64 (st_ticks s);
}.

Lemma statics_of_typed k : kernel_typed k ↔ hw_typed (k_hw k) ∧ statics_typed (statics_of k).
Proof. split; [intros []; by split|intros [? []]; by constructor]. Qed.

Lemma with_statics_of k : with_statics (k_hw k) (statics_of k) = k.
Proof. by destruct k. Qed.

(** ** The interface *)

(** Memory that holds bytes. *)
Definition bytes_in (m : memory) : Prop := ∀ x, u8 (m x).

Class Placement := {
  statics_lo : Z;
  statics_hi : Z;
  (** The value of the statics; [None] when the bytes are no value of their types. *)
  read_statics : memory → option Statics;
  (** The address of [SCHEDULER.tasks[j].context]. *)
  context_at : nat → Z;
}.

Class PlacementOk `(I : Image) (P : Placement) : Prop := {
  pl_sections : _sdata ≤ statics_lo ∧ statics_lo ≤ statics_hi ∧ statics_hi ≤ _ebss;
  pl_local : ∀ m m', (∀ x, statics_lo ≤ x < statics_hi → m' x = m x) → read_statics m' = read_statics m;
  pl_store : ∀ s m, statics_typed s → bytes_in m →
    ∃ m', bytes_in m' ∧ read_statics m' = Some s ∧ ∀ x, x < statics_lo ∨ statics_hi ≤ x → m' x = m x;
  pl_place : ∀ s m j t, read_statics m = Some s → task_of (st_sched s) j = Some t →
    statics_lo ≤ context_at j ∧ context_at j + 264 ≤ statics_hi ∧ context_in (context_at j) m (context t);
  pl_assign : ∀ s m j t c m', read_statics m = Some s → task_of (st_sched s) j = Some t →
    (∀ x, x < context_at j ∨ context_at j + 264 ≤ x → m' x = m x) → context_in (context_at j) m' c →
    read_statics m' = Some (put_context j c s);
}.

(** ** A doubleword per field *)

(** The values are decoded from the words [w 0, w 1, ...]; a byte is the low
    byte of its word. *)
Definition state_of_word (v : Z) : option TaskState :=
  match v with 0 => Some Created | 1 => Some Ready | 2 => Some Running | 3 => Some Dead | _ => None end.

Definition word_of_state (s : TaskState) : Z :=
  match s with Created => 0 | Ready => 1 | Running => 2 | Dead => 3 end.

Definition context_of_words (f : nat → Z) : TaskContext.t :=
  TaskContext.mk (f 0%nat) (f 1%nat) (f 2%nat) (f 3%nat) (f 4%nat) (f 5%nat) (f 6%nat) (f 7%nat) (f 8%nat)
    (f 9%nat) (f 10%nat) (f 11%nat) (f 12%nat) (f 13%nat) (f 14%nat) (f 15%nat) (f 16%nat) (f 17%nat)
    (f 18%nat) (f 19%nat) (f 20%nat) (f 21%nat) (f 22%nat) (f 23%nat) (f 24%nat) (f 25%nat) (f 26%nat)
    (f 27%nat) (f 28%nat) (f 29%nat) (f 30%nat) (f 31%nat) (f 32%nat).

Section decode.
Context (w : nat → Z).

Definition task_of_words (o : nat) : option Task :=
  st ← state_of_word (w (o + 1)%nat);
  Some (mkTask (mkTaskId (w o mod 2 ^ 8)) st (context_of_words (λ i, w (o + 2 + i)%nat))
    (mkPmpConfig ((λ i, mkPmpRegion (w (o + 35 + 3 * i)%nat) (w (o + 36 + 3 * i)%nat) (w (o + 37 + 3 * i)%nat mod 2 ^ 8))
       <$> seq 0 PMP_COUNT))
    (w (o + 83)%nat) (w (o + 84)%nat) (w (o + 85)%nat)).

Definition slot_of_words (o : nat) : option (option Task) :=
  if w o =? 0 then Some None else if w o =? 1 then Some <$> task_of_words (S o) else None.

Definition current_of_words (o : nat) : option (option nat) :=
  if w o =? 0 then Some None else if w o =? 1 then Some (Some (Z.to_nat (w (S o)))) else None.

Definition statics_of_words : option Statics :=
  cur ← current_of_words 4;
  ts ← mapM (λ j, slot_of_words (6 + 87 * j)) (seq 0 MAX_TASKS);
  Some (mkStatics (mkBump (w 0%nat) (w 1%nat) (w 2%nat)) (mkSched cur ts) (w 3%nat)).
End decode.

(** And encoded as lists of words. *)
Definition words_of_region (r : PmpRegion) : list Z := [base r; size r; rflags r].

Definition words_of_slot (o : option Task) : list Z :=
  match o with
  | None => replicate 87 0
  | Some t => [1; tid (id t); word_of_state (state t)] ++ TaskContext.to_list (context t) ++
      (regions (pmp_config t) ≫= words_of_region) ++ [stack_bottom t; stack_top t; entry_point t]
  end.

Definition words_of_statics (s : Statics) : list Z :=
  [heap_start (st_alloc s); heap_end (st_alloc s); next (st_alloc s); st_ticks s] ++
  match current (st_sched s) with None => [0; 0] | Some c => [1; Z.of_nat c] end ++
  (tasks (st_sched s) ≫= words_of_slot).

(** 6 words and 87 for each of the four slots, at the start of [.bss]. *)
Definition statics_words : nat := 354.

Definition word_placement `{I : Image} : Placement := {|
  statics_lo := _sbss;
  statics_hi := _sbss + 8 * Z.of_nat statics_words;
  read_statics m := statics_of_words (λ i, load64 (_sbss + 8 * Z.of_nat i) m);
  context_at j := _sbss + 8 * Z.of_nat (9 + 87 * j);
|}.

(** ** The encoding *)

Lemma context_of_words_list f : TaskContext.to_list (context_of_words f) = f <$> seq 0 33.
Proof. done. Qed.

Lemma context_of_words_ext f g : (∀ i, (i < 33)%nat → f i = g i) → context_of_words f = context_of_words g.
Proof. intros H. unfold context_of_words. by rewrite !H by lia. Qed.

Lemma context_of_words_eq f c : f <$> seq 0 33 = TaskContext.to_list c → context_of_words f = c.
Proof. destruct c. intros [= ?]. unfold context_of_words. simpl. by subst. Qed.

Lemma slot_of_words_ext w w' o o' :
  (∀ i, (i < 87)%nat → w (o + i)%nat = w' (o' + i)%nat) → slot_of_words w o = slot_of_words w' o'.
Proof.
  intros H. assert (∀ a b, (∃ i, (i < 87)%nat ∧ a = (o + i)%nat ∧ b = (o' + i)%nat) → w a = w' b) as Hw
    by (by intros a b (i & ? & -> & ->); apply H).
  unfold slot_of_words, task_of_words.
  rewrite (Hw o o') by (exists 0%nat; lia). rewrite (Hw (S o + 1)%nat (S o' + 1)%nat) by (exists 2%nat; lia).
  rewrite (Hw (S o) (S o')) by (exists 1%nat; lia). rewrite (Hw (S o + 83)%nat (S o' + 83)%nat) by (exists 84%nat; lia).
  rewrite (Hw (S o + 84)%nat (S o' + 84)%nat) by (exists 85%nat; lia).
  rewrite (Hw (S o + 85)%nat (S o' + 85)%nat) by (exists 86%nat; lia).
  rewrite (context_of_words_ext _ (λ i, w' (S o' + 2 + i)%nat)) by (intros i ?; apply Hw; exists (3 + i)%nat; lia).
  set (R := fmap _ (seq 0 PMP_COUNT)). set (R' := fmap _ (seq 0 PMP_COUNT)). enough (R = R') as -> by done.
  apply list_fmap_ext. intros i x [-> Hi]%lookup_seq. unfold PMP_COUNT in Hi.
  f_equal; [|..|f_equal]; apply Hw; [exists (36 + 3 * i)%nat|exists (37 + 3 * i)%nat|exists (38 + 3 * i)%nat]; lia.
Qed.

Lemma mapM_ext_in {A B} (f g : A → option B) l : (∀ x, x ∈ l → f x = g x) → mapM f l = mapM g l.
Proof.
  induction l as [|x l IH]; intros H; [done|]. simpl. rewrite H by (by left).
  rewrite IH by (intros y ?; apply H; by right). done.
Qed.

Lemma statics_of_words_ext w w' :
  (∀ i, (i < statics_words)%nat → w i = w' i) → statics_of_words w = statics_of_words w'.
Proof.
  unfold statics_words. intros H. unfold statics_of_words, current_of_words. rewrite !H by lia.
  rewrite (mapM_ext_in _ (λ j, slot_of_words w' (6 + 87 * j))); [done|].
  intros j Hj%elem_of_seq. unfold MAX_TASKS in Hj. apply slot_of_words_ext. intros. apply H. lia.
Qed.

(** The words of a region list and of the slots, found by their position. *)
Lemma bind_lookup {A} (f : A → list Z) n l j i :
  (∀ x, x ∈ l → length (f x) = n) → (i < n)%nat → (l ≫= f) !! (n * j + i)%nat = (l !! j) ≫= λ x, f x !! i.
Proof.
  revert j. induction l as [|x l IH]; intros j Hn Hi; [done|]. csimpl.
  assert (length (f x) = n) as Hx by (apply Hn; by left). destruct j as [|j].
  - rewrite Nat.mul_0_r, lookup_app_l by lia. done.
  - rewrite lookup_app_r by lia. replace (n * S j + i - length (f x))%nat with (n * j + i)%nat by lia.
    rewrite IH; [done| |done]. intros y Hy. apply Hn. by right.
Qed.

Lemma regions_words_length rs : length (rs ≫= words_of_region) = (3 * length rs)%nat.
Proof. induction rs as [|r rs IH]; [done|]. csimpl. simpl in *. lia. Qed.

Lemma words_of_slot_length o : slot_typed o → length (words_of_slot o) = 87%nat.
Proof.
  intros Ho. destruct o as [t|]; [|done]. specialize (Ho t eq_refl). unfold words_of_slot.
  rewrite !length_app, regions_words_length, (tt_count _ Ho). done.
Qed.

(** What is encoded is decoded. *)
Lemma state_of_word_of s : state_of_word (word_of_state s) = Some s.
Proof. by destruct s. Qed.

Section slot.
Context (t : Task) (Ht : task_typed t).

Lemma slot_end_words i :
  words_of_slot (Some t) !! (84 + i)%nat = [stack_bottom t; stack_top t; entry_point t] !! i.
Proof using Ht.
  unfold words_of_slot. pose proof (tt_count _ Ht) as Hn. rewrite !app_assoc, lookup_app_r;
    rewrite !length_app, regions_words_length, Hn; simpl; [|lia]. f_equal. lia.
Qed.

Lemma slot_region_words i r k : regions (pmp_config t) !! i = Some r → (k < 3)%nat →
  words_of_slot (Some t) !! (36 + (3 * i + k))%nat = words_of_region r !! k.
Proof using Ht.
  intros Hi Hk. pose proof (lookup_lt_Some _ _ _ Hi) as Hlt. pose proof (tt_count _ Ht) as Hn. unfold PMP_COUNT in Hn.
  unfold words_of_slot. rewrite app_assoc, lookup_app_r by (simpl; lia).
  rewrite lookup_app_l by (rewrite regions_words_length; simpl; lia).
  replace (36 + (3 * i + k) - _)%nat with (3 * i + k)%nat by (simpl; lia).
  by rewrite (bind_lookup _ 3), Hi.
Qed.

Lemma slot_regions_decode :
  ((λ i, mkPmpRegion (default 0 (words_of_slot (Some t) !! (1 + 35 + 3 * i)%nat))
     (default 0 (words_of_slot (Some t) !! (1 + 36 + 3 * i)%nat))
     (default 0 (words_of_slot (Some t) !! (1 + 37 + 3 * i)%nat) mod 2 ^ 8)) <$> seq 0 PMP_COUNT)
  = regions (pmp_config t).
Proof using Ht.
  apply list_eq. intros i. rewrite list_lookup_fmap. pose proof (tt_count _ Ht) as Hn.
  destruct (decide (i < PMP_COUNT)%nat) as [Hi|Hi].
  - rewrite lookup_seq_lt by done. rewrite <- Hn in Hi. destruct (lookup_lt_is_Some_2 _ _ Hi) as [r Hri].
    pose proof (slot_region_words i r) as Hw. rewrite Hri. cbn [fmap option_fmap option_map]. f_equal.
    rewrite Nat.add_0_l. replace (1 + 35 + 3 * i)%nat with (36 + (3 * i + 0))%nat by lia.
    replace (1 + 36 + 3 * i)%nat with (36 + (3 * i + 1))%nat by lia.
    replace (1 + 37 + 3 * i)%nat with (36 + (3 * i + 2))%nat by lia.
    rewrite !Hw by (done || lia). destruct r as [b s f]. cbn [words_of_region lookup list_lookup default base size rflags].
    f_equal. apply Z.mod_small. eapply Forall_lookup_1 in Hri; [|exact (tt_regions _ Ht)]. apply Hri.
  - rewrite lookup_seq_ge, lookup_ge_None_2 by (rewrite ?Hn; lia). done.
Qed.
End slot.

Lemma words_of_slot_decode o : slot_typed o → slot_of_words (λ i, default 0 (words_of_slot o !! i)) 0 = Some o.
Proof.
  intros Ho. destruct o as [t|]; [|done]. specialize (Ho t eq_refl).
  unfold slot_of_words. change (default 0 (words_of_slot (Some t) !! 0%nat)) with 1. cbn [Z.eqb Pos.eqb].
  unfold task_of_words. change (default 0 (words_of_slot (Some t) !! (1 + 1)%nat)) with (word_of_state (state t)).
  rewrite state_of_word_of. cbn [mbind option_bind fmap option_fmap option_map].
  rewrite (slot_end_words t Ho 0 : _ !! (1 + 83)%nat = _), (slot_end_words t Ho 1 : _ !! (1 + 84)%nat = _),
    (slot_end_words t Ho 2 : _ !! (1 + 85)%nat = _).
  change (default 0 (words_of_slot (Some t) !! 1%nat)) with (tid (id t)).
  rewrite (context_of_words_eq _ (context t)) by reflexivity.
  pose proof (slot_regions_decode t Ho) as Hreg. cbn [fmap] in Hreg. rewrite Hreg.
  rewrite Z.mod_small by apply Ho. by destruct t as [[?] ? ? [] ? ? ?].
Qed.

Lemma mapM_seq_Some {A} (f : nat → option A) n l :
  length l = n → (∀ j x, l !! j = Some x → f j = Some x) → mapM f (seq 0 n) = Some l.
Proof.
  intros Hn Hf. apply mapM_Some_2, Forall2_same_length_lookup_2; [by rewrite length_seq|].
  intros i j x [-> _]%lookup_seq Hx. by apply Hf.
Qed.

Lemma statics_slot_words s j o i : statics_typed s → tasks (st_sched s) !! j = Some o → (i < 87)%nat →
  words_of_statics s !! (6 + 87 * j + i)%nat = words_of_slot o !! i.
Proof.
  intros Hs Hj Hi. unfold words_of_statics. rewrite app_assoc. set (pre := [_; _; _; _] ++ _).
  assert (length pre = 6%nat) as Hp by (by unfold pre; destruct (current (st_sched s))).
  rewrite lookup_app_r by lia. replace (6 + 87 * j + i - length pre)%nat with (87 * j + i)%nat by lia.
  rewrite (bind_lookup _ 87), Hj; [done| |done].
  intros x Hx. apply words_of_slot_length. eapply Forall_forall; [apply Hs|done].
Qed.

Lemma words_of_statics_length s : statics_typed s → length (words_of_statics s) = statics_words.
Proof.
  intros Hs. unfold words_of_statics. rewrite !length_app.
  assert (length (tasks (st_sched s) ≫= words_of_slot) = 87 * length (tasks (st_sched s)))%nat as ->.
  { pose proof (sty_tasks _ Hs) as Ht. revert Ht. generalize (tasks (st_sched s)). induction 1 as [|o l Ho _ IH]; [done|].
    csimpl. rewrite length_app, IH, words_of_slot_length by done. simpl. lia. }
  rewrite (sty_count _ Hs). by destruct (current (st_sched s)).
Qed.

Lemma words_of_statics_decode s :
  statics_typed s → statics_of_words (λ i, default 0 (words_of_statics s !! i)) = Some s.
Proof.
  intros Hs. unfold statics_of_words. rewrite (mapM_seq_Some _ MAX_TASKS (tasks (st_sched s))); [|apply Hs|].
  - destruct s as [[] [[c|] ts] n]; [|done]. unfold current_of_words. cbn. by rewrite Nat2Z.id.
  - intros j o Hj. rewrite <- (words_of_slot_decode o) by (eapply Forall_lookup_1; [apply Hs|done]).
    apply slot_of_words_ext. intros i Hi. by erewrite statics_slot_words.
Qed.

(** The fields fit a doubleword. *)
Lemma u8_u64 v : u8 v → u64 v.
Proof. intros [H0 H]. split; [done|]. eapply Z.lt_le_trans; [exact H|]. vm_compute. congruence. Qed.

Lemma words_of_slot_typed o : slot_typed o → Forall u64 (words_of_slot o).
Proof.
  intros Ho. destruct o as [t|]; [|apply Forall_replicate; split; vm_compute; congruence].
  destruct (Ho t eq_refl) as [Hid Hc _ Hr H1 H2 H3]. unfold words_of_slot. rewrite !Forall_app. split_all.
  - rewrite !Forall_cons, Forall_nil. apply u8_u64 in Hid. split_all. by destruct (state t).
  - clear -Hr. induction Hr as [|r rs [H1 H2 H3%u8_u64] _ IH]; [constructor|]. csimpl. rewrite !Forall_cons. split_all.
  - rewrite !Forall_cons, Forall_nil. split_all.
Qed.

Lemma words_of_statics_typed s : statics_typed s → Forall u64 (words_of_statics s).
Proof.
  intros [[? ? ?] Hn Ht Hc Hk]. unfold words_of_statics. rewrite !Forall_app. split_all.
  - rewrite !Forall_cons, Forall_nil. split_all.
  - destruct (current (st_sched s)) as [c|]; rewrite !Forall_cons, Forall_nil; split_all.
    specialize (Hc c eq_refl). unfold MAX_TASKS in Hc. split; simpl; lia.
  - clear -Ht. induction Ht as [|o l Ho _ IH]; [constructor|]. csimpl. apply Forall_app. split; [|done].
    by apply words_of_slot_typed.
Qed.

(** ** The places of the fields *)

Lemma slot_context w o t :
  slot_of_words w o = Some (Some t) → context t = context_of_words (λ i, w (o + 3 + i)%nat).
Proof.
  unfold slot_of_words, task_of_words. destruct (w o =? 0); [done|]. destruct (w o =? 1); [|done].
  destruct (state_of_word _); [|done]. intros [= <-]. apply context_of_words_ext. intros i _. f_equal. lia.
Qed.

(** Other words in place of the context are another context. *)
Lemma slot_assign w w' o t :
  slot_of_words w o = Some (Some t) → (∀ i, (i < 3 ∨ 36 ≤ i < 87)%nat → w' (o + i)%nat = w (o + i)%nat) →
  slot_of_words w' o = Some (Some (set_context (context_of_words (λ i, w' (o + 3 + i)%nat)) t)).
Proof.
  intros Ht Hw. set (w1 := λ x, if decide (o + 3 ≤ x < o + 36)%nat then w' x else w x).
  rewrite (slot_of_words_ext w' w1 o o).
  2:{ intros i Hi. unfold w1. case_decide; [done|]. apply Hw. lia. }
  assert (∀ x, (x < o + 3 ∨ o + 36 ≤ x)%nat → w1 x = w x) as H1 by (intros x ?; unfold w1; rewrite decide_False; [done|lia]).
  revert Ht. unfold slot_of_words, task_of_words. rewrite !H1 by lia.
  destruct (w o =? 0); [done|]. destruct (w o =? 1); [|done]. destruct (state_of_word _); [|done].
  cbn [fmap option_fmap option_map mbind option_bind]. intros Ht. do 2 apply (inj Some) in Ht. subst t.
  unfold set_context. cbn [id state context pmp_config stack_bottom stack_top entry_point]. do 3 f_equal.
  - apply context_of_words_ext. intros i Hi. unfold w1. rewrite decide_True by lia. f_equal. lia.
  - f_equal. apply list_fmap_ext. intros i x [-> Hi]%lookup_seq. by rewrite !H1 by lia.
Qed.

Lemma statics_slot w s j : statics_of_words w = Some s →
  (∀ o, tasks (st_sched s) !! j = Some o → (j < MAX_TASKS)%nat ∧ slot_of_words w (6 + 87 * j) = Some o) ∧
  length (tasks (st_sched s)) = MAX_TASKS.
Proof.
  unfold statics_of_words. destruct (current_of_words w 4) as [cur|]; [|done].
  cbn [mbind option_bind]. destruct (mapM (λ j, slot_of_words w (6 + 87 * j)) (seq 0 MAX_TASKS)) as [ts|] eqn:Hts;
    [|done]. intros Heq. apply (inj Some) in Heq. subst s. cbn [st_sched tasks].
  apply mapM_Some_1 in Hts. split; [|by apply Forall2_length in Hts; rewrite length_seq in Hts].
  intros o Ho. destruct (Forall2_lookup_r _ _ _ _ _ Hts Ho) as (x & Hx & Hs).
  apply lookup_seq in Hx as [-> Hlt]. done.
Qed.

Lemma statics_assign w w' s j t :
  statics_of_words w = Some s → task_of (st_sched s) j = Some t →
  (∀ i, (i < 9 + 87 * j ∨ 42 + 87 * j ≤ i)%nat → w' i = w i) →
  statics_of_words w' = Some (put_context j (context_of_words (λ i, w' (9 + 87 * j + i)%nat)) s).
Proof.
  intros Hs Ht Hw. pose proof (λ i, statics_slot w s i Hs) as Hsl. destruct (Hsl 0%nat) as [_ Hn].
  apply task_of_lookup in Ht. destruct (proj1 (Hsl j) _ Ht) as [Hj Htj].
  assert (mapM (λ i, slot_of_words w' (6 + 87 * i)) (seq 0 MAX_TASKS) =
    Some (tasks (upd_context (λ _, context_of_words (λ i, w' (9 + 87 * j + i)%nat)) j (st_sched s)))) as Hm.
  { apply mapM_seq_Some; [by rewrite <- Hn; apply length_upd_task|]. intros i o.
    unfold upd_context, upd_task. cbn [tasks]. rewrite list_lookup_alter. case_decide as Hij.
    - subst i. rewrite Ht. intros Ho. apply (inj Some) in Ho. subst o.
      rewrite (slot_assign w w' _ t Htj) by (intros i Hi; apply Hw; lia).
      rewrite (context_of_words_ext _ (λ i, w' (9 + 87 * j + i)%nat)); [done|]. intros. f_equal. lia.
    - intros Ho. rewrite <- (proj2 (proj1 (Hsl i) _ Ho)). apply slot_of_words_ext. intros. apply Hw.
      destruct (Nat.lt_ge_cases i j); lia. }
  unfold statics_of_words in *. rewrite Hm. unfold current_of_words in *. rewrite !Hw by lia.
  destruct (if w 4%nat =? 0 then _ else _) as [cur|]; [|done]. cbn [mbind option_bind] in *.
  destruct (mapM (λ i, slot_of_words w (6 + 87 * i)) (seq 0 MAX_TASKS)) as [ts|]; [|done].
  apply (inj Some) in Hs. by subst s.
Qed.

Lemma store_from_bytes a k vs m : bytes_in m → bytes_in (store_from a k vs m).
Proof.
  revert k m. induction vs as [|v vs IH]; intros k m Hm; [done|]. apply IH. intros x. unfold store64.
  destruct (_ && _); [apply byte_of_range|apply Hm].
Qed.

(** ** The law *)

Lemma word_placement_ok `{I : Image} `{IO : !ImageOk I} :
  8 * Z.of_nat statics_words ≤ bss_size → PlacementOk I word_placement.
Proof.
  intros Hbss. assert (∀ w m s j t, read_statics (Placement := word_placement) m = Some s →
    task_of (st_sched s) j = Some t → w = (λ i, load64 (_sbss + 8 * Z.of_nat i) m) →
    (j < MAX_TASKS)%nat ∧ slot_of_words w (6 + 87 * j) = Some (Some t)) as Hslot.
  { intros w m s j t Hs Ht%task_of_lookup ->. by apply (statics_slot _ s j Hs). }
  constructor; cbn [statics_lo statics_hi read_statics context_at word_placement].
  - destruct (align_up_spec _edata 4096) as [Ha _]; [lia|]. fold _sbss in Ha. pose proof data_nonneg.
    unfold _ebss, _edata, statics_words in *. lia.
  - intros m m' Hm. apply statics_of_words_ext. intros i Hi. apply load64_ext. intros x Hx. apply Hm. lia.
  - intros s m Hs Hm. exists (store_from _sbss 0 (words_of_statics s) m).
    split; [by apply store_from_bytes|]. split; [|intros x Hx; apply store_from_out; rewrite words_of_statics_length by done; lia].
    rewrite <- (words_of_statics_decode s Hs). apply statics_of_words_ext. intros i Hi.
    rewrite <- (words_of_statics_length s) in Hi by done. destruct (lookup_lt_is_Some_2 _ _ Hi) as [v Hv]. rewrite Hv.
    apply (load_store_from _ 0); [by apply words_of_statics_typed|done].
  - intros s m j t Hs Ht. destruct (Hslot _ m s j t Hs Ht eq_refl) as [Hj Htj]. unfold MAX_TASKS, statics_words in *.
    split; [lia|]. split; [lia|]. unfold context_in. rewrite (slot_context _ _ _ Htj), context_of_words_list.
    apply list_fmap_ext. intros i x [-> _]%lookup_seq. f_equal. lia.
  - intros s m j t c m' Hs Ht Hm Hc. destruct (Hslot _ m s j t Hs Ht eq_refl) as [Hj _].
    rewrite (statics_assign _ (λ i, load64 (_sbss + 8 * Z.of_nat i) m') s j t Hs Ht).
    + do 2 f_equal. apply context_of_words_eq. rewrite <- Hc. apply list_fmap_ext. intros i x [-> _]%lookup_seq.
      f_equal. lia.
    + intros i Hi. apply load64_ext. intros x Hx. apply Hm. lia.
Qed.
