(* ===== verification/TrapPath.v ===== *)
(** The trap path of the machine: hardware, assembly and handler together.

    File Asm runs the two halves of [trap_vector] on registers and memory, file
    Trap runs [trap_handler] on a frame and the kernel state, and file System
    takes a trap to be the handler applied to the registers.  Here the three are
    joined.  A machine state has the registers, the memory and the kernel; a trap
    is the hardware's entry, the entry code, the call of the handler on the frame
    in memory under the C calling convention, the exit code and [mret].  The
    machine refines the system.

    The kernel state is a record beside the memory here; file Resident puts it
    into the memory.  The frame of a trap is assumed to fit below the interrupted
    stack pointer. *)

From S2P Require Import Prelude Config Machine Serial PmpHw Linker Pmp PmpAccess Sync Timer.
From S2P Require Import Allocator Registers Policy Task Kernel Scheduler SchedulerProps Trap Asm.
From S2P Require Import Boot System Widths.

Local Open Scope Z_scope.

#[local] Arguments csr_get : simpl never.
#[local] Arguments csr_put : simpl never.

(** ** The machine *)

Record Mach := mkMach { m_rf : reg → Z; m_mem : memory; m_k : Kernel; m_pc : Z; m_mode : priv }.

(** What the system model sees of it. *)
Definition abs (m : Mach) : Sys := mkSys (m_k m) (frame_of (m_rf m)) (m_pc m) (m_mode m).

Definition with_csrs (c : CsrFile) (k : Kernel) : Kernel := hw_upd (hw_set_csrs c (k_hw k)) k.

(** Trap entry of the hardware: the CSRs are set and [mtvec] is fetched. *)
Definition enter (m : Mach) (cause tval : Z) : cpu :=
  mkCpu (m_rf m) (m_mem m) (trap_csrs (m_mode m) (m_pc m) cause tval (csrs (k_hw (m_k m))))
    (csr_get Mtvec (csrs (k_hw (m_k m)))) PmpHw.MMode.

(** [call trap_handler]: [a0] points to the frame, the handler works on it and
    on the kernel state, and returns with the stack pointer and the saved
    registers of the calling convention.  Its own stack is below the frame, so
    above the frame it stores only where the statics are ([priv]). *)
Definition callee_saved : list reg := [Sp; Gp; Tp; S0; S1; S2; S3; S4; S5; S6; S7; S8; S9; S10; S11].

Record handler_call `{E : Env} `{B : SerialBackend} (priv : Z → Prop) (k : Kernel) (c : cpu) (k' : Kernel) (c' : cpu)
    (frame frame' : TrapFrame.t) : Prop := {
  hc_frame : frame_in (rf c A0) (mem c) frame;
  hc_run : trap_handler frame k = Ok frame' k';
  hc_frame' : frame_in (rf c A0) (mem c') frame';
  hc_saved : ∀ r, r ∈ callee_saved → rf c' r = rf c r;
  hc_csrs : cf c' = csrs (k_hw k');
  hc_mem : ∀ x, rf c A0 + 248 ≤ x → ¬ priv x → mem c' x = mem c x;
}.

(** A whole trap, from the interrupted instruction to the one resumed. *)
Definition trap_path `{E : Env} `{B : SerialBackend} (priv : Z → Prop) (m : Mach) (cause tval : Z) (m' : Mach) : Prop :=
  let c1 := exec trap_vector_entry (enter m cause tval) in
  ∃ k' c2 frame frame', handler_call priv (with_csrs (cf c1) (m_k m)) c1 k' c2 frame frame' ∧
    let c3 := exec trap_vector_exit c2 in
    m' = mkMach (rf c3) (mem c3) (with_csrs (cf c3) k') (pc c3) (mode c3).

(** Registers hold doublewords and memory holds bytes. *)
Record mach_ok (m : Mach) : Prop := {
  mo_regs : ∀ r, u64 (m_rf m r);
  mo_mem : ∀ x, u8 (m_mem m x);
}.

(** The steps: code outside the handler computes and stores what the PMP
    permits, and traps. *)
Inductive mach_step `{E : Env} `{B : SerialBackend} : Mach → Mach → Prop :=
| ms_run m rf' mem' pc' :
    (∀ r, u64 (rf' r)) → (∀ x, u8 (mem' x)) →
    (∀ x, mem' x ≠ m_mem m x → pmp_check (pmp (k_hw (m_k m))) (m_mode m) AccW x 1 = true) →
    0 ≤ pc' < 2 ^ 64 - 4 →
    mach_step m (mkMach rf' mem' (m_k m) pc' (m_mode m))
| ms_trap m cause tval m' :
    may_trap (abs m) cause → 256 ≤ m_rf m Sp → trap_path (λ _, True) m cause tval m' →
    (∀ x, u8 (m_mem m' x)) → 0 ≤ m_pc m' < 2 ^ 64 - 4 →
    mach_step m m'.

(** ** Lemmas *)

Lemma load64_u64 a m : (∀ x, u8 (m x)) → u64 (load64 a m).
Proof.
  intros Hm. unfold load64. set (l := _ <$> seq 0 8).
  assert (Forall u8 l) as Hl by (apply Forall_fmap, Forall_true; intros; apply Hm). exact (pack_width l Hl).
Qed.

Lemma frame_in_typed a m f : (∀ x, u8 (m x)) → frame_in a m f → frame_typed f.
Proof.
  intros Hm Hf. unfold frame_typed. rewrite <- Hf. apply Forall_fmap, Forall_true.
  intros i. by apply load64_u64.
Qed.

Lemma frame_of_typed r : frame_typed (frame_of r) ↔ ∀ x, u64 (r x).
Proof.
  unfold frame_typed. rewrite frame_of_list, Forall_fmap. split.
  - intros H x. eapply Forall_forall in H; [exact H|]. destruct x; by_evaluation.
  - intros H. by apply Forall_true.
Qed.

Lemma frame_in_inj a m f f' : frame_in a m f → frame_in a m f' → f = f'.
Proof. unfold frame_in. intros -> Heq. destruct f, f'. injection Heq. by intros; subst. Qed.

Lemma frame_stored a f m : frame_typed f → frame_in a (store_from a 0 (TrapFrame.to_list f) m) f.
Proof.
  intros Hf. pose proof (words_store_from a _ m Hf) as Hw. by rewrite trap_frame_size in Hw.
Qed.

Section path.
Context `{E : Env} `{B : SerialBackend}.

(** The entry code hands the handler the registers of the interrupted code, and
    the kernel the system model describes. *)
Lemma path_entry m cause tval : 256 ≤ m_rf m Sp → mach_ok m →
  let c1 := exec trap_vector_entry (enter m cause tval) in
  rf c1 A0 = m_rf m Sp - 256 ∧ rf c1 Sp = rf c1 A0 ∧ frame_in (rf c1 A0) (mem c1) (frame_of (m_rf m)) ∧
  with_csrs (cf c1) (m_k m) = trapped_kernel (abs m) cause tval.
Proof.
  intros Hsp [Hr Hb] c1. destruct (entry_run (enter m cause tval)) as (Hm & Ha & Hs & _ & Hcf & _).
  { split; [done|apply Hr]. }
  fold c1 in Hm, Ha, Hs, Hcf. clearbody c1. cbn [rf mem cf enter] in *.
  split; [done|]. split; [congruence|]. split; [|by rewrite Hcf].
  unfold frame_in. rewrite frame_of_list, Ha, Hm. change 31%nat with (length (m_rf m <$> gpr_order)).
  apply words_store_from, Forall_fmap, Forall_true. exact Hr.
Qed.

(** The exit code resumes with the frame it is given. *)
Lemma path_exit a c2 frame' k' :
  0 ≤ a → a + 248 ≤ 2 ^ 64 → rf c2 Sp = a → frame_in a (mem c2) frame' → cf c2 = csrs (k_hw k') →
  let c3 := exec trap_vector_exit c2 in
  abs (mkMach (rf c3) (mem c3) (with_csrs (cf c3) k') (pc c3) (mode c3)) = returned k' frame' ∧ mem c3 = mem c2.
Proof.
  intros H0 Ha Hs Hf Hcf. destruct (exit_run c2 frame') as (H1 & H2 & H3 & H4 & H5); [by rewrite Hs..|].
  intros c3. unfold abs, returned. cbn [m_k m_rf m_pc m_mode]. fold c3 in H1, H2, H3, H4, H5.
  clearbody c3. rewrite H1, H3, H4, H5, Hcf. done.
Qed.

Lemma path_entry_mem m cause tval x :
  256 ≤ m_rf m Sp → mach_ok m → x < m_rf m Sp - 256 ∨ m_rf m Sp - 8 ≤ x →
  mem (exec trap_vector_entry (enter m cause tval)) x = m_mem m x.
Proof.
  intros Hsp Hok Hx. destruct (entry_run (enter m cause tval)) as (Hm & _).
  { split; [done|apply Hok]. }
  rewrite Hm. cbn [rf mem enter]. apply store_from_out. rewrite length_fmap. simpl. lia.
Qed.

Lemma path_returns priv m cause tval m' : 256 ≤ m_rf m Sp → mach_ok m → trap_path priv m cause tval m' →
  ∃ frame' k', trap_handler (s_gpr (abs m)) (trapped_kernel (abs m) cause tval) = Ok frame' k' ∧
    abs m' = returned k' frame' ∧ frame_in (m_rf m Sp - 256) (m_mem m') frame' ∧
    ∀ x, m_rf m Sp - 8 ≤ x → ¬ priv x → m_mem m' x = m_mem m x.
Proof.
  intros Hsp Hok. pose proof (path_entry m cause tval Hsp Hok) as (Ha & Hs & Hf & Hk).
  assert (∀ x, m_rf m Sp - 8 ≤ x → mem (exec trap_vector_entry (enter m cause tval)) x = m_mem m x) as Hup
    by (intros; apply path_entry_mem; auto). cbn zeta in *.
  intros (k' & c2 & frame & frame' & [Hf1 Hrun Hf2 Hsv Hcf Hout] & ->).
  set (c1 := exec trap_vector_entry _) in *. clearbody c1.
  rewrite Hk in Hrun. rewrite (frame_in_inj _ _ _ _ Hf1 Hf) in Hrun.
  pose proof (mo_regs _ Hok Sp) as [_ Hhi].
  destruct (path_exit (rf c1 A0) c2 frame' k') as [Habs Hmem]; [lia|lia| |done|done|].
  { rewrite Hsv by (left; done). done. }
  exists frame', k'. split; [exact Hrun|]. split; [done|]. cbn [m_mem]. rewrite Hmem. split; [by rewrite <- Ha|].
  intros x Hx Hp. rewrite Hout by (done || lia). by apply Hup.
Qed.

Lemma trap_path_mono (priv priv' : Z → Prop) m cause tval m' :
  (∀ x, priv x → priv' x) → trap_path priv m cause tval m' → trap_path priv' m cause tval m'.
Proof.
  intros Hsub (k' & c2 & f & f' & [] & Hm). exists k', c2, f, f'. split; [|exact Hm]. constructor; try done. auto.
Qed.

Lemma mach_step_sim m m' : mach_ok m → mach_step m m' → mach_ok m' ∧ sys_step (abs m) (abs m').
Proof.
  intros Hok Hstep. revert Hok.
  destruct Hstep as [m1 rf' mem' pc' Hr Hb _ Hpc|m1 cause tval m2 Hmay Hsp Hpath Hb Hpc]; intros Hok.
  - split; [done|]. by apply step_run.
  - destruct (path_returns _ _ _ _ _ Hsp Hok Hpath) as (frame' & k' & Hrun & Habs & Hf & _).
    assert (frame_typed (frame_of (m_rf m2))) as Hty.
    { change (frame_of (m_rf m2)) with (s_gpr (abs m2)). rewrite Habs. by eapply frame_in_typed. }
    split; [by constructor; [apply frame_of_typed|]|]. rewrite Habs. eapply step_trap; [done|exact Hrun|].
    change (m_pc m2) with (s_pc (abs m2)) in Hpc. by rewrite Habs in Hpc.
Qed.

Lemma trap_mstatus_u64 m v : u64 v → u64 (trap_mstatus m v).
Proof.
  intros Hv. unfold trap_mstatus. apply in_width_lor; [done| |destruct m; split; vm_compute; congruence].
  apply in_width_ldiff, in_width_ldiff; [done..|].
  destruct (Z.testbit v 3); [by apply in_width_lor|by apply in_width_ldiff].
Qed.

Lemma mret_mstatus_u64 v : u64 v → u64 (mret_mstatus v).
Proof.
  intros Hv. unfold mret_mstatus. apply in_width_lor; [done| |by split].
  apply in_width_ldiff; [done|]. destruct (Z.testbit v 7); [by apply in_width_lor|by apply in_width_ldiff].
Qed.

Lemma trapped_typed s cause tval :
  kernel_typed (s_k s) → frame_typed (s_gpr s) → u64 (s_pc s) → u64 cause → u64 tval →
  kernel_typed (trapped_kernel s cause tval).
Proof.
  intros [Hh ? ? ? ? ?] Hf Hpc Hc Ht. constructor; try done. cbn [trapped_kernel hw_upd Kernel_HasHw k_hw].
  assert (u64 (TrapFrame.sp (s_gpr s))) as Hsp
    by (eapply (Forall_lookup_1 u64 _ 30); [exact Hf|reflexivity]).
  pose proof (ht_csrs _ Hh Mstatus) as Hms. destruct Hh as [Hcs ? ? ?]. constructor; try done.
  intros c. cbn [csrs hw_set_csrs]. unfold trap_csrs. destruct c;
    repeat first [rewrite csr_get_put_eq|rewrite csr_get_put_ne by done]; try done; try apply Hcs.
  by apply trap_mstatus_u64.
Qed.

(** Whatever memory the handler leaves below the frame and in the statics, the
    exit code ends in the state it returned. *)
Lemma handler_return (priv : Z → Prop) c1 k frame frame' k' mem2 :
  0 ≤ rf c1 A0 → rf c1 A0 + 256 < 2 ^ 64 → rf c1 Sp = rf c1 A0 → frame_in (rf c1 A0) mem2 frame' →
  frame_in (rf c1 A0) (mem c1) frame → (∀ x, rf c1 A0 + 248 ≤ x → ¬ priv x → mem2 x = mem c1 x) →
  trap_handler frame k = Ok frame' k' →
  ∃ c2, handler_call priv k c1 k' c2 frame frame' ∧
    let c3 := exec trap_vector_exit c2 in
    abs (mkMach (rf c3) (mem c3) (with_csrs (cf c3) k') (pc c3) (mode c3)) = returned k' frame' ∧ mem c3 = mem2.
Proof.
  intros H0 Ha Hs Hf' Hf Hout Hrun. set (c2 := mkCpu (rf c1) mem2 (csrs (k_hw k')) (pc c1) (mode c1)).
  destruct (path_exit (rf c1 A0) c2 frame' k') as [Habs Hmem]; [lia|lia|done|done|done|].
  exists c2. split; [by constructor|]. by split.
Qed.

Lemma path_exists_with (priv : Z → Prop) m cause tval frame' k' mem2 :
  256 ≤ m_rf m Sp → mach_ok m → frame_in (m_rf m Sp - 256) mem2 frame' →
  (∀ x, m_rf m Sp - 8 ≤ x → ¬ priv x → mem2 x = m_mem m x) →
  trap_handler (s_gpr (abs m)) (trapped_kernel (abs m) cause tval) = Ok frame' k' →
  ∃ m', trap_path priv m cause tval m' ∧ abs m' = returned k' frame' ∧ m_mem m' = mem2.
Proof.
  intros Hsp Hok Hf' Hout Hrun. pose proof (path_entry m cause tval Hsp Hok) as (Ha & Hs & Hf & Hke).
  assert (∀ x, m_rf m Sp - 8 ≤ x → mem (exec trap_vector_entry (enter m cause tval)) x = m_mem m x) as Hup
    by (intros; apply path_entry_mem; auto).
  pose proof (mo_regs _ Hok Sp) as [_ Hhi]. unfold trap_path. revert Ha Hs Hf Hke Hup.
  generalize (exec trap_vector_entry (enter m cause tval)) as c1. intros c1 Ha Hs Hf Hke Hup.
  rewrite <- Hke in Hrun. rewrite <- Ha in Hf'.
  destruct (handler_return priv c1 (with_csrs (cf c1) (m_k m)) (frame_of (m_rf m)) frame' k' mem2 ltac:(lia) ltac:(lia) Hs Hf' Hf)
    as (c2 & Hcall & Habs & Hmem); [intros x Hx Hp; rewrite Hout, Hup by (done || lia); done|exact Hrun|].
  eexists. split; [by exists k', c2, (frame_of (m_rf m)), frame'|]. by split.
Qed.

Context `{ST : !SerialTyped B}.

(** A handler keeps the types, from the registers and the trapped kernel on. *)
Lemma handler_typed m cause tval frame' k' :
  mach_ok m → kernel_typed (m_k m) → u64 (m_pc m) → u64 cause → u64 tval →
  trap_handler (s_gpr (abs m)) (trapped_kernel (abs m) cause tval) = Ok frame' k' →
  frame_typed frame' ∧ kernel_typed k'.
Proof.
  intros Hok Hk Hpc Hc Ht Hrun.
  assert (frame_typed (frame_of (m_rf m))) as Hty by (apply frame_of_typed, Hok).
  pose proof (keeps_trap_handler (s_gpr (abs m)) Hty _ (trapped_typed (abs m) cause tval Hk Hty Hpc Hc Ht)) as Hk'.
  by rewrite Hrun in Hk'.
Qed.
End path.

(** ** Properties *)

(** C19: the trap path is the handler.  Take a machine whose registers hold
    doublewords, with room for a frame below the stack pointer.  Whatever a trap
    through hardware, assembly, memory and handler ends in is the state in which
    the handler, applied directly to the registers, returns, and no memory has
    changed from eight bytes below the interrupted stack pointer upwards, but
    where the handler has its statics ([priv]); and whenever that handler returns,
    the trap can be carried out.  The entry code runs to its end exactly when the
    PMP lets machine mode store the 31 words of the frame, and the exit code, run
    from the stack pointer it was left with, exactly when it may load them. *)
Theorem trap_path_exact `{E : Env} `{B : SerialBackend} `{ST : !SerialTyped B} (priv : Z → Prop) m cause tval :
  256 ≤ m_rf m Sp → mach_ok m → kernel_typed (m_k m) → u64 (m_pc m) → u64 cause → u64 tval →
  let direct := trap_handler (s_gpr (abs m)) (trapped_kernel (abs m) cause tval) in
  let a := m_rf m Sp - 256 in
  let entered := exec trap_vector_entry (enter m cause tval) in
  (∀ m', trap_path priv m cause tval m' →
     (∃ frame' k', direct = Ok frame' k' ∧ abs m' = returned k' frame') ∧
     ∀ x, m_rf m Sp - 8 ≤ x → ¬ priv x → m_mem m' x = m_mem m x) ∧
  (∀ frame' k', direct = Ok frame' k' → ∃ m', trap_path priv m cause tval m' ∧ abs m' = returned k' frame') ∧
  (∀ p, exec_checked p trap_vector_entry (enter m cause tval) = if frame_open p AccW a then Some entered else None) ∧
  (∀ p c2, rf c2 Sp = rf entered Sp → mode c2 = PmpHw.MMode →
     exec_checked p trap_vector_exit c2 = if frame_open p AccR a then Some (exec trap_vector_exit c2) else None).
Proof.
  intros Hsp Hok Hk Hpc Hc Ht direct a entered. pose proof (mo_regs _ Hok Sp) as [_ Hhi]. split; [|split; [|split]].
  - intros m' Hp. destruct (path_returns _ _ _ _ _ Hsp Hok Hp) as (f & k' & H1 & H2 & _ & H3). split; [by exists f, k'|done].
  - intros frame' k' Hrun. destruct (handler_typed m cause tval frame' k') as [Hf' _]; [done..|].
    destruct (path_exists_with priv m cause tval frame' k' (store_from (m_rf m Sp - 256) 0 (TrapFrame.to_list frame') (m_mem m)))
      as (m' & Hp & Habs & _); [done|done|by apply frame_stored| |done|by exists m'].
    intros x Hx _. apply store_from_out. rewrite trap_frame_size. lia.
  - intros p. by apply (entry_checked p (enter m cause tval)).
  - intros p c2 Hs Hm. destruct (path_entry m cause tval Hsp Hok) as (Ha & Hse & _). fold entered in Ha, Hse.
    assert (rf c2 Sp = a) as Hc2 by (rewrite Hs, Hse; exact Ha). rewrite <- Hc2.
    apply exit_checked; [rewrite Hc2; unfold a; lia..|done].
Qed.

(** The machine refines the system.  Every run of the machine, with tasks
    that compute and store as the PMP permits and with traps taken through
    memory, is a run of the system model; so what holds in all reachable states
    of the system holds of the machine. *)
Lemma machine_refines_system `{E : Env} `{B : SerialBackend} m m' :
  mach_ok m → rtc mach_step m m' → mach_ok m' ∧ rtc sys_step (abs m) (abs m').
Proof.
  intros Hok Hr. induction Hr as [m|m1 m2 m3 Hstep _ IH]; [done|].
  destruct (mach_step_sim _ _ Hok Hstep) as [Hok2 Hs]. destruct (IH Hok2) as [Hok3 Hrs].
  split; [done|]. by eapply rtc_l.
Qed.

(** ** Witnesses *)

Module path_sample.
#[local] Instance env : Env := quiet_board true.

(** A machine at reset with its stack pointer in the kernel stack. *)
Definition start : Mach := mkMach (λ _, 0x80010000) (λ _, 0) reset_kernel 0x80000400 PmpHw.MMode.

Lemma start_ok : mach_ok start.
Proof. split; intros; split; vm_compute; congruence. Qed.

(** An external interrupt, which prints a line, is carried out in memory; at
    reset the PMP refuses nothing to machine mode. *)
Lemma trap_path_exact_witness :
  (∃ m', trap_path (λ _, False) start (2 ^ 63 + 11) 0 m' ∧ s_gpr (abs m') = frame_of (m_rf start) ∧
    ∀ x, 0x80010000 ≤ x → m_mem m' x = 0) ∧
  exec_checked (pmp (k_hw reset_kernel)) trap_vector_entry (enter start (2 ^ 63 + 11) 0) =
    Some (exec trap_vector_entry (enter start (2 ^ 63 + 11) 0)).
Proof.
  destruct (trap_path_exact (λ _, False) start (2 ^ 63 + 11) 0) as (Hall & Hex & Hpmp & _).
  - vm_compute. congruence.
  - exact start_ok.
  - exact widths_sample.reset_typed.
  - split; vm_compute; congruence.
  - split; vm_compute; congruence.
  - split; vm_compute; congruence.
  - split.
    + destruct (trap_handler (s_gpr (abs start)) (trapped_kernel (abs start) (2 ^ 63 + 11) 0)) as [f k|e k|k] eqn:Hrun.
      * destruct (Hex f k eq_refl) as (m' & Hp & Habs). exists m'. split; [exact Hp|]. split.
        -- rewrite Habs. change (s_gpr (returned k f)) with f. revert Hrun. vm_compute. congruence.
        -- intros x Hx. apply (proj2 (Hall m' Hp)); [cbn [start m_rf]; lia|intros []].
      * exfalso. revert Hrun. vm_compute. congruence.
      * exfalso. revert Hrun. vm_compute. congruence.
    + rewrite Hpmp. assert (frame_open (pmp (k_hw reset_kernel)) AccW (m_rf start Sp - 256) = true) as ->
        by (vm_compute; reflexivity). reflexivity.
Defined.
End path_sample.
