(* ===== verification/Resident.v ===== *)
(** The machine with the kernel's statics in its memory.

    File TrapPath has the kernel state as a record beside the memory.  Here the
    statics are where the compiler puts them ([Class Placement]): a state is the
    registers, the memory and the hardware, the stores of a task may change the
    statics, and a trap handler works on what it reads there.  As long as the
    tasks store elsewhere, the machine refines the system; file Escalation shows
    that this condition cannot be dropped. *)

From S2P Require Import Prelude Config Machine Serial PmpHw Linker Pmp PmpAccess Sync Timer.
From S2P Require Import Allocator Registers Policy Task Kernel Scheduler SchedulerProps Trap Asm.
From S2P Require Import Boot System Isolation Widths Placement TrapPath.

Local Open Scope Z_scope.

#[local] Arguments csr_get : simpl never.
#[local] Arguments csr_put : simpl never.

(** ** The machine *)

Record RMach := mkRMach { r_rf : reg → Z; r_mem : memory; r_hw : Hw; r_pc : Z; r_mode : priv }.

Definition mach_of (r : RMach) (k : Kernel) : Mach := mkMach (r_rf r) (r_mem r) k (r_pc r) (r_mode r).

Definition res_of (m : Mach) : RMach := mkRMach (m_rf m) (m_mem m) (k_hw (m_k m)) (m_pc m) (m_mode m).

(** [k] is the kernel that the hardware and the statics in memory are. *)
Definition kernel_in `{P : Placement} (m : memory) (h : Hw) (k : Kernel) : Prop :=
  k_hw k = h ∧ read_statics m = Some (statics_of k).

(** The addresses of the statics, and the others. *)
Definition in_statics `{P : Placement} (x : Z) : Prop := statics_lo ≤ x < statics_hi.
Definition off_statics `{P : Placement} (x : Z) : Prop := x < statics_lo ∨ statics_hi ≤ x.

(** The frame of a trap lies beside the statics. *)
Definition frame_clear `{P : Placement} (r : RMach) : Prop :=
  256 ≤ r_rf r Sp ∧ apart statics_lo statics_hi (r_rf r Sp - 256) 248.

(** A trap carried out by the machine: the statics are read after the frame has
    been stored, and the handler leaves in memory those of the kernel it returns. *)
Definition trap_taken `{E : Env} `{B : SerialBackend} `{P : Placement} (r : RMach) (cause tval : Z) (r' : RMach) : Prop :=
  ∃ k m', frame_clear r ∧ may_trap (abs (mach_of r k)) cause ∧ u64 tval ∧
    kernel_in (mem (exec trap_vector_entry (enter (mach_of r k) cause tval))) (r_hw r) k ∧
    trap_path in_statics (mach_of r k) cause tval m' ∧
    kernel_in (m_mem m') (k_hw (m_k m')) (m_k m') ∧ bytes_in (m_mem m') ∧ 0 ≤ m_pc m' < 2 ^ 64 - 4 ∧ r' = res_of m'.

(** The steps: code outside the handler computes, and stores what the PMP permits
    at the addresses [may]; a trap. *)
Inductive res_step `{E : Env} `{B : SerialBackend} `{P : Placement} (may : Z → Prop) : RMach → RMach → Prop :=
| rs_run r rf' mem' pc' :
    (∀ x, u64 (rf' x)) → bytes_in mem' →
    (∀ x, mem' x ≠ r_mem r x → pmp_check (pmp (r_hw r)) (r_mode r) AccW x 1 = true ∧ may x) →
    0 ≤ pc' < 2 ^ 64 - 4 →
    res_step may r (mkRMach rf' mem' (r_hw r) pc' (r_mode r))
| rs_trap r cause tval r' : trap_taken r cause tval r' → res_step may r r'.

(** The machine stands for the system state with kernel [k]. *)
Record holds `{P : Placement} (r : RMach) (k : Kernel) : Prop := {
  ho_mach : mach_ok (mach_of r k);
  ho_kernel : kernel_in (r_mem r) (r_hw r) k;
  ho_typed : kernel_typed k;
  ho_pc : 0 ≤ r_pc r < 2 ^ 64 - 4;
}.

Definition sys_of (r : RMach) (k : Kernel) : Sys := abs (mach_of r k).

(** ** Lemmas *)

Section resident.
Context `{E : Env} `{B : SerialBackend} `{ST : !SerialTyped B} `{I : Image} `{IO : !ImageOk I}.
Context `{P : Placement} `{PO : !PlacementOk I P}.

Lemma kernel_in_local m m' h k :
  (∀ x, statics_lo ≤ x < statics_hi → m' x = m x) → kernel_in m h k → kernel_in m' h k.
Proof. intros Hm [Hh Hs]. split; [done|]. by rewrite (pl_local m m'). Qed.

Lemma kernel_in_inj m h k k' : kernel_in m h k → kernel_in m h k' → k = k'.
Proof.
  intros [H1 H2] [H3 H4]. rewrite H2 in H4. apply (inj Some) in H4.
  by rewrite <- (with_statics_of k), <- (with_statics_of k'), H1, H3, H4.
Qed.

(** Storing the frame of a clear trap does not touch the statics. *)
Lemma entry_statics r k k' cause tval : frame_clear r → mach_ok (mach_of r k) →
  kernel_in (mem (exec trap_vector_entry (enter (mach_of r k') cause tval))) (r_hw r) k' ↔ kernel_in (r_mem r) (r_hw r) k'.
Proof.
  intros [Hsp Hap] Hok.
  assert (∀ x, statics_lo ≤ x < statics_hi →
    mem (exec trap_vector_entry (enter (mach_of r k') cause tval)) x = r_mem r x) as Hm.
  { intros x Hx. apply (path_entry_mem (mach_of r k')); [done|by destruct Hok|].
    unfold apart in Hap. cbn [mach_of m_rf]. lia. }
  split; apply kernel_in_local; [symmetry|]; auto.
Qed.

(** The sections of the statics lie in the kernel's data. *)
Lemma statics_in_data : _user_text_end ≤ statics_lo ∧ statics_hi ≤ _sstack ∧ statics_hi ≤ _eheap.
Proof using PO IO.
  pose proof pl_sections as (Hlo & _ & Hhi). pose proof rodata_nonneg.
  destruct (align_up_spec _user_text_end 4096) as [H1 _]; [lia|]. fold _srodata in H1.
  destruct (align_up_spec _erodata 4096) as [H2 _]; [lia|]. fold _sdata in H2.
  destruct (align_up_spec _ebss 4096) as [H3 _]; [lia|]. fold _sstack in H3.
  pose proof data_layout as (_ & H4 & H5 & _). unfold _erodata, KERNEL_STACK_SIZE, KERNEL_HEAP_SIZE in *. lia.
Qed.

(** A frame in the kernel stack or in the stack of a task is clear. *)
Lemma stack_frame_clear r : _sstack + 256 ≤ r_rf r Sp → frame_clear r.
Proof using PO IO.
  intros Hsp. pose proof statics_in_data as (Hlo & Hhi & _). pose proof text_layout as (Ht & Ht2 & _).
  pose proof pl_sections as (_ & Hord & _). rewrite _stext_val in Ht. split; [lia|]. right. lia.
Qed.

(** ** The steps *)

Lemma run_holds r k rf' mem' pc' :
  holds r k → (∀ x, u64 (rf' x)) → bytes_in mem' → (∀ x, mem' x ≠ r_mem r x → off_statics x) →
  0 ≤ pc' < 2 ^ 64 - 4 → holds (mkRMach rf' mem' (r_hw r) pc' (r_mode r)) k.
Proof.
  intros [Hm Hk Ht _] Hr Hb Hx Hpc. constructor; [by constructor| |done|done].
  eapply kernel_in_local; [|exact Hk]. intros x Hin. cbn [r_mem].
  destruct (decide (mem' x = r_mem r x)) as [|Hne]; [done|]. specialize (Hx x Hne). unfold off_statics in Hx. lia.
Qed.

(** What a trap leaves: typed, and the state the handler returns. *)
Lemma path_holds r k cause tval m' :
  holds r k → frame_clear r → u64 cause → u64 tval → trap_path in_statics (mach_of r k) cause tval m' →
  kernel_in (m_mem m') (k_hw (m_k m')) (m_k m') → bytes_in (m_mem m') → 0 ≤ m_pc m' < 2 ^ 64 - 4 →
  holds (res_of m') (m_k m').
Proof.
  intros [Hm Hk Ht Hpc] [Hsp _] Hc Htv Hp Hk' Hb Hpc'.
  destruct (path_returns in_statics (mach_of r k) cause tval m' Hsp Hm Hp) as (frame' & k' & Hrun & Habs & Hf & _).
  destruct (handler_typed (mach_of r k) cause tval frame' k' Hm Ht ltac:(split; cbn; lia) Hc Htv Hrun) as [Hty Htk].
  pose proof (f_equal s_k Habs : m_k m' = _) as Hmk. pose proof (f_equal s_gpr Habs : frame_of (m_rf m') = frame') as Hfr.
  constructor; [constructor| | |done]; cbn [res_of mach_of m_rf r_rf m_mem r_mem r_hw]; [|done|done|].
  - apply frame_of_typed. by rewrite Hfr.
  - rewrite Hmk. destruct Htk as [Hh ? ? ? ? ?]. constructor; try done. apply hw_typed_csr; [|done].
    apply mret_mstatus_u64, Hh.
Qed.

(** A trap of the machine is one of the system. *)
Lemma taken_sim r k cause tval r' :
  holds r k → trap_taken r cause tval r' →
  may_trap (sys_of r k) cause ∧
  ∃ frame' kh k', trap_handler (s_gpr (sys_of r k)) (trapped_kernel (sys_of r k) cause tval) = Ok frame' kh ∧
    holds r' k' ∧ sys_of r' k' = returned kh frame' ∧ 0 ≤ csr_get Mepc (csrs (k_hw kh)) < 2 ^ 64 - 4.
Proof.
  intros Hr (k1 & m' & Hcl & Hmay & Htv & Hk1 & Hp & Hk' & Hb & Hpc & ->).
  apply entry_statics with (k := k) in Hk1; [|done|apply Hr].
  assert (k1 = k) as -> by (eapply kernel_in_inj; [exact Hk1|apply Hr]). split; [exact Hmay|]. pose proof Hmay as [Hu _].
  destruct (path_returns in_statics (mach_of r k) cause tval m' (proj1 Hcl) (ho_mach _ _ Hr) Hp) as (f & kh & Hrun & Habs & _).
  exists f, kh, (m_k m'). split; [exact Hrun|].
  split; [exact (path_holds r k cause tval m' Hr Hcl Hu Htv Hp Hk' Hb Hpc)|].
  assert (sys_of (res_of m') (m_k m') = abs m') as -> by (by destruct m'). split; [exact Habs|].
  change (0 ≤ s_pc (returned kh f) < 2 ^ 64 - 4). rewrite <- Habs. exact Hpc.
Qed.

Lemma res_step_sim r k r' :
  holds r k → res_step off_statics r r' → ∃ k', holds r' k' ∧ sys_step (sys_of r k) (sys_of r' k').
Proof.
  intros Hr Hstep. revert Hr. destruct Hstep as [r rf' mem' pc' H1 H2 H3 H4|r cause tval r' Ht]; intros Hr.
  - exists k. split; [|exact (step_run k _ _ _ (frame_of rf') pc' H4)].
    apply run_holds; try done. intros x Hx. by destruct (H3 x Hx).
  - destruct (taken_sim r k cause tval r' Hr Ht) as (Hmay & f & kh & k' & Hrun & Hr' & Habs & Hpc).
    exists k'. split; [done|]. rewrite Habs. by eapply step_trap.
Qed.

(** A trap whose handler returns can be carried out, with the new statics and the
    frame written. *)
Lemma trap_exists r k cause tval frame' k' :
  holds r k → frame_clear r → may_trap (sys_of r k) cause → u64 tval →
  trap_handler (s_gpr (sys_of r k)) (trapped_kernel (sys_of r k) cause tval) = Ok frame' k' →
  0 ≤ csr_get Mepc (csrs (k_hw k')) < 2 ^ 64 - 4 →
  ∃ r' k2, trap_taken r cause tval r' ∧ holds r' k2 ∧ sys_of r' k2 = returned k' frame'.
Proof.
  intros Hr Hcl Hmay Htv Hrun Hpc. pose proof Hr as [Hm Hk Ht Hpc0]. pose proof Hmay as [Hu _].
  destruct (handler_typed (mach_of r k) cause tval frame' k' Hm Ht ltac:(split; cbn; lia) Hu Htv Hrun) as [Hty Htk].
  destruct (pl_store (statics_of k') (r_mem r)) as (m1 & Hb1 & Hs1 & Hm1); [by apply statics_of_typed|exact (mo_mem _ Hm)|].
  set (m2 := store_from (r_rf r Sp - 256) 0 (TrapFrame.to_list frame') m1).
  assert (bytes_in m2) as Hb2 by (by apply store_from_bytes).
  assert (read_statics m2 = Some (statics_of k')) as Hs2.
  { rewrite (pl_local m1 m2); [done|]. intros x Hx. apply store_from_out. rewrite trap_frame_size.
    destruct Hcl as [_ Hap]. unfold apart in Hap. lia. }
  destruct (path_exists_with in_statics (mach_of r k) cause tval frame' k' m2) as (m' & Hp & Habs & Hmem);
    [apply Hcl|done|by apply frame_stored| |done|].
  { intros x Hx Hns. unfold m2. cbn [mach_of m_rf m_mem] in *. rewrite store_from_out by (rewrite trap_frame_size; lia).
    apply Hm1. unfold in_statics in Hns. lia. }
  pose proof (f_equal s_k Habs : m_k m' = _) as Hmk. pose proof (f_equal s_pc Habs : m_pc m' = _) as Hmp.
  assert (kernel_in (m_mem m') (k_hw (m_k m')) (m_k m')) as Hk2 by (split; [done|]; by rewrite Hmem, Hs2, Hmk).
  rewrite <- Hmem in Hb2. assert (0 ≤ m_pc m' < 2 ^ 64 - 4) as Hpc2 by (by rewrite Hmp).
  exists (res_of m'), (m_k m'). split; [|split; [exact (path_holds r k cause tval m' Hr Hcl Hu Htv Hp Hk2 Hb2 Hpc2)|]].
  - exists k, m'. do 3 (split; [done|]). split; [by apply entry_statics with (k := k)|done].
  - rewrite <- Habs. by destruct m'.
Qed.

Lemma res_trap_exists may r k cause tval frame' k' :
  holds r k → frame_clear r → may_trap (sys_of r k) cause → u64 tval →
  trap_handler (s_gpr (sys_of r k)) (trapped_kernel (sys_of r k) cause tval) = Ok frame' k' →
  0 ≤ csr_get Mepc (csrs (k_hw k')) < 2 ^ 64 - 4 →
  ∃ r' k2, res_step may r r' ∧ holds r' k2 ∧ sys_of r' k2 = returned k' frame'.
Proof.
  intros. destruct (trap_exists r k cause tval frame' k') as (r' & k2 & Ht & H'); [done..|].
  exists r', k2. split; [by eapply rs_trap|done].
Qed.

(** More addresses, more steps. *)
Lemma res_step_mono (may may' : Z → Prop) r r' :
  (∀ x, may x → may' x) → res_step may r r' → res_step may' r r'.
Proof.
  intros Hsub [r1 rf' mem' pc' H1 H2 H3 H4|]; [|by eapply rs_trap].
  apply rs_run; try done. intros x Hx. destruct (H3 x Hx). auto.
Qed.

(** Every typed kernel can be in memory. *)
Lemma holds_exists k rf' pc' md : kernel_typed k → (∀ x, u64 (rf' x)) → 0 ≤ pc' < 2 ^ 64 - 4 →
  frame_clear (mkRMach rf' (λ _, 0) (k_hw k) pc' md) →
  ∃ mem, let r := mkRMach rf' mem (k_hw k) pc' md in holds r k ∧ frame_clear r.
Proof.
  intros Hk Hr Hpc Hcl. destruct (pl_store (statics_of k) (λ _, 0)) as (mem & Hb & Hs & _).
  - by apply statics_of_typed.
  - intros x. by split.
  - exists mem. intros r. split; [|exact Hcl]. constructor; [by constructor|by split|done|done].
Qed.
End resident.

(** ** Property *)


(** ** Witness *)

Module resident_sample.
#[local] Existing Instance system_sample.env.
#[local] Existing Instance sample_image.
#[local] Existing Instance trap_sample.clock.
#[local] Existing Instance word_placement.
Import system_sample.

#[export] Instance sample_placement_ok : PlacementOk sample_image word_placement.
Proof. apply word_placement_ok. vm_compute. congruence. Qed.

Lemma s0_typed : kernel_typed (s_k s0).
Proof.
  pose proof (keeps_kmain reset_kernel widths_sample.reset_typed) as Hk.
  rewrite s0_kmain in Hk. apply Hk.
Qed.

(** The sample board after boot, with the stack pointer in the kernel stack. *)
Definition boot_regs : reg → Z := λ _, 0x80010000.

Lemma resident_boot : ∃ mem, let r := mkRMach boot_regs mem (k_hw (s_k s0)) 0x80000400 PmpHw.MMode in
  holds r (s_k s0) ∧ frame_clear r.
Proof.
  apply holds_exists; [exact s0_typed| | |].
  - intros x. split; vm_compute; congruence.
  - split; vm_compute; congruence.
  - apply stack_frame_clear. vm_compute. congruence.
Qed.

End resident_sample.
