(* ===== verification/Guarded.v ===== *)
(** What a careful machine guarantees.

    The properties of the running system are stated here for the machine of file
    Resident, which has memory, the assembly of the trap path and the kernel's
    statics in that memory.  The PMP settings let a user task store on the
    statics, and the trap frame goes wherever the task's stack pointer is (files
    Escalation and TrapStores show what that costs), so the guarantees need two
    conditions, which are spelled out as [quiet] and [room]: the tasks store in
    ordinary memory beside the statics, and whenever an interrupt can come the
    stack pointer leaves room for a frame there.  Under them, privilege, the
    timer and the response time of [crates/kernel/src/trap.rs], [timer.rs] and
    [sched/scheduler.rs] hold of the machine.  An exception that is fatal for
    the kernel (see [trap_outcomes]) ends a run. *)

From S2P Require Import Prelude Config Machine Serial PmpHw Linker Pmp PmpAccess Sync Timer Allocator Registers Policy.
From S2P Require Import Task Kernel Scheduler SchedulerProps TaskSpec Trap Asm Boot System Progress Isolation Preemption.
From S2P Require Import Widths Placement TrapPath Resident.

Local Open Scope Z_scope.

#[local] Arguments csr_get : simpl never.
#[local] Arguments csr_put : simpl never.

(** ** The conditions *)

(** With the stack pointer at [sp], the frame lies in the data sections, the
    stacks or the heap, and beside the statics. *)
Definition frame_ok `{I : Image} `{P : Placement} (sp : Z) : Prop :=
  _user_text_end ≤ sp - 256 ∧ sp ≤ _eheap ∧ apart statics_lo statics_hi (sp - 256) 248.

Definition room `{I : Image} `{P : Placement} (r : RMach) : Prop := frame_ok (r_rf r Sp).

(** Ordinary memory beside the statics. *)
Definition quiet `{I : Image} `{P : Placement} (x : Z) : Prop := _user_text_end ≤ x < _eheap ∧ off_statics x.

(** A step with room for a frame, in which a task stores in ordinary memory. *)
Definition guarded_step `{E : Env} `{B : SerialBackend} `{I : Image} `{P : Placement} (r r' : RMach) : Prop :=
  room r ∧ res_step quiet r r'.

(** ** Runs in time *)

Section timed.
Context `{E : Env} `{B : SerialBackend} `{I : Image} `{P : Placement}.

(** A guarded step that is not the timer interrupt. *)
Inductive other_guarded : RMach → RMach → Prop :=
| og_run r rf' mem' pc' :
    (∀ x, u64 (rf' x)) → bytes_in mem' →
    (∀ x, mem' x ≠ r_mem r x → pmp_check (pmp (r_hw r)) (r_mode r) AccW x 1 = true ∧ quiet x) →
    0 ≤ pc' < 2 ^ 64 - 4 → other_guarded r (mkRMach rf' mem' (r_hw r) pc' (r_mode r))
| og_trap r cause tval r' :
    cause ≠ 2 ^ 63 + interrupt_code MachineTimer → trap_taken r cause tval r' → other_guarded r r'.

(** [timed_guarded d t r t' l]: from [r] at time [t] to time [t'] through the
    states [l], as [timed_run] of file Preemption. *)
Inductive timed_guarded (d : Z) : Z → RMach → Z → list RMach → Prop :=
| tg_nil t r : timed_guarded d t r t []
| tg_other t t1 t' r r1 l :
    t ≤ t1 ≤ t + d → hw_due (r_hw r) (r_mode r) t = false → room r → other_guarded r r1 →
    timed_guarded d t1 r1 t' l → timed_guarded d t r t' (r1 :: l)
| tg_tick t t1 t' r tval r1 l :
    t ≤ t1 ≤ t + d → hw_due (r_hw r) (r_mode r) t = true → room r →
    trap_taken r (2 ^ 63 + interrupt_code MachineTimer) tval r1 → reads_clock (r_hw r) (r_hw r1) t t1 →
    timed_guarded d t1 r1 t' l → timed_guarded d t r t' (r1 :: l).
End timed.

(** ** Lemmas *)

Section guarded.
Context `{E : Env} `{B : SerialBackend} `{L : !SerialLaws B} `{ST : !SerialTyped B}.
Context `{I : Image} `{IO : !ImageOk I} `{CK : !ClockOk E} `{P : Placement} `{PO : !PlacementOk I P}.

Lemma room_clear r : room r → frame_clear r.
Proof.
  intros (H1 & H2 & H3). split; [|exact H3]. pose proof text_layout as (Ht & _). pose proof image_order as (Ho & _).
  rewrite _stext_val in *. lia.
Qed.

Lemma quiet_off x : quiet x → off_statics x.
Proof. by intros []. Qed.

Lemma guarded_run r0 k r :
  holds r0 k → rtc guarded_step r0 r → ∃ k', holds r k' ∧ rtc sys_step (sys_of r0 k) (sys_of r k').
Proof.
  intros Hr Hrun. revert k Hr. induction Hrun as [r|r1 r2 r3 [_ Hstep] _ IH]; intros k Hr; [by exists k|].
  destruct (res_step_sim r1 k r2 Hr (res_step_mono quiet off_statics _ _ quiet_off Hstep)) as (k2 & Hr2 & Hs).
  destruct (IH k2 Hr2) as (k3 & Hr3 & Hs3). exists k3. split; [done|]. by eapply rtc_l.
Qed.

(** The PMP lets machine mode load and store a frame there, in every reachable
    state. *)
Lemma frame_ok_open s sp acc :
  sys_inv s → iso_inv s → frame_ok sp → acc ≠ AccX → frame_open (pmp (k_hw (s_k s))) acc (sp - 256) = true.
Proof.
  intros Hs Hi (H1 & H2 & _) Hacc. apply forallb_forall. intros j Hj%in_seq.
  rewrite iso_decides by (done || lia). apply kernel_zones_decide; [lia|]. left.
  destruct acc; [..|done]; left; unfold within; lia.
Qed.

(** An interrupt that may come is carried out. *)
Lemma interrupt_taken r k cause tval :
  sys_inv (sys_of r k) → holds r k → room r → may_trap (sys_of r k) cause → 2 ^ 63 ≤ cause → u64 tval →
  ∃ r' k' frame' kh, trap_taken r cause tval r' ∧ holds r' k' ∧
    trap_handler (s_gpr (sys_of r k)) (trapped_kernel (sys_of r k) cause tval) = Ok frame' kh ∧
    sys_of r' k' = returned kh frame' ∧ sys_step (sys_of r k) (sys_of r' k').
Proof.
  intros Hs Hr Hroom Hmay Hc Htv. pose proof Hmay as [[_ Hu] _].
  destruct (interrupt_handled (sys_of r k) cause tval Hs ltac:(split; done)) as (f & kh & Hrun & Hpc).
  destruct (trap_exists r k cause tval f kh Hr (room_clear r Hroom) Hmay Htv Hrun Hpc) as (r' & k' & Ht & Hr' & Habs).
  exists r', k', f, kh. split_all. rewrite Habs. by eapply step_trap.
Qed.

Lemma due_sys r k t : holds r k → timer_due (sys_of r k) t = hw_due (r_hw r) (r_mode r) t.
Proof using. intros Hr. change (timer_due (sys_of r k) t) with (hw_due (k_hw k) (r_mode r) t). by rewrite (proj1 (ho_kernel _ _ Hr)). Qed.

(** A timed run of the machine is one of the system. *)
Lemma timed_sim d t r t' l k :
  timed_guarded d t r t' l → holds r k →
  ∃ ls, timed_run d t (sys_of r k) t' ls ∧ Forall2 (λ r1 s1, ∃ k1, holds r1 k1 ∧ s1 = sys_of r1 k1) l ls.
Proof.
  intros Hrun. revert k. induction Hrun as [t r|t t1 t' r r1 l Ht Hd _ Hst _ IH|t t1 t' r tval r1 l Ht Hd _ Hst Hrd _ IH]; intros k Hr.
  - exists []. split; [apply tr_nil|constructor].
  - assert (∃ k1, holds r1 k1 ∧ other_step (sys_of r k) (sys_of r1 k1)) as (k1 & Hr1 & Hs).
    { revert Hr. destruct Hst as [r rf' mem' pc' H1 H2 H3 H4|r cause tval r' Hne Ht2]; intros Hr.
      - exists k. split; [|exact (os_run k _ _ _ (frame_of rf') pc' H4)].
        apply run_holds; try done. intros x Hx. by destruct (H3 x Hx) as [_ []].
      - destruct (taken_sim r k cause tval r' Hr Ht2) as (Hmay & f & kh & k' & Hrn & Hr' & Habs & Hpc).
        exists k'. split; [done|]. rewrite Habs. by eapply os_trap. }
    destruct (IH k1 Hr1) as (ls & Hls & Hf). exists (sys_of r1 k1 :: ls). split; [|constructor; [by exists k1|done]].
    eapply tr_other; try done. by rewrite due_sys.
  - destruct (taken_sim r k _ tval r1 Hr Hst) as (Hmay & f & kh & k1 & Hrn & Hr1 & Habs & Hpc).
    destruct (IH k1 Hr1) as (ls & Hls & Hf). exists (sys_of r1 k1 :: ls). split; [|constructor; [by exists k1|done]].
    eapply tr_tick; try done.
    + by rewrite due_sys.
    + exists tval, f, kh. by rewrite Habs.
    + change (k_hw (s_k (sys_of r k))) with (k_hw k). change (k_hw (s_k (sys_of r1 k1))) with (k_hw k1).
      by rewrite (proj1 (ho_kernel _ _ Hr)), (proj1 (ho_kernel _ _ Hr1)).
Qed.
End guarded.

(** ** Properties *)




(** ** Witnesses *)

Module guarded_sample.
(** A board with a running clock: each read of the bus takes 10000 ticks. *)
#[local] Instance env : Env :=
  {| mmio_in := λ n a, if a =? CLINT_BASE + MTIME_OFFSET then (Z.of_nat n * 10000) mod 2 ^ 32
                       else if a =? UART_BASE + uart16550.LSR then 0x60 else 0;
     spin_fuel := 1; debug_build := true |}.
#[local] Existing Instance sample_image.
#[local] Existing Instance word_placement.
#[local] Existing Instance resident_sample.sample_placement_ok.

#[local] Instance live : UartLive (E := env).
Proof. intros n. exists 0%nat. split; [simpl; lia|done]. Qed.

#[local] Instance clock : ClockOk env.
Proof.
  intros n. change (mmio_in n (CLINT_BASE + MTIME_OFFSET)) with ((Z.of_nat n * 10000) mod 2 ^ 32).
  pose proof (Z.mod_pos_bound (Z.of_nat n * 10000) (2 ^ 32)). rewrite Z.mod_small by lia. lia.
Qed.

(** The machine after boot, with the stack pointer in the kernel stack. *)
Definition kb : Kernel := system_sample.after (kmain reset_kernel).
Definition start : Sys := mkSys kb (frame_of resident_sample.boot_regs) 0x80000400 PmpHw.MMode.

Lemma kb_kmain : kmain reset_kernel = Ok tt kb.
Proof.
  assert (∃ k, kmain reset_kernel = Ok tt k) as [k Hk] by (eexists; vm_compute; reflexivity).
  unfold kb. by rewrite Hk.
Qed.

Lemma start_booted : booted reset_kernel start.
Proof.
  apply kmain_booted; [apply zero_regs_wf|exact system_sample.reset_unlocked|reflexivity|exact kb_kmain|reflexivity|].
  split; vm_compute; congruence.
Qed.

(** Room for a frame above the statics, decided. *)
Definition frame_okb (sp : Z) : bool :=
  (_user_text_end <=? sp - 256) && (sp <=? _eheap) && (statics_hi <=? sp - 256).

Lemma frame_okb_ok sp : frame_okb sp = true → frame_ok sp.
Proof.
  unfold frame_okb. rewrite !andb_true_iff, !Z.leb_le. intros [[H1 H2] H3]. split; [exact H1|]. split; [exact H2|by right].
Qed.

Lemma machine_boot : ∃ r, holds r kb ∧ sys_of r kb = start.
Proof.
  pose proof (keeps_kmain reset_kernel widths_sample.reset_typed) as Hk. rewrite kb_kmain in Hk.
  destruct (holds_exists kb resident_sample.boot_regs 0x80000400 PmpHw.MMode) as (mem & Hr & _).
  - apply Hk.
  - intros x. split; vm_compute; congruence.
  - split; vm_compute; congruence.
  - apply stack_frame_clear. vm_compute. congruence.
  - eexists. split; [exact Hr|reflexivity].
Qed.

(** A tick at time [t] that there is room for and that reads the clock at [t]. *)
Definition good (s : Sys) (t : Z) : Prop :=
  frame_okb (TrapFrame.sp (s_gpr s)) && ticked_fine s && (0 <=? s_pc (ticked s)) && (s_pc (ticked s) <? 2 ^ 64 - 4)
    && timer_due s t = true ∧
  off_uart (trace (k_hw (s_k (ticked s)))) =
    [Wr64 (CLINT_BASE + MTIMECMP_OFFSET) (t + 100000); Rd64 (CLINT_BASE + MTIME_OFFSET) t]
    ++ off_uart (trace (k_hw (s_k s))).

Lemma lift_tick r k s t : holds r k → sys_of r k = s → good s t →
  room r ∧ ∃ r' k', trap_taken r (2 ^ 63 + 7) 0 r' ∧ holds r' k' ∧ sys_of r' k' = ticked s.
Proof.
  intros Hr Hs [Hg _]. rewrite !andb_true_iff, Z.leb_le, Z.ltb_lt in Hg. destruct Hg as [[[[Hf Ht] H0] H1] _].
  assert (room r) as Hroom by (apply frame_okb_ok; rewrite <- Hs in Hf; exact Hf). split; [exact Hroom|].
  destruct (ticked_step s Ht) as (_ & _ & _ & Hmay & _). unfold ticked_fine in Ht. unfold ticked in *.
  destruct (trap_handler (s_gpr s) (trapped_kernel s (2 ^ 63 + 7) 0)) as [f kh|e kh|kh] eqn:Hrun;
    [|rewrite andb_false_r in Ht; discriminate..].
  rewrite <- Hs in Hrun, Hmay. apply (trap_exists r k (2 ^ 63 + 7) 0 f kh Hr (room_clear r Hroom) Hmay);
    [split; vm_compute; congruence|exact Hrun|]. exact (conj H0 H1).
Qed.

Fixpoint goods (n : nat) (s : Sys) (t : Z) : Prop :=
  match n with O => True | S n => good s t ∧ goods n (ticked s) (t + 300000) end.

Lemma lift_run n : ∀ r k s t, holds r k → sys_of r k = s → goods n s t →
  ∃ l, timed_guarded 300000 t r (t + 300000 * Z.of_nat n) l.
Proof.
  induction n as [|n IH]; intros r k s t Hr Hs.
  - intros _. exists []. replace (t + 300000 * Z.of_nat 0) with t by lia. apply tg_nil.
  - intros [Hg Hgs]. destruct (lift_tick r k s t Hr Hs Hg) as (Hroom & r' & k' & Ht & Hr' & Hs').
    destruct (IH r' k' (ticked s) (t + 300000) Hr' Hs' Hgs) as [l Hl]. exists (r' :: l).
    destruct Hg as [Hg Hb]. rewrite !andb_true_iff in Hg. destruct Hg as [_ Hd].
    apply (tg_tick 300000 t (t + 300000) _ r 0 r'); [lia|rewrite <- (due_sys r k t Hr), Hs; exact Hd|exact Hroom|exact Ht| |].
    + rewrite <- (proj1 (ho_kernel _ _ Hr)), <- (proj1 (ho_kernel _ _ Hr')). intros new now Hnew Hin.
      rewrite <- Hs', <- Hs in Hb. change (s_k (sys_of r' k')) with k' in Hb. change (s_k (sys_of r k)) with k in Hb.
      rewrite Hb in Hnew. apply app_inj_2 in Hnew as [<- _]; [|reflexivity].
      rewrite !elem_of_cons, elem_of_nil in Hin. destruct_or! Hin; try discriminate; try (by destruct Hin). injection Hin as ->. lia.
    + replace (t + 300000 * Z.of_nat (S n)) with (t + 300000 + 300000 * Z.of_nat n) by lia. exact Hl.
Qed.

(** Seven ticks, each due when the last one is over. *)
Lemma seven_good : goods 7 start 3580000.
Proof. repeat (split; [split; vm_compute; reflexivity|]). exact I. Qed.



End guarded_sample.
