(* ===== verification/Escalation.v ===== *)
(** What the open kernel data costs.

    File Resident shows that the machine refines the system as long as no task
    stores to the kernel's statics.  File Isolation shows that the PMP does not
    stop them: [SCHEDULER] ([crates/kernel/src/sched/scheduler.rs]) is a static of
    the data sections, which locked entry 2 opens to user mode.  Here a task
    stores two doublewords, the saved [mepc] and [mstatus] of the task that is
    served next, and the kernel, doing all it is written to do, runs that task at
    the address stored, in machine mode. *)

From S2P Require Import Prelude Config Machine Serial PmpHw Linker Pmp PmpAccess Sync Timer Allocator Registers Policy.
From S2P Require Import Task Kernel Scheduler SchedulerProps TaskSpec Trap Asm Boot System Progress Isolation.
From S2P Require Import Widths Placement TrapPath Resident.

Local Open Scope Z_scope.

#[local] Arguments csr_get : simpl never.
#[local] Arguments csr_put : simpl never.

(** ** The store *)

(** The offsets of the two words in the [repr(C)] structure. *)
Definition MEPC_OFFSET : Z := 248.
Definition MSTATUS_OFFSET : Z := 256.

(** [p] and [v] stored over the [mepc] and [mstatus] of the context at [a]. *)
Definition forge (a p v : Z) (m : memory) : memory := store64 (a + MSTATUS_OFFSET) v (store64 (a + MEPC_OFFSET) p m).

(** The machine after the stores. *)
Definition forging `{P : Placement} (j : nat) (p v : Z) (r : RMach) : RMach :=
  mkRMach (r_rf r) (forge (context_at j) p v (r_mem r)) (r_hw r) (r_pc r) (r_mode r).

(** The kernel with another context in slot [j]. *)
Definition tamper (j : nat) (c : TaskContext.t) (k : Kernel) : Kernel :=
  set_sched (upd_context (λ _, c) j (k_sched k)) k.

Lemma forge_out a p v m x : x < a + 248 ∨ a + 264 ≤ x → forge a p v m x = m x.
Proof. intros Hx. unfold forge, MEPC_OFFSET, MSTATUS_OFFSET. by rewrite !store64_out by lia. Qed.

Lemma forge_bytes a p v m : bytes_in m → bytes_in (forge a p v m).
Proof.
  intros Hm x. unfold forge, store64. destruct (_ && _); [apply byte_of_range|].
  destruct (_ && _); [apply byte_of_range|apply Hm].
Qed.

(** The stores make the context the one with these two fields. *)
Lemma forge_context a p v m c :
  u64 p → u64 v → context_in a m c → context_in a (forge a p v m) (set_ctx_csrs p v c).
Proof.
  unfold context_in. intros Hp Hv Hc. set (m' := forge a p v m).
  change (words 33 a m') with (words 31 a m' ++ [load64 (a + MEPC_OFFSET) m'; load64 (a + MSTATUS_OFFSET) m']).
  replace (TaskContext.to_list (set_ctx_csrs p v c)) with (take 31 (TaskContext.to_list c) ++ [p; v]) by reflexivity.
  f_equal; [|f_equal; [|f_equal]].
  - rewrite <- Hc. change (take 31 (words 33 a m)) with (words 31 a m). apply list_fmap_ext. intros i x Hx.
    apply lookup_seq in Hx as [-> Hi]. apply load64_ext. intros y Hy. apply forge_out. lia.
  - unfold m', forge, MEPC_OFFSET, MSTATUS_OFFSET. rewrite <- (load_store_same (a + 248) p m Hp) at 2.
    apply load64_ext. intros y Hy. apply store64_out. lia.
  - unfold m', forge. by apply load_store_same.
Qed.

Lemma forged_typed p v c : u64 p → u64 v → context_typed c → context_typed (set_ctx_csrs p v c).
Proof.
  intros Hp Hv Hc. unfold context_typed in *.
  replace (TaskContext.to_list (set_ctx_csrs p v c)) with (take 31 (TaskContext.to_list c) ++ [p; v]) by reflexivity.
  apply Forall_app. split; [by apply Forall_take|]. rewrite !Forall_cons, Forall_nil. split_all.
Qed.

Lemma tamper_typed j c k : context_typed c → kernel_typed k → kernel_typed (tamper j c k).
Proof.
  intros Hc [? ? Hn Ht ? ?]. constructor; try done; cbn [tamper set_sched k_sched upd_context upd_task tasks].
  - by rewrite length_alter.
  - apply Forall_alter; [done|]. intros o _ Ho t. destruct o as [u|]; [|done]. intros [= <-].
    apply task_typed_context; [done|]. by apply Ho.
Qed.

(** ** The tick after it *)

Section tick.
Context `{E : Env} `{B : SerialBackend} `{L : !SerialLaws B} `{I : Image} `{IO : !ImageOk I} `{CK : !ClockOk E}.

(** The timer interrupt dispatches the tampered task: at its [mepc], in the mode
    of its [mstatus], with its regions loaded. *)
Lemma tampered_tick k gpr pc md i j t c tval :
  kernel_ok k → current (k_sched k) = Some i → j ≠ i →
  select_next_ready MAX_TASKS (Some i) (runnable (k_sched k)) = Some j → task_of (k_sched k) j = Some t →
  let s1 := mkSys (tamper j c k) gpr pc md in
  ∃ frame' k', trap_handler gpr (trapped_kernel s1 (2 ^ 63 + 7) tval) = Ok frame' k' ∧ kernel_ok k' ∧
    current (k_sched k') = Some j ∧ csr_get Mepc (csrs (k_hw k')) = TaskContext.mepc c ∧
    csr_get Mstatus (csrs (k_hw k')) = TaskContext.mstatus c ∧
    task_loaded (regions (pmp_config t)) kernel_regs (pmp (k_hw k')).
Proof.
  intros Hk Hc Hji Hsel Ht s1.
  assert (kernel_ok (trapped_kernel s1 (2 ^ 63 + 7) tval)) as Hk1
    by (split; [apply upd_context_wf, Hk|apply hw_ready_csrs, Hk]).
  destruct (trapped_csrs s1 (2 ^ 63 + 7) tval) as (Hca & _). cbn zeta in Hca.
  destruct (tick_spec gpr (trapped_kernel s1 (2 ^ 63 + 7) tval) Hk1) as (f' & k' & h1 & Hrun & Hk' & _ & Hp1 & _ & Hsch).
  exists f', k'. split; [rewrite trap_handler_run by (rewrite Hca; done); rewrite Hca; exact Hrun|]. split; [done|].
  unfold scheduled in Hsch. cbn [k_sched k_hw] in Hsch. rewrite next_of_saved in Hsch by apply Hk1.
  change (k_sched (trapped_kernel s1 (2 ^ 63 + 7) tval)) with (upd_context (λ _, c) j (k_sched k)) in Hsch.
  assert (select_next_ready MAX_TASKS (current (upd_context (λ _, c) j (k_sched k)))
    (runnable (upd_context (λ _, c) j (k_sched k))) = Some j) as Hsel'.
  { rewrite <- Hsel, <- Hc. apply select_ext. intros n. apply upd_context_runnable. }
  rewrite Hsel' in Hsch. destruct Hsch as (u & Hu & _ & [Hcs Hld _ _ _] & Hsc & _).
  rewrite task_of_saved, decide_False, task_of_upd_context, decide_True, Ht in Hu
    by (cbn [current upd_context upd_task]; congruence).
  injection Hu as <-. rewrite Hsc, Hcs. split; [done|]. split; [by rewrite csr_get_put_ne, csr_get_put_eq|].
  split; [by rewrite csr_get_put_eq|]. eapply task_loaded_kernel; [|exact Hld]. rewrite Hp1. apply Hk.
Qed.

(** Machine mode executes the text under the regions of any task. *)
Lemma loaded_text_exec t i k p' x :
  sched_wf (k_sched k) → task_of (k_sched k) i = Some t → task_loaded (regions (pmp_config t)) kernel_regs p' →
  _stext ≤ x → x + 4 ≤ _user_text_end → pmp_check p' PmpHw.MMode AccX x 4 = true.
Proof.
  intros Hwf Ht Hl Hlo Hhi. rewrite (pmp_check_zones (regions (pmp_config t)) kernel_regs);
    [|done|by eapply tw_regions, (sw_tasks _ Hwf)|apply kernel_regs_ready].
  simpl app. rewrite zones_allow_hit; [done|..]; simpl; lia.
Qed.
End tick.

(** ** The run *)

Section run.
Context `{E : Env} `{B : SerialBackend} `{L : !SerialLaws B} `{ST : !SerialTyped B}.
Context `{I : Image} `{IO : !ImageOk I} `{CK : !ClockOk E} `{P : Placement} `{PO : !PlacementOk I P}.

(** The stores are those of a task in a reachable state. *)
Lemma forging_step r k j t p v :
  sys_inv (sys_of r k) → iso_inv (sys_of r k) → holds r k → task_of (k_sched k) j = Some t →
  res_step (λ x, context_at j + 248 ≤ x < context_at j + 264) r (forging j p v r).
Proof.
  intros Hs Hi [Hm [Hh Hk] _ Hpc] Ht. pose proof statics_in_data as (Hlo & _ & Hhi).
  destruct (pl_place _ _ j t Hk Ht) as (Ha & Hb & _). apply rs_run; [apply Hm|apply forge_bytes; exact (mo_mem _ Hm)| |done].
  intros x Hx. assert (context_at j + 248 ≤ x < context_at j + 264) as Hin.
  { destruct (Z.lt_ge_cases x (context_at j + 248)); [|destruct (Z.lt_ge_cases x (context_at j + 264)); [lia|]].
    all: exfalso; apply Hx, forge_out; lia. }
  split; [|done]. rewrite <- Hh. change k with (s_k (sys_of r k)). rewrite iso_decides by (done || lia).
  assert (user_may AccW x 1) as Hu by (left; unfold within; lia).
  apply kernel_zones_decide; [lia|]. destruct (r_mode r); [exact Hu|by left].
Qed.

(** They put the forged context into the task table. *)
Lemma forging_holds r k j t p v :
  holds r k → task_of (k_sched k) j = Some t → u64 p → u64 v →
  holds (forging j p v r) (tamper j (set_ctx_csrs p v (context t)) k).
Proof.
  intros [Hm [Hh Hk] Hty Hpc] Ht Hp Hv. destruct (pl_place _ _ j t Hk Ht) as (_ & _ & Hc).
  assert (context_typed (context t)) as Hct.
  { pose proof (kt_tasks _ Hty) as Hts. apply task_of_lookup in Ht. eapply Forall_lookup_1 in Ht; [|exact Hts].
    by destruct (Ht t eq_refl). }
  constructor; [| |by apply tamper_typed; [apply forged_typed|]|done].
  - constructor; [apply Hm|]. apply forge_bytes; exact (mo_mem _ Hm).
  - split; [done|]. rewrite (pl_assign _ _ j t (set_ctx_csrs p v (context t)) _ Hk Ht); [done| |by apply forge_context].
    intros x Hx. apply forge_out. lia.
Qed.
End run.

(** ** Property *)

(** C26: two stores of a user task end in machine mode.  Take the machine in any
    reachable state with a user task current, the statics placed by any compiler,
    and let task [j] be the policy's next choice.  The user task stores a
    code address [p] and a value [v] with MPP = 3 over the [mepc] and [mstatus] of
    the saved context of [j]; the PMP permits it, and it is a step of the machine
    that changes sixteen bytes.  The next step can be the timer interrupt, after
    which [j] is current, the machine is at [p] in machine mode, and the PMP lets
    it execute there: any code of the text the user task chooses, its own
    included, runs with the rights of the kernel. *)
Theorem store_escalates `{E : Env} `{B : SerialBackend} `{L : !SerialLaws B} `{ST : !SerialTyped B}
    `{I : Image} `{IO : !ImageOk I} `{CK : !ClockOk E} `{P : Placement} `{PO : !PlacementOk I P} k0 s0 r k i j t p v :
  booted k0 s0 → rtc sys_step s0 (sys_of r k) → holds r k → frame_clear r →
  current (k_sched k) = Some i → i ≠ IDLE_TASK_INDEX → j ≠ i →
  select_next_ready MAX_TASKS (Some i) (runnable (k_sched k)) = Some j → task_of (k_sched k) j = Some t →
  _stext ≤ p → p + 4 ≤ _user_text_end → u64 v → mpp_of v = 3 →
  r_mode r = PmpHw.UMode ∧
  res_step (λ x, context_at j + 248 ≤ x < context_at j + 264) r (forging j p v r) ∧
  ∃ r' k', res_step (λ _, False) (forging j p v r) r' ∧ holds r' k' ∧ current (k_sched k') = Some j ∧
    r_pc r' = p ∧ r_mode r' = PmpHw.MMode ∧ pmp_check (pmp (r_hw r')) PmpHw.MMode AccX p 4 = true.
Proof.
  intros Hb Hr Hh Hcl Hc Hi Hji Hsel Ht Hp1 Hp2 Hv Hmpp. pose proof (booted_inv k0 s0 Hb) as Hs0.
  pose proof (steps_inv s0 _ Hs0 Hr) as Hs. pose proof (steps_iso s0 _ Hs0 (booted_iso k0 s0 Hb) Hr) as Hiso.
  pose proof image_order as (_ & Hord & _). pose proof data_layout as (_ & _ & _ & Htop & _).
  assert (0 ≤ p < 2 ^ 64 - 4) as Hpr by (rewrite _stext_val in Hp1; lia).
  assert (r_mode r = PmpHw.UMode) as Hum.
  { pose proof (si_mode _ Hs) as Hm. cbn in Hm. rewrite Hc in Hm. rewrite Hm. unfold task_mode.
    by rewrite (proj2 (Nat.eqb_neq _ _) Hi). }
  split; [done|]. split; [by eapply forging_step|].
  assert (holds (forging j p v r) (tamper j (set_ctx_csrs p v (context t)) k)) as Hh1
    by (apply forging_holds; try done; split; lia).
  destruct (tampered_tick k (frame_of (r_rf r)) (r_pc r) (r_mode r) i j t (set_ctx_csrs p v (context t)) 0
    (si_kernel _ Hs) Hc Hji Hsel Ht) as (f' & k' & Hrun & _ & Hcur & Hpc & Hms & Hld).
  destruct (res_trap_exists (λ _, False) (forging j p v r) _ (2 ^ 63 + 7) 0 f' k' Hh1 Hcl) as (r' & k2 & Hst & Hh2 & Habs).
  - split; [by split|]. by left.
  - by split.
  - exact Hrun.
  - by rewrite Hpc.
  - exists r', k2. split; [done|]. split; [done|].
    pose proof (f_equal s_k Habs : k2 = _) as Hk2. pose proof (f_equal s_pc Habs : r_pc r' = _) as Hpc2.
    pose proof (f_equal s_mode Habs : r_mode r' = _) as Hmd2. destruct (ho_kernel _ _ Hh2) as [Hhw _].
    rewrite <- Hhw, Hk2, Hpc2, Hmd2. cbn [returned s_k s_pc s_mode k_sched hw_upd Kernel_HasHw k_hw].
    rewrite Hms. split; [done|]. split; [exact Hpc|]. split; [by apply mpp_priv_code|].
    eapply (loaded_text_exec t j k); try done. apply (si_kernel _ Hs).
Qed.

(** ** Witness *)

Module escalation_sample.
#[local] Existing Instance system_sample.env.
#[local] Existing Instance sample_image.
#[local] Existing Instance trap_sample.clock.
#[local] Existing Instance word_placement.
Import system_sample resident_sample.

(** The sample board after boot and after the first tick, which starts the echo
    task. *)
Definition boot_sys : Sys := mkSys (s_k s0) (frame_of boot_regs) 0x80000400 PmpHw.MMode.

Lemma boot_sys_booted : booted reset_kernel boot_sys.
Proof.
  destruct s0_booted as (H1 & H2 & H3 & H4 & _). split; [exact H1|]. split; [exact H2|]. split; [exact H3|].
  split; [exact H4|]. split; [reflexivity|]. split; vm_compute; congruence.
Qed.

Lemma boot_sys_tick : ∃ f k, trap_handler (s_gpr boot_sys) (trapped_kernel boot_sys (2 ^ 63 + 7) 0) = Ok f k ∧
  tick boot_sys = returned k f.
Proof.
  unfold tick. destruct (trap_handler (s_gpr boot_sys) (trapped_kernel boot_sys (2 ^ 63 + 7) 0)) as [f k|e k|k] eqn:Hrun;
    [exists f, k; split; reflexivity|exfalso; revert Hrun; vm_compute; congruence..].
Qed.

Lemma boot_sys_step : sys_step boot_sys (tick boot_sys).
Proof.
  destruct boot_sys_tick as (f & k & Hrun & Ht). rewrite Ht. eapply step_trap; [|exact Hrun|].
  - split; [by split|]. right. vm_compute. reflexivity.
  - change (csr_get Mepc (csrs (k_hw k))) with (s_pc (returned k f)). rewrite <- Ht. split; vm_compute; congruence.
Qed.

Lemma resident_echo : ∃ r k, holds r k ∧ frame_clear r ∧ sys_of r k = tick boot_sys.
Proof.
  destruct resident_boot as [mem [Hr Hcl]]. set (r := mkRMach _ _ _ _ _) in *.
  destruct boot_sys_tick as (f & k & Hrun & Ht).
  destruct (res_trap_exists off_statics r (s_k s0) (2 ^ 63 + 7) 0 f k Hr Hcl) as (r' & k2 & _ & Hr' & Habs).
  - split; [by split|]. right. vm_compute. reflexivity.
  - by split.
  - exact Hrun.
  - change (csr_get Mepc (csrs (k_hw k))) with (s_pc (returned k f)). rewrite <- Ht. split; vm_compute; congruence.
  - rewrite <- Ht in Habs. exists r', k2. split; [exact Hr'|]. split; [|exact Habs]. apply stack_frame_clear.
    change (r_rf r' Sp) with (TrapFrame.sp (s_gpr (sys_of r' k2))). rewrite Habs. vm_compute. congruence.
Qed.

(** The echo task has its own second instruction run in machine mode, in the name
    of the violation task. *)
Lemma store_escalates_witness : ∃ r r1 r2,
  r_mode r = PmpHw.UMode ∧ res_step (λ _, True) r r1 ∧ res_step (λ _, False) r1 r2 ∧
  r_pc r2 = user_echo_task_addr + 4 ∧ r_mode r2 = PmpHw.MMode.
Proof.
  destruct resident_echo as (r & k & Hr & Hcl & Habs).
  pose proof (f_equal s_k Habs : k = s_k (tick boot_sys)) as Hk.
  destruct (task_of (k_sched k) 2) as [t|] eqn:Ht; [|exfalso; rewrite Hk in Ht; revert Ht; vm_compute; congruence].
  destruct (store_escalates reset_kernel boot_sys r k 1 2 t (user_echo_task_addr + 4) 0x1880 boot_sys_booted)
    as (Hu & Hs1 & r2 & k2 & Hs2 & _ & _ & Hpc & Hm & _).
  - rewrite Habs. apply rtc_once, boot_sys_step.
  - exact Hr.
  - exact Hcl.
  - rewrite Hk. vm_compute. reflexivity.
  - discriminate.
  - discriminate.
  - rewrite Hk. vm_compute. reflexivity.
  - exact Ht.
  - vm_compute. discriminate.
  - vm_compute. discriminate.
  - by split.
  - reflexivity.
  - exists r, (forging 2 (user_echo_task_addr + 4) 0x1880 r), r2.
    split; [exact Hu|]. split; [by eapply res_step_mono; [|exact Hs1]|]. split; [exact Hs2|]. split; [exact Hpc|exact Hm].
Defined.
End escalation_sample.
