(* ===== verification/TrapStores.v ===== *)
(** Where the trap path stores.

    [trap_vector] ([crates/kernel/src/trap.rs]) builds the trap frame below the
    stack pointer of the interrupted code, and the stores are those of machine
    mode.  File Isolation says which stores the PMP lets through in either mode;
    here both are put together: the words of the frame, which are the registers
    of the interrupted task, go to addresses the task chose, also to ones that
    the PMP closes to it, and also onto the saved context of another task. *)

From S2P Require Import Prelude Config Machine Serial PmpHw Linker Pmp PmpAccess Sync Timer.
From S2P Require Import Allocator Registers Policy Task Kernel Scheduler SchedulerProps Trap Asm.
From S2P Require Import Boot System Isolation Widths Placement TrapPath Resident Escalation.

Local Open Scope Z_scope.

#[local] Arguments csr_get : simpl never.
#[local] Arguments csr_put : simpl never.

(** The address of word [i] of the trap frame of the code that is interrupted. *)
Definition frame_word (m : Mach) (i : nat) : Z := m_rf m Sp - 256 + 8 * Z.of_nat i.

Section stores.
Context `{I : Image} `{IO : !ImageOk I}.

Lemma apart_sub lo hi a n x len : apart lo hi a n → a ≤ x → x + len ≤ a + n → apart lo hi x len.
Proof. unfold apart. lia. Qed.

Lemma elsewhere_sub a n x len : elsewhere a n → a ≤ x → x + len ≤ a + n → elsewhere x len.
Proof. intros (H1 & H2 & H3) Hlo Hhi. repeat split; by eapply apart_sub. Qed.

Lemma elsewhere_not_user acc x len : 0 < len → elsewhere x len → ¬ user_may acc x len.
Proof.
  intros Hl (H1 & H2 & H3). unfold apart, user_may, within in *. destruct acc; lia.
Qed.
End stores.

(** The memory on entry to [trap_handler] holds register number [i] at word [i]
    of the frame. *)
Lemma entry_word m cause tval i r : 256 ≤ m_rf m Sp → mach_ok m → gpr_order !! i = Some r →
  load64 (frame_word m i) (mem (exec trap_vector_entry (enter m cause tval))) = m_rf m r.
Proof.
  intros Hsp [Hr _] Hi. destruct (entry_run (enter m cause tval)) as (Hm & _); [split; [done|apply Hr]|].
  rewrite Hm. cbn [rf mem enter]. apply (load_store_from _ 0).
  - apply Forall_fmap, Forall_true. exact Hr.
  - by rewrite list_lookup_fmap, Hi.
Qed.

(** A frame stored at the start of a saved context replaces its registers. *)
Lemma frame_over_context m c a vs :
  length vs = 31%nat → Forall u64 vs → context_in a m c → ∀ f, TrapFrame.to_list f = vs →
  context_in a (store_from a 0 vs m) (copy_frame_to_ctx f c).
Proof.
  unfold context_in. intros Hn Hvs Hc f Hf. set (m' := store_from a 0 vs m).
  change (words 33 a m') with (words 31 a m' ++ [load64 (a + 8 * Z.of_nat 31) m'; load64 (a + 8 * Z.of_nat 32) m']).
  replace (TaskContext.to_list (copy_frame_to_ctx f c)) with (TrapFrame.to_list f ++ drop 31 (TaskContext.to_list c))
    by reflexivity.
  rewrite Hf, <- Hc. f_equal; [rewrite <- Hn; by apply words_store_from|].
  change (drop 31 (words 33 a m)) with [load64 (a + 8 * Z.of_nat 31) m; load64 (a + 8 * Z.of_nat 32) m].
  unfold m'. by rewrite !load_store_from_out by lia.
Qed.

Lemma entry_over_context `{I : Image} `{P : Placement} `{PO : !PlacementOk I P} r k j t cause tval :
  holds r k → 256 ≤ r_rf r Sp → task_of (k_sched k) j = Some t → r_rf r Sp = context_at j + 256 →
  kernel_in (mem (exec trap_vector_entry (enter (mach_of r k) cause tval))) (r_hw r)
    (tamper j (copy_frame_to_ctx (frame_of (r_rf r)) (context t)) k).
Proof.
  intros [[Hr _] [Hh Hk] _ _] Hsp Ht Hat. destruct (pl_place _ _ j t Hk Ht) as (_ & _ & Hc). split; [done|].
  destruct (entry_run (enter (mach_of r k) cause tval)) as (Hm & _); [split; [done|apply Hr]|].
  cbn [rf mem enter mach_of m_rf m_mem] in Hm. replace (r_rf r Sp - 256) with (context_at j) in Hm by lia.
  rewrite Hm. apply (pl_assign _ (r_mem r) j t _ _ Hk Ht).
  - intros x Hx. apply store_from_out. rewrite length_fmap. simpl. lia.
  - apply frame_over_context; [done|apply Forall_fmap, Forall_true; exact Hr|done|apply frame_of_list].
Qed.

(** C27: the trap frame is stored with the kernel's rights where the task says.
    Take the machine in any reachable state, with any registers of the task that
    is interrupted.  If the 248 bytes of the frame, which start 256 below its
    stack pointer, are outside the image and the UART page (the CLINT, say), then
    each of them is closed to stores of user mode, every store of the entry code
    is let through because it is made in machine mode, and afterwards word [i] of
    that memory is the task's register number [i]: a task that points [sp] at the
    timer and traps writes its comparator.  If the stack pointer is 256 above the
    saved context of a task [j], then the kernel that the handler finds in memory
    is the one in which all 31 registers of [j] are those of the interrupted
    task, whatever the PMP closes to user mode. *)
Theorem trap_frame_stores `{E : Env} `{B : SerialBackend} `{L : !SerialLaws B} `{I : Image}
    `{IO : !ImageOk I} `{CK : !ClockOk E} `{P : Placement} `{PO : !PlacementOk I P} k0 s0 r k cause tval :
  booted k0 s0 → rtc sys_step s0 (sys_of r k) → holds r k → 256 ≤ r_rf r Sp →
  let m := mach_of r k in
  let entered := mem (exec trap_vector_entry (enter m cause tval)) in
  (elsewhere (frame_word m 0) 248 → ∀ i x, gpr_order !! i = Some x →
     pmp_check (pmp (r_hw r)) PmpHw.UMode AccW (frame_word m i) 8 = false ∧
     pmp_check (pmp (r_hw r)) PmpHw.MMode AccW (frame_word m i) 8 = true ∧
     load64 (frame_word m i) entered = r_rf r x) ∧
  (∀ j t, task_of (k_sched k) j = Some t → r_rf r Sp = context_at j + 256 →
     kernel_in entered (r_hw r) (tamper j (copy_frame_to_ctx (frame_of (r_rf r)) (context t)) k)).
Proof.
  intros Hb Hr Hok Hsp m entered. split; [|intros; by apply entry_over_context].
  intros Hel i x Hi. pose proof (lookup_lt_Some _ _ _ Hi) as Hlt. change (length gpr_order) with 31%nat in Hlt.
  assert (elsewhere (frame_word m i) 8) as Hx by (eapply elsewhere_sub; [exact Hel|unfold frame_word; lia..]).
  pose proof (booted_inv k0 s0 Hb) as Hs0. pose proof (steps_inv s0 _ Hs0 Hr) as Hs.
  pose proof (steps_iso s0 _ Hs0 (booted_iso k0 s0 Hb) Hr) as Hiso.
  rewrite <- (proj1 (ho_kernel _ _ Hok)). change k with (s_k (sys_of r k)). rewrite !(iso_decides (sys_of r k)) by (done || lia).
  split; [|split; [|by apply (entry_word m); [| apply Hok|]]].
  - apply not_true_iff_false. rewrite kernel_zones_decide by lia. by apply elsewhere_not_user.
  - rewrite kernel_zones_decide by lia. by right.
Qed.

(** ** Witness *)

Module stores_sample.
#[local] Existing Instance system_sample.env.
#[local] Existing Instance sample_image.
#[local] Existing Instance trap_sample.clock.
#[local] Existing Instance word_placement.
Import system_sample resident_sample escalation_sample.

(** The registers of an echo task with [sp] such that [a0], word 8 of the frame,
    is stored on the comparator: no tick will come. *)
Definition evil_regs : reg → Z := λ x,
  if decide (x = Sp) then CLINT_BASE + MTIMECMP_OFFSET - 64 + 256 else if decide (x = A0) then u64_max else 0.

(** And with [sp] such that the frame is stored on the context of the violation
    task. *)
Definition rogue_regs : reg → Z := λ x, if decide (x = Sp) then context_at 2 + 256 else 7.

(** The echo task, current after the first tick, with other registers. *)
Lemma resident_with regs : (∀ x, u64 (regs x)) →
  ∃ r k, holds r k ∧ r_rf r = regs ∧ rtc sys_step boot_sys (sys_of r k) ∧ k = s_k (tick boot_sys).
Proof.
  intros Hregs. destruct resident_echo as (r & k & Hr & _ & Habs).
  exists (mkRMach regs (r_mem r) (r_hw r) (r_pc r) (r_mode r)), k. split.
  - apply run_holds; [exact Hr|exact Hregs|exact (mo_mem _ (ho_mach _ _ Hr))|intros x []; reflexivity|exact (ho_pc _ _ Hr)].
  - split; [reflexivity|]. split; [|exact (f_equal s_k Habs)]. eapply rtc_l; [exact boot_sys_step|]. rewrite <- Habs.
    apply rtc_once. exact (step_run k _ _ _ (frame_of regs) (r_pc r) (ho_pc _ _ Hr)).
Qed.

Lemma trap_frame_stores_witness :
  (∃ r k, let x := CLINT_BASE + MTIMECMP_OFFSET in
     pmp_check (pmp (r_hw r)) PmpHw.UMode AccW x 8 = false ∧
     load64 x (mem (exec trap_vector_entry (enter (mach_of r k) 8 0))) = u64_max) ∧
  (∃ r k t, task_of (k_sched k) 2 = Some t ∧
     kernel_in (mem (exec trap_vector_entry (enter (mach_of r k) 8 0))) (r_hw r)
       (tamper 2 (copy_frame_to_ctx (frame_of rogue_regs) (context t)) k)).
Proof.
  split.
  - destruct (resident_with evil_regs) as (r & k & Hr & Hf & Hrun & _).
    { intros x. unfold evil_regs. repeat case_decide; split; vm_compute; congruence. }
    destruct (trap_frame_stores reset_kernel boot_sys r k 8 0 boot_sys_booted Hrun Hr) as [H1 _].
    + rewrite Hf. vm_compute. congruence.
    + destruct (H1 ltac:(unfold frame_word; cbn [mach_of m_rf]; rewrite Hf; vm_compute; split_all;
        (left; discriminate) || (right; discriminate)) 8%nat A0 eq_refl) as (H2 & _ & H3).
      unfold frame_word in H2, H3. cbn [mach_of m_rf] in H2, H3. rewrite Hf in H2, H3.
      exists r, k. split; [exact H2|exact H3].
  - destruct (resident_with rogue_regs) as (r & k & Hr & Hf & Hrun & Hk).
    { intros x. unfold rogue_regs. case_decide; split; vm_compute; congruence. }
    destruct (task_of (k_sched k) 2) as [t|] eqn:Ht; [|exfalso; rewrite Hk in Ht; revert Ht; vm_compute; congruence].
    exists r, k, t. split; [exact Ht|].
    rewrite <- Hf. apply (trap_frame_stores reset_kernel boot_sys r k 8 0 boot_sys_booted Hrun Hr).
    + rewrite Hf. vm_compute. congruence.
    + exact Ht.
    + rewrite Hf. vm_compute. reflexivity.
Defined.
End stores_sample.
