(* ===== verification/Integrity.v ===== *)
(** Integrity of the kernel's code.

    The locked entry 1 makes the text execute-only for both modes.  Here the
    memory is added to the PMP registers: any code, in either mode, stores what
    the PMP permits, and the PMP driver ([crates/kernel/src/pmp.rs]) rewrites its
    registers in between.  No store ever changes the text.  This does not depend
    on the kernel's data, which user tasks can overwrite: it holds for any
    sequence of stores and reloads. *)

From S2P Require Import Prelude Config Machine Serial PmpHw Linker Pmp PmpAccess Registers Asm.

Local Open Scope Z_scope.

(** ** Memory under the PMP *)

Record MemSys := mkMemSys { ms_mem : memory; ms_hw : Hw }.

(** The bytes [bs] stored at [a]. *)
Definition write_bytes (a : Z) (bs : list Z) (m : memory) : memory := λ x,
  if (a <=? x) && (x <? a + Z.of_nat (length bs)) then default 0 (bs !! Z.to_nat (x - a)) else m x.

(** A store of any code; [drive] is what may happen to the PMP registers. *)
Inductive mem_step (drive : Hw → Hw → Prop) : MemSys → MemSys → Prop :=
| mst_store mode a bs m h :
    pmp_check (pmp h) mode AccW a (Z.of_nat (length bs)) = true →
    mem_step drive (mkMemSys m h) (mkMemSys (write_bytes a bs m) h)
| mst_drive m h h' :
    drive h h' → mem_step drive (mkMemSys m h) (mkMemSys m h').

(** The kernel after boot reloads tasks; a stray driver call may write any PMP
    register. *)
Definition reload `{E : Env} (h h' : Hw) : Prop :=
  ∃ regions, regions_ok regions ∧ load_task_config regions h = Ok tt h'.

Definition any_write (h h' : Hw) : Prop := ∃ op, run_op op h = Ok tt h'.

(** ** Lemmas *)

Lemma write_bytes_out a bs m x :
  x < a ∨ a + Z.of_nat (length bs) ≤ x → write_bytes a bs m x = m x.
Proof.
  intros Hx. unfold write_bytes. destruct (Z.leb_spec a x), (Z.ltb_spec x (a + Z.of_nat (length bs))); done || lia.
Qed.

Section integrity.
Context `{I : Image} `{IO : !ImageOk I}.

(** What entry 0 can match: its address register is the anchor. *)
Lemma anchor_range p lo hi :
  addr_at p 0 = Z.shiftr _stext 2 → entry_range p 0 = Some (lo, hi) → hi ≤ _stext + 8.
Proof.
  intros Ha. unfold entry_range. rewrite Ha, _stext_val.
  destruct (cfg_mode _) as [|[[]|[]|]|]; try done; intros [= <- <-]; vm_compute; congruence.
Qed.

(** A store that touches a byte [x] of the text is refused, in both modes, when
    entry 0 does not match around [x]. *)
Lemma text_store_denied p mode a len x :
  kernel_locked p → (∀ lo hi, entry_range p 0 = Some (lo, hi) → hi ≤ x) →
  _stext ≤ x < _user_text_end → a ≤ x < a + len → pmp_check p mode AccW a len = false.
Proof.
  intros (_ & Hc & Ha) H0 Hx Hin. unfold pmp_check. change (seq 0 PMP_COUNT) with (0%nat :: 1%nat :: seq 2 14).
  pose proof text_layout as (_ & _ & _ & Hu).
  assert (entry_range p 1 = Some (_stext, _user_text_end)) as H1.
  { unfold entry_range. rewrite Hc, !Ha by lia. cbn.
    rewrite shiftr_shiftl_4 by done. by rewrite _stext_val. }
  assert (∀ es, pmp_scan p (1%nat :: es) mode AccW a len = false) as Htext.
  { intros es. cbn [pmp_scan]. rewrite H1. destruct (misses _ _ _ _) eqn:Hm; [apply misses_spec in Hm; lia|].
    rewrite Hc by lia. by destruct mode; rewrite andb_false_r. }
  cbn [pmp_scan]. destruct (entry_range p 0) as [[lo hi]|] eqn:He; [|apply Htext].
  destruct (misses lo hi a len); [apply Htext|]. specialize (H0 lo hi eq_refl).
  rewrite (proj2 (Z.leb_gt (a + len) hi)) by lia. by rewrite andb_false_r.
Qed.

(** A run keeps every byte whose stores are refused in all states of an
    invariant of the registers. *)
Lemma mem_run_keeps drive (Inv : PmpRegs → Prop) x s s' :
  (∀ h h', Inv (pmp h) → drive h h' → Inv (pmp h')) →
  (∀ p mode a len, Inv p → a ≤ x < a + len → pmp_check p mode AccW a len = false) →
  Inv (pmp (ms_hw s)) → rtc (mem_step drive) s s' → ms_mem s' x = ms_mem s x.
Proof.
  intros Hdrive Hdeny Hs Hr. induction Hr as [s|s1 s2 s3 Hstep _ IH]; [done|].
  destruct Hstep as [mode a bs m h Hst|m h h' Hd]; [|apply IH; by eapply Hdrive].
  rewrite (IH Hs). cbn [ms_hw ms_mem] in Hs |- *. apply write_bytes_out.
  destruct (Z.lt_ge_cases x a); [by left|].
  destruct (Z.lt_ge_cases x (a + Z.of_nat (length bs))); [|by right].
  rewrite (Hdeny _ mode a (Z.of_nat (length bs)) Hs) in Hst by lia. done.
Qed.

Lemma ready_locked p : pmp_ready p → kernel_locked p ∧ cfg_at p 0 = 0.
Proof.
  intros [Hwf Hk _]. split; [|by destruct (Hk 0%nat) as [-> _]; [lia|]].
  split; [done|]. split; intros i Hi; by apply Hk; lia.
Qed.
End integrity.

(** ** Property *)

(** C16: the text cannot be changed.  After [pmp::init], let any code in either
    mode store wherever the PMP permits, arbitrarily often.  If the PMP registers
    are only rewritten by [load_task_config], no byte of the kernel or user text
    ever changes.  Even if any PMP register is written with any value, no byte
    of the text but the first eight changes.  These eight are the price of the
    missing lock bit on entry 0: one write to [pmpcfg0] opens them to stores of
    both modes. *)
Theorem text_integrity `{E : Env} `{I : Image} `{IO : !ImageOk I} s s' x :
  pmp (ms_hw s) = kernel_regs → x < _user_text_end →
  (rtc (mem_step reload) s s' → _stext ≤ x → ms_mem s' x = ms_mem s x) ∧
  (rtc (mem_step any_write) s s' → _stext + 8 ≤ x → ms_mem s' x = ms_mem s x) ∧
  (∀ mode, pmp_check (pmpcfg_csrw 0 0x1F kernel_regs) mode AccW _stext 8 = true).
Proof.
  intros Hp Hx. pose proof kernel_regs_ready as Hr. split; [|split].
  - intros Hrun Hlo. eapply (mem_run_keeps _ pmp_ready); [| |by rewrite Hp|done].
    + intros h h' Hh (regions & Hok & Hl).
      destruct (wp_elim _ _ _ (load_task_config_ready regions h Hh Hok)) as ([] & h1 & Hl' & p' & -> & _ & Hr').
      rewrite Hl in Hl'. by injection Hl' as ->.
    + intros p mode a len Hpr Ha. destruct (ready_locked p Hpr) as [Hk H0].
      apply (text_store_denied p mode a len x); [done| |done|done].
      intros lo hi. unfold entry_range. by rewrite H0.
  - intros Hrun Hlo. eapply (mem_run_keeps _ kernel_locked); [| |by rewrite Hp; apply ready_locked|done].
    + intros h h' Hh (op & Hop). by eapply run_op_locked.
    + intros p mode a len Hk Ha. apply (text_store_denied p mode a len x); [done| |lia|done].
      intros lo hi He. apply anchor_range in He; [lia|]. by apply Hk; lia.
  - intros mode. unfold pmp_check. change (seq 0 PMP_COUNT) with (0%nat :: seq 1 15). cbn [pmp_scan].
    change (entry_range (pmpcfg_csrw 0 0x1F kernel_regs) 0) with (Some (0x80000000, 0x80000008)).
    rewrite _stext_val. by destruct mode.
Qed.

Lemma text_integrity_witness :
  let s := mkMemSys (λ _, 0) sample_hw in
  let s' := mkMemSys (write_bytes 0x80010000 [7; 7] (λ _, 0)) sample_hw in
  ms_mem s' 0x80000000 = 0 ∧ ms_mem s' 0x80010001 = 7.
Proof.
  intros s s'. split; [|vm_compute; reflexivity].
  refine (proj1 (text_integrity (E := quiet_board true) (I := sample_image) s s' 0x80000000 eq_refl eq_refl) _ _).
  - apply rtc_once. apply (mst_store _ UMode). vm_compute. reflexivity.
  - apply Z.leb_le. vm_compute. reflexivity.
Defined.
